(* ===== verification/_CoqProject ===== *)
-Q . S2P
Prelude.v
Wrap.v
Packet.v
Ring.v
Delay.v
DelayAvg.v
Doubles.v
Arrays.v
SockAddr.v
Hash.v
HashMap.v
Context.v
Clock.v
AckList.v
Socket.v
Frame.v
MtuSearch.v
Send.v
SendQueue.v
Reorder.v
SendInv.v
Flush.v
Streams.v
WriteQueue.v
Ack.v
Ccontrol.v
Incoming.v
AckQueue.v
AckStages.v
Timeouts.v
Api.v
States.v
Receive.v
TimerInv.v
RecvInv.v
IncomingSafe.v
OneWay.v
Writev.v
SockOps.v
World.v
WorldOps.v
WorldOpen.v
WorldCalls.v
WorldTune.v
WorldTimers.v
DeferredAcks.v
Calls.v
Demo.v
RecvSpec.v
SendSpec.v
CloseSpec.v
SafetySpec.v
MtuSpec.v
EndToEnd.v
SackSpec.v
StraySpec.v
CcSpec.v
TimerSpec.v
TeardownSpec.v
StateSpec.v
ErrorSpec.v
WireSpec.v
Link.v
Finish.v
Listener.v
Said.v
Session.v
SessionSpec.v
