(* ===== verification/Prelude.v ===== *)
(** * A verification development for libutp

    libutp carries byte streams over UDP datagrams: the uTP protocol with its
    delay-based congestion control (LEDBAT).  This library models the C++
    implementation under src/ and proves what makes it correct.

    ** The program and its parts

    An application creates a context (struct_utp_context, src/utp_internal.h) and
    sockets (UTPSocket, src/utp_internal.cpp).  It hands every UDP datagram it
    receives to utp_process_udp, calls utp_check_timeouts every half second and
    utp_issue_deferred_acks when its UDP socket is drained, and is called back
    (src/utp_callbacks.cpp) for everything else: to send a datagram, to be given
    bytes that arrived, to tell the time, to learn that a connection changed.  A
    socket keeps a send queue and a reorder buffer (SizableCircularBuffer), the
    state of its connection, of the congestion controller and of the search for the
    path's MTU; the context keeps the hash table of sockets (src/utp_hash.cpp), the
    list of due acknowledgements, and the resets it sent lately.

    ** How it is modelled

    Fallible code is a function [S -> res S A] (this file): [Ok a s] or [Err f s]
    with the fault [f]: a failed assertion with its line, an access out of bounds,
    a NULL or dangling pointer, a loop that ran out of fuel.  Methods of a socket
    run on [St], the object [me] and the part [Sys] every component shares (the
    context, the acknowledgement indices, the trace of the calls made to the
    application); public functions run on [World], the heap of objects by address
    and [Sys].  The application is the class [Env]: an oracle that answers each
    call from the history of all calls, so every theorem holds for every
    application.  [wp F m Q s] says that [m] ends from [s] with [Q] or with a fault
    in [F]; [wp no_fault] is total correctness.  Integers are [Z] with the
    conversions of C written out ([u16], [i32], ...); doubles are the Standard
    Library's executable binary64.  Function and field names are the source's.

    ** The files and what they model

    - Wrap, Packet: wrapping_compare_less, the packet format, the extension parser.
    - Ring: SizableCircularBuffer.  Arrays: Array of src/utp_templates.h.
    - Delay, DelayAvg: DelayHist and the drift estimate.  Doubles: their arithmetic.
    - SockAddr: PackedSockAddr, the key and its hash (src/utp_packedsockaddr.cpp).
    - Hash, HashMap: utp_hash_t of src/utp_hash.cpp; the class [KeyedTable] is the
      contract of a finite map the sockets rely on, its instance the proof.
    - Context: struct_utp_context, the callback wrappers and default callbacks
      (src/utp_api.cpp, src/utp_callbacks.cpp).  Clock: src/utp_utils.cpp.
    - AckList: schedule_ack, removeSocketFromAckList.
    - Socket: the object, its accessors and options.  MtuSearch: mtu_search_update,
      mtu_reset and what moves the range.
    - Send: send_data, send_ack, send_packet, is_full, flush_packets,
      write_outgoing_packet.  Ack: ack_packet, selective_ack.  Ccontrol:
      apply_ccontrol.  Incoming: utp_process_incoming by stages.  Timeouts:
      check_timeouts.  Api: the public functions, utp_process_udp to utp_close,
      and the destructor.
    - Frame, SendQueue, Reorder, SendInv, Flush, WriteQueue, AckQueue, AckStages,
      Receive, RecvInv, TimerInv, IncomingSafe, OneWay, Writev, SockOps: the
      invariants of a socket, and one specification per method.  Streams: the byte
      stream of which the send queue holds the end, and what may become of it.
    - World, WorldOps, WorldOpen, WorldCalls, WorldTune, WorldTimers, DeferredAcks,
      Calls: the invariant of the whole program, kept by every public function;
      the type of calls, when they are legal, and the reachable states.
    - States: what each method may do to the state of its connection.
    - Link: two sockets and a network that loses, repeats, delays and reorders what
      they send.  Finish: what closing does to the queue.  Listener: what a reader does
      between two packets.  Said: what the datagrams of both say.  Session: the
      invariant of both ends and the datagrams under way, kept by every step.
    - Demo and the files ending in Spec, EndToEnd: the properties, with a concrete
      application and a connection on which each is instantiated.

    ** What is proved

    - The whole program: every legal call from every reachable state ends without
      a fault but the named ones ([incoming_fault]: one read past a selective
      acknowledgement and three assertions of the congestion controller) and leaves
      the program's invariant; the context never holds a dangling reference;
      sockets follow the state diagram; every datagram sent is well formed; due
      acknowledgements are sent; teardown frees everything (SafetySpec, StateSpec,
      WireSpec, TeardownSpec).
    - Streams: written bytes are queued as a prefix, sent within the window, sent
      again after a timeout, and arrive in order, once and completely under loss,
      repetition and reordering; acknowledgements say exactly what arrived; closing
      appends one FIN (SendSpec, CloseSpec, RecvSpec, SackSpec, TimerSpec,
      EndToEnd).  One exception is the code's: once the FIN has arrived, a packet
      before it whose 16-bit number is larger is thrown away (RecvSpec).  Both
      directions together, with retransmissions and the timers and keep-alives of both
      sides: what is read is a prefix of what was written, all of it when nothing is
      left to acknowledge, and the end is reported exactly then, over any number of
      calls (SessionSpec).
    - Failures: what is reported when a connection is lost; what is not uTP or
      belongs to no connection (ErrorSpec, StraySpec).
    - Components: the hash table refines a map and can be swept while elements are
      deleted; DelayHist on wrapping stamps refines an ideal history and estimates true
      delays; the MTU search converges from the states in which it sends probes, and
      never from the others (MtuSpec); windows and timeouts stay in range; encodings
      are inverse; growing buffers keep their elements; the clock never goes back.

    ** Bounds, fuel and assumptions

    - Loops over the queue, the table and the lists take their length as fuel, the
      extension parser the length of the packet, and each is proved to end.  The
      only fuel that can run out is that of utp_connect's search for an unused
      connection id ([tries]), which depends on the random numbers.
    - [GoodApp] is what the library relies on the application for: the bytes waiting
      to be read fit an int, the MTU leaves room for a byte of payload, the clock is
      below 2^63 microseconds.  [legal] is what the documentation demands of a call;
      the number given to utp_set_callback, which the code does not check, is one of
      the callbacks (utp_set_callback is undefined for others).
    - [calm] says that counters the code does not protect are far from wrapping:
      transmissions of one packet, delay samples in five seconds, number of sockets.
    - A session (Link) is one-way: the reader writes nothing.  A datagram outlives at
      most [lifetime] = 30000 later packets, less than half the sequence numbers, as
      every protocol with 16-bit sequence numbers must assume.
    - Callbacks do not call back into the library: their effect on the program is
      their answer.  Datagrams are lists of bytes shorter than 2^31.

    ** What is not modelled

    - The calls of the log methods (most of them compiled only with
      UTP_DEBUG_LOGGING) and the formatting of messages, debug statistics
      (utp_get_stats, _DEBUG only), and the tables of names: output only.
    - Memory that runs out: malloc succeeds, and the byte sizes passed to it are left
      out.  NULL pointers given to the public functions.
    - Typedefs and compiler macros (src/utp_types.h), inet_ntop and
      PackedSockAddr::fmt, used for messages.
    - The Go binding, the ucat command and the log parser: clients of the library,
      in other languages. *)
From stdpp Require Export base tactics numbers list option gmap.
From Stdlib Require Export ZArith Lia.
From coqutil Require Export Datatypes.RecordSetters.
Export TriangleBracketNotations.

#[global] Open Scope Z_scope.

(** Record updates reduce to the new value. *)
#[global] Arguments constant {E} newValue _ /.

(** ** Machine integers

    A [w]-bit unsigned value is a [Z] in [[0, 2^w)]; the conversion functions
    below are the C conversions to that width.  [i32] and [i64] are the
    conversions to the signed types (two's complement, as every supported
    compiler defines them). *)

Definition u8 (z : Z) : Z := z mod 256.
Definition u16 (z : Z) : Z := z mod 65536.
Definition u32 (z : Z) : Z := z mod 4294967296.
Definition u64 (z : Z) : Z := z mod 18446744073709551616.
Definition i32 (z : Z) : Z := (z + 2147483648) mod 4294967296 - 2147483648.
Definition i64 (z : Z) : Z :=
  (z + 9223372036854775808) mod 18446744073709551616 - 9223372036854775808.

Definition is_u8 (z : Z) : Prop := 0 <= z < 256.
Definition is_u16 (z : Z) : Prop := 0 <= z < 65536.
Definition is_u32 (z : Z) : Prop := 0 <= z < 4294967296.
Definition is_u64 (z : Z) : Prop := 0 <= z < 18446744073709551616.
Definition is_i32 (z : Z) : Prop := -2147483648 <= z < 2147483648.

#[global] Arguments u8 : simpl never.
#[global] Arguments u16 : simpl never.
#[global] Arguments u32 : simpl never.
#[global] Arguments u64 : simpl never.
#[global] Arguments i32 : simpl never.
#[global] Arguments i64 : simpl never.

Definition INT_MAX : Z := 2147483647.
Definition UINT_MAX : Z := 4294967295.
Definition INT64_MAX : Z := 9223372036854775807.

(** [dlia]: linear arithmetic with the quotients and remainders by constants
    expanded; [word_lia] also unfolds the conversions. *)
Ltac dlia := Z.div_mod_to_equations; lia.
Ltac wunfold :=
  unfold is_u8, is_u16, is_u32, is_u64, is_i32, u8, u16, u32, u64, i32, i64,
    INT_MAX, UINT_MAX, INT64_MAX in *.
Ltac word_lia := wunfold; dlia.

Create HintDb words.

Lemma u8_range z : is_u8 (u8 z).
Proof. word_lia. Qed.
Lemma u16_range z : is_u16 (u16 z).
Proof. word_lia. Qed.
Lemma u32_range z : is_u32 (u32 z).
Proof. word_lia. Qed.
Lemma u64_range z : is_u64 (u64 z).
Proof. word_lia. Qed.
Lemma u8_small z : is_u8 z -> u8 z = z.
Proof. word_lia. Qed.
Lemma u16_small z : is_u16 z -> u16 z = z.
Proof. word_lia. Qed.
Lemma u32_small z : is_u32 z -> u32 z = z.
Proof. word_lia. Qed.
Lemma u64_small z : is_u64 z -> u64 z = z.
Proof. word_lia. Qed.
Lemma i32_small z : is_i32 z -> i32 z = z.
Proof. word_lia. Qed.
Lemma u16_u16 z : u16 (u16 z) = u16 z.
Proof. word_lia. Qed.
Lemma u32_u32 z : u32 (u32 z) = u32 z.
Proof. word_lia. Qed.
Lemma u16_plus_l a b : u16 (u16 a + b) = u16 (a + b).
Proof. word_lia. Qed.
Lemma u16_minus_l a b : u16 (u16 a - b) = u16 (a - b).
Proof. word_lia. Qed.
Lemma u16_minus_r a b : u16 (a - u16 b) = u16 (a - b).
Proof. word_lia. Qed.

#[export] Hint Resolve u8_range u16_range u32_range u64_range : words.
Create Rewrite HintDb word_simpl.
#[export] Hint Rewrite u16_u16 u32_u32 u16_plus_l u16_minus_l u16_minus_r : word_simpl.

(** Masks [2^k - 1] are remainders; stated for the masks the code uses. *)
Lemma land_ones_mod z k : 0 <= k -> Z.land z (2 ^ k - 1) = z mod 2 ^ k.
Proof.
  intros Hk. rewrite <- Z.land_ones by lia. f_equal.
  rewrite Z.ones_equiv. lia.
Qed.

Lemma land_ffff z : Z.land z 65535 = u16 z.
Proof. apply (land_ones_mod z 16). lia. Qed.

Lemma land_ffffffff z : Z.land z 4294967295 = u32 z.
Proof. apply (land_ones_mod z 32). lia. Qed.

(** Two numbers less than the modulus apart with the same remainder are equal. *)
Lemma mod_near_eq n i j :
  Z.abs (i - j) < n -> i mod n = j mod n -> i = j.
Proof.
  intros Hn E. assert (n <> 0) by lia.
  assert ((i - j) mod n = 0) as E' by (by rewrite Zminus_mod, E, Z.sub_diag).
  apply Z.mod_divide in E' as [q Hq]; [|done].
  destruct (Z.eq_dec q 0) as [->|]; nia.
Qed.

(** ** Lists *)

(** The elements of a list indexed by [Z], [d] outside (C array reads in
    bounds). *)
Definition znth {A} (d : A) (l : list A) (i : Z) : A :=
  match l !! Z.to_nat i with Some x => x | None => d end.

(** [map f] over [0 .. n-1]. *)
Definition zseq (n : nat) : list Z := Z.of_nat <$> seq 0 n.

Lemma elem_of_zseq n i : i ∈ zseq n <-> 0 <= i < Z.of_nat n.
Proof.
  unfold zseq. rewrite list_elem_of_fmap. setoid_rewrite elem_of_seq.
  split; [intros (k & -> & ?); lia|]. intros ?. exists (Z.to_nat i). lia.
Qed.

(** Membership in concrete list shapes. *)
Ltac elem_list :=
  intros;
  repeat match goal with
  | H : _ ∈ _ ++ _ |- _ => apply elem_of_app in H
  | H : _ ∈ _ :: _ |- _ => apply elem_of_cons in H
  | |- context [_ ∈ _ ++ _] => rewrite elem_of_app
  | |- context [_ ∈ _ :: _] => rewrite elem_of_cons
  end; tauto.

Fixpoint sumZ (l : list Z) : Z :=
  match l with [] => 0 | x :: l => x + sumZ l end.

Lemma sumZ_app l1 l2 : sumZ (l1 ++ l2) = sumZ l1 + sumZ l2.
Proof. induction l1; cbn; lia. Qed.

Lemma sumZ_nonneg l : Forall (fun x => 0 <= x) l -> 0 <= sumZ l.
Proof. induction 1; cbn; lia. Qed.

(** ** Computations that can fail an assertion

    The library is compiled with assertions on, so an [assert] that does not
    hold stops the process.  A computation over a state [S] returns a value
    and a new state, or the fault that stopped it. *)

Inductive fault : Set :=
| AssertFailed (line : Z)      (* assert() at this line of utp_internal.cpp *)
| NullDeref                    (* a NULL pointer is dereferenced *)
| OutOfBounds                  (* a read outside the packet buffer *)
| Dangling                     (* a socket pointer that is not live *)
| OutOfFuel.                   (* a loop bound of the model was too small *)

Inductive res (S A : Type) : Type :=
| Ok (a : A) (s : S)
| Err (f : fault) (s : S).
Arguments Ok {S A} a s.
Arguments Err {S A} f s.

Definition M (S A : Type) : Type := S -> res S A.

#[export] Instance M_ret S : MRet (M S) := fun A a s => Ok a s.
#[export] Instance M_bind S : MBind (M S) := fun A B k m s =>
  match m s with
  | Ok a s' => k a s'
  | Err f s' => Err f s'
  end.

Section MonadOps.
Context {S : Type}.

Definition fail {A} (f : fault) : M S A := fun s => Err f s.
Definition get : M S S := fun s => Ok s s.
Definition gets {A} (f : S -> A) : M S A := fun s => Ok (f s) s.
Definition modify (f : S -> S) : M S unit := fun s => Ok tt (f s).
Definition assert_at (line : Z) (b : bool) : M S unit :=
  if b then mret tt else fail (AssertFailed line).
Definition when (b : bool) (m : M S unit) : M S unit :=
  if b then m else mret tt.

(** [for i in l: body i], stopping at a fault. *)
Fixpoint mfor {A} (l : list A) (body : A -> M S unit) : M S unit :=
  match l with
  | [] => mret tt
  | x :: l => body x ;; mfor l body
  end.

(** the same with an accumulator *)
Fixpoint mfold {A B} (f : B -> A -> M S B) (b : B) (l : list A) : M S B :=
  match l with
  | [] => mret b
  | x :: l => b ← f b x; mfold f b l
  end.

(** Weakest precondition: the computation ends either in a state that
    satisfies [Q], or with a fault that [E] allows. *)
Definition wp (E : fault -> Prop) {A} (m : M S A) (Q : A -> S -> Prop) (s : S) : Prop :=
  match m s with Ok a s' => Q a s' | Err f _ => E f end.

Context {A B : Type} (E : fault -> Prop).
Implicit Types (m : M S A) (k : A -> M S B) (s : S).

Lemma wp_ret (a : A) (Q : A -> S -> Prop) s : Q a s -> wp E (mret a) Q s.
Proof. done. Qed.

Lemma wp_bind m k Q s :
  wp E m (fun a s' => wp E (k a) Q s') s -> wp E (mbind k m) Q s.
Proof. unfold wp, mbind, M_bind. by destruct (m s). Qed.

Lemma wp_mono m (Q Q' : A -> S -> Prop) s :
  wp E m Q s -> (forall a s', Q a s' -> Q' a s') -> wp E m Q' s.
Proof. unfold wp. destruct (m s); [by eauto|done]. Qed.

Lemma wp_gets {C} (f : S -> C) (Q : C -> S -> Prop) s :
  Q (f s) s -> wp E (gets f) Q s.
Proof. done. Qed.

Lemma wp_get (Q : S -> S -> Prop) s : Q s s -> wp E get Q s.
Proof. done. Qed.

Lemma wp_modify (f : S -> S) (Q : unit -> S -> Prop) s :
  Q tt (f s) -> wp E (modify f) Q s.
Proof. done. Qed.

Lemma wp_assert line (b : bool) (Q : unit -> S -> Prop) s :
  (b = true -> Q tt s) -> (b = false -> E (AssertFailed line)) -> wp E (assert_at line b) Q s.
Proof. destruct b; cbn; intros H1 H2; [by apply H1|by apply H2]. Qed.

Lemma wp_when (b : bool) (m' : M S unit) (Q : unit -> S -> Prop) s :
  (b = true -> wp E m' Q s) -> (b = false -> Q tt s) -> wp E (when b m') Q s.
Proof. intros H1 H2. destruct b; [by apply H1|by apply H2]. Qed.

Lemma wp_if (b : bool) (m1 m2 : M S A) (Q : A -> S -> Prop) s :
  (b = true -> wp E m1 Q s) -> (b = false -> wp E m2 Q s) ->
  wp E (if b then m1 else m2) Q s.
Proof. intros H1 H2. destruct b; [by apply H1|by apply H2]. Qed.

Lemma wp_fail f (Q : A -> S -> Prop) s : E f -> wp E (fail f) Q s.
Proof. done. Qed.
End MonadOps.

(** no fault at all *)
Definition no_fault (f : fault) : Prop := False.

Lemma wp_ok {S A} (m : M S A) (Q : A -> S -> Prop) s :
  wp no_fault m Q s <-> exists a s', m s = Ok a s' /\ Q a s'.
Proof.
  unfold wp. destruct (m s) as [a s'|f s']; split; try done.
  - by intros ?; exists a, s'.
  - by intros (? & ? & [= -> ->] & ?).
  - by intros (? & ? & ? & ?).
Qed.

Lemma wp_conj {S A} E (m : M S A) (Q1 Q2 : A -> S -> Prop) s :
  wp E m Q1 s -> wp E m Q2 s -> wp E m (fun a s' => Q1 a s' /\ Q2 a s') s.
Proof. unfold wp. by destruct (m s). Qed.

(** two facts about one run, one of them proved whatever faults occur *)
Lemma wp_strengthen {S A} E (m : M S A) (Q1 Q2 : A -> S -> Prop) s :
  wp E m Q1 s -> wp (fun _ => True) m Q2 s -> wp E m (fun a s' => Q1 a s' /\ Q2 a s') s.
Proof. unfold wp. by destruct (m s). Qed.

(** The loop rule: [I] holds before each iteration, indexed by what is left. *)
Lemma wp_mfor {S C} E (l : list C) (body : C -> M S unit)
    (I : list C -> S -> Prop) s :
  I l s ->
  (forall x l' s', I (x :: l') s' -> wp E (body x) (fun _ => I l') s') ->
  wp E (mfor l body) (fun _ => I []) s.
Proof.
  intros H0 Hstep. revert s H0. induction l as [|x l IH]; intros s H0; [done|].
  cbn [mfor]. apply wp_bind. eapply wp_mono; [by apply Hstep|]. eauto.
Qed.

Lemma wp_mfold {S A B} E (l : list A) (f : B -> A -> M S B) (b : B)
    (I : list A -> B -> S -> Prop) s :
  I l b s ->
  (forall x l' b s', I (x :: l') b s' -> wp E (f b x) (I l') s') ->
  wp E (mfold f b l) (I []) s.
Proof.
  intros H0 Hstep. revert b s H0. induction l as [|x l IH]; intros b s H0; [done|].
  cbn [mfold]. apply wp_bind. eapply wp_mono; [by apply Hstep|]. eauto.
Qed.

(** ** Bytes glued by shifts *)

Lemma lor_shiftl_add a b n :
  0 <= n -> 0 <= b < 2 ^ n -> Z.lor (Z.shiftl a n) b = a * 2 ^ n + b.
Proof.
  intros Hn Hb.
  assert (Z.land (Z.shiftl a n) b = 0) as Hz.
  { apply Z.bits_inj'. intros i Hi. rewrite Z.land_spec, Z.bits_0.
    destruct (Z.lt_ge_cases i n).
    - by rewrite Z.shiftl_spec_low.
    - rewrite <- (Z.mod_small b (2 ^ n)) by done.
      by rewrite Z.mod_pow2_bits_high, andb_false_r by lia. }
  rewrite <- Z.lxor_lor, <- Z.add_nocarry_lxor by done.
  by rewrite Z.shiftl_mul_pow2.
Qed.

(** Bitwise operations stay within the width. *)
Lemma log2_lt_pow2_32 z : 0 <= z -> is_u32 z <-> z = 0 \/ Z.log2 z < 32.
Proof.
  intros Hz. unfold is_u32. split.
  - intros. destruct (Z.eq_dec z 0); [by left|]. right.
    apply Z.log2_lt_pow2; lia.
  - intros [->|?]; [lia|]. destruct (Z.eq_dec z 0) as [->|]; [lia|].
    split; [done|]. apply (Z.log2_lt_pow2 z 32); lia.
Qed.

Lemma bitop_range32 (f : Z -> Z -> Z) a b :
  (forall a b, 0 <= a -> 0 <= b -> 0 <= f a b) ->
  (forall a b, 0 <= a -> 0 <= b -> Z.log2 (f a b) <= Z.max (Z.log2 a) (Z.log2 b)) ->
  is_u32 a -> is_u32 b -> is_u32 (f a b).
Proof.
  intros H0 H2 Ha Hb. assert (0 <= a /\ 0 <= b) as [] by (unfold is_u32 in *; lia).
  apply log2_lt_pow2_32; [by apply H0|]. right.
  apply log2_lt_pow2_32 in Ha, Hb; [|done..]. specialize (H2 a b).
  assert (Z.log2 a < 32) by (destruct Ha as [->|]; [reflexivity|done]).
  assert (Z.log2 b < 32) by (destruct Hb as [->|]; [reflexivity|done]).
  lia.
Qed.

Lemma lor_range32 a b : is_u32 a -> is_u32 b -> is_u32 (Z.lor a b).
Proof.
  apply bitop_range32.
  - intros. by apply Z.lor_nonneg.
  - intros. rewrite Z.log2_lor by done. lia.
Qed.

Lemma lxor_range32 a b : is_u32 a -> is_u32 b -> is_u32 (Z.lxor a b).
Proof.
  apply bitop_range32.
  - intros. by apply Z.lxor_nonneg.
  - intros. by apply Z.log2_lxor.
Qed.

Lemma shiftr_div z n : 0 <= n -> Z.shiftr z n = z / 2 ^ n.
Proof. apply Z.shiftr_div_pow2. Qed.
