(* ===== verification/Wrap.v ===== *)
(** * Wrapping comparison of sequence numbers and time stamps

    [wrapping_compare_less] of src/utp_internal.cpp, and the small numeric
    templates of src/utp_templates.h.  The comparison is proved to be the strict
    order of the unbounded counters as long as they are less than half of the
    number space apart, which is the contract every caller relies on. *)
From S2P Require Import Prelude.

Definition SEQ_NR_MASK : Z := 65535.
Definition ACK_NR_MASK : Z := 65535.
Definition TIMESTAMP_MASK : Z := 4294967295.

(** template min, max and clamp (the macro arguments are of one integer type) *)
Definition tmin (a b : Z) : Z := if a <? b then a else b.
Definition tmax (a b : Z) : Z := if b <? a then a else b.
Definition clamp (v mi ma : Z) : Z :=
  let v := if ma <? v then ma else v in
  if v <? mi then mi else v.

(** [bool wrapping_compare_less(uint32 lhs, uint32 rhs, uint32 mask)] *)
Definition wrapping_compare_less (lhs rhs mask : Z) : bool :=
  let dist_down := Z.land (u32 (lhs - rhs)) mask in
  let dist_up := Z.land (u32 (rhs - lhs)) mask in
  dist_up <? dist_down.

#[global] Arguments tmin : simpl never.
#[global] Arguments tmax : simpl never.
#[global] Arguments clamp : simpl never.
#[global] Arguments wrapping_compare_less : simpl never.

(** The two masks the code passes select the two lengths of counter. *)
Inductive counter_mask : Z -> Z -> Prop :=
| mask16 : counter_mask 65535 65536
| mask32 : counter_mask 4294967295 4294967296.

Lemma tmin_min a b : tmin a b = Z.min a b.
Proof. unfold tmin. destruct (Z.ltb_spec a b); lia. Qed.

Lemma tmax_max a b : tmax a b = Z.max a b.
Proof. unfold tmax. destruct (Z.ltb_spec b a); lia. Qed.

Lemma clamp_bounds v mi ma : mi <= clamp v mi ma <= Z.max mi ma.
Proof. unfold clamp. repeat case_match; lia. Qed.

Lemma clamp_id v mi ma : mi <= v <= ma -> clamp v mi ma = v.
Proof. unfold clamp. repeat case_match; lia. Qed.

Lemma land_counter mask modulus z :
  counter_mask mask modulus -> Z.land (u32 z) mask = z mod modulus.
Proof.
  destruct 1; [rewrite land_ffff|rewrite land_ffffffff]; word_lia.
Qed.

Lemma wrapping_compare_less_spec mask modulus lhs rhs :
  counter_mask mask modulus ->
  wrapping_compare_less lhs rhs mask
  = bool_decide (0 < (rhs - lhs) mod modulus < modulus / 2).
Proof.
  intros Hm. unfold wrapping_compare_less.
  rewrite !(land_counter _ modulus) by done.
  apply eq_true_iff_eq. rewrite Z.ltb_lt, bool_decide_eq_true.
  destruct Hm; dlia.
Qed.

Section Compare.
Context (mask modulus : Z) (Hmask : counter_mask mask modulus).

Lemma wrapping_compare_less_asym a b :
  wrapping_compare_less a b mask = true ->
  wrapping_compare_less b a mask = false.
Proof.
  rewrite !(wrapping_compare_less_spec mask modulus) by done.
  rewrite bool_decide_eq_true, bool_decide_eq_false. destruct Hmask; dlia.
Qed.

Lemma wrapping_compare_less_irrefl a : wrapping_compare_less a a mask = false.
Proof.
  rewrite (wrapping_compare_less_spec mask modulus) by done.
  rewrite bool_decide_eq_false. destruct Hmask; dlia.
Qed.

Lemma wrapping_compare_less_shift a b k :
  wrapping_compare_less (a + k) (b + k) mask = wrapping_compare_less a b mask.
Proof.
  rewrite !(wrapping_compare_less_spec mask modulus) by done.
  by replace (b + k - (a + k)) with (b - a) by lia.
Qed.

(** Only the residues of the operands matter: a caller may pass the wrapped
    16-bit value or the promoted [int] difference. *)
Lemma wrapping_compare_less_mod a b :
  wrapping_compare_less (a mod modulus) (b mod modulus) mask
  = wrapping_compare_less a b mask.
Proof.
  rewrite !(wrapping_compare_less_spec mask modulus) by done.
  apply bool_decide_ext. destruct Hmask; dlia.
Qed.

Lemma wrapping_compare_less_near x y :
  Z.abs (x - y) < modulus / 2 ->
  wrapping_compare_less x y mask = (x <? y).
Proof.
  intros Hxy. rewrite (wrapping_compare_less_spec mask modulus) by done.
  apply eq_true_iff_eq. rewrite Z.ltb_lt, bool_decide_eq_true.
  destruct Hmask; dlia.
Qed.
End Compare.

(** C37: the comparison of two wrapped counters decides the order of the
    unbounded counters they stand for, whenever these are less than half of
    the number space apart; at exactly half the space neither is smaller. *)
Theorem wrapping_compare_less_order (mask modulus x y : Z) :
  counter_mask mask modulus ->
  Z.abs (x - y) <= modulus / 2 ->
  wrapping_compare_less (x mod modulus) (y mod modulus) mask
  = bool_decide (x < y /\ Z.abs (x - y) < modulus / 2).
Proof.
  intros Hm Hxy. rewrite wrapping_compare_less_mod by done.
  rewrite (wrapping_compare_less_spec mask modulus) by done.
  apply bool_decide_ext. destruct Hm; dlia.
Qed.

Lemma wrapping_compare_less_order_witness :
  wrapping_compare_less (65530 mod 65536) (65540 mod 65536) 65535 = true.
Proof.
  rewrite (wrapping_compare_less_order 65535 65536 65530 65540 mask16);
    [reflexivity|].
  vm_compute. discriminate.
Defined.
