(* ===== verification/Packet.v ===== *)
(** * The wire format

    [PacketFormatV1], [PacketFormatAckV1] and [UTP_Version] of
    src/utp_internal.cpp, the [big_endian] wrapper of src/utp_templates.h, and
    the loop of [utp_process_incoming] that walks the chain of extension
    headers.  A packet is the list of its bytes. *)
From S2P Require Import Prelude.

Definition ST_DATA : Z := 0.
Definition ST_FIN : Z := 1.
Definition ST_STATE : Z := 2.
Definition ST_RESET : Z := 3.
Definition ST_SYN : Z := 4.
Definition ST_NUM_STATES : Z := 5.

(** big_endian<uint16> and big_endian<uint32>: [operator=] and [operator T] *)
Definition be16 (v : Z) : list Z := [u8 (Z.shiftr v 8); u8 v].
Definition be32 (v : Z) : list Z :=
  [u8 (Z.shiftr v 24); u8 (Z.shiftr v 16); u8 (Z.shiftr v 8); u8 v].
Definition of_be16 (a b : Z) : Z := Z.lor (Z.shiftl a 8) b.
Definition of_be32 (a b c d : Z) : Z :=
  Z.lor (Z.shiftl (Z.lor (Z.shiftl (Z.lor (Z.shiftl a 8) b) 8) c) 8) d.

Record PacketFormatV1 := {
  pf_ver_type : Z;      (* byte *)
  pf_ext : Z;           (* byte *)
  pf_connid : Z;        (* uint16 *)
  pf_tv_usec : Z;       (* uint32 *)
  pf_reply_micro : Z;   (* uint32 *)
  pf_windowsize : Z;    (* uint32 *)
  pf_seq_nr : Z;        (* uint16 *)
  pf_ack_nr : Z;        (* uint16 *)
}.

Definition sizeof_PacketFormatV1 : Z := 20.

Definition pf_version (p : PacketFormatV1) : Z := Z.land (pf_ver_type p) 15.
Definition pf_type (p : PacketFormatV1) : Z := Z.shiftr (pf_ver_type p) 4.
Definition set_version (v : Z) (p : PacketFormatV1) : PacketFormatV1 :=
  p <| pf_ver_type := u8 (Z.lor (Z.land (pf_ver_type p) 240) (Z.land v 15)) |>.
Definition set_type (t : Z) (p : PacketFormatV1) : PacketFormatV1 :=
  p <| pf_ver_type := u8 (Z.lor (Z.land (pf_ver_type p) 15) (Z.shiftl t 4)) |>.

(** zeromem(&pf) *)
Definition zero_header : PacketFormatV1 := {|
  pf_ver_type := 0; pf_ext := 0; pf_connid := 0; pf_tv_usec := 0;
  pf_reply_micro := 0; pf_windowsize := 0; pf_seq_nr := 0; pf_ack_nr := 0 |}.

(** The bytes of the packed structure, in memory order. *)
Definition encode_header (p : PacketFormatV1) : list Z :=
  [u8 (pf_ver_type p); u8 (pf_ext p)] ++ be16 (pf_connid p) ++
  be32 (pf_tv_usec p) ++ be32 (pf_reply_micro p) ++ be32 (pf_windowsize p) ++
  be16 (pf_seq_nr p) ++ be16 (pf_ack_nr p).

(** [(PacketFormatV1* )packet]: the fields read through the cast, if the buffer
    holds a whole header. *)
Definition decode_header (bs : list Z) : option PacketFormatV1 :=
  match bs with
  | b0 :: b1 :: b2 :: b3 :: b4 :: b5 :: b6 :: b7 :: b8 :: b9 ::
    b10 :: b11 :: b12 :: b13 :: b14 :: b15 :: b16 :: b17 :: b18 :: b19 :: _ =>
      Some {| pf_ver_type := b0; pf_ext := b1; pf_connid := of_be16 b2 b3;
              pf_tv_usec := of_be32 b4 b5 b6 b7;
              pf_reply_micro := of_be32 b8 b9 b10 b11;
              pf_windowsize := of_be32 b12 b13 b14 b15;
              pf_seq_nr := of_be16 b16 b17; pf_ack_nr := of_be16 b18 b19 |}
  | _ => None
  end.

Record PacketFormatAckV1 := {
  pfa_pf : PacketFormatV1;
  pfa_ext_next : Z;
  pfa_ext_len : Z;
  pfa_acks : Z;         (* the 32-bit mask stored byte by byte in acks[4] *)
}.

(** [pfa.acks[k] = (byte)(m >> (8 * k))] *)
Definition acks_bytes (m : Z) : list Z :=
  [u8 m; u8 (Z.shiftr m 8); u8 (Z.shiftr m 16); u8 (Z.shiftr m 24)].

Definition encode_ack (p : PacketFormatAckV1) : list Z :=
  encode_header (pfa_pf p) ++ [u8 (pfa_ext_next p); u8 (pfa_ext_len p)]
  ++ acks_bytes (pfa_acks p).

(** [inline byte UTP_Version(PacketFormatV1 const* pf)] *)
Definition UTP_Version (pf : PacketFormatV1) : Z :=
  if (pf_type pf <? ST_NUM_STATES) && (pf_ext pf <? 3) then pf_version pf else 0.

(** a header the version test accepts, as it is in memory *)
Definition header_ok (h : PacketFormatV1) : Prop :=
  is_u8 (pf_ver_type h) /\ UTP_Version h = 1.

(** ... without extensions *)
Definition plain_header (h : PacketFormatV1) : Prop := header_ok h /\ pf_ext h = 0.

(** what goes over the wire: a header and a payload, or a header and a selective
    acknowledgement *)
Definition wire (bs : list Z) : Prop :=
  exists h rest, bs = encode_header h ++ rest /\
    (plain_header h \/
     header_ok h /\ pf_ext h = 1 /\ exists m, rest = [0; 4] ++ acks_bytes m).

(** ** Extension headers

    [data] is the offset the code's [data] pointer has from the start of the
    packet; the loop body is one iteration of the [do .. while (extension)]. *)

Inductive ext_result : Type :=
| ExtOk (data : Z) (selack_ptr : option Z) (extensions : list Z)
| ExtDrop (extensions : list Z)      (* return 0 *)
| ExtOutOfBounds                     (* a byte outside the packet is read *)
| ExtOutOfFuel.

Definition rd (packet : list Z) (i : Z) : option Z :=
  if i <? 0 then None else packet !! Z.to_nat i.

Fixpoint parse_extensions (fuel : nat) (packet : list Z) (data extension : Z)
    (selack_ptr : option Z) (extensions : list Z) : ext_result :=
  match fuel with
  | O => ExtOutOfFuel
  | S fuel =>
      let data := data + 2 in
      let left := i32 (Z.of_nat (length packet) - data) in
      if left <? 0 then ExtDrop extensions else
      match rd packet (data - 1), rd packet (data - 2) with
      | Some len, Some next =>
          if left <? len then ExtDrop extensions else
          if (extension =? 2) && negb (len =? 8) then ExtDrop extensions else
          let selack_ptr := if extension =? 1 then Some data else selack_ptr in
          let extensions :=
            if extension =? 2 then take 8 (drop (Z.to_nat data) packet)
            else extensions in
          if next =? 0 then ExtOk (data + len) selack_ptr extensions
          else parse_extensions fuel packet (data + len) next selack_ptr extensions
      | _, _ => ExtOutOfBounds
      end
  end.

(** The whole step: [if (extension != 0) do ..]. *)
Definition skip_extensions (packet : list Z) (pf1 : PacketFormatV1)
    (extensions : list Z) : ext_result :=
  if pf_ext pf1 =? 0 then ExtOk sizeof_PacketFormatV1 None extensions
  else parse_extensions (S (length packet)) packet sizeof_PacketFormatV1
         (pf_ext pf1) None extensions.

(** ** Encoding and decoding *)

Record header_wf (p : PacketFormatV1) : Prop := {
  wf_ver_type : is_u8 (pf_ver_type p);
  wf_ext : is_u8 (pf_ext p);
  wf_connid : is_u16 (pf_connid p);
  wf_tv_usec : is_u32 (pf_tv_usec p);
  wf_reply_micro : is_u32 (pf_reply_micro p);
  wf_windowsize : is_u32 (pf_windowsize p);
  wf_seq_nr : is_u16 (pf_seq_nr p);
  wf_ack_nr : is_u16 (pf_ack_nr p);
}.

Lemma of_be16_eq a b : is_u8 b -> of_be16 a b = a * 256 + b.
Proof. intros. unfold of_be16. by rewrite (lor_shiftl_add _ _ 8). Qed.

Lemma of_be32_eq a b c d :
  is_u8 b -> is_u8 c -> is_u8 d ->
  of_be32 a b c d = ((a * 256 + b) * 256 + c) * 256 + d.
Proof. intros. unfold of_be32. by rewrite !(lor_shiftl_add _ _ 8). Qed.

Lemma be16_of v : of_be16 (u8 (Z.shiftr v 8)) (u8 v) = u16 v.
Proof.
  rewrite of_be16_eq by auto with words. rewrite shiftr_div by lia. word_lia.
Qed.

Lemma be32_of v :
  of_be32 (u8 (Z.shiftr v 24)) (u8 (Z.shiftr v 16)) (u8 (Z.shiftr v 8)) (u8 v)
  = u32 v.
Proof.
  rewrite of_be32_eq by auto with words. rewrite !shiftr_div by lia. word_lia.
Qed.

Lemma of_be16_be a b : is_u8 a -> is_u8 b -> be16 (of_be16 a b) = [a; b].
Proof.
  intros. rewrite of_be16_eq by done. unfold be16. rewrite shiftr_div by lia.
  repeat f_equal; word_lia.
Qed.

Lemma of_be32_be a b c d :
  is_u8 a -> is_u8 b -> is_u8 c -> is_u8 d -> be32 (of_be32 a b c d) = [a; b; c; d].
Proof.
  intros. rewrite of_be32_eq by done. unfold be32. rewrite !shiftr_div by lia.
  repeat f_equal; word_lia.
Qed.

Lemma encode_header_length p : length (encode_header p) = 20%nat.
Proof. done. Qed.

Lemma is_u32_of_be32 a b c d :
  is_u8 a -> is_u8 b -> is_u8 c -> is_u8 d -> is_u32 (of_be32 a b c d).
Proof. intros. rewrite of_be32_eq by done. word_lia. Qed.

Lemma is_u16_of_be16 a b : is_u8 a -> is_u8 b -> is_u16 (of_be16 a b).
Proof. intros. rewrite of_be16_eq by done. word_lia. Qed.

Lemma decode_header_is_Some bs :
  is_Some (decode_header bs) <-> sizeof_PacketFormatV1 <= Z.of_nat (length bs).
Proof.
  unfold sizeof_PacketFormatV1. split.
  - intros [p Hp]. do 20 (destruct bs as [|? bs]; [done|]). cbn. lia.
  - intros H. do 20 (destruct bs as [|? bs]; [cbn in H; lia|]). by eexists.
Qed.

Lemma decode_encode p rest : header_wf p -> decode_header (encode_header p ++ rest) = Some p.
Proof.
  intros []. cbn -[be16_of]. destruct p; cbn in *.
  rewrite !be16_of, !be32_of, !u16_small, !u32_small, !u8_small by done.
  done.
Qed.

Lemma decode_wf bs q :
  Forall is_u8 bs -> decode_header bs = Some q -> header_wf q /\ encode_header q = take 20 bs.
Proof.
  intros Hbs Hq. do 20 (destruct bs as [|? bs]; [done|]).
  injection Hq as <-. rewrite !Forall_cons in Hbs. destruct_and! Hbs.
  split; [by constructor; cbn; auto using is_u16_of_be16, is_u32_of_be32|].
  unfold encode_header. cbn [pf_ver_type pf_ext pf_connid pf_tv_usec
    pf_reply_micro pf_windowsize pf_seq_nr pf_ack_nr].
  rewrite !of_be16_be, !of_be32_be, !u8_small by done. done.
Qed.

(** ** What a datagram says, whatever was written into the structure *)
Definition norm_header (h : PacketFormatV1) : PacketFormatV1 := {|
  pf_ver_type := u8 (pf_ver_type h); pf_ext := u8 (pf_ext h); pf_connid := u16 (pf_connid h);
  pf_tv_usec := u32 (pf_tv_usec h); pf_reply_micro := u32 (pf_reply_micro h);
  pf_windowsize := u32 (pf_windowsize h); pf_seq_nr := u16 (pf_seq_nr h);
  pf_ack_nr := u16 (pf_ack_nr h) |}.

Lemma norm_header_wf h : header_wf (norm_header h).
Proof. split; cbn; auto using u8_range, u16_range, u32_range. Qed.

Lemma u8_shiftr_mod v i k : 0 <= i -> i + 8 <= k -> u8 (Z.shiftr (v mod 2 ^ k) i) = u8 (Z.shiftr v i).
Proof.
  intros Hi Hk. apply Z.bits_inj'. intros n Hn. unfold u8. change 256 with (2 ^ 8).
  destruct (Z.lt_ge_cases n 8).
  - rewrite !Z.mod_pow2_bits_low, !Z.shiftr_spec, Z.mod_pow2_bits_low by lia. done.
  - by rewrite !Z.mod_pow2_bits_high by lia.
Qed.

Lemma u8_mod v k : 8 <= k -> u8 (v mod 2 ^ k) = u8 v.
Proof. intros. apply (u8_shiftr_mod v 0 k); lia. Qed.

Lemma be16_u16 v : be16 (u16 v) = be16 v.
Proof. unfold be16, u16. change 65536 with (2 ^ 16). by rewrite u8_shiftr_mod, u8_mod by lia. Qed.

Lemma be32_u32 v : be32 (u32 v) = be32 v.
Proof.
  unfold be32, u32. change 4294967296 with (2 ^ 32). by rewrite !u8_shiftr_mod, u8_mod by lia.
Qed.

Lemma encode_norm h : encode_header (norm_header h) = encode_header h.
Proof.
  unfold encode_header, norm_header. cbn [pf_ver_type pf_ext pf_connid pf_tv_usec
    pf_reply_micro pf_windowsize pf_seq_nr pf_ack_nr].
  rewrite !be16_u16, !be32_u32. unfold u8. by rewrite !Z.mod_mod by lia.
Qed.

Lemma decode_encode_norm h rest : decode_header (encode_header h ++ rest) = Some (norm_header h).
Proof. rewrite <- encode_norm. apply decode_encode, norm_header_wf. Qed.

Lemma norm_type h t : pf_type h = t -> 0 <= t < 16 -> pf_type (norm_header h) = t.
Proof.
  intros <- Ht. unfold pf_type in *. cbn [norm_header pf_ver_type]. f_equal. apply u8_small.
  rewrite shiftr_div in Ht by lia. unfold is_u8. dlia.
Qed.

(** C38: what the library writes into a datagram is what it reads back: for
    every well-formed header and whatever follows it, decoding the encoding
    gives the same header; and re-encoding a decoded buffer of bytes gives the
    first twenty bytes of it, so the two formats are in bijection. *)
Theorem header_roundtrip (p : PacketFormatV1) (bs rest : list Z) :
  (header_wf p -> decode_header (encode_header p ++ rest) = Some p) /\
  (Forall is_u8 bs -> forall q, decode_header bs = Some q ->
     header_wf q /\ encode_header q = take 20 bs).
Proof. split; [apply decode_encode|]. intros Hb q. by apply decode_wf. Qed.

Lemma land_15 z : Z.land z 15 = z mod 16.
Proof. apply (land_ones_mod z 4). lia. Qed.

Lemma low_nibble a v :
  0 <= v < 16 -> Z.land (u8 (Z.lor (Z.land a 240) (Z.land v 15))) 15 = v.
Proof.
  intros Hv. unfold u8. change 256 with (2 ^ 8). rewrite <- Z.land_ones by lia.
  apply Z.bits_inj'. intros i Hi. rewrite !Z.land_spec, Z.lor_spec, !Z.land_spec.
  destruct (Z.lt_ge_cases i 4).
  - assert (i = 0 \/ i = 1 \/ i = 2 \/ i = 3) as Hc by lia.
    destruct_or! Hc; subst i; cbn; by rewrite ?andb_false_r, ?andb_true_r.
  - change 15 with (Z.ones 4). rewrite (Z.ones_spec_high 4 i) by lia.
    rewrite <- (Z.mod_small v (2 ^ 4)) by lia.
    by rewrite Z.mod_pow2_bits_high, !andb_false_r by lia.
Qed.

(** The constructors the code applies to a fresh header. *)
Lemma version_type_set (p : PacketFormatV1) (v t : Z) :
  0 <= v < 16 -> 0 <= t < 16 ->
  pf_version (set_type t (set_version v p)) = v /\
  pf_type (set_type t (set_version v p)) = t.
Proof.
  intros Hv Ht. unfold pf_version, pf_type, set_type, set_version.
  cbn -[Z.land Z.lor Z.shiftl Z.shiftr u8]. unfold constant.
  rewrite low_nibble by done.
  rewrite Z.lor_comm, (lor_shiftl_add t v 4) by lia.
  rewrite land_15, shiftr_div by lia. word_lia.
Qed.

(** [UTP_Version] recognises exactly the packets whose type is one of the
    five packet types and whose first extension is at most 2, and then returns
    the version nibble; everything else is version 0, which no caller accepts. *)
Theorem UTP_Version_spec (pf : PacketFormatV1) :
  UTP_Version pf = 1 <->
  pf_type pf < ST_NUM_STATES /\ pf_ext pf <= 2 /\ pf_version pf = 1.
Proof.
  unfold UTP_Version, ST_NUM_STATES.
  destruct (Z.ltb_spec (pf_type pf) 5), (Z.ltb_spec (pf_ext pf) 3); cbn; lia.
Qed.

(** ** The walk over the extension headers *)

(** The selective-ack pointer the walk returns: its length byte and all the
    bytes it announces lie inside the packet. *)
Definition selack_in (packet : list Z) (selack_ptr : option Z) : Prop :=
  match selack_ptr with
  | None => True
  | Some p => exists len, rd packet (p - 1) = Some len /\ is_u8 len /\
      sizeof_PacketFormatV1 + 2 <= p /\ p + len <= Z.of_nat (length packet)
  end.

Definition ext_safe (packet : list Z) (r : ext_result) : Prop :=
  match r with
  | ExtOk data selack_ptr extensions =>
      sizeof_PacketFormatV1 <= data <= Z.of_nat (length packet) /\
      selack_in packet selack_ptr /\ length extensions = 8%nat
  | ExtDrop extensions => length extensions = 8%nat
  | ExtOutOfBounds | ExtOutOfFuel => False
  end.

Lemma rd_in packet i :
  Forall is_u8 packet -> 0 <= i < Z.of_nat (length packet) ->
  exists b, rd packet i = Some b /\ is_u8 b.
Proof.
  intros Hb Hi. unfold rd. case_match eqn:E; [lia|].
  destruct (lookup_lt_is_Some_2 packet (Z.to_nat i)) as [b Hb']; [lia|].
  exists b. split; [done|]. by eapply Forall_lookup_1.
Qed.

Lemma length_take_drop {A} (l : list A) d n :
  (d + n <= length l)%nat -> length (take n (drop d l)) = n.
Proof. intros. rewrite length_take, length_drop. lia. Qed.

Lemma parse_extensions_safe fuel packet data extension selack_ptr extensions :
  Forall is_u8 packet -> Z.of_nat (length packet) < 2147483648 ->
  sizeof_PacketFormatV1 <= data <= Z.of_nat (length packet) ->
  (Z.to_nat (Z.of_nat (length packet) - data) < fuel)%nat ->
  selack_in packet selack_ptr -> length extensions = 8%nat ->
  ext_safe packet
    (parse_extensions fuel packet data extension selack_ptr extensions).
Proof.
  intros Hb Hlen. revert data extension selack_ptr extensions.
  induction fuel as [|fuel IH];
    intros data ext sp exts Hd Hf Hsp He; [lia|].
  unfold sizeof_PacketFormatV1 in *. cbn [parse_extensions].
  rewrite (i32_small (_ - _)) by word_lia.
  case_match eqn:E1; [done|]. apply Z.ltb_ge in E1.
  destruct (rd_in packet (data + 2 - 1)) as (len & Elen & Hl); [done|lia|].
  destruct (rd_in packet (data + 2 - 2)) as (next & Enext & _); [done|lia|].
  rewrite Elen, Enext.
  case_match eqn:E2; [done|]. apply Z.ltb_ge in E2.
  case_match eqn:E3; [done|].
  assert (selack_in packet (if ext =? 1 then Some (data + 2) else sp)).
  { case_match; [|done]. exists len. unfold sizeof_PacketFormatV1. split_and!; auto; lia. }
  assert (length (if ext =? 2 then take 8 (drop (Z.to_nat (data + 2)) packet)
                  else exts) = 8%nat).
  { destruct (ext =? 2); [|done]. cbn in E3.
    apply length_take_drop. destruct (Z.eqb_spec len 8); [lia|done]. }
  unfold is_u8 in Hl. destruct (next =? 0); [|apply IH; auto; lia].
  split_and!; auto; unfold sizeof_PacketFormatV1; lia.
Qed.

Lemma skip_extensions_ok (packet : list Z) (pf1 : PacketFormatV1)
    (extensions : list Z) :
  Forall is_u8 packet ->
  sizeof_PacketFormatV1 <= Z.of_nat (length packet) < 2147483648 ->
  length extensions = 8%nat ->
  ext_safe packet (skip_extensions packet pf1 extensions).
Proof.
  intros Hb Hlen He. unfold skip_extensions. case_match.
  - cbn. unfold sizeof_PacketFormatV1 in *. split_and!; auto; lia.
  - unfold sizeof_PacketFormatV1 in *.
    apply parse_extensions_safe; unfold sizeof_PacketFormatV1; try done; lia.
Qed.

(** C23: the walk over the extension chain of an untrusted packet terminates
    within the packet's length and never reads a byte outside it; when it
    accepts the packet, the payload starts inside the packet, and the
    selective-ack block it found (with the length byte in front of it) lies
    inside it too. *)
Theorem skip_extensions_safe (packet : list Z) (pf1 : PacketFormatV1)
    (extensions : list Z) :
  Forall is_u8 packet ->
  sizeof_PacketFormatV1 <= Z.of_nat (length packet) < 2147483648 ->
  length extensions = 8%nat ->
  ext_safe packet (skip_extensions packet pf1 extensions).
Proof. apply skip_extensions_ok. Qed.

Definition sample_packet : list Z :=
  encode_header (set_type ST_DATA (set_version 1 zero_header) <| pf_ext := 1 |>)
  ++ [2; 4; 1; 0; 0; 0] ++ [0; 8; 1; 2; 3; 4; 5; 6; 7; 8] ++ [104; 105].

Lemma skip_extensions_safe_witness :
  ext_safe sample_packet
    (skip_extensions sample_packet (zero_header <| pf_ext := 1 |>)
       (replicate 8 0)) /\
  skip_extensions sample_packet (zero_header <| pf_ext := 1 |>) (replicate 8 0)
  = ExtOk 36 (Some 22) [1; 2; 3; 4; 5; 6; 7; 8].
Proof.
  split; [|reflexivity]. apply skip_extensions_safe.
  - repeat (apply Forall_cons; split; [vm_compute; split; congruence|]).
    apply Forall_nil_2.
  - vm_compute. split; congruence.
  - reflexivity.
Defined.

(** ** Selective-ack masks *)

(** [mask[bits >> 3] & (1 << (bits & 7))] on the bytes of the mask; [None] when
    the byte is outside the bytes given. *)
Definition mask_bit (mask : list Z) (bits : Z) : option bool :=
  b ← rd mask (Z.shiftr bits 3);
  mret (negb (Z.land b (Z.shiftl 1 (Z.land bits 7)) =? 0)).

Lemma land_pow2_testbit b k :
  0 <= k -> negb (Z.land b (Z.shiftl 1 k) =? 0) = Z.testbit b k.
Proof.
  intros Hk. rewrite Z.shiftl_1_l. destruct (Z.eqb_spec (Z.land b (2 ^ k)) 0) as [E|E]; cbn.
  - apply (f_equal (fun z => Z.testbit z k)) in E.
    rewrite Z.land_spec, Z.pow2_bits_true, Z.bits_0, andb_true_r in E by done. done.
  - destruct (Z.testbit b k) eqn:T; [done|]. destruct E. apply Z.bits_inj'.
    intros i Hi. rewrite Z.land_spec, Z.bits_0, Z.pow2_bits_eqb by done.
    destruct (Z.eqb_spec k i) as [->|]; [by rewrite T|by rewrite andb_false_r].
Qed.

Lemma testbit_u8_shiftr m j k :
  0 <= j -> 0 <= k < 8 -> Z.testbit (u8 (Z.shiftr m j)) k = Z.testbit m (k + j).
Proof.
  intros. unfold u8. change 256 with (2 ^ 8).
  by rewrite Z.mod_pow2_bits_low, Z.shiftr_spec by lia.
Qed.

(** The bit of the mask that the sender of an acknowledgement sets for the
    [i]-th packet past the gap is the bit its receiver tests for it: for each of
    the 32 positions, the byte-wise test on the four bytes written by
    [send_ack] reads back bit [i] of the mask. *)
Theorem selective_ack_mask_roundtrip (m i : Z) :
  0 <= i < 32 -> mask_bit (acks_bytes m) i = Some (Z.testbit m i).
Proof.
  intros Hi. unfold mask_bit.
  assert (Z.land i 7 = i mod 8) as Hl by (apply (land_ones_mod i 3); lia).
  rewrite Hl, shiftr_div by lia. change (2 ^ 3) with 8.
  assert (exists b, rd (acks_bytes m) (i / 8) = Some (u8 (Z.shiftr m b))
            /\ b = 8 * (i / 8)) as (b & -> & Hb).
  { assert (i / 8 = 0 \/ i / 8 = 1 \/ i / 8 = 2 \/ i / 8 = 3) as Hc by dlia.
    destruct_or! Hc; rewrite Hc; eexists; (split; [|reflexivity]); done. }
  cbn. rewrite land_pow2_testbit, testbit_u8_shiftr by dlia.
  do 2 f_equal. dlia.
Qed.
