(* ===== verification/Ring.v ===== *)
(** * The growing circular buffer

    [SizableCircularBuffer] of src/utp_internal.cpp: the reorder buffer and the
    send queue of a connection.  A slot holds a pointer that the buffer owns, so
    the model keeps the pointed-to value in the slot ([None] is NULL).  Indices
    are [size_t] values of which only [index & mask] matters: a negative [Z]
    stands for the value the C expression wraps to. *)
From S2P Require Import Prelude.

Record SizableCircularBuffer (A : Type) := mkRing {
  mask : Z;                       (* size - 1, the size a power of two *)
  elements : list (option A);
}.
Arguments mkRing {A} mask elements.
Arguments mask {A}.
Arguments elements {A}.

Section Ring.
Context {A : Type}.
Implicit Types (r : SizableCircularBuffer A) (d : option A).

(** calloc(16, sizeof(void* )) with [mask = 15] *)
Definition ring_init : SizableCircularBuffer A :=
  mkRing 15 (replicate 16 None).

Definition ring_get r (i : Z) : option A :=
  znth None (elements r) (Z.land i (mask r)).

Definition ring_put r (i : Z) d : SizableCircularBuffer A :=
  mkRing (mask r) (<[Z.to_nat (Z.land i (mask r)) := d]> (elements r)).

Definition ring_size r : Z := mask r + 1.

(** [do size *= 2; while (index >= size)] *)
Fixpoint grow_size (fuel : nat) (index size : Z) : Z :=
  let size := size * 2 in
  match fuel with
  | O => size
  | S fuel => if size <=? index then grow_size fuel index size else size
  end.

(** the loop [for (i = 0; i <= mask; i++) buf[(item - index + i) & size] =
    get(item - index + i)] over the new buffer, [size] being its mask *)
Definition grow_copy r (item index size : Z) (buf : list (option A)) :
    list (option A) :=
  foldl (fun buf i =>
    <[Z.to_nat (Z.land (item - index + i) size) := ring_get r (item - index + i)]> buf)
    buf (zseq (Z.to_nat (mask r + 1))).

Definition ring_grow r (item index : Z) : SizableCircularBuffer A :=
  let size := grow_size (Z.to_nat index) index (mask r + 1) in
  let buf := replicate (Z.to_nat size) None in
  let size := size - 1 in
  mkRing size (grow_copy r item index size buf).

Definition ensure_size r (item index : Z) : SizableCircularBuffer A :=
  if mask r <? index then ring_grow r item index else r.

(** ** Well-formed buffers *)

Definition ring_wf r : Prop :=
  exists k, 0 <= k /\ mask r = 2 ^ k - 1 /\ Z.of_nat (length (elements r)) = 2 ^ k.

Lemma ring_init_wf : ring_wf ring_init.
Proof. exists 4. done. Qed.

Lemma ring_wf_mask r : ring_wf r -> 0 <= mask r.
Proof.
  intros (k & Hk & -> & _). pose proof (Z.pow_pos_nonneg 2 k). lia.
Qed.

Lemma ring_index r i :
  ring_wf r -> Z.land i (mask r) = i mod (mask r + 1).
Proof.
  intros (k & Hk & -> & _). rewrite land_ones_mod by done. f_equal. lia.
Qed.

Lemma ring_slot r i :
  ring_wf r ->
  0 <= Z.land i (mask r) < Z.of_nat (length (elements r)).
Proof.
  intros (k & Hk & Hm & ->). rewrite Hm, land_ones_mod by done.
  apply Z.mod_pos_bound. lia.
Qed.

Lemma ring_get_mod r i j :
  ring_wf r -> i mod (mask r + 1) = j mod (mask r + 1) ->
  ring_get r i = ring_get r j.
Proof. intros Hr E. unfold ring_get. by rewrite !ring_index, E by done. Qed.

Lemma ring_put_wf r i d : ring_wf r -> ring_wf (ring_put r i d).
Proof.
  intros (k & Hk & Hm & Hl). exists k. cbn. by rewrite length_insert.
Qed.

Lemma ring_get_put r i j d :
  ring_wf r ->
  ring_get (ring_put r i d) j
  = if decide (i mod (mask r + 1) = j mod (mask r + 1)) then d else ring_get r j.
Proof.
  intros Hr. unfold ring_get, ring_put, znth. cbn [mask elements].
  pose proof (ring_slot r i Hr). pose proof (ring_slot r j Hr).
  rewrite !ring_index in * by done.
  case_decide as E.
  - rewrite E in *. rewrite list_lookup_insert_eq by lia. done.
  - rewrite list_lookup_insert_ne; [done|]. intros E'.
    apply E. apply Z2Nat.inj in E'; lia.
Qed.

Lemma ring_get_put_eq r i d :
  ring_wf r -> ring_get (ring_put r i d) i = d.
Proof. intros. rewrite ring_get_put by done. by rewrite decide_True. Qed.

(** Two indices less than the size apart use different slots. *)
Lemma ring_get_put_near r i j d :
  ring_wf r -> i <> j -> Z.abs (i - j) <= mask r ->
  ring_get (ring_put r i d) j = ring_get r j.
Proof.
  intros Hr Hne Habs. rewrite ring_get_put by done.
  rewrite decide_False; [done|]. pose proof (ring_wf_mask r Hr).
  intros E. apply mod_near_eq in E; lia.
Qed.

(** ** Growing *)

Lemma grow_size_spec fuel index size :
  1 <= size -> index < size * 2 ^ (Z.of_nat fuel + 1) ->
  exists j, 1 <= j /\ grow_size fuel index size = size * 2 ^ j /\
    index < size * 2 ^ j /\ (size * 2 ^ (j - 1) <= index \/ j = 1).
Proof.
  revert size. induction fuel as [|fuel IH]; intros size Hs Hi; cbn [grow_size].
  - exists 1. cbn in Hi. change (2 ^ 1) with 2 in *. lia.
  - case_match eqn:E.
    + apply Z.leb_le in E. destruct (IH (size * 2)) as (j & Hj & -> & Hlt & Hmin).
      { lia. }
      { rewrite <- Z.mul_assoc, <- Z.pow_succ_r by lia.
        by replace (Z.succ (Z.of_nat fuel + 1)) with (Z.of_nat (S fuel) + 1) by lia. }
      rewrite <- Z.mul_assoc, <- Z.pow_succ_r in * by lia.
      exists (Z.succ j). split_and!; try lia.
      replace (Z.succ j - 1) with (Z.succ (j - 1)) by lia.
      destruct Hmin as [?| ->]; [lia|]. left. done.
    + apply Z.leb_gt in E. exists 1. change (2 ^ 1) with 2. lia.
Qed.

Lemma grow_size_wf r index :
  ring_wf r -> 0 <= index ->
  exists k, 0 <= k /\ grow_size (Z.to_nat index) index (mask r + 1) = 2 ^ k /\
    index < 2 ^ k /\ 2 * (mask r + 1) <= 2 ^ k /\
    (2 ^ k <= 2 * index \/ 2 ^ k = 2 * (mask r + 1)).
Proof.
  intros Hr Hi. pose proof (ring_wf_mask r Hr). destruct Hr as (k & Hk & Hm & _).
  destruct (grow_size_spec (Z.to_nat index) index (mask r + 1))
    as (j & Hj & -> & Hlt & Hmin); [lia| |].
  { rewrite Z2Nat.id by lia. assert (index < 2 ^ (index + 1)).
    { pose proof (Z.pow_gt_lin_r 2 (index + 1)). lia. } nia. }
  replace (mask r + 1) with (2 ^ k) in * by lia.
  rewrite <- Z.pow_add_r in * by lia.
  exists (k + j). split_and!; try lia.
  - replace (k + j) with (Z.succ (k + (j - 1))) by lia.
    rewrite Z.pow_succ_r by lia. pose proof (Z.pow_le_mono_r 2 k (k + (j - 1))). lia.
  - replace (k + j) with (Z.succ (k + (j - 1))) by lia.
    rewrite Z.pow_succ_r by lia.
    destruct Hmin as [Hm'| ->]; [lia|].
    right. do 2 f_equal. lia.
Qed.

(** The copy loop, as an invariant on the number of slots copied so far. *)
Lemma grow_copy_lookup r item index k n :
  0 <= k -> Z.of_nat n <= 2 ^ k ->
  let base := item - index in
  let buf := foldl (fun buf i =>
    <[Z.to_nat (Z.land (base + i) (2 ^ k - 1)) := ring_get r (base + i)]> buf)
    (replicate (Z.to_nat (2 ^ k)) None) (zseq n) in
  Z.of_nat (length buf) = 2 ^ k /\
  forall o, 0 <= o < 2 ^ k ->
    znth None buf (Z.land (base + o) (2 ^ k - 1))
    = if decide (o < Z.of_nat n) then ring_get r (base + o) else None.
Proof.
  intros Hk Hn base. assert (Hpos : 0 < 2 ^ k) by (apply Z.pow_pos_nonneg; lia).
  induction n as [|n IH]; cbn zeta.
  - cbn. rewrite length_replicate. split; [lia|]. intros o Ho.
    rewrite decide_False by lia. unfold znth.
    rewrite lookup_replicate_2; [done|]. rewrite land_ones_mod by done.
    pose proof (Z.mod_pos_bound (base + o) (2 ^ k)). lia.
  - unfold zseq in *. rewrite seq_S, fmap_app, foldl_app. cbn [foldl fmap list_fmap].
    destruct IH as [IHl IHo]; [lia|]. rewrite length_insert. split; [done|].
    intros o Ho. set (buf := foldl _ _ _) in *.
    rewrite Nat.add_0_l. unfold znth in *. rewrite !land_ones_mod in * by done.
    pose proof (Z.mod_pos_bound (base + o) (2 ^ k)).
    pose proof (Z.mod_pos_bound (base + Z.of_nat n) (2 ^ k)).
    destruct (decide (o = Z.of_nat n)) as [->|Hne].
    + rewrite list_lookup_insert_eq by lia. by rewrite decide_True by lia.
    + rewrite list_lookup_insert_ne.
      { specialize (IHo o Ho). rewrite land_ones_mod in IHo by done. rewrite IHo.
        repeat case_decide; try done; lia. }
      intros E. apply Z2Nat.inj in E; [|lia..].
      apply mod_near_eq in E; lia.
Qed.

(** The new buffer is well formed, larger than [index], and holds in the
    window of [mask r + 1] indices from [item - index] what the old one held
    there; the rest of the new window is empty. *)
Lemma ring_grow_spec r item index :
  ring_wf r -> 0 <= index ->
  let r' := ring_grow r item index in
  ring_wf r' /\ index <= mask r' /\ 2 * mask r + 1 <= mask r' /\
  forall o, 0 <= o <= mask r' ->
    ring_get r' (item - index + o)
    = if decide (o <= mask r) then ring_get r (item - index + o) else None.
Proof.
  intros Hr Hi. cbn zeta.
  destruct (grow_size_wf r index Hr Hi) as (k & Hk & E & H1 & H2 & _).
  pose proof (ring_wf_mask r Hr). unfold ring_grow. rewrite E. unfold grow_copy.
  destruct (grow_copy_lookup r item index k (Z.to_nat (mask r + 1)))
    as [Hl Ho]; [done|lia|]. cbn zeta in *.
  cbn [mask]. split_and!.
  - exists k. cbn [mask elements]. auto.
  - lia.
  - lia.
  - intros o Hr'. unfold ring_get at 1. cbn [mask elements]. rewrite Ho by lia.
    repeat case_decide; try done; lia.
Qed.

Lemma ensure_size_spec r item index :
  ring_wf r -> 0 <= index ->
  let r' := ensure_size r item index in
  ring_wf r' /\ index <= mask r' /\ mask r <= mask r' /\
  forall o, 0 <= o <= mask r ->
    ring_get r' (item - index + o) = ring_get r (item - index + o).
Proof.
  intros Hr Hi. cbn zeta. unfold ensure_size. case_match eqn:E.
  - destruct (ring_grow_spec r item index Hr Hi) as (? & ? & ? & Ho).
    pose proof (ring_wf_mask r Hr).
    split_and!; try done; try lia. intros o ?. rewrite Ho by lia.
    by rewrite decide_True by lia.
  - apply Z.ltb_ge in E. split_and!; done.
Qed.

(** The buffer may be indexed by a wrapped 16-bit sequence number or by the
    promoted [int] it came from, as the code does, while it has at most 2^16
    slots. *)
Lemma ring_index_u16 r i :
  ring_wf r -> mask r < 65536 -> Z.land (u16 i) (mask r) = Z.land i (mask r).
Proof.
  intros Hr Hm. rewrite !ring_index by done. destruct Hr as (n & Hn & E & _).
  replace (mask r + 1) with (2 ^ n) by lia. unfold u16.
  assert (n <= 16).
  { destruct (Z.le_gt_cases n 16); [done|].
    pose proof (Z.pow_lt_mono_r 2 16 n). lia. }
  replace 65536 with (2 ^ n * 2 ^ (16 - n)).
  - rewrite Z.rem_mul_r by (apply Z.pow_nonzero || apply Z.pow_pos_nonneg; lia).
    rewrite Z.mul_comm, Z.mod_add by (apply Z.pow_nonzero; lia).
    by rewrite Z.mod_mod by (apply Z.pow_nonzero; lia).
  - rewrite <- Z.pow_add_r by lia. change 65536 with (2 ^ 16). f_equal. lia.
Qed.

Lemma ring_get_u16 r i :
  ring_wf r -> mask r < 65536 -> ring_get r (u16 i) = ring_get r i.
Proof. intros. unfold ring_get. by rewrite ring_index_u16. Qed.

Lemma ring_put_u16 r i d :
  ring_wf r -> mask r < 65536 -> ring_put r (u16 i) d = ring_put r i d.
Proof. intros. unfold ring_put. by rewrite ring_index_u16. Qed.

(** indices that name the same element *)
Definition same_place r i j : Prop := Z.land i (mask r) = Z.land j (mask r).

Lemma ring_get_place r i j : same_place r i j -> ring_get r i = ring_get r j.
Proof. intros E. unfold ring_get. by rewrite E. Qed.
Lemma ring_put_place r i j d : same_place r i j -> ring_put r i d = ring_put r j d.
Proof. intros E. unfold ring_put. by rewrite E. Qed.
Lemma same_place_u16 r i j :
  ring_wf r -> mask r < 65536 -> u16 i = u16 j -> same_place r i j.
Proof.
  intros Hr Hm E. unfold same_place.
  rewrite <- (ring_index_u16 r i), <- (ring_index_u16 r j) by done. by rewrite E.
Qed.

(** Storing an element one past a window of [index] elements: the operation
    every queue insertion of the code performs. *)
Lemma ring_append r item index (x : A) :
  ring_wf r -> 0 <= index <= mask r + 1 ->
  let r' := ring_put (ensure_size r item index) item (Some x) in
  ring_wf r' /\ index <= mask r' /\ mask r <= mask r' /\
  ring_get r' item = Some x /\
  forall o, 1 <= o <= index -> ring_get r' (item - o) = ring_get r (item - o).
Proof.
  intros Hr Hi. cbn zeta.
  destruct (ensure_size_spec r item index Hr) as (Hr' & H1 & H2 & Ho); [lia|].
  split_and!.
  - by apply ring_put_wf.
  - done.
  - done.
  - by apply ring_get_put_eq.
  - intros o Hoo. rewrite ring_get_put_near by (done || cbn; lia).
    replace (item - o) with (item - index + (index - o)) by lia.
    rewrite Ho by lia. done.
Qed.

Lemma ring_get_init (i : Z) : ring_get ring_init i = None.
Proof.
  unfold ring_get, znth, ring_init. cbn [elements mask].
  destruct (replicate 16 None !! Z.to_nat (Z.land i 15)) as [o|] eqn:Ho; [|done].
  by apply lookup_replicate in Ho as [-> _].
Qed.
End Ring.

Arguments ring_init {A}.

(** C26: a queue never loses an element by growing.  For a queue of [index]
    elements that fits its buffer, making room and storing the next element at
    [item] keeps every one of the [index] elements before it at its own
    sequence number, stores the new one, and leaves a buffer with room for all
    of them. *)
Theorem append_keeps_queue {A} (r : SizableCircularBuffer A) (item index : Z) (x : A) :
  ring_wf r -> 0 <= index <= mask r + 1 ->
  let r' := ring_put (ensure_size r item index) item (Some x) in
  ring_wf r' /\ index + 1 <= ring_size r' /\ ring_get r' item = Some x /\
  forall o, 1 <= o <= index -> ring_get r' (item - o) = ring_get r (item - o).
Proof.
  intros Hr Hi. destruct (ring_append r item index x Hr Hi) as (? & ? & ? & ? & ?).
  unfold ring_size. split_and!; try done. lia.
Qed.

Definition sample_ring : SizableCircularBuffer Z :=
  foldl (fun r i => ring_put r (65530 + i) (Some i)) ring_init (zseq 16).

Lemma sample_ring_wf : ring_wf sample_ring.
Proof. exists 4. done. Qed.

Lemma append_keeps_queue_witness :
  let r' := ring_put (ensure_size sample_ring 10 16) 10 (Some 16) in
  ring_get r' (10 - 16) = Some 0 /\ ring_size r' = 32.
Proof.
  split; [|reflexivity].
  destruct (append_keeps_queue sample_ring 10 16 16) as (_ & _ & _ & H).
  - exact sample_ring_wf.
  - vm_compute. split; discriminate.
  - refine (eq_trans (H 16 _) _); [split; discriminate|reflexivity].
Defined.

(** C27: the doubling loop of [grow] terminates and stops as soon as the index
    fits: the new size is a power of two above the index, at least twice the
    old size, and at most twice the larger of the index and the old size. *)
Theorem grow_terminates_tight {A} (r : SizableCircularBuffer A) (item index : Z) :
  ring_wf r -> 0 <= index ->
  let r' := ring_grow r item index in
  (exists k, 0 <= k /\ ring_size r' = 2 ^ k) /\ index < ring_size r' /\
  2 * ring_size r <= ring_size r' <= 2 * Z.max index (ring_size r).
Proof.
  intros Hr Hi. cbn zeta. destruct (grow_size_wf r index Hr Hi) as (k & ? & E & ?).
  unfold ring_size, ring_grow. cbn [mask]. rewrite E.
  split; [exists k; lia|lia].
Qed.

Lemma grow_terminates_tight_witness :
  ring_size (ring_grow sample_ring 10 100) <= 200.
Proof.
  destruct (grow_terminates_tight sample_ring 10 100) as (_ & _ & _ & H).
  - exact sample_ring_wf.
  - discriminate.
  - exact H.
Defined.
