(* ===== verification/Delay.v ===== *)
(** * Delay histories

    [struct DelayHist] of src/utp_internal.cpp: the one-way delay estimator
    kept for each direction and for the round trip.  The second half relates it
    to an ideal estimator over unbounded time stamps, which takes plain minima. *)
From S2P Require Import Prelude Wrap.

Definition CUR_DELAY_SIZE : Z := 3.
Definition DELAY_BASE_HISTORY : Z := 13.

Module DelayHist.

Record t := mk {
  delay_base : Z;                (* uint32 *)
  cur_delay_hist : list Z;       (* uint32 [CUR_DELAY_SIZE] *)
  cur_delay_idx : Z;
  delay_base_hist : list Z;      (* uint32 [DELAY_BASE_HISTORY] *)
  delay_base_idx : Z;
  delay_base_time : Z;           (* uint64 *)
  delay_base_initialized : bool;
}.

(** [void clear(uint64 current_ms)] *)
Definition clear (current_ms : Z) : t := {|
  delay_base_initialized := false;
  delay_base := 0;
  cur_delay_idx := 0;
  delay_base_idx := 0;
  delay_base_time := current_ms;
  cur_delay_hist := replicate (Z.to_nat CUR_DELAY_SIZE) 0;
  delay_base_hist := replicate (Z.to_nat DELAY_BASE_HISTORY) 0 |}.

(** [void shift(const uint32 offset)] *)
Definition shift (offset : Z) (h : t) : t :=
  h <| delay_base_hist ::= fmap (fun b => u32 (b + offset)) |>
    <| delay_base ::= fun b => u32 (b + offset) |>.

(** the four steps of [add_sample] *)
Definition init_base (sample : Z) (h : t) : t :=
  if delay_base_initialized h then h
  else h <| delay_base_hist := replicate (Z.to_nat DELAY_BASE_HISTORY) sample |>
         <| delay_base := sample |>
         <| delay_base_initialized := true |>.

Definition lower_base (sample : Z) (h : t) : t :=
  let h :=
    if wrapping_compare_less sample (znth 0 (delay_base_hist h) (delay_base_idx h))
         TIMESTAMP_MASK
    then h <| delay_base_hist ::= <[Z.to_nat (delay_base_idx h) := sample]> |>
    else h in
  if wrapping_compare_less sample (delay_base h) TIMESTAMP_MASK
  then h <| delay_base := sample |> else h.

Definition record_delay (sample : Z) (h : t) : t :=
  let delay := u32 (sample - delay_base h) in
  h <| cur_delay_hist ::= <[Z.to_nat (cur_delay_idx h) := delay]> |>
    <| cur_delay_idx ::= fun i => (i + 1) mod CUR_DELAY_SIZE |>.

Definition roll_base (sample current_ms : Z) (h : t) : t :=
  if 60 * 1000 <? u64 (current_ms - delay_base_time h) then
    let h := h <| delay_base_time := current_ms |>
               <| delay_base_idx ::= fun i => (i + 1) mod DELAY_BASE_HISTORY |> in
    let h := h <| delay_base_hist ::= <[Z.to_nat (delay_base_idx h) := sample]> |> in
    h <| delay_base :=
           foldl (fun base b => if wrapping_compare_less b base TIMESTAMP_MASK
                                then b else base)
             (znth 0 (delay_base_hist h) 0) (delay_base_hist h) |>
  else h.

(** [void add_sample(const uint32 sample, uint64 current_ms)] *)
Definition add_sample (sample current_ms : Z) (h : t) : t :=
  roll_base sample current_ms (record_delay sample (lower_base sample (init_base sample h))).

(** [uint32 get_value()] *)
Definition get_value (h : t) : Z :=
  foldl (fun value d => tmin d value) UINT_MAX (cur_delay_hist h).

(** ** Well-formedness *)

Record wf (h : t) : Prop := {
  wf_base : is_u32 (delay_base h);
  wf_cur_len : length (cur_delay_hist h) = 3%nat;
  wf_cur : Forall is_u32 (cur_delay_hist h);
  wf_cur_idx : 0 <= cur_delay_idx h < 3;
  wf_hist_len : length (delay_base_hist h) = 13%nat;
  wf_hist : Forall is_u32 (delay_base_hist h);
  wf_hist_idx : 0 <= delay_base_idx h < 13;
  wf_time : is_u64 (delay_base_time h);
}.

Lemma Forall_insert_Z (P : Z -> Prop) l i x :
  Forall P l -> P x -> Forall P (<[i := x]> l).
Proof. intros. by apply Forall_insert. Qed.

Lemma foldl_pick_P (P : Z -> Prop) (better : Z -> Z -> bool) l b :
  P b -> Forall P l ->
  P (foldl (fun base x => if better x base then x else base) b l).
Proof.
  intros Hb Hl. revert b Hb. induction Hl as [|x l Hx Hl IH]; intros b Hb; [done|].
  cbn. apply IH. by case_match.
Qed.

Lemma znth_P (P : Z -> Prop) l i :
  Forall P l -> (Z.to_nat i < length l)%nat -> P (znth 0 l i).
Proof.
  intros Hl Hi. unfold znth. destruct (lookup_lt_is_Some_2 l _ Hi) as [x Hx].
  rewrite Hx. by eapply Forall_lookup_1.
Qed.

Lemma clear_wf now : is_u64 now -> wf (clear now).
Proof.
  intros. split; cbn; try done; try lia;
    repeat (apply Forall_cons; split; [done|]); try apply Forall_nil_2.
Qed.

Lemma shift_wf offset h : wf h -> wf (shift offset h).
Proof.
  destruct h. intros []. cbn in *. split; cbn; try done.
  - apply u32_range.
  - by rewrite length_fmap.
  - apply Forall_fmap, Forall_true. intros. apply u32_range.
Qed.

Lemma init_base_wf sample h : is_u32 sample -> wf h -> wf (init_base sample h).
Proof.
  intros Hs [] . unfold init_base. case_match; [by split|]. split; cbn; try done.
  repeat (apply Forall_cons; split; [done|]). apply Forall_nil_2.
Qed.

Lemma lower_base_wf sample h : is_u32 sample -> wf h -> wf (lower_base sample h).
Proof.
  destruct h. intros Hs []. cbn in *. unfold lower_base. cbn. repeat case_match; split; cbn;
    rewrite ?length_insert; auto using Forall_insert_Z.
Qed.

Lemma record_delay_wf sample h : wf h -> wf (record_delay sample h).
Proof.
  destruct h. intros []. cbn in *. split; cbn; rewrite ?length_insert; auto.
  - apply Forall_insert_Z; [done|apply u32_range].
  - unfold CUR_DELAY_SIZE. dlia.
Qed.

Lemma roll_base_wf sample now h :
  is_u32 sample -> is_u64 now -> wf h -> wf (roll_base sample now h).
Proof.
  destruct h. intros Hs Hn []. cbn in *. unfold roll_base. cbn.
  case_match; [|by split].
  assert (Forall is_u32 (<[Z.to_nat ((delay_base_idx0 + 1) mod DELAY_BASE_HISTORY)
            :=sample]> delay_base_hist0)) by (by apply Forall_insert_Z).
  split; cbn; rewrite ?length_insert; auto.
  - apply foldl_pick_P; [|done]. apply znth_P; [done|]. rewrite length_insert. lia.
  - unfold DELAY_BASE_HISTORY. dlia.
Qed.

Lemma add_sample_wf sample now h :
  is_u32 sample -> is_u64 now -> wf h -> wf (add_sample sample now h).
Proof.
  intros. apply roll_base_wf, record_delay_wf, lower_base_wf, init_base_wf; auto.
Qed.

Lemma get_value_min h v :
  v <= UINT_MAX -> Forall (fun d => v <= d) (cur_delay_hist h) -> v <= get_value h.
Proof.
  unfold get_value. generalize UINT_MAX. induction (cur_delay_hist h) as [|d l IH];
    intros m Hm Hl; [done|].
  apply Forall_cons in Hl as [? ?]. cbn. apply IH; [|done]. rewrite tmin_min. lia.
Qed.

Lemma get_value_le h d : d ∈ cur_delay_hist h -> get_value h <= d.
Proof.
  unfold get_value. generalize UINT_MAX.
  induction (cur_delay_hist h) as [|x l IH]; intros m Hd; [by apply elem_of_nil in Hd|].
  assert (forall l m, foldl (fun value d => tmin d value) m l <= m) as Hle.
  { clear. induction l as [|x l IH]; intros m; cbn; [lia|].
    specialize (IH (tmin x m)). rewrite tmin_min in IH at 2. lia. }
  apply elem_of_cons in Hd as [->|Hd]; cbn; [|by apply IH].
  etrans; [apply Hle|]. rewrite tmin_min. lia.
Qed.

Lemma get_value_u32 h : wf h -> is_u32 (get_value h).
Proof.
  intros []. split.
  - apply get_value_min; [unfold UINT_MAX; lia|].
    eapply Forall_impl; [done|]. intros ? []. lia.
  - unfold get_value. cut (forall (l : list Z) (m : Z), m < 4294967296 ->
      foldl (fun value d => tmin d value) m l < 4294967296); [by intros Hle; apply Hle|].
    induction l as [|x l IH]; intros m Hm; cbn; [done|].
    apply IH. rewrite tmin_min. lia.
Qed.
(** ** The ideal estimator

    The same history over unbounded time stamps: minima are minima and a
    delay is a difference. *)

Definition list_min (d : Z) (l : list Z) : Z := foldl Z.min d l.

Definition ideal_lower (x : Z) (h : t) : t :=
  h <| delay_base_hist ::= alter (Z.min x) (Z.to_nat (delay_base_idx h)) |>
    <| delay_base ::= Z.min x |>.

Definition ideal_record (x : Z) (h : t) : t :=
  h <| cur_delay_hist ::= <[Z.to_nat (cur_delay_idx h) := x - delay_base h]> |>
    <| cur_delay_idx ::= fun i => (i + 1) mod CUR_DELAY_SIZE |>.

Definition ideal_roll (x now : Z) (h : t) : t :=
  if 60 * 1000 <? u64 (now - delay_base_time h) then
    let i := (delay_base_idx h + 1) mod DELAY_BASE_HISTORY in
    let l := <[Z.to_nat i := x]> (delay_base_hist h) in
    h <| delay_base_time := now |> <| delay_base_idx := i |>
      <| delay_base_hist := l |> <| delay_base := list_min (znth 0 l 0) l |>
  else h.

Definition ideal_add_sample (x now : Z) (h : t) : t :=
  ideal_roll x now (ideal_record x (ideal_lower x (init_base x h))).

(** [c] is [a] with every time stamp reduced to 32 bits. *)
Record rep (c a : t) : Prop := {
  rep_base : delay_base c = u32 (delay_base a);
  rep_hist : delay_base_hist c = u32 <$> delay_base_hist a;
  rep_cur : cur_delay_hist c = cur_delay_hist a;
  rep_cur_idx : cur_delay_idx c = cur_delay_idx a;
  rep_idx : delay_base_idx c = delay_base_idx a;
  rep_time : delay_base_time c = delay_base_time a;
  rep_init : delay_base_initialized c = delay_base_initialized a;
}.

(** All time stamps of the history lie within half of the number space. *)
Definition span (lo : Z) (x : Z) : Prop := lo <= x < lo + 2147483648.

Record shape (lo : Z) (h : t) : Prop := {
  sh_base : span lo (delay_base h);
  sh_hist : Forall (span lo) (delay_base_hist h);
  sh_len : length (delay_base_hist h) = 13%nat;
  sh_idx : 0 <= delay_base_idx h < 13;
}.

Lemma wcl_u32 lo x y :
  span lo x -> span lo y ->
  wrapping_compare_less (u32 x) (u32 y) TIMESTAMP_MASK = (x <? y).
Proof.
  unfold span. intros. unfold TIMESTAMP_MASK, u32.
  rewrite (wrapping_compare_less_mod 4294967295 4294967296 mask32).
  apply (wrapping_compare_less_near _ _ mask32).
  change (4294967296 / 2) with 2147483648. lia.
Qed.

Lemma foldl_pick_u32 lo l b :
  span lo b -> Forall (span lo) l ->
  foldl (fun base x => if wrapping_compare_less x base TIMESTAMP_MASK
                       then x else base) (u32 b) (u32 <$> l)
  = u32 (list_min b l).
Proof.
  intros Hb Hl. revert b Hb. induction Hl as [|x l Hx Hl IH]; intros b Hb; [done|].
  cbn. rewrite (wcl_u32 lo) by done. unfold list_min in *. cbn.
  destruct (Z.ltb_spec x b).
  - rewrite IH by done. by rewrite (Z.min_r b x) by lia.
  - rewrite IH by done. by rewrite (Z.min_l b x) by lia.
Qed.

Lemma znth_fmap_u32 l i :
  0 <= i < Z.of_nat (length l) -> znth 0 (u32 <$> l) i = u32 (znth 0 l i).
Proof.
  intros Hi. unfold znth. rewrite list_lookup_fmap.
  destruct (lookup_lt_is_Some_2 l (Z.to_nat i)) as [x ->]; [lia|]. done.
Qed.

Lemma init_rep x c a : rep c a -> rep (init_base (u32 x) c) (init_base x a).
Proof.
  destruct c, a. intros []. cbn in *. subst. unfold init_base. cbn.
  by case_match.
Qed.

Lemma lower_rep lo x c a :
  shape lo a -> span lo x -> rep c a ->
  rep (lower_base (u32 x) c) (ideal_lower x a).
Proof.
  destruct c, a. intros [] Hx []. cbn in *. subst.
  unfold lower_base, ideal_lower. cbn.
  rewrite znth_fmap_u32 by lia.
  set (i := delay_base_idx1) in *. set (l := delay_base_hist1) in *.
  destruct (lookup_lt_is_Some_2 l (Z.to_nat i)) as [y Hy]; [lia|].
  assert (span lo y) by (by eapply Forall_lookup_1).
  assert (Hn : znth 0 l i = y) by (unfold znth; by rewrite Hy).
  rewrite Hn, (wcl_u32 lo) by done.
  assert (Hl : alter (Z.min x) (Z.to_nat i) l
               = if x <? y then <[Z.to_nat i := x]> l else l).
  { apply list_eq. intros k. destruct (decide (Z.to_nat i = k)) as [<-|].
    - rewrite list_lookup_alter_eq, Hy. cbn. destruct (Z.ltb_spec x y).
      + rewrite list_lookup_insert_eq by lia. f_equal. lia.
      + rewrite Hy. f_equal. lia.
    - rewrite list_lookup_alter_ne by done.
      destruct (x <? y); [by rewrite list_lookup_insert_ne|done]. }
  destruct (x <? y); cbn; rewrite (wcl_u32 lo) by done;
    destruct (Z.ltb_spec x delay_base1); split; cbn; rewrite ?Hl; try done;
    rewrite ?list_fmap_insert; try done; f_equal; lia.
Qed.

Lemma span_min lo x y : span lo x -> span lo y -> span lo (Z.min x y).
Proof. unfold span. lia. Qed.

Lemma lower_shape lo x a : shape lo a -> span lo x -> shape lo (ideal_lower x a).
Proof.
  destruct a. intros [] Hx. cbn in *. split; cbn; try done.
  - by apply span_min.
  - apply Forall_alter; [done|]. intros. by apply span_min.
  - by rewrite length_alter.
Qed.

Lemma record_rep x c a :
  rep c a -> 0 <= x - delay_base a < 4294967296 ->
  rep (record_delay (u32 x) c) (ideal_record x a).
Proof.
  destruct c, a. intros [] Hx. cbn in *. subst. split; cbn; try done.
  do 2 f_equal. word_lia.
Qed.

Lemma roll_rep lo x now c a :
  shape lo a -> span lo x -> rep c a ->
  rep (roll_base (u32 x) now c) (ideal_roll x now a).
Proof.
  destruct c, a. intros [] Hx []. cbn in *. subst.
  unfold roll_base, ideal_roll. cbn. case_match; [|done].
  assert (Hl : Forall (span lo) (<[Z.to_nat ((delay_base_idx1 + 1) mod
            DELAY_BASE_HISTORY):=x]> delay_base_hist1))
    by (by apply Forall_insert_Z).
  rewrite <- list_fmap_insert.
  split; cbn; try done.
  rewrite znth_fmap_u32 by (rewrite length_insert; lia).
  apply (foldl_pick_u32 lo); [|done].
  apply znth_P; [done|]. rewrite length_insert. lia.
Qed.

Lemma init_shape lo x a :
  (delay_base_initialized a = true -> shape lo a) ->
  0 <= delay_base_idx a < 13 -> span lo x -> shape lo (init_base x a).
Proof.
  intros Ha Hi Hx. unfold init_base. case_match; [by apply Ha|].
  destruct a. cbn in *. split; cbn; try done.
  repeat (apply Forall_cons; split; [done|]). apply Forall_nil_2.
Qed.

Lemma list_min_spec d l :
  (list_min d l <= d /\ Forall (fun y => list_min d l <= y) l) /\
  (list_min d l = d \/ list_min d l ∈ l).
Proof.
  unfold list_min. revert d. induction l as [|x l IH]; intros d; cbn.
  { split; [split; [lia|apply Forall_nil_2]|by left]. }
  destruct (IH (Z.min d x)) as [[H1 H2] H3]. split; [split; [lia|]|].
  - apply Forall_cons. split; [lia|done].
  - rewrite elem_of_cons. destruct H3 as [H3|]; [|by auto].
    destruct (Z.min_spec d x) as [[_ E]|[_ E]]; rewrite E in *; auto.
Qed.

(** The base is the smallest entry of its history. *)
Definition base_is_min (a : t) : Prop :=
  Forall (fun y => delay_base a <= y) (delay_base_hist a) /\
  delay_base a ∈ delay_base_hist a.

Lemma ideal_roll_min x now a :
  length (delay_base_hist a) = 13%nat -> base_is_min a ->
  base_is_min (ideal_roll x now a).
Proof.
  destruct a. cbn. intros Hl Ha. unfold ideal_roll. cbn. case_match; [|done].
  unfold base_is_min in *. cbn. set (l := <[_ := x]> _).
  destruct (list_min_spec (znth 0 l 0) l) as [[H1 H2] H3]. split; [done|].
  destruct H3 as [->|]; [|done].
  assert (Hl' : length l = 13%nat) by (unfold l; by rewrite length_insert).
  destruct (lookup_lt_is_Some_2 l 0) as [y Hy]; [lia|].
  unfold znth. change (Z.to_nat 0) with 0%nat. rewrite Hy.
  by eapply list_elem_of_lookup_2.
Qed.

Lemma ideal_lower_min x a :
  0 <= delay_base_idx a < Z.of_nat (length (delay_base_hist a)) -> base_is_min a ->
  base_is_min (ideal_lower x a) /\ delay_base (ideal_lower x a) <= x.
Proof.
  destruct a as [b cur ci l i tm ini]. cbn. intros Hi [Hle Hin]. cbn in *.
  split; [|lia]. unfold base_is_min, ideal_lower. cbn.
  assert (Hall : Forall (fun y => x `min` b <= y) l).
  { eapply Forall_impl; [exact Hle|]. cbn. intros. lia. }
  split.
  - apply Forall_alter; [done|]. intros. cbn. rewrite Forall_lookup in Hle.
    specialize (Hle _ _ H). cbn in Hle. lia.
  - destruct (lookup_lt_is_Some_2 l (Z.to_nat i)) as [y Hy]; [lia|].
    rewrite Forall_lookup in Hle. pose proof (Hle _ _ Hy) as Hby. cbn in Hby.
    destruct (Z.le_gt_cases x b).
    + rewrite Z.min_l by lia. apply list_elem_of_lookup. exists (Z.to_nat i).
      rewrite list_lookup_alter_eq, Hy. cbn. f_equal. lia.
    + rewrite Z.min_r by lia. apply list_elem_of_lookup in Hin as [k Hk].
      apply list_elem_of_lookup. exists k.
      destruct (decide (Z.to_nat i = k)) as [<-|].
      * rewrite list_lookup_alter_eq, Hk. cbn. f_equal. lia.
      * by rewrite list_lookup_alter_ne.
Qed.
(** the wrapped image of a step *)
Lemma add_sample_rep lo x now c a :
  rep c a -> (delay_base_initialized a = true -> shape lo a) ->
  0 <= delay_base_idx a < 13 -> span lo x ->
  rep (add_sample (u32 x) now c) (ideal_add_sample x now a).
Proof.
  intros Hrep Ha Hi Hx.
  pose proof (init_shape lo x a Ha Hi Hx) as H1.
  pose proof (lower_shape lo x _ H1 Hx) as H2.
  apply (roll_rep lo); [| done |].
  - destruct H2. unfold ideal_record. destruct (ideal_lower _ _); by split.
  - apply record_rep.
    + apply (lower_rep lo); [done..|]. by apply init_rep.
    + destruct H2 as [Hb _ _ _]. unfold span in *.
      enough (delay_base (ideal_lower x (init_base x a)) <= x) by lia.
      unfold ideal_lower. destruct (init_base x a). cbn. lia.
Qed.

Lemma get_value_in h :
  cur_delay_hist h <> [] -> Forall is_u32 (cur_delay_hist h) -> get_value h ∈ cur_delay_hist h.
Proof.
  intros Hne Hu. assert (E1 : get_value h = list_min UINT_MAX (cur_delay_hist h)).
  { unfold get_value, list_min. generalize UINT_MAX. induction (cur_delay_hist h) as [|d l IH]; [done|].
    intros m. cbn. apply Forall_cons in Hu as [_ Hu]. destruct l as [|e l].
    - cbn. rewrite tmin_min. lia.
    - rewrite IH by done. f_equal. rewrite tmin_min. lia. }
  rewrite E1. destruct (list_min_spec UINT_MAX (cur_delay_hist h)) as [[_ H2] [H3|H3]]; [|done].
  rewrite H3 in *. destruct (cur_delay_hist h) as [|d l]; [done|].
  apply Forall_cons in H2 as [H2 _], Hu as [Hu _]. apply elem_of_cons. left.
  unfold UINT_MAX, is_u32 in *. lia.
Qed.

(** the history after the sample [x]: it lowers the entry of the current minute, and
    after a minute it starts the next one *)
Definition next_history (x now : Z) (c : t) (hs : list Z) : list Z :=
  let hs := if delay_base_initialized c
            then alter (Z.min x) (Z.to_nat (delay_base_idx c)) hs else replicate 13 x in
  if 60 * 1000 <? u64 (now - delay_base_time c)
  then <[Z.to_nat ((delay_base_idx c + 1) mod 13) := x]> hs else hs.

(** in the ideal history the base stays the smallest entry, and the delay recorded is
    how far the sample lies above it *)
Lemma ideal_add_sample_min (x now : Z) (a : t) :
  (delay_base_initialized a = true -> base_is_min a) ->
  length (delay_base_hist a) = 13%nat -> 0 <= delay_base_idx a < 13 ->
  base_is_min (ideal_add_sample x now a) /\
  cur_delay_hist (ideal_add_sample x now a) =
    <[Z.to_nat (cur_delay_idx a) := x - Z.min x (if delay_base_initialized a then delay_base a else x)]>
      (cur_delay_hist a) /\
  delay_base_hist (ideal_add_sample x now a) = next_history x now a (delay_base_hist a).
Proof.
  intros Hmin Hl Hi.
  assert (H0 : base_is_min (init_base x a) /\ length (delay_base_hist (init_base x a)) = 13%nat /\
    delay_base_idx (init_base x a) = delay_base_idx a).
  { destruct a. cbn in *. unfold init_base. cbn. destruct delay_base_initialized0; [by auto|].
    split_and!; try done. split; cbn; [|left].
    repeat (apply Forall_cons; split; [lia|]). apply Forall_nil_2. }
  destruct H0 as (Hm & Hl' & Hi').
  destruct (ideal_lower_min x (init_base x a)) as [Hlow Hle]; [by rewrite Hl', Hi'|done|].
  split; [|split].
  - apply ideal_roll_min.
    + destruct (init_base x a). cbn in *. by rewrite length_alter.
    + unfold ideal_record. by destruct (ideal_lower x (init_base x a)).
  - assert (forall h, cur_delay_hist (ideal_roll x now h) = cur_delay_hist h) as Hr.
    { intros h. unfold ideal_roll. by destruct (_ <? _), h. }
    unfold ideal_add_sample. rewrite Hr. unfold init_base. by destruct a, delay_base_initialized0.
  - assert (Hr : forall h, delay_base_hist (ideal_roll x now (ideal_record x (ideal_lower x h))) =
      let l := alter (Z.min x) (Z.to_nat (delay_base_idx h)) (delay_base_hist h) in
      if 60 * 1000 <? u64 (now - delay_base_time h)
      then <[Z.to_nat ((delay_base_idx h + 1) mod 13) := x]> l else l).
    { intros []. unfold ideal_roll. cbn. by case_match. }
    unfold ideal_add_sample, next_history. rewrite Hr, Hi'. cbn zeta. f_equal.
    replace (delay_base_time (init_base x a)) with (delay_base_time a)
      by (unfold init_base; by destruct a, delay_base_initialized0).
    replace (alter _ _ (delay_base_hist (init_base x a))) with
      (if delay_base_initialized a then alter (Z.min x) (Z.to_nat (delay_base_idx a)) (delay_base_hist a)
       else replicate 13 x); [done|].
    unfold init_base. destruct (delay_base_initialized a) eqn:Ei; [done|].
    replace (delay_base_hist _) with (replicate 13 x) by by destruct a.
    rewrite (list_alter_ext _ id _ (replicate 13 x)); [by rewrite list_alter_id| |done].
    intros y [-> _]%lookup_replicate. cbn. lia.
Qed.

End DelayHist.

Import DelayHist.

(** C32: the 32-bit estimator implements the ideal one.  As long as all the time
    stamps of the history and the new sample lie within half of the 32-bit
    space, adding the wrapped sample to the wrapped history gives the wrapped
    image of adding the sample to the unbounded history, where every
    comparison is the plain order and every delay a plain difference. *)
Theorem add_sample_refines (lo x now : Z) (c a : t) :
  rep c a -> (delay_base_initialized a = true -> shape lo a) ->
  0 <= delay_base_idx a < 13 -> span lo x ->
  rep (add_sample (u32 x) now c) (ideal_add_sample x now a).
Proof. apply add_sample_rep. Qed.

Lemma add_sample_refines_witness :
  let c := add_sample (u32 (-100)) 5 (clear 5) in
  let a := ideal_add_sample (-100) 5 (clear 5) in
  rep (add_sample (u32 40) 6 c) (ideal_add_sample 40 6 a) /\
  cur_delay_hist (add_sample (u32 40) 6 c) = [0; 140; 0].
Proof.
  split; [|reflexivity].
  apply (add_sample_refines (-100) 40).
  - split; reflexivity.
  - intros _. split; try reflexivity.
    + split; [discriminate|reflexivity].
    + repeat (apply Forall_cons; split; [split; [discriminate|reflexivity]|]).
      apply Forall_nil_2.
    + split; [discriminate|reflexivity].
  - split; [discriminate|reflexivity].
  - split; [discriminate|reflexivity].
Defined.

(** the base history of [c] stands for the true times [hs], the least of which is [b] *)
Record remembers (lo : Z) (c : t) (b : Z) (hs : list Z) : Prop := {
  rm_base : delay_base c = u32 b;
  rm_hist : delay_base_hist c = u32 <$> hs;
  rm_len : length hs = 13%nat;
  rm_span : Forall (span lo) hs;
  rm_least : Forall (fun y => b <= y) hs;
  rm_in : b ∈ hs;
}.

Lemma next_history_span lo x now c hs :
  (delay_base_initialized c = true -> length hs = 13%nat /\ Forall (span lo) hs) -> span lo x ->
  length (next_history x now c hs) = 13%nat /\ Forall (span lo) (next_history x now c hs).
Proof.
  intros Hh Hx. unfold next_history. set (l := if delay_base_initialized c then _ else _).
  assert (Hl : length l = 13%nat /\ Forall (span lo) l).
  { subst l. destruct (delay_base_initialized c); [|split; [done|by apply Forall_replicate]].
    destruct (Hh eq_refl) as [H1 H2]. split; [by rewrite length_alter|].
    apply Forall_alter; [done|]. intros. by apply span_min. }
  destruct Hl. case_match; [|done]. split; [by rewrite length_insert|]. by apply Forall_insert_Z.
Qed.

(** the unbounded history that [c] stands for *)
Definition ideal_of (b : Z) (hs : list Z) (c : t) : t :=
  if delay_base_initialized c then c <| delay_base := b |> <| delay_base_hist := hs |> else c.

Lemma ideal_of_rep lo b hs c :
  wf c -> (delay_base_initialized c = true -> remembers lo c b hs) ->
  rep c (ideal_of b hs c) /\ length (delay_base_hist (ideal_of b hs c)) = 13%nat /\
  (delay_base_initialized c = true -> base_is_min (ideal_of b hs c) /\ shape lo (ideal_of b hs c)).
Proof.
  intros Hwf Hc. unfold ideal_of. pose proof (wf_hist_idx _ Hwf). destruct (delay_base_initialized c).
  - destruct (Hc eq_refl) as [R1 R2 R3 R4 R5 R6]. destruct c. cbn in *. split; [by split|]. split; [done|]. intros _. split; [by split|].
    split; cbn; try done. by eapply Forall_forall.
  - split_and!; [|apply Hwf|done]. split; try done.
    + symmetry. apply u32_small, Hwf.
    + rewrite <- (list_fmap_id (delay_base_hist c)) at 1. apply list_fmap_ext. intros k y Hy.
      symmetry. apply u32_small. eapply Forall_lookup_1; [apply (wf_hist _ Hwf)|exact Hy].
Qed.

Lemma ideal_of_fields b hs c x now :
  let a := ideal_of b hs c in
  delay_base_initialized a = delay_base_initialized c /\ delay_base_idx a = delay_base_idx c /\
  cur_delay_idx a = cur_delay_idx c /\ cur_delay_hist a = cur_delay_hist c /\
  (if delay_base_initialized a then delay_base a else x) = (if delay_base_initialized c then b else x) /\
  next_history x now a (delay_base_hist a) = next_history x now c hs.
Proof. unfold ideal_of, next_history. destruct c as [? ? ? ? ? ? []]; by cbn. Qed.


