(* ===== verification/DelayAvg.v ===== *)
(** * The average delay and the clock drift estimate

    The part of [utp_process_incoming] (src/utp_internal.cpp) that keeps a
    five-second average of the delay samples reported by the peer.  The samples
    come from a field the peer chooses, so what is proved is that no choice of
    samples fails an assertion or overflows a signed integer. *)
From S2P Require Import Prelude Wrap.

(** (INT_MAX / 4) *)
Definition MAX_AVERAGE_DELAY_SAMPLE : Z := 536870911.

Record AvgState := mkAvg {
  average_delay : Z;           (* int32 *)
  current_delay_sum : Z;       (* int64 *)
  current_delay_samples : Z;   (* int *)
  average_delay_base : Z;      (* uint32 *)
  average_sample_time : Z;     (* uint64 *)
  clock_drift : Z;             (* int32 *)
  clock_drift_raw : Z;         (* int32 *)
}.

(** the clamped signed distance of a sample from the base *)
Definition average_delay_sample (base actual_delay : Z) : Z :=
  let dist_down := u32 (base - actual_delay) in
  let dist_up := u32 (actual_delay - base) in
  if dist_up <? dist_down then tmin dist_up MAX_AVERAGE_DELAY_SAMPLE
  else i64 (- tmin dist_down MAX_AVERAGE_DELAY_SAMPLE).

Definition add_delay_sample (actual_delay : Z) (a : AvgState) : AvgState :=
  let a := if average_delay_base a =? 0
           then a <| average_delay_base := actual_delay |> else a in
  a <| current_delay_sum ::=
         fun s => i64 (s + average_delay_sample (average_delay_base a) actual_delay) |>
    <| current_delay_samples ::= fun n => i32 (n + 1) |>.

(** the amount that brings both samples to the same side of zero *)
Definition normalize_adjust (min_sample max_sample : Z) : Z :=
  if 0 <? min_sample then i32 (- min_sample)
  else if max_sample <? 0 then i32 (- max_sample)
  else 0.

(** closing a five-second slot *)
Definition close_slot (a : AvgState) : AvgState :=
  let prev_average_delay := average_delay a in
  let a := a <| average_delay :=
                  i32 (Z.quot (current_delay_sum a) (current_delay_samples a)) |>
             <| average_sample_time ::= fun t => u64 (t + 5000) |>
             <| current_delay_sum := 0 |>
             <| current_delay_samples := 0 |> in
  let min_sample := tmin prev_average_delay (average_delay a) in
  let max_sample := tmax prev_average_delay (average_delay a) in
  let adjust := normalize_adjust min_sample max_sample in
  let a := a <| average_delay_base ::= fun b => u32 (b - adjust) |>
             <| average_delay ::= fun d => i32 (d + adjust) |> in
  let prev_average_delay := i32 (prev_average_delay + adjust) in
  let drift := i32 (average_delay a - prev_average_delay) in
  a <| clock_drift ::= fun cd => i32 (Z.quot (i64 (cd * 7 + drift)) 8) |>
    <| clock_drift_raw := drift |>.

(** the block guarded by [actual_delay != 0], with its two assertions *)
Definition update_average (actual_delay current_ms : Z) (a : AvgState) :
    fault + AvgState :=
  let a := add_delay_sample actual_delay a in
  if average_sample_time a <? current_ms then
    if negb (Z.quot (current_delay_sum a) (current_delay_samples a) <? INT_MAX)
    then inl (AssertFailed 2086)
    else if negb (- INT_MAX <? Z.quot (current_delay_sum a) (current_delay_samples a))
    then inl (AssertFailed 2087)
    else inr (close_slot a)
  else inr a.

(** ** Bounds *)

Record avg_ok (a : AvgState) : Prop := {
  ok_avg : Z.abs (average_delay a) <= MAX_AVERAGE_DELAY_SAMPLE;
  ok_samples : 0 <= current_delay_samples a <= INT_MAX;
  ok_sum : Z.abs (current_delay_sum a)
           <= current_delay_samples a * MAX_AVERAGE_DELAY_SAMPLE;
  ok_base : is_u32 (average_delay_base a);
  ok_drift : Z.abs (clock_drift a) <= 2 * MAX_AVERAGE_DELAY_SAMPLE;
}.

Lemma i64_small z : -9223372036854775808 <= z < 9223372036854775808 -> i64 z = z.
Proof. word_lia. Qed.

Lemma average_delay_sample_bound base d :
  Z.abs (average_delay_sample base d) <= MAX_AVERAGE_DELAY_SAMPLE.
Proof.
  unfold average_delay_sample, MAX_AVERAGE_DELAY_SAMPLE.
  rewrite !tmin_min. pose proof (u32_range (base - d)).
  pose proof (u32_range (d - base)). unfold is_u32 in *.
  case_match; [lia|]. rewrite i64_small; lia.
Qed.

Lemma add_delay_sample_ok d a :
  is_u32 d -> avg_ok a -> current_delay_samples a < INT_MAX ->
  let a' := add_delay_sample d a in
  let base := if average_delay_base a =? 0 then d else average_delay_base a in
  avg_ok a' /\
  current_delay_samples a' = current_delay_samples a + 1 /\
  current_delay_sum a' = current_delay_sum a + average_delay_sample base d /\
  average_delay_base a' = base /\
  average_delay a' = average_delay a /\ clock_drift a' = clock_drift a.
Proof.
  destruct a as [av su n b t cd cr]. intros Hd [] Hn. cbn in *.
  unfold add_delay_sample. cbn.
  destruct (b =? 0); cbn;
    [pose proof (average_delay_sample_bound d d)|pose proof (average_delay_sample_bound b d)];
    unfold MAX_AVERAGE_DELAY_SAMPLE, INT_MAX in *;
    rewrite i64_small, i32_small by (unfold is_i32; nia);
    split_and!; try done; split; cbn; unfold MAX_AVERAGE_DELAY_SAMPLE, INT_MAX;
    try done; nia.
Qed.

Lemma quot_bound s n b : 0 < n -> 0 <= b -> Z.abs s <= n * b -> Z.abs (Z.quot s n) <= b.
Proof.
  intros Hn Hb Hs. rewrite <- Z.quot_abs by lia. rewrite (Z.abs_eq n) by lia.
  apply Z.quot_le_upper_bound; lia.
Qed.

Lemma normalize_adjust_spec x y :
  Z.abs x <= MAX_AVERAGE_DELAY_SAMPLE -> Z.abs y <= MAX_AVERAGE_DELAY_SAMPLE ->
  let adj := normalize_adjust (tmin x y) (tmax x y) in
  Z.abs (x + adj) <= MAX_AVERAGE_DELAY_SAMPLE /\
  Z.abs (y + adj) <= MAX_AVERAGE_DELAY_SAMPLE /\
  Z.min (x + adj) (y + adj) <= 0 <= Z.max (x + adj) (y + adj).
Proof.
  unfold normalize_adjust, MAX_AVERAGE_DELAY_SAMPLE. rewrite tmin_min, tmax_max.
  intros. rewrite !i32_small by (unfold is_i32; lia).
  repeat case_match; lia.
Qed.

(** Closing a slot with at least one sample in it, every value computed without
    wrapping. *)
Lemma close_slot_spec a :
  avg_ok a -> 0 < current_delay_samples a ->
  let new := Z.quot (current_delay_sum a) (current_delay_samples a) in
  let a' := close_slot a in
  avg_ok a' /\ Z.abs new <= MAX_AVERAGE_DELAY_SAMPLE /\
  current_delay_samples a' = 0 /\ current_delay_sum a' = 0 /\
  clock_drift_raw a' = new - average_delay a /\
  clock_drift a' = Z.quot (clock_drift a * 7 + (new - average_delay a)) 8 /\
  average_delay_base a' = u32 (average_delay_base a + new - average_delay a').
Proof.
  destruct a as [av su n b t cd cr]. intros [] Hn. cbn in *.
  assert (Hnew : Z.abs (Z.quot su n) <= MAX_AVERAGE_DELAY_SAMPLE).
  { apply quot_bound; unfold MAX_AVERAGE_DELAY_SAMPLE in *; lia. }
  unfold close_slot. cbn. set (new := Z.quot su n) in *.
  destruct (normalize_adjust_spec av new) as (H1 & H2 & _); [done..|].
  rewrite (i32_small new) by (unfold is_i32, MAX_AVERAGE_DELAY_SAMPLE in *; lia).
  set (adj := normalize_adjust _ _) in *.
  rewrite (i32_small (new + adj)), (i32_small (av + adj))
    by (unfold is_i32, MAX_AVERAGE_DELAY_SAMPLE in *; lia).
  replace (new + adj - (av + adj)) with (new - av) by lia.
  rewrite (i32_small (new - av)) by (unfold is_i32, MAX_AVERAGE_DELAY_SAMPLE in *; lia).
  rewrite i64_small by (unfold MAX_AVERAGE_DELAY_SAMPLE in *; lia).
  assert (Hcd : Z.abs (Z.quot (cd * 7 + (new - av)) 8) <= 2 * MAX_AVERAGE_DELAY_SAMPLE).
  { apply quot_bound; unfold MAX_AVERAGE_DELAY_SAMPLE in *; lia. }
  rewrite (i32_small (Z.quot _ 8)) by (unfold is_i32, MAX_AVERAGE_DELAY_SAMPLE in *; lia).
  split_and!; try done.
  - split; cbn; try done. apply u32_range.
  - f_equal. lia.
Qed.

(** C34: no sequence of delay samples, however the peer chooses them, aborts the
    process or overflows a signed integer in the averaging code.  From a state
    within the bounds (every reachable one), and as long as fewer than 2^31
    samples fall in one five-second slot, taking a sample fails neither
    assertion and ends within the bounds again; when it closes a slot, the raw
    drift is exactly the difference of the two averages and the drift estimate
    is its rolling average, all computed without wrap-around. *)
Theorem update_average_safe (actual_delay current_ms : Z) (a : AvgState) :
  is_u32 actual_delay -> avg_ok a -> current_delay_samples a < INT_MAX ->
  exists a', update_average actual_delay current_ms a = inr a' /\ avg_ok a' /\
    (average_sample_time a < current_ms ->
     let s := add_delay_sample actual_delay a in
     let new := Z.quot (current_delay_sum s) (current_delay_samples a + 1) in
     clock_drift_raw a' = new - average_delay a /\
     clock_drift a' = Z.quot (clock_drift a * 7 + (new - average_delay a)) 8 /\
     current_delay_samples a' = 0).
Proof.
  intros Hd Ha Hn.
  destruct (add_delay_sample_ok actual_delay a Hd Ha Hn)
    as (Hok & Hs & _ & _ & Hav & Hcd).
  assert (Ht : average_sample_time (add_delay_sample actual_delay a)
               = average_sample_time a).
  { destruct a. unfold add_delay_sample. cbn. by destruct (_ =? 0). }
  unfold update_average. rewrite Ht. case_match eqn:E.
  - assert (0 < current_delay_samples (add_delay_sample actual_delay a)) as Hpos
      by (destruct Ha; lia).
    destruct (close_slot_spec _ Hok Hpos) as (Hok' & Hnew & Hz & _ & Hr & Hc & _).
    unfold MAX_AVERAGE_DELAY_SAMPLE, INT_MAX in *.
    destruct (Z.ltb_spec (Z.quot (current_delay_sum (add_delay_sample actual_delay a))
      (current_delay_samples (add_delay_sample actual_delay a))) 2147483647); [|lia].
    destruct (Z.ltb_spec (- (2147483647))
      (Z.quot (current_delay_sum (add_delay_sample actual_delay a))
      (current_delay_samples (add_delay_sample actual_delay a)))); [|lia].
    exists (close_slot (add_delay_sample actual_delay a)).
    split; [done|]. split; [done|]. intros _. cbn zeta.
    rewrite <- Hs, Hr, Hc, Hav, Hcd. auto.
  - apply Z.ltb_ge in E. eexists. split; [done|]. split; [done|]. lia.
Qed.

Definition avg_init : AvgState := mkAvg 0 0 0 0 5000 0 0.

(** The crafted sample of the 1.5.1 release note: exactly half the number space
    away from the base. *)
Lemma update_average_safe_witness :
  avg_ok avg_init /\
  exists a', update_average 1 100 avg_init = inr a' /\
  exists a'', update_average 2147483649 6000 a' = inr a'' /\ avg_ok a'' /\
    clock_drift_raw a'' = -268435455.
Proof.
  assert (H : avg_ok avg_init)
    by (split; try discriminate; split; discriminate || reflexivity).
  split; [exact H|]. eexists. split; [reflexivity|].
  destruct (update_average_safe 2147483649 6000
    (add_delay_sample 1 avg_init)) as (a'' & E & Hok & Hd).
  - split; [discriminate|reflexivity].
  - destruct (update_average_safe 1 100 avg_init) as (a' & E & Hok & _);
      [split; [discriminate|reflexivity]|exact H|reflexivity|].
    injection E as <-. exact Hok.
  - reflexivity.
  - exists a''. split; [exact E|]. split; [exact Hok|].
    destruct (Hd eq_refl) as (Hr & _ & _). rewrite Hr. reflexivity.
Defined.
