(* ===== verification/Doubles.v ===== *)
(** * Doubles

    The few double operations the congestion controller of
    src/utp_internal.cpp uses, on the Standard Library's executable binary64
    numbers (round to nearest even). *)
From S2P Require Import Prelude.
From Stdlib Require Import SpecFloat.

Definition double := spec_float.
Definition d_prec : Z := 53.
Definition d_emax : Z := 1024.

(** conversions from the integer types, and the literals of the source *)
Definition d_of_Z (z : Z) : double := binary_normalize d_prec d_emax z 0 false.
Definition d_half : double := S754_finite false 4503599627370496 (-53).
Definition d_0_9 : double := S754_finite false 8106479329266893 (-53).

Definition d_add : double -> double -> double := SFadd d_prec d_emax.
Definition d_mul : double -> double -> double := SFmul d_prec d_emax.
Definition d_div : double -> double -> double := SFdiv d_prec d_emax.
Definition d_ltb : double -> double -> bool := SFltb.
Definition d_leb : double -> double -> bool := SFleb.

(** conversion to size_t: truncation (undefined in C++ for values that do not
    fit; NaN and infinities are given 0 here) *)
Definition d_to_size (d : double) : Z :=
  match d with
  | S754_finite s m e =>
      let a := if 0 <=? e then Zpos m * 2 ^ e else Zpos m / 2 ^ (- e) in
      u64 (if s then - a else a)
  | _ => 0
  end.

(** the same to a signed 64-bit integer *)
Definition d_to_i64 (d : double) : Z := i64 (d_to_size d).

Lemma d_to_size_range d : is_u64 (d_to_size d).
Proof. destruct d; cbn; try (unfold is_u64; lia). apply u64_range. Qed.
