(* ===== verification/Arrays.v ===== *)
(** * Array<T>, the growable array of src/utp_templates.h

    The memory block is a list of [alloc] cells, [None] while uninitialised, and
    [count] of them are in use.  [arr_rep a l] says that [a] holds the list [l];
    every operation is characterised on that list.  The context keeps two such
    arrays: ack_sockets and rst_info. *)
From S2P Require Import Prelude.

Record Array (T : Type) := mkArray { mem : list (option T); acount : Z }.
Arguments mkArray {T} mem acount.
Arguments mem {T} a.
Arguments acount {T} a.

Section Array.
Context {T : Type}.
Implicit Types (a : Array T) (l : list T) (t : T).

Definition minsize : Z := 16.

Definition arr_init : Array T := mkArray [] 0.
Definition GetCount a : Z := acount a.
Definition GetAlloc a : Z := Z.of_nat (length (mem a)).
Definition SetCount (c : Z) a : Array T := mkArray (mem a) c.

(** realloc keeps what fits; Resize(0) frees the block and resets *)
Definition Resize (n : Z) a : Array T :=
  if n =? 0 then arr_init
  else mkArray (take (Z.to_nat n) (mem a)
                ++ replicate (Z.to_nat n - length (mem a)) None) (acount a).

Definition Grow a : Array T := Resize (Z.max minsize (GetAlloc a * 2)) a.

Definition arr_at a (offset : Z) : option T := mjoin (mem a !! Z.to_nat offset).
Definition arr_put (offset : Z) t a : Array T :=
  mkArray (<[Z.to_nat offset := Some t]> (mem a)) (acount a).

Definition Append t a : Array T * Z :=
  let a := if GetAlloc a <=? acount a then Grow a else a in
  let r := acount a in
  (arr_put r t (SetCount (r + 1) a), r).

Definition Compact a : Array T := Resize (acount a) a.

(** The element at [index] is replaced by the last one; was there another?  [None] is
    the failing assertion, or a read of an uninitialised cell. *)
Definition MoveUpLast (index : Z) a : option (Array T * bool) :=
  if negb (index <? acount a) then None else
  let c := acount a - 1 in
  let a := SetCount c a in
  if index =? c then Some (a, false)
  else t ← arr_at a c; Some (arr_put index t a, true).

Definition Clear a : Array T := SetCount 0 a.
Definition Free a : Array T := arr_init.

(** the loop of LookupElement: [n] elements from [i] on; (size_t)-1 if none is [v] *)
Definition SIZE_MAX : Z := u64 (-1).
Fixpoint lookup_from `{EqDecision T} (n : nat) (i : Z) (v : T) a : Z :=
  match n with
  | O => SIZE_MAX
  | S n => if decide (arr_at a i = Some v) then i else lookup_from n (i + 1) v a
  end.
Definition LookupElement `{EqDecision T} (v : T) a : Z := lookup_from (Z.to_nat (acount a)) 0 v a.
Definition HasElement `{EqDecision T} (v : T) a : bool := negb (LookupElement v a =? SIZE_MAX).

(** [qsort] on the elements from [start] to [fin]; the C library's function is a
    parameter *)
Definition Sort (qsort : list (option T) -> list (option T)) (start fin : Z) a : Array T :=
  let s := Z.to_nat start in
  let n := Z.to_nat (fin - start) in
  mkArray (take s (mem a) ++ qsort (take n (drop s (mem a))) ++ drop (s + n) (mem a)) (acount a).

(** ** The list an array holds *)
Definition arr_rep a l : Prop :=
  acount a = Z.of_nat (length l) /\ take (length l) (mem a) = Some <$> l.

Lemma arr_rep_init : arr_rep arr_init [].
Proof. done. Qed.

Lemma arr_rep_count a l : arr_rep a l -> acount a = Z.of_nat (length l).
Proof. by intros []. Qed.

Lemma arr_rep_inj a l l' : arr_rep a l -> arr_rep a l' -> l = l'.
Proof.
  intros [C1 H1] [C2 H2]. assert (length l = length l') as El by lia.
  rewrite El, H2 in H1. symmetry. by apply (inj (fmap Some)) in H1.
Qed.

Lemma arr_rep_alloc a l : arr_rep a l -> (length l <= length (mem a))%nat.
Proof.
  intros [_ Ht]. apply (f_equal length) in Ht.
  rewrite length_take, length_fmap in Ht. lia.
Qed.

Lemma arr_rep_cell a l (k : nat) :
  arr_rep a l -> (k < length l)%nat -> mem a !! k = Some <$> (l !! k).
Proof.
  intros [_ Ht] Hk. rewrite <- (lookup_take_lt (mem a) (length l)) by lia.
  by rewrite Ht, list_lookup_fmap.
Qed.

Lemma arr_rep_at a l i t :
  arr_rep a l -> 0 <= i -> l !! Z.to_nat i = Some t -> arr_at a i = Some t.
Proof.
  intros Ha Hi Ht. unfold arr_at.
  rewrite (arr_rep_cell a l) by (done || by eapply lookup_lt_Some). by rewrite Ht.
Qed.

Lemma arr_rep_put a l i t :
  arr_rep a l -> 0 <= i < Z.of_nat (length l) ->
  arr_rep (arr_put i t a) (<[Z.to_nat i := t]> l).
Proof.
  intros [Hc Ht] Hi. split; [by rewrite length_insert|]. cbn.
  rewrite length_insert, list_fmap_insert, <- Ht. by rewrite take_insert_lt by lia.
Qed.

Lemma arr_rep_grow a l : arr_rep a l -> arr_rep (Grow a) l /\ GetAlloc a < GetAlloc (Grow a).
Proof.
  intros [Hc Ht]. unfold Grow, Resize, GetAlloc, minsize.
  pose proof (arr_rep_alloc a l (conj Hc Ht)) as Hl.
  destruct (Z.eqb_spec (Z.max 16 (Z.of_nat (length (mem a)) * 2)) 0); [lia|]. cbn.
  rewrite length_app, length_take, length_replicate. split; [|lia].
  split; [done|]. cbn. rewrite (take_ge (mem a)) by lia. by rewrite take_app_le.
Qed.

Lemma Append_rep a l t :
  arr_rep a l ->
  arr_rep (fst (Append t a)) (l ++ [t]) /\ snd (Append t a) = Z.of_nat (length l).
Proof.
  intros Ha. unfold Append.
  set (a1 := if _ <=? _ then Grow a else a).
  assert (H1 : arr_rep a1 l /\ Z.of_nat (length l) < GetAlloc a1).
  { unfold a1. pose proof (arr_rep_count a l Ha). pose proof (arr_rep_alloc a l Ha).
    destruct (Z.leb_spec (GetAlloc a) (acount a)); unfold GetAlloc in *; [|split; [done|lia]].
    destruct (arr_rep_grow a l Ha) as [? ?]. split; [done|]. unfold GetAlloc in *. lia. }
  clearbody a1. destruct H1 as [[Hc Ht] Hroom]. cbn. split; [|done].
  split; cbn; [rewrite length_app; cbn; lia|].
  rewrite length_app, Hc, Nat2Z.id, fmap_app, <- Ht. cbn. unfold GetAlloc in Hroom.
  rewrite Nat.add_1_r, (take_S_r _ _ (Some t)).
  - by rewrite take_insert_ge by lia.
  - apply list_lookup_insert_eq. lia.
Qed.

(** removal: the last element takes the place of the removed one *)
Definition swap_remove (k : nat) (l : list T) : list T :=
  match last l with
  | Some t => take (length l - 1) (<[k := t]> l)
  | None => []
  end.

Lemma MoveUpLast_rep a l i :
  arr_rep a l -> 0 <= i < Z.of_nat (length l) ->
  exists a' b, MoveUpLast i a = Some (a', b) /\ arr_rep a' (swap_remove (Z.to_nat i) l).
Proof.
  intros Ha Hi. pose proof Ha as [Hc Ht]. unfold MoveUpLast, swap_remove.
  rewrite (proj2 (Z.ltb_lt _ _)) by lia. cbn [negb].
  destruct (last l) as [t|] eqn:El; [|apply last_None in El; subst; cbn in Hi; lia].
  rewrite Hc, last_lookup in *. replace (Nat.pred (length l)) with (length l - 1)%nat in El by lia.
  assert (Hcell : mem a !! (length l - 1)%nat = Some (Some t))
    by (rewrite (arr_rep_cell a l) by (done || lia); by rewrite El).
  assert (Htake : take (length l - 1) (mem a) = Some <$> take (length l - 1) l).
  { rewrite fmap_take, <- Ht, take_take. f_equal. lia. }
  destruct (Z.eqb_spec i (Z.of_nat (length l) - 1)) as [->|Hne].
  - eexists _, _. split; [done|]. split; cbn; [rewrite length_take, length_insert; lia|].
    rewrite length_take, length_insert, Nat.min_l by lia.
    rewrite (take_insert_ge _ _ (Z.to_nat _)) by lia. done.
  - unfold arr_at. cbn.
    replace (Z.to_nat (Z.of_nat (length l) - 1)) with (length l - 1)%nat by lia.
    rewrite Hcell. cbn. eexists _, _. split; [done|]. split; cbn; [rewrite length_take, length_insert; lia|].
    rewrite length_take, length_insert, Nat.min_l by lia.
    by rewrite !take_insert_lt, list_fmap_insert, Htake by lia.
Qed.

Lemma Clear_rep a : arr_rep (Clear a) [].
Proof. done. Qed.

(** searching finds the first occurrence *)
Lemma lookup_from_spec `{EqDecision T} a l v : forall (n : nat) (k : nat),
  arr_rep a l -> (k + n = length l)%nat ->
  (exists i, lookup_from n (Z.of_nat k) v a = Z.of_nat i /\ (k <= i)%nat /\ l !! i = Some v /\
     forall j, (k <= j < i)%nat -> l !! j <> Some v) \/
  lookup_from n (Z.of_nat k) v a = SIZE_MAX /\ forall j, (k <= j)%nat -> l !! j <> Some v.
Proof.
  induction n as [|n IH]; intros k Ha Hk; cbn [lookup_from].
  - right. split; [done|]. intros j Hj. by rewrite lookup_ge_None_2 by lia.
  - destruct (lookup_lt_is_Some_2 l k) as [x Hx]; [lia|].
    assert (Hat : arr_at a (Z.of_nat k) = Some x)
      by (apply (arr_rep_at a l); [done|lia|by rewrite Nat2Z.id]).
    rewrite Hat. case_decide as Hv.
    + injection Hv as ->. left. exists k. split_and!; [done|lia|done|intros j; lia].
    + replace (Z.of_nat k + 1) with (Z.of_nat (S k)) by lia.
      assert (Hne : l !! k <> Some v) by (by rewrite Hx; intros [=->]).
      destruct (IH (S k) Ha ltac:(lia)) as [(i & E1 & E2 & E3 & E4)|[E1 E2]].
      * left. exists i. split_and!; [done|lia|done|]. intros j Hj.
        destruct (decide (j = k)) as [->|]; [done|apply E4; lia].
      * right. split; [done|]. intros j Hj. destruct (decide (j = k)) as [->|]; [done|apply E2; lia].
Qed.

Lemma HasElement_spec `{EqDecision T} a l v :
  arr_rep a l -> Z.of_nat (length l) < SIZE_MAX -> HasElement v a = bool_decide (v ∈ l).
Proof.
  intros Ha Hlen. unfold HasElement, LookupElement. rewrite (arr_rep_count a l Ha), Nat2Z.id.
  change 0 with (Z.of_nat 0).
  destruct (lookup_from_spec a l v (length l) 0 Ha eq_refl) as [(i & -> & _ & Hi & _)|[-> Hn]].
  - pose proof (lookup_lt_Some _ _ _ Hi). rewrite bool_decide_true by (by eapply list_elem_of_lookup_2).
    destruct (Z.eqb_spec (Z.of_nat i) SIZE_MAX); [lia|done].
  - rewrite Z.eqb_refl, bool_decide_false; [done|]. intros [j Hj]%list_elem_of_lookup_1.
    apply (Hn j); [lia|done].
Qed.

(** sorting keeps the elements, and only moves those in the range *)
Lemma Sort_rep qsort a l s n :
  (forall x, qsort x ≡ₚ x) -> arr_rep a l -> (s + n <= length l)%nat ->
  exists l', arr_rep (Sort qsort (Z.of_nat s) (Z.of_nat (s + n)) a) (take s l ++ l' ++ drop (s + n) l) /\
    l' ≡ₚ take n (drop s l).
Proof.
  intros Hq Ha Hsn. pose proof Ha as [Hc Ht]. pose proof (arr_rep_alloc a l Ha) as Hl.
  assert (Hcut : take n (drop s (mem a)) = Some <$> take n (drop s l)).
  { rewrite fmap_take, fmap_drop, <- Ht, skipn_firstn_comm, take_take. f_equal. lia. }
  destruct (Permutation_map_inv Some (take n (drop s l)) (l1 := qsort (take n (drop s (mem a)))))
    as (l' & El & Hp); [by rewrite Hq, Hcut|].
  exists l'. split; [|done]. unfold Sort. rewrite Nat2Z.id, Z2Nat.inj_sub, !Nat2Z.id by lia.
  replace (s + n - s)%nat with n by lia. rewrite El.
  assert (Hlen : length l' = n) by (rewrite <- Hp, length_take, length_drop; lia).
  split; cbn.
  - rewrite !length_app, length_take, length_drop, Hlen. lia.
  - rewrite !fmap_app, fmap_take, fmap_drop, <- Ht, !length_app, length_take, length_drop, Hlen, take_take.
    replace (s `min` length l + (n + (length l - (s + n))))%nat with (s + (n + (length l - (s + n))))%nat by lia.
    rewrite (Nat.min_l s) by lia. rewrite take_app_add' by (rewrite length_take; lia). f_equal.
    rewrite take_app_add' by (by rewrite length_map). f_equal. by rewrite skipn_firstn_comm.
Qed.

Lemma Compact_rep a l : arr_rep a l -> arr_rep (Compact a) l.
Proof.
  intros Ha. pose proof Ha as [Hc Ht]. pose proof (arr_rep_alloc a l Ha).
  unfold Compact, Resize. destruct (Z.eqb_spec (acount a) 0) as [E|E].
  - destruct l; [apply arr_rep_init|cbn in *; lia].
  - split; [done|]. cbn. rewrite Hc, Nat2Z.id.
    rewrite take_app_le by (rewrite length_take; lia). by rewrite take_take, Nat.min_id.
Qed.

Lemma length_swap_remove k l :
  (k < length l)%nat -> length (swap_remove k l) = (length l - 1)%nat.
Proof.
  intros Hk. unfold swap_remove. destruct (last l) eqn:E.
  - rewrite length_take, length_insert. lia.
  - apply last_None in E as ->. done.
Qed.

(** what is kept is exactly the other elements *)
Lemma swap_remove_perm k l t :
  l !! k = Some t -> t :: swap_remove k l ≡ₚ l.
Proof.
  intros Hk. unfold swap_remove. destruct (last l) as [x|] eqn:E.
  2: { apply last_None in E as ->. done. }
  apply last_Some in E as [l' ->]. rewrite length_app. cbn.
  replace (length l' + 1 - 1)%nat with (length l') by lia.
  destruct (decide (k < length l')%nat) as [Hlt|Hge].
  - rewrite lookup_app_l in Hk by done.
    rewrite insert_app_l by done.
    rewrite take_app_le by (rewrite length_insert; lia).
    rewrite take_ge by (rewrite length_insert; lia).
    assert (E : l' = take k l' ++ t :: drop (S k) l') by (symmetry; by apply take_drop_middle).
    rewrite insert_take_drop by done. rewrite E at 3.
    rewrite <- (Permutation_cons_append _ x), <- !Permutation_middle. constructor.
  - assert (k = length l') as ->.
    { apply lookup_lt_Some in Hk. rewrite length_app in Hk. cbn in Hk. lia. }
    rewrite lookup_app_r, Nat.sub_diag in Hk by lia. cbn in Hk. injection Hk as ->.
    rewrite insert_app_r_alt, Nat.sub_diag by lia. cbn.
    rewrite take_app_length. by rewrite Permutation_cons_append.
Qed.
End Array.
