(* ===== verification/SockAddr.v ===== *)
(** * Peer addresses and socket keys

    [PackedSockAddr] (src/utp_packedsockaddr.cpp), the hash of memory
    [utp_hash_mem] (src/utp_hash.cpp) and [UTPSocketKey] (src/utp_internal.h).
    A socket address is modelled by its family, its address bytes in network
    order and its port in host order; 32-bit reads are little endian, as on the
    machines the library is built for. *)
From S2P Require Import Prelude.

(** the two families a [SOCKADDR_STORAGE] is used for *)
Inductive sockaddr :=
| SockIn (s_addr : list Z) (sin_port : Z)          (* AF_INET: 4 bytes *)
| SockIn6 (sin6_addr : list Z) (sin6_port : Z).    (* otherwise: 16 bytes *)

Definition AF_INET : Z := 2.
Definition AF_INET6 : Z := 10.

Record PackedSockAddr := mkAddr {
  in6 : list Z;       (* _in._in6[16] *)
  port : Z;           (* _port *)
}.

(** IN6_IS_ADDR_V4MAPPED *)
Definition v4_prefix : list Z := [0;0;0;0;0;0;0;0;0;0;255;255].
Definition is_v4mapped (a : list Z) : bool := bool_decide (take 12 a = v4_prefix).

Definition get_family (a : PackedSockAddr) : Z :=
  if is_v4mapped (in6 a) then AF_INET else AF_INET6.

(** [set(sa, len)] *)
Definition set_addr (sa : sockaddr) : PackedSockAddr :=
  match sa with
  | SockIn s_addr p => mkAddr (v4_prefix ++ s_addr) p
  | SockIn6 a p => mkAddr a p
  end.

Definition get_sockaddr_storage (a : PackedSockAddr) : sockaddr :=
  if get_family a =? AF_INET then SockIn (drop 12 (in6 a)) (port a)
  else SockIn6 (in6 a) (port a).

(** ... and the length it reports: sizeof(sockaddr_in), sizeof(sockaddr_in6) *)
Definition sockaddr_len (sa : sockaddr) : Z := match sa with SockIn _ _ => 16 | SockIn6 _ _ => 28 end.

(** [operator==]: ports, then memcmp *)
Definition addr_eqb (a b : PackedSockAddr) : bool :=
  if negb (port a =? port b) then false else bool_decide (in6 a = in6 b).

(** ** Hash *)

Definition Read32 (b0 b1 b2 b3 : Z) : Z :=
  Z.lor b0 (Z.lor (Z.shiftl b1 8) (Z.lor (Z.shiftl b2 16) (Z.shiftl b3 24))).

(** [(hash << k) | (hash >> (32 - k))] on a uint *)
Definition rotl32 (hash k : Z) : Z :=
  Z.lor (u32 (Z.shiftl hash k)) (Z.shiftr hash (32 - k)).

Fixpoint utp_hash_bytes (hash : Z) (bs : list Z) : Z :=
  match bs with
  | [] => hash
  | b :: bs => utp_hash_bytes (rotl32 (Z.lxor hash b) 8) bs
  end.

Fixpoint utp_hash_words (hash : Z) (bs : list Z) : Z :=
  match bs with
  | b0 :: b1 :: b2 :: b3 :: bs =>
      utp_hash_words (rotl32 (Z.lxor hash (Read32 b0 b1 b2 b3)) 13) bs
  | _ => utp_hash_bytes hash bs
  end.

Definition utp_hash_mem (bs : list Z) : Z := utp_hash_words 0 bs.

(** [PackedSockAddr::compute_hash] *)
Definition addr_hash (a : PackedSockAddr) : Z :=
  Z.lxor (utp_hash_mem (in6 a)) (port a).

Record UTPSocketKey := mkKey {
  key_addr : PackedSockAddr;
  recv_id : Z;       (* uint32 *)
}.

Definition key_eqb (a b : UTPSocketKey) : bool :=
  (recv_id a =? recv_id b) && addr_eqb (key_addr a) (key_addr b).

Definition key_hash (k : UTPSocketKey) : Z :=
  Z.lxor (recv_id k) (addr_hash (key_addr k)).

#[export] Instance PackedSockAddr_eq_dec : EqDecision PackedSockAddr.
Proof. solve_decision. Defined.
#[export] Instance UTPSocketKey_eq_dec : EqDecision UTPSocketKey.
Proof. solve_decision. Defined.
#[export] Instance sockaddr_eq_dec : EqDecision sockaddr.
Proof. solve_decision. Defined.

(** ** Facts *)

Lemma addr_eqb_eq a b : addr_eqb a b = bool_decide (a = b).
Proof.
  unfold addr_eqb. destruct a as [x p], b as [y q]. cbn.
  destruct (Z.eqb_spec p q) as [->|]; cbn.
  - apply bool_decide_ext. split; [by intros ->|by intros [= ->]].
  - rewrite bool_decide_eq_false_2 by congruence. done.
Qed.

Lemma key_eqb_eq a b : key_eqb a b = bool_decide (a = b).
Proof.
  unfold key_eqb. rewrite addr_eqb_eq. destruct a as [x i], b as [y j]. cbn.
  destruct (Z.eqb_spec i j) as [->|]; cbn.
  - apply bool_decide_ext. split; [by intros ->|by intros [= ->]].
  - rewrite bool_decide_eq_false_2 by congruence. done.
Qed.

Definition sockaddr_wf (sa : sockaddr) : Prop :=
  match sa with
  | SockIn a p => length a = 4%nat
  | SockIn6 a p => length a = 16%nat
  end.

(** The hash the table reduces modulo its bucket count is a [uint32]. *)
Lemma rotl32_range h k : is_u32 h -> 0 <= k <= 32 -> is_u32 (rotl32 h k).
Proof.
  intros Hh Hk. unfold rotl32. apply lor_range32; [apply u32_range|].
  rewrite shiftr_div by lia. unfold is_u32 in *.
  pose proof (Z.pow_pos_nonneg 2 (32 - k)). split; [apply Z.div_pos; lia|].
  apply Z.div_lt_upper_bound; nia.
Qed.

Lemma Read32_range b0 b1 b2 b3 :
  is_u8 b0 -> is_u8 b1 -> is_u8 b2 -> is_u8 b3 -> is_u32 (Read32 b0 b1 b2 b3).
Proof.
  intros. unfold Read32. rewrite !Z.shiftl_mul_pow2 by lia.
  repeat apply lor_range32; word_lia.
Qed.

Lemma utp_hash_bytes_range h bs :
  is_u32 h -> Forall is_u8 bs -> is_u32 (utp_hash_bytes h bs).
Proof.
  intros Hh Hb. revert h Hh. induction Hb as [|b bs Hx Hb IH]; intros h Hh; [done|].
  cbn. apply IH, rotl32_range; [|lia]. apply lxor_range32; [done|word_lia].
Qed.

Lemma utp_hash_words_range n h bs :
  (length bs <= n)%nat -> is_u32 h -> Forall is_u8 bs -> is_u32 (utp_hash_words h bs).
Proof.
  revert h bs. induction n as [|n IH]; intros h bs Hn Hh Hb;
    [destruct bs; [done|cbn in Hn; lia]|].
  destruct bs as [|b0 [|b1 [|b2 [|b3 bs]]]];
    try (by apply utp_hash_bytes_range).
  rewrite !Forall_cons in Hb. destruct_and! Hb. cbn in Hn.
  cbn [utp_hash_words]. apply IH; [lia| |done].
  apply rotl32_range; [|lia]. apply lxor_range32; [done|by apply Read32_range].
Qed.

Lemma key_hash_range k :
  Forall is_u8 (in6 (key_addr k)) -> is_u16 (port (key_addr k)) ->
  is_u32 (recv_id k) -> is_u32 (key_hash k).
Proof.
  intros. unfold key_hash, addr_hash, utp_hash_mem.
  apply lxor_range32; [done|]. apply lxor_range32; [|word_lia].
  by eapply utp_hash_words_range.
Qed.

(** Packing an address and unpacking it is the identity on IPv4 and on
    ordinary IPv6 addresses; an IPv4-mapped IPv6 address comes back as the IPv4
    address it stands for, and packing again gives the same packed address in
    every case, so the packed form is canonical. *)
Theorem sockaddr_roundtrip (sa : sockaddr) :
  sockaddr_wf sa ->
  get_sockaddr_storage (set_addr sa)
  = match sa with
    | SockIn6 a p => if is_v4mapped a then SockIn (drop 12 a) p else sa
    | SockIn _ _ => sa
    end /\
  set_addr (get_sockaddr_storage (set_addr sa)) = set_addr sa.
Proof.
  assert (Hm : forall a, is_v4mapped (v4_prefix ++ a) = true).
  { intros a. unfold is_v4mapped. rewrite take_app_length'; [done|done]. }
  destruct sa as [a p|a p]; intros Hl; cbn [sockaddr_wf set_addr] in *;
    unfold get_sockaddr_storage, get_family; cbn [in6 port set_addr].
  - rewrite Hm. done.
  - destruct (is_v4mapped a) eqn:E; [|done]. split; [done|].
    change (mkAddr (v4_prefix ++ drop 12 a) p = mkAddr a p).
    unfold is_v4mapped in E. apply bool_decide_eq_true in E.
    rewrite <- E. by rewrite take_drop.
Qed.
