(* ===== verification/Hash.v ===== *)
(** * The socket hash table

    [utp_hash_t] of src/utp_hash.cpp, generic in the key, its hash and its
    comparison.  The memory block is modelled by the bucket heads [inits] and the
    array [elems] of the structures handed out so far ([used] of them); links
    are indices, [LIBUTP_HASH_UNUSED] the end of a chain.  The invariant ties
    every bucket and the free list to disjoint chains that partition the array;
    the operations are then proved to be those of a finite map. *)
From S2P Require Import Prelude.

Definition LIBUTP_HASH_UNUSED : Z := 4294967295.

Section HashTable.
Context {K V : Type}.
Context (hash_compute : K -> Z) (hash_equal : K -> K -> bool).

(** One structure: the key, the payload ([None] while uninitialised), the link. *)
Record elem := mkElem { e_key : K; e_val : option V; e_link : Z }.

Record utp_hash_t := mkHash {
  N : Z;
  count : Z;
  allocated : Z;
  used : Z;
  free : Z;
  inits : list Z;
  elems : list elem;
}.

Implicit Types (h : utp_hash_t) (key : K).

(** The table as it is handed out.  The block of memory is not bounded here: its size
    is that of the lists, and the spare bucket of the source, which is never used, is
    left out. *)
Definition empty_table (n initial : Z) : utp_hash_t := {|
  N := n; count := 0; allocated := initial; used := 0;
  free := LIBUTP_HASH_UNUSED;
  inits := replicate (Z.to_nat n) LIBUTP_HASH_UNUSED; elems := [] |}.

(** [utp_hash_create]; [None] is a failed assertion: the number of buckets is odd and
    the structures are aligned *)
Definition utp_hash_create (n total_size initial : Z) : option utp_hash_t :=
  if negb (n mod 2 =? 0) && (total_size mod 4 =? 0) then Some (empty_table n initial) else None.

Definition utp_hash_mkidx h key : Z := hash_compute key mod N h.

Definition elem_at h (i : Z) : option elem := elems h !! Z.to_nat i.
Definition head_of h (idx : Z) : Z := znth LIBUTP_HASH_UNUSED (inits h) idx.

(** the result of a walk along a chain *)
Inductive found := Found (i : Z) | NotFound | BadLink.

Fixpoint chain_walk (fuel : nat) h key (cur : Z) : found :=
  if cur =? LIBUTP_HASH_UNUSED then NotFound else
  match fuel with
  | O => BadLink
  | S fuel =>
      match elem_at h cur with
      | None => BadLink
      | Some e => if hash_equal key (e_key e) then Found cur
                  else chain_walk fuel h key (e_link e)
      end
  end.

(** [utp_hash_lookup] *)
Definition utp_hash_lookup h key : found :=
  chain_walk (length (elems h)) h key (head_of h (utp_hash_mkidx h key)).

Definition set_elem h (i : Z) (f : elem -> elem) : utp_hash_t :=
  h <| elems ::= alter f (Z.to_nat i) |>.
Definition set_head h (idx link : Z) : utp_hash_t :=
  h <| inits ::= <[Z.to_nat idx := link]> |>.
(** [->socket = v] through the pointer an operation returned *)
Definition set_val h (i : Z) (v : V) : utp_hash_t :=
  set_elem h i (fun e => e <| e_val := Some v |>).

(** the doubling of [allocated]; [None] is the failing [assert(0)] *)
Definition grow_allocated h : option utp_hash_t :=
  if used h =? allocated h then
    let all := allocated h in
    if all <=? LIBUTP_HASH_UNUSED / 2 then Some (h <| allocated := all * 2 |>)
    else if negb (all =? LIBUTP_HASH_UNUSED)
    then Some (h <| allocated := LIBUTP_HASH_UNUSED |>)
    else None
  else Some h.

(** a structure for a new element: from the free list, or the next unused one
    of the (possibly grown) array *)
Definition take_elem h key : option (utp_hash_t * Z) :=
  let i := free h in
  if i =? LIBUTP_HASH_UNUSED then
    match grow_allocated h with
    | None => None
    | Some h =>
        let i := used h in
        Some (h <| used := i + 1 |>
                <| elems ::= fun es => es ++ [mkElem key None 0] |>, i)
    end
  else
    match elem_at h i with
    | None => None
    | Some e => Some (h <| free := e_link e |>, i)
    end.

(** [utp_hash_add] *)
Definition utp_hash_add h key : option (utp_hash_t * Z) :=
  let idx := utp_hash_mkidx h key in
  match take_elem h key with
  | None => None
  | Some (h, i) =>
      let h := set_elem h i (fun e => e <| e_link := head_of h idx |>) in
      let h := set_head h idx i in
      let h := h <| count ::= Z.add 1 |> in
      Some (set_elem h i (fun e => e <| e_key := key |>), i)
  end.

(** [*curp = link]: the bucket head, or the link of the previous element *)
Definition set_cur h (idx : Z) (prev : option Z) (link : Z) : utp_hash_t :=
  match prev with
  | None => set_head h idx link
  | Some p => set_elem h p (fun e => e <| e_link := link |>)
  end.

Fixpoint del_walk (fuel : nat) h key (idx : Z) (prev : option Z) (cur : Z) :
    utp_hash_t * found :=
  if cur =? LIBUTP_HASH_UNUSED then (h, NotFound) else
  match fuel with
  | O => (h, BadLink)
  | S fuel =>
      match elem_at h cur with
      | None => (h, BadLink)
      | Some e =>
          if hash_equal key (e_key e) then
            let h := set_cur h idx prev (e_link e) in
            let h := set_elem h cur (fun e => e <| e_link := free h |>) in
            (h <| free := cur |> <| count ::= fun c => c - 1 |>, Found cur)
          else del_walk fuel h key idx (Some cur) (e_link e)
      end
  end.

(** [utp_hash_del] *)
Definition utp_hash_del h key : utp_hash_t * found :=
  let idx := utp_hash_mkidx h key in
  del_walk (length (elems h)) h key idx None (head_of h idx).

(** [utp_hash_iterate]: the iterator is (bucket, elem) *)
Fixpoint next_bucket (fuel : nat) h (buck : Z) : option (Z * Z) :=
  match fuel with
  | O => None
  | S fuel =>
      if N h <=? buck then None
      else let i := head_of h buck in
           if i =? LIBUTP_HASH_UNUSED then next_bucket fuel h (buck + 1)
           else Some (buck, i)
  end.

Definition utp_hash_iterate h (iter : Z * Z) : option ((Z * Z) * Z) :=
  let '(bucket, i) := iter in
  match (if i =? LIBUTP_HASH_UNUSED
         then next_bucket (S (Z.to_nat (N h))) h (u32 (bucket + 1))
         else Some (bucket, i)) with
  | None => None
  | Some (bucket, i) =>
      match elem_at h i with
      | None => None
      | Some e => Some ((bucket, e_link e), i)
      end
  end.

Definition iter_init : Z * Z := (LIBUTP_HASH_UNUSED, LIBUTP_HASH_UNUSED).
End HashTable.

Arguments elem : clear implicits.
Arguments utp_hash_t : clear implicits.

(** ** The invariant *)
Section HashFacts.
Context {K V : Type} `{!EqDecision K}.
Context (hash_compute : K -> Z) (hash_equal : K -> K -> bool).
Context (Heq : forall a b, hash_equal a b = bool_decide (a = b)).
Implicit Types (h : utp_hash_t K V) (es : list (elem K V)) (key : K).

(** [l] is the chain of indices that starts at [start]. *)
Fixpoint lseg es (start : Z) (l : list Z) : Prop :=
  match l with
  | [] => start = LIBUTP_HASH_UNUSED
  | i :: l => start = i /\ 0 <= i < LIBUTP_HASH_UNUSED /\
      exists e, es !! Z.to_nat i = Some e /\ lseg es (e_link e) l
  end.

Lemma lseg_ext es es' start l :
  (forall i e, i ∈ l -> es !! Z.to_nat i = Some e ->
     exists e', es' !! Z.to_nat i = Some e' /\ e_link e' = e_link e) ->
  lseg es start l -> lseg es' start l.
Proof.
  revert start. induction l as [|i l IH]; intros start Hext; [done|].
  intros (-> & Hi & e & He & Hl). cbn. split; [done|]. split; [done|].
  destruct (Hext i e) as (e' & He' & Hlk); [by left|done|].
  exists e'. split; [done|]. rewrite Hlk. apply IH; [|done].
  intros j ej Hj. apply Hext. by right.
Qed.

(** Changing an element outside the chain keeps the chain. *)
Lemma lseg_alter_out es f i start l :
  0 <= i -> i ∉ l -> lseg es start l -> lseg (alter f (Z.to_nat i) es) start l.
Proof.
  intros H0 Hi Hl. eapply lseg_ext; [|exact Hl]. intros j e Hj He.
  exists e. split; [|done]. rewrite list_lookup_alter_ne; [done|].
  intros E. apply Hi. assert (0 <= j).
  { clear -Hl Hj. revert start Hl. induction l as [|x l IH]; intros start;
      [by apply elem_of_nil in Hj|]. intros (-> & ? & e & _ & Hl).
    apply elem_of_cons in Hj as [->|Hj]; [lia|by eapply IH]. }
  replace i with j by lia. done.
Qed.

(** Changing anything but the link of an element keeps every chain. *)
Lemma lseg_alter_link es f i start l :
  (forall e, e_link (f e) = e_link e) ->
  lseg es start l -> lseg (alter f (Z.to_nat i) es) start l.
Proof.
  intros Hf. apply lseg_ext. intros j e Hj He.
  rewrite list_lookup_alter. case_decide as E; [|by eauto].
  rewrite E, He. cbn. eauto.
Qed.

Lemma lseg_app es start l1 i l2 e :
  es !! Z.to_nat i = Some e ->
  lseg es start (l1 ++ i :: l2) -> lseg es i (i :: l2) /\ lseg es (e_link e) l2.
Proof.
  intros He. revert start. induction l1 as [|j l1 IH]; intros start; cbn.
  - intros (-> & ? & e' & He' & Hl). rewrite He in He'. injection He' as <-.
    split; [|done]. by eauto 6.
  - intros (_ & _ & e' & _ & Hl). by eapply IH.
Qed.

(** The chains of the buckets and the free list partition the used part of
    the array; the keys of a chain hash to its bucket; no key occurs twice. *)
Record table_ok h (chains : list (list Z)) (freelist : list Z) : Prop := {
  ok_N : 0 < N h;
  ok_inits : Z.of_nat (length (inits h)) = N h;
  ok_chains : Z.of_nat (length chains) = N h;
  ok_lsegs : forall b c, chains !! b = Some c ->
    exists s, inits h !! b = Some s /\ lseg (elems h) s c;
  ok_free : lseg (elems h) (free h) freelist;
  ok_perm : concat chains ++ freelist ≡ₚ zseq (length (elems h));
  ok_keys : forall b c i e, chains !! b = Some c -> i ∈ c ->
    elems h !! Z.to_nat i = Some e ->
    utp_hash_mkidx hash_compute h (e_key e) = Z.of_nat b;
  ok_nodup : forall i j e e', i ∈ concat chains -> j ∈ concat chains ->
    elems h !! Z.to_nat i = Some e -> elems h !! Z.to_nat j = Some e' ->
    e_key e = e_key e' -> i = j;
  ok_used : used h = Z.of_nat (length (elems h));
  ok_alloc : used h <= allocated h <= LIBUTP_HASH_UNUSED;
  ok_alloc_pos : 0 < allocated h;
  ok_count : count h = Z.of_nat (length (concat chains));
}.

Definition table_wf h : Prop := exists chains freelist, table_ok h chains freelist.

(** The abstract content: the index that holds a key, if any. *)
Definition holds h (chains : list (list Z)) key (i : Z) : Prop :=
  i ∈ concat chains /\ (e_key <$> (elems h !! Z.to_nat i)) = Some key.

Lemma create_ok n initial :
  0 < n -> 0 < initial <= LIBUTP_HASH_UNUSED ->
  table_ok (empty_table n initial) (replicate (Z.to_nat n) []) [].
Proof.
  intros Hn Hi.
  assert (concat (replicate (Z.to_nat n) ([] : list Z)) = []) as Hc.
  { induction (Z.to_nat n); [done|]. cbn. done. }
  split; cbn; rewrite ?length_replicate, ?Hc; try done; try lia.
  - intros b c Hb. apply lookup_replicate in Hb as [-> Hb].
    exists LIBUTP_HASH_UNUSED. rewrite lookup_replicate_2; done.
Qed.

Section Ok.
Context h chains freelist (Hok : table_ok h chains freelist).

Lemma mkidx_range key : 0 <= utp_hash_mkidx hash_compute h key < N h.
Proof. destruct Hok. unfold utp_hash_mkidx. by apply Z.mod_pos_bound. Qed.

Lemma bucket_chain key :
  exists c, chains !! Z.to_nat (utp_hash_mkidx hash_compute h key) = Some c /\
    lseg (elems h) (head_of h (utp_hash_mkidx hash_compute h key)) c.
Proof.
  pose proof (mkidx_range key) as Hr. destruct Hok.
  destruct (lookup_lt_is_Some_2 chains
    (Z.to_nat (utp_hash_mkidx hash_compute h key))) as [c Hc]; [lia|].
  exists c. split; [done|]. destruct (ok_lsegs0 _ _ Hc) as (s & Hs & Hl).
  unfold head_of, znth. by rewrite Hs.
Qed.

Lemma all_indices i : i ∈ concat chains ++ freelist <-> 0 <= i < used h.
Proof.
  destruct Hok. rewrite ok_used0. rewrite ok_perm0. apply elem_of_zseq.
Qed.

Lemma nodup_indices : NoDup (concat chains ++ freelist).
Proof.
  destruct Hok. rewrite ok_perm0. unfold zseq.
  apply NoDup_fmap_2; [intros ? ? ?; lia|]. apply NoDup_seq.
Qed.

Lemma chain_length b c :
  chains !! b = Some c -> (length c <= length (elems h))%nat.
Proof.
  intros Hc. destruct Hok. apply Permutation_length in ok_perm0.
  unfold zseq in ok_perm0. rewrite length_app, length_fmap, length_seq in ok_perm0.
  apply list_elem_of_split_length in Hc as (l1 & l2 & -> & _).
  rewrite concat_app, length_app in ok_perm0. cbn in ok_perm0.
  rewrite length_app in ok_perm0. lia.
Qed.

(** The walk finds the first element of the chain with the key. *)
Lemma chain_walk_spec fuel key start l :
  lseg (elems h) start l -> (length l <= fuel)%nat ->
  (exists i e, chain_walk hash_equal fuel h key start = Found i /\ i ∈ l /\
     elems h !! Z.to_nat i = Some e /\ e_key e = key) \/
  (chain_walk hash_equal fuel h key start = NotFound /\
   forall i e, i ∈ l -> elems h !! Z.to_nat i = Some e -> e_key e <> key).
Proof.
  revert start fuel. induction l as [|i l IH]; intros start fuel.
  - intros -> _. right. split; [|by intros ? ? ?%elem_of_nil].
    destruct fuel; cbn; done.
  - intros (-> & Hi & e & He & Hl) Hf. cbn in Hf.
    destruct fuel as [|fuel]; [lia|]. cbn [chain_walk].
    destruct (Z.eqb_spec i LIBUTP_HASH_UNUSED); [lia|].
    unfold elem_at. rewrite He, Heq. case_bool_decide as Ek.
    + left. exists i, e. split_and!; try done. by left.
    + destruct (IH (e_link e) fuel Hl) as [(j & ej & ? & ? & ? & ?)|[? Hno]]; [lia| |].
      * left. exists j, ej. split_and!; try done. by right.
      * right. split; [done|]. intros j ej [->|Hj]%elem_of_cons Hej; [|eauto].
        rewrite He in Hej. injection Hej as <-. congruence.
Qed.

Lemma elem_of_chains i b c : chains !! b = Some c -> i ∈ c -> i ∈ concat chains.
Proof.
  intros Hb Hi. apply list_elem_of_In, in_concat. exists c.
  split; apply list_elem_of_In; [by eapply list_elem_of_lookup_2|done].
Qed.

Lemma chains_elem_of i :
  i ∈ concat chains -> exists b c, chains !! b = Some c /\ i ∈ c.
Proof.
  intros Hi. apply list_elem_of_In, in_concat in Hi as (c & Hc & Hi).
  apply list_elem_of_In, list_elem_of_lookup in Hc as [b Hb].
  exists b, c. split; [done|]. by apply list_elem_of_In.
Qed.

(** Lookup is exact: it finds the element holding the key if there is one,
    and reports its absence otherwise. *)
Lemma lookup_spec key :
  match utp_hash_lookup hash_compute hash_equal h key with
  | Found i => holds h chains key i
  | NotFound => forall i, ~ holds h chains key i
  | BadLink => False
  end.
Proof.
  unfold utp_hash_lookup. destruct (bucket_chain key) as (c & Hc & Hl).
  destruct (chain_walk_spec (length (elems h)) key _ c Hl)
    as [(i & e & -> & Hi & He & <-)|[-> Hno]]; [by eapply chain_length| |].
  - split; [by eapply elem_of_chains|]. by rewrite He.
  - intros i [Hi Hk]. destruct (elems h !! Z.to_nat i) as [e|] eqn:He; [|done].
    injection Hk as Hk. apply chains_elem_of in Hi as (b & c' & Hb & Hi).
    destruct Hok. pose proof (ok_keys0 b c' i e Hb Hi He) as Hidx.
    rewrite Hk in Hidx. rewrite Hidx, Nat2Z.id in Hc. rewrite Hb in Hc.
    injection Hc as ->. by apply (Hno i e).
Qed.

Lemma holds_unique key i j : holds h chains key i -> holds h chains key j -> i = j.
Proof.
  intros [Hi Ei] [Hj Ej]. destruct Hok.
  destruct (elems h !! Z.to_nat i) as [e|] eqn:He; [|done].
  destruct (elems h !! Z.to_nat j) as [e'|] eqn:He'; [|done].
  cbn in *. eapply ok_nodup0; eauto. congruence.
Qed.
End Ok.

(** ** Changing one chain *)

Lemma concat_insert_perm (chains : list (list Z)) b c c' :
  chains !! b = Some c ->
  concat (<[b := c']> chains) ++ c ≡ₚ concat chains ++ c'.
Proof.
  intros Hb. pose proof (lookup_lt_Some _ _ _ Hb).
  rewrite insert_take_drop by done.
  rewrite <- (take_drop_middle chains b c Hb) at 3.
  rewrite !concat_app. cbn. rewrite <- !(assoc_L (++)).
  apply Permutation_app_head. rewrite !(assoc_L (++)).
  rewrite (Permutation_app_comm _ c). rewrite <- !(assoc_L (++)).
  apply Permutation_app_head. apply Permutation_app_comm.
Qed.

Lemma lseg_elem es start l i :
  lseg es start l -> i ∈ l -> 0 <= i < LIBUTP_HASH_UNUSED /\ is_Some (es !! Z.to_nat i).
Proof.
  revert start. induction l as [|j l IH]; intros start; [by intros _ ?%elem_of_nil|].
  intros (-> & Hj & e & He & Hl) [->|Hi]%elem_of_cons; [|by eapply IH].
  split; [done|]. by rewrite He.
Qed.

Lemma alter_keeps (f : elem K V -> elem K V) k es j e :
  (forall x, e_key (f x) = e_key x /\ e_val (f x) = e_val x) ->
  es !! j = Some e ->
  exists e', alter f k es !! j = Some e' /\ e_key e' = e_key e /\ e_val e' = e_val e.
Proof.
  intros Hf He. rewrite list_lookup_alter. case_decide as E; [|by eauto].
  rewrite E, He. cbn. eexists. split; [done|]. apply Hf.
Qed.

(** Pointing the link of [p] at another chain. *)
Lemma lseg_relink es start l1 p l l' s' :
  NoDup (l1 ++ [p]) -> p ∉ l' -> lseg es start (l1 ++ p :: l) -> lseg es s' l' ->
  lseg (alter (fun e => e <| e_link := s' |>) (Z.to_nat p) es) start (l1 ++ p :: l').
Proof.
  intros Hnd Hp. revert start. induction l1 as [|j l1 IH]; intros start.
  - intros (-> & Hi & e & He & _) Hl'. split; [done|]. split; [done|].
    exists (e <| e_link := s' |>). rewrite list_lookup_alter_eq, He.
    split; [done|]. cbn. by apply lseg_alter_out; [lia|..].
  - cbn in Hnd. apply NoDup_cons in Hnd as [Hj Hnd].
    intros (-> & Hi & e & He & Hl) Hl'. split; [done|]. split; [done|].
    exists e. split; [|by apply IH].
    destruct (lseg_elem _ _ _ p Hl) as [Hp0 _]; [apply elem_of_app; right; left|].
    rewrite list_lookup_alter_ne; [done|]. intros E.
    apply Hj. apply elem_of_app. right. apply list_elem_of_singleton. lia.
Qed.

Lemma concat_insert_cons (chains : list (list Z)) b c i :
  chains !! b = Some c -> concat (<[b := i :: c]> chains) ≡ₚ i :: concat chains.
Proof.
  intros Hb. pose proof (concat_insert_perm chains b c (i :: c) Hb) as Hp.
  rewrite <- Permutation_middle in Hp.
  change (i :: concat chains ++ c) with ((i :: concat chains) ++ c) in Hp.
  by apply (Permutation_app_inv_r c) in Hp.
Qed.

Lemma concat_insert_remove (chains : list (list Z)) b l1 i l2 :
  chains !! b = Some (l1 ++ i :: l2) ->
  i :: concat (<[b := l1 ++ l2]> chains) ≡ₚ concat chains.
Proof.
  intros Hb. pose proof (concat_insert_perm chains b _ (l1 ++ l2) Hb) as Hp.
  rewrite <- Permutation_middle, <- Permutation_middle in Hp.
  change (i :: concat (<[b:=l1 ++ l2]> chains) ++ l1 ++ l2)
    with ((i :: concat (<[b:=l1 ++ l2]> chains)) ++ l1 ++ l2) in Hp.
  by apply (Permutation_app_inv_r (l1 ++ l2)) in Hp.
Qed.

Lemma NoDup_zseq n : NoDup (zseq n).
Proof. apply NoDup_fmap_2; [intros ? ? ?; lia|]. apply NoDup_seq. Qed.

(** Replacing the chain of one bucket: the other buckets only need their
    elements untouched. *)
Lemma table_replace h h' chains fl fl' b c' s' :
  table_ok h chains fl -> 0 <= b < N h ->
  N h' = N h -> inits h' = <[Z.to_nat b := s']> (inits h) ->
  lseg (elems h') s' c' -> lseg (elems h') (free h') fl' ->
  (forall b2 c2 j e, b2 <> Z.to_nat b -> chains !! b2 = Some c2 -> j ∈ c2 ->
     elems h !! Z.to_nat j = Some e -> elems h' !! Z.to_nat j = Some e) ->
  (forall j e, j ∈ c' -> elems h' !! Z.to_nat j = Some e ->
     utp_hash_mkidx hash_compute h (e_key e) = b) ->
  let chains' := <[Z.to_nat b := c']> chains in
  (forall i j e e', i ∈ concat chains' -> j ∈ concat chains' ->
    elems h' !! Z.to_nat i = Some e -> elems h' !! Z.to_nat j = Some e' ->
    e_key e = e_key e' -> i = j) ->
  concat chains' ++ fl' ≡ₚ zseq (length (elems h')) ->
  used h' = Z.of_nat (length (elems h')) ->
  used h' <= allocated h' <= LIBUTP_HASH_UNUSED -> 0 < allocated h' ->
  count h' = Z.of_nat (length (concat chains')) ->
  table_ok h' chains' fl'.
Proof.
  intros [] Hb EN EI Hc' Hfl' Hothers Hkeys chains' Hnd Hperm Hu Ha Hap Hcnt.
  assert (Hother : forall b2 c2, b2 <> Z.to_nat b -> chains !! b2 = Some c2 ->
    exists s, inits h !! b2 = Some s /\ lseg (elems h) s c2 /\ lseg (elems h') s c2).
  { intros b2 c2 Hne Hb2. destruct (ok_lsegs0 b2 c2 Hb2) as (s & Hs & Hl).
    exists s. split_and!; try done. eapply lseg_ext; [|exact Hl]. eauto. }
  split; try done; try lia.
  - rewrite EI, length_insert. lia.
  - unfold chains'. rewrite length_insert. lia.
  - intros b2 c2 Hb2. rewrite EI. unfold chains' in Hb2.
    apply list_lookup_insert_Some in Hb2 as [(<- & -> & ?)|(Hne & Hb2)].
    + exists s'. rewrite list_lookup_insert_eq by lia. done.
    + rewrite list_lookup_insert_ne by done.
      destruct (Hother b2 c2) as (s & Hs & _ & Hl); eauto.
  - intros b2 c2 j e Hb2 Hj He. unfold utp_hash_mkidx in *. rewrite EN.
    unfold chains' in Hb2.
    apply list_lookup_insert_Some in Hb2 as [(<- & -> & ?)|(Hne & Hb2)].
    + rewrite (Hkeys j e Hj He). lia.
    + destruct (Hother b2 c2) as (s & _ & Hl & _); [done..|].
      destruct (lseg_elem _ _ _ j Hl Hj) as (_ & ej & Hej).
      assert (elems h' !! Z.to_nat j = Some ej) as He' by eauto.
      rewrite He in He'. injection He' as ->. by apply (ok_keys0 b2 c2 j).
Qed.

Section Ops.
Context h chains freelist (Hok : table_ok h chains freelist).

Lemma take_elem_spec key h1 i :
  take_elem h key = Some (h1, i) ->
  exists freelist', N h1 = N h /\ inits h1 = inits h /\ count h1 = count h /\
    concat chains ++ i :: freelist' ≡ₚ zseq (length (elems h1)) /\
    lseg (elems h1) (free h1) freelist' /\
    used h1 = Z.of_nat (length (elems h1)) /\
    used h1 <= allocated h1 <= LIBUTP_HASH_UNUSED /\ 0 < allocated h1 /\
    0 <= i < LIBUTP_HASH_UNUSED /\ is_Some (elems h1 !! Z.to_nat i) /\
    (forall j e, elems h !! j = Some e -> elems h1 !! j = Some e).
Proof.
  pose proof Hok as []. unfold take_elem. destruct freelist as [|f fl].
  - cbn in ok_free0. rewrite ok_free0, Z.eqb_refl.
    assert (Hg : forall h0, grow_allocated h = Some h0 ->
      N h0 = N h /\ inits h0 = inits h /\ count h0 = count h /\ elems h0 = elems h /\
      used h0 = used h /\ free h0 = free h /\
      used h < allocated h0 <= LIBUTP_HASH_UNUSED).
    { unfold grow_allocated, LIBUTP_HASH_UNUSED in *.
      intros h0. destruct (Z.eqb_spec (used h) (allocated h)).
      - destruct (Z.leb_spec (allocated h) (4294967295 / 2)).
        + intros [= <-]. destruct h. cbn in *. split_and!; try done; dlia.
        + case_match eqn:E; [|done]. intros [= <-]. destruct h. cbn in *.
          split_and!; try done; lia.
      - intros [= <-]. split_and!; try done; lia. }
    destruct (grow_allocated h) as [h0|]; [|done].
    destruct (Hg h0 eq_refl) as (E1 & E2 & E3 & E4 & E5 & E6 & E7).
    intros [= <- <-]. exists []. destruct h0. cbn in *. subst.
    rewrite length_app. cbn. rewrite Nat.add_1_r. split_and!; try done; try lia.
    + unfold zseq in *. rewrite seq_S, fmap_app. cbn.
      rewrite app_nil_r in ok_perm0. rewrite ok_perm0, ok_used0. done.
    + rewrite lookup_app_r by lia.
      replace (_ - _)%nat with 0%nat by lia. done.
    + intros j e He. by apply lookup_app_l_Some.
  - destruct ok_free0 as (E & Hf & e & He & Hl). rewrite E.
    destruct (Z.eqb_spec f LIBUTP_HASH_UNUSED); [lia|].
    unfold elem_at. rewrite He. intros [= <- <-]. exists fl.
    destruct h. cbn in *. split_and!; try done; lia.
Qed.

Lemma chains_lseg b c :
  chains !! b = Some c -> lseg (elems h) (head_of h (Z.of_nat b)) c.
Proof.
  intros Hb. destruct Hok. destruct (ok_lsegs0 b c Hb) as (s & Hs & Hl).
  unfold head_of, znth. by rewrite Nat2Z.id, Hs.
Qed.

(** What [utp_hash_add] does to the structures. *)
Record add_effect key h' (i : Z) (fl : list Z) : Prop := {
  ae_N : N h' = N h;
  ae_inits : inits h'
    = <[Z.to_nat (utp_hash_mkidx hash_compute h key) := i]> (inits h);
  ae_count : count h' = count h + 1;
  ae_perm : concat chains ++ i :: fl ≡ₚ zseq (length (elems h'));
  ae_free : lseg (elems h') (free h') fl;
  ae_used : used h' = Z.of_nat (length (elems h'));
  ae_alloc : used h' <= allocated h' <= LIBUTP_HASH_UNUSED /\ 0 < allocated h';
  ae_index : 0 <= i < LIBUTP_HASH_UNUSED;
  ae_out : i ∉ concat chains;
  ae_new : exists e, elems h' !! Z.to_nat i = Some e /\ e_key e = key /\
    e_link e = head_of h (utp_hash_mkidx hash_compute h key);
  ae_old : forall j e, j ∈ concat chains -> elems h !! Z.to_nat j = Some e ->
    elems h' !! Z.to_nat j = Some e;
}.

Lemma chains_nonneg j : j ∈ concat chains -> 0 <= j.
Proof.
  intros Hj. destruct (all_indices h chains freelist Hok j) as [H _].
  destruct H; [|done]. apply elem_of_app. by left.
Qed.

Lemma add_effect_ok key h' i :
  utp_hash_add hash_compute h key = Some (h', i) ->
  exists fl, add_effect key h' i fl.
Proof.
  intros Hadd. unfold utp_hash_add in Hadd.
  destruct (take_elem h key) as [[h1 i1]|] eqn:Ht; [|done].
  injection Hadd as Hh Hi. subst i1.
  destruct (take_elem_spec _ _ _ Ht)
    as (fl & EN & EI & EC & Hperm & Hfree & Hu & Ha & Hap & Hi & [e1 He1] & Hold).
  set (b := utp_hash_mkidx hash_compute h key) in *.
  assert (Hhead : head_of h1 b = head_of h b) by (unfold head_of; by rewrite EI).
  rewrite Hhead in Hh. exists fl.
  assert (Hnin : NoDup (concat chains ++ i :: fl)).
  { rewrite Hperm. apply NoDup_zseq. }
  apply NoDup_app in Hnin as (_ & Hnin1 & Hnin2).
  apply NoDup_cons in Hnin2 as [Hifl _].
  assert (Hi_out : i ∉ concat chains) by (intros H; by eapply Hnin1; [|left]).
  subst h'. destruct h1. cbn in *.
  split; cbn; fold b; rewrite ?length_alter; subst; try done; try lia.
  - by repeat (apply lseg_alter_out; [lia|done|]).
  - rewrite !list_lookup_alter_eq, He1. cbn. eauto.
  - intros j e Hj He. pose proof (chains_nonneg j Hj).
    rewrite !list_lookup_alter_ne by (intros E; apply Hi_out;
      assert (i = j) as -> by lia; done). by apply Hold.
Qed.

Lemma add_nodup key h' i fl :
  (forall j, ~ holds h chains key j) -> add_effect key h' i fl ->
  forall x y e e', x ∈ i :: concat chains -> y ∈ i :: concat chains ->
    elems h' !! Z.to_nat x = Some e -> elems h' !! Z.to_nat y = Some e' ->
    e_key e = e_key e' -> x = y.
Proof.
  intros Hno [] x y e e' Hx Hy He He' Ek.
  destruct ae_new0 as (ei & Hei & Hk & _). pose proof Hok as [].
  assert (Hc : forall z ez, z ∈ concat chains -> elems h' !! Z.to_nat z = Some ez ->
            elems h !! Z.to_nat z = Some ez).
  { intros z ez Hz Hez. destruct (chains_elem_of chains z Hz) as (b & c & Hb & Hzc).
    pose proof (chains_lseg b c Hb) as Hl.
    destruct (lseg_elem _ _ _ z Hl Hzc) as (_ & e0 & He0).
    rewrite (ae_old0 z e0 Hz He0) in Hez. congruence. }
  assert (Hfresh : forall z ez, z ∈ concat chains ->
            elems h' !! Z.to_nat z = Some ez -> e_key ez <> key).
  { intros z ez Hz Hez Hkz. apply (Hno z). split; [done|].
    rewrite (Hc z ez Hz Hez). cbn. congruence. }
  apply elem_of_cons in Hx as [->|Hx], Hy as [->|Hy]; [done| | |].
  - exfalso. apply (Hfresh y e' Hy He'). congruence.
  - exfalso. apply (Hfresh x e Hx He). congruence.
  - eapply ok_nodup0; eauto.
Qed.

(** The table after [utp_hash_add]: the chosen element is the head of its
    bucket's chain, with the key in it. *)
Lemma add_ok key h' i :
  (forall j, ~ holds h chains key j) ->
  utp_hash_add hash_compute h key = Some (h', i) ->
  exists chains' freelist', table_ok h' chains' freelist' /\
    (concat chains' ≡ₚ (i :: concat chains)) /\
    (i ∉ concat chains) /\ (e_key <$> (elems h' !! Z.to_nat i)) = Some key /\
    (forall j e, j ∈ concat chains -> elems h !! Z.to_nat j = Some e ->
       elems h' !! Z.to_nat j = Some e).
Proof.
  intros Hno Hadd. destruct (add_effect_ok key h' i Hadd) as (fl & He).
  pose proof (add_nodup key h' i fl Hno He) as Hnd. destruct He.
  destruct ae_new0 as (e & Hei & Hk & Hlk).
  destruct (bucket_chain h chains freelist Hok key) as (c & Hc & Hl).
  pose proof (concat_insert_cons chains _ c i Hc) as Hconc.
  exists (<[Z.to_nat (utp_hash_mkidx hash_compute h key) := i :: c]> chains), fl.
  split; [|split_and!; try done; rewrite Hei; cbn; by rewrite Hk].
  assert (Hl' : lseg (elems h') (head_of h (utp_hash_mkidx hash_compute h key)) c).
  { eapply lseg_ext; [|exact Hl]. intros j ej Hj Hej. exists ej.
    split; [|done]. apply ae_old0; [|done]. by eapply elem_of_chains. }
  eapply table_replace; try done.
  - by eapply mkidx_range.
  - cbn. split; [done|]. split; [done|]. exists e. by rewrite Hlk.
  - intros b2 c2 j ej _ Hb2 Hj Hej. apply ae_old0; [|done].
    by eapply elem_of_chains.
  - intros j ej [->|Hj]%elem_of_cons Hej.
    + rewrite Hei in Hej. injection Hej as <-. by rewrite Hk.
    + destruct (lseg_elem _ _ _ j Hl Hj) as (_ & e0 & He0).
      rewrite (ae_old0 j e0 (elem_of_chains chains j _ _ Hc Hj) He0) in Hej.
      injection Hej as <-. destruct Hok.
      pose proof (mkidx_range h chains freelist Hok key).
      rewrite (ok_keys0 _ c j e0 Hc Hj He0). lia.
  - intros x y ex ey Hx Hy. rewrite Hconc in Hx, Hy. by apply Hnd.
  - rewrite Hconc, <- ae_perm0. cbn. by rewrite Permutation_middle.
  - by destruct ae_alloc0.
  - by destruct ae_alloc0.
  - rewrite Hconc, ae_count0. destruct Hok. cbn. lia.
Qed.

(** ** Deletion *)

(** the effect of removing element [i] (its structure being [e]) whose
    predecessor in the chain of bucket [idx] is [prev] *)
Definition unlink (idx : Z) (prev : option Z) (i : Z) (e : elem K V) :
    utp_hash_t K V :=
  let h' := set_cur h idx prev (e_link e) in
  let h' := set_elem h' i (fun x => x <| e_link := free h' |>) in
  h' <| free := i |> <| count ::= fun c => c - 1 |>.

Lemma unlink_fields idx prev i e :
  let h' := unlink idx prev i e in
  elems h' = alter (fun x => x <| e_link := free h |>) (Z.to_nat i)
    (match prev with
     | None => elems h
     | Some p => alter (fun x => x <| e_link := e_link e |>) (Z.to_nat p) (elems h)
     end) /\
  inits h' = (match prev with
              | None => <[Z.to_nat idx := e_link e]> (inits h)
              | Some p => inits h
              end) /\
  free h' = i /\ N h' = N h /\ used h' = used h /\
  allocated h' = allocated h /\ count h' = count h - 1.
Proof. unfold unlink, set_cur. by destruct h, prev. Qed.

Lemma del_walk_spec fuel key idx l1 l start :
  lseg (elems h) start l -> (length l <= fuel)%nat ->
  (exists l1' i l2 e, l = l1' ++ i :: l2 /\ elems h !! Z.to_nat i = Some e /\
     e_key e = key /\
     del_walk hash_equal fuel h key idx (last l1) start
     = (unlink idx (last (l1 ++ l1')) i e, Found i)) \/
  (del_walk hash_equal fuel h key idx (last l1) start = (h, NotFound) /\
   forall i e, i ∈ l -> elems h !! Z.to_nat i = Some e -> e_key e <> key).
Proof.
  revert l1 start fuel. induction l as [|i l IH]; intros l1 start fuel.
  - intros -> _. right. split; [|by intros ? ? ?%elem_of_nil].
    destruct fuel; cbn; done.
  - intros (-> & Hi & e & He & Hl) Hf. cbn in Hf.
    destruct fuel as [|fuel]; [lia|]. cbn [del_walk].
    destruct (Z.eqb_spec i LIBUTP_HASH_UNUSED); [lia|].
    unfold elem_at. rewrite He, Heq. case_bool_decide as Ek.
    + left. exists [], i, l, e. rewrite app_nil_r. split_and!; done.
    + destruct (IH (l1 ++ [i]) (e_link e) fuel Hl)
        as [(l1' & j & l2 & ej & -> & Hj & Hkj & E)|[E Hno]]; [lia| |].
      * left. exists (i :: l1'), j, l2, ej. split_and!; try done.
        rewrite last_snoc in E. rewrite E. by rewrite <- (assoc_L (++)).
      * right. rewrite last_snoc in E. split; [done|].
        intros j ej [->|Hj]%elem_of_cons Hej; [|eauto].
        rewrite He in Hej. injection Hej as <-. congruence.
Qed.

Section Unlink.
Context (b : nat) (l1 l2 : list Z) (i : Z) (e : elem K V).
Context (Hc : chains !! b = Some (l1 ++ i :: l2)).
Context (He : elems h !! Z.to_nat i = Some e).
Let h' := unlink (Z.of_nat b) (last l1) i e.
Let chains' := <[b := l1 ++ l2]> chains.

Lemma unlink_nodup : NoDup (i :: concat chains' ++ freelist).
Proof.
  pose proof (concat_insert_remove chains b l1 i l2 Hc) as Hp.
  change (NoDup ((i :: concat (<[b := l1 ++ l2]> chains)) ++ freelist)).
  rewrite Hp.
  by eapply nodup_indices.
Qed.

(** every element keeps its key and payload *)
Lemma unlink_elem j ej :
  elems h !! j = Some ej ->
  exists ej', elems h' !! j = Some ej' /\ e_key ej' = e_key ej /\
    e_val ej' = e_val ej.
Proof.
  intros Hj. destruct (unlink_fields (Z.of_nat b) (last l1) i e) as (E & _).
  fold h' in E. rewrite E. destruct (last l1) as [p|]; [|by apply alter_keeps].
  destruct (alter_keeps (fun x => x <| e_link := e_link e |>)
    (Z.to_nat p) (elems h) j ej) as (e1 & He1 & <- & <-); [done|done|].
  by apply alter_keeps.
Qed.

(** and those outside the chain are untouched *)
Lemma unlink_other j :
  0 <= j -> j ∉ l1 ++ i :: l2 ->
  elems h' !! Z.to_nat j = elems h !! Z.to_nat j.
Proof.
  intros H0 Hj.
  assert (forall p, p ∈ l1 ++ i :: l2 -> 0 <= p -> Z.to_nat p <> Z.to_nat j) as Hne.
  { intros p Hp Hp0 E. apply Hj. by replace j with p by lia. }
  pose proof (chains_lseg b _ Hc) as Hl.
  assert (forall p, p ∈ l1 ++ i :: l2 -> Z.to_nat p <> Z.to_nat j) as Hne'.
  { intros p Hp. apply Hne; [done|]. by apply (lseg_elem _ _ _ p Hl). }
  destruct (unlink_fields (Z.of_nat b) (last l1) i e) as (E & _).
  fold h' in E. rewrite E. destruct (last l1) as [p|] eqn:El.
  - apply last_Some in El as [l' ->].
    rewrite !list_lookup_alter_ne; [done| |]; apply Hne';
      rewrite !elem_of_app, ?elem_of_cons; elem_list.
  - rewrite list_lookup_alter_ne; [done|]. apply Hne'. elem_list.
Qed.

Lemma unlink_chain :
  lseg (elems h') (head_of h' (Z.of_nat b)) (l1 ++ l2) /\
  (exists s', inits h' = <[b := s']> (inits h)).
Proof.
  pose proof (chains_lseg b _ Hc) as Hl.
  destruct (lseg_app _ _ _ _ _ _ He Hl) as [(_ & Hi & _) Hl2].
  pose proof unlink_nodup as Hnd. apply NoDup_cons in Hnd as [Hiout Hnd].
  apply NoDup_app in Hnd as (Hnd & _ & _).
  assert (Hsub : forall j, j ∈ l1 ++ l2 -> j ∈ concat chains').
  { intros j Hj. apply (elem_of_chains _ j b (l1 ++ l2)); [|done].
    unfold chains'. rewrite list_lookup_insert_eq; [done|].
    by eapply lookup_lt_Some. }
  assert (Hi' : i ∉ l1 ++ l2).
  { intros H. apply Hiout, elem_of_app. left. by apply Hsub. }
  pose proof (lookup_lt_Some _ _ _ Hc) as Hlt. pose proof Hok as [].
  assert (Hnd12 : NoDup (l1 ++ l2)).
  { unfold chains' in Hnd. rewrite insert_take_drop, concat_app in Hnd by done.
    cbn in Hnd. apply NoDup_app in Hnd as (_ & _ & Hnd).
    by apply NoDup_app in Hnd as (Hnd & _ & _). }
  destruct (unlink_fields (Z.of_nat b) (last l1) i e) as (E & EI & _).
  fold h' in E, EI. unfold head_of. rewrite E, EI.
  destruct (last l1) as [p|] eqn:El.
  - apply last_Some in El as [l' ->]. rewrite <- !(assoc_L (++)) in *. split.
    + apply lseg_alter_out; [lia|done|]. apply (lseg_relink _ _ _ _ (i :: l2)); [| |done|].
      * rewrite (assoc_L (++)) in Hnd12. by apply NoDup_app in Hnd12 as (? & _).
      * apply NoDup_app in Hnd12 as (_ & _ & Hnd2). by apply NoDup_cons in Hnd2 as [].
      * done.
    + destruct (lookup_lt_is_Some_2 (inits h) b) as [s Hs]; [lia|].
      exists s. by rewrite list_insert_id.
  - apply last_None in El as ->. split.
    + unfold znth. rewrite Nat2Z.id, list_lookup_insert_eq by lia.
      by apply lseg_alter_out; [lia|..].
    + rewrite Nat2Z.id. eauto.
Qed.

Lemma unlink_free : lseg (elems h') (free h') (i :: freelist).
Proof.
  pose proof (chains_lseg b _ Hc) as Hl. pose proof Hok as [].
  destruct (lseg_app _ _ _ _ _ _ He Hl) as [(_ & Hi & _) _].
  pose proof unlink_nodup as Hnd. apply NoDup_cons in Hnd as [Hiout _].
  assert (Hfree : forall p, p ∈ l1 ++ i :: l2 -> p ∉ freelist).
  { intros p Hp. pose proof (nodup_indices h chains freelist Hok) as Hnd.
    apply NoDup_app in Hnd as (_ & Hnd & _). apply Hnd. by eapply elem_of_chains. }
  assert (Hi' : i ∉ freelist) by (apply Hfree; elem_list).
  destruct (unlink_fields (Z.of_nat b) (last l1) i e) as (E & _ & EF & _).
  fold h' in E, EF. rewrite E, EF. destruct (last l1) as [p|] eqn:El.
  - apply last_Some in El as [l' ->].
    assert (Hp : p ∉ freelist) by (apply Hfree; elem_list).
    destruct (lseg_elem _ _ _ p Hl) as [Hp0 _]; [elem_list|].
    assert (p <> i).
    { intros ->. apply Hiout, elem_of_app. left.
      apply (elem_of_chains _ i b ((l' ++ [i]) ++ l2)); [|elem_list].
      unfold chains'. rewrite list_lookup_insert_eq; [done|].
      by eapply lookup_lt_Some. }
    split; [done|]. split; [done|].
    rewrite list_lookup_alter_eq, list_lookup_alter_ne, He by lia.
    cbn. eexists. split; [done|]. cbn.
    by repeat (apply lseg_alter_out; [lia|done|]).
  - split; [done|]. split; [done|].
    rewrite list_lookup_alter_eq, He. cbn. eexists. split; [done|]. cbn.
    by apply lseg_alter_out; [lia|..].
Qed.
End Unlink.

Lemma unlink_ok b l1 l2 i e :
  chains !! b = Some (l1 ++ i :: l2) -> elems h !! Z.to_nat i = Some e ->
  table_ok (unlink (Z.of_nat b) (last l1) i e) (<[b := l1 ++ l2]> chains)
    (i :: freelist).
Proof.
  intros Hc He. set (h' := unlink _ _ _ _).
  destruct (unlink_fields (Z.of_nat b) (last l1) i e)
    as (E & _ & _ & EN & EU & EA & EC). fold h' in E, EN, EU, EA, EC.
  destruct (unlink_chain b l1 l2 i e Hc He) as [Hl [s' EI]]. fold h' in Hl, EI.
  pose proof (unlink_free b l1 l2 i e Hc He) as Hf. fold h' in Hf.
  pose proof (concat_insert_remove chains b l1 i l2 Hc) as Hp.
  pose proof Hok as []. pose proof (lookup_lt_Some _ _ _ Hc) as Hlt.
  assert (Hlen : length (elems h') = length (elems h)).
  { rewrite E. destruct (last l1); by rewrite !length_alter. }
  assert (Hback : forall j ej, j ∈ concat chains -> elems h' !! Z.to_nat j = Some ej ->
    exists e0, elems h !! Z.to_nat j = Some e0 /\ e_key ej = e_key e0).
  { intros j ej Hj Hej. destruct (lookup_lt_is_Some_2 (elems h) (Z.to_nat j)) as [e0 He0].
    { rewrite <- Hlen. by eapply lookup_lt_Some. }
    exists e0. split; [done|].
    destruct (unlink_elem b l1 i e (Z.to_nat j) e0 He0) as (e1 & He1 & Hk & _).
    fold h' in He1. congruence. }
  assert (Hin : forall j, j ∈ l1 ++ l2 -> j ∈ l1 ++ i :: l2) by (intros j; elem_list).
  assert (Hin' : forall j, j ∈ concat (<[b:=l1 ++ l2]> chains) -> j ∈ concat chains).
  { intros j Hj. rewrite <- Hp. by right. }
  replace b with (Z.to_nat (Z.of_nat b)) by lia.
  apply (table_replace h h' chains freelist (i :: freelist) (Z.of_nat b) (l1 ++ l2) s');
    rewrite ?Nat2Z.id; try done; try lia.
  - unfold head_of, znth in Hl. by rewrite EI, Nat2Z.id, list_lookup_insert_eq in Hl by lia.
  - intros b2 c2 j ej Hne Hb2 Hj Hej. rewrite <- Hej. apply (unlink_other b l1 l2 i e Hc).
    + apply chains_nonneg. by eapply elem_of_chains.
    + intros Hj'. apply Hne. 
      pose proof (ok_keys0 b2 c2 j ej Hb2 Hj Hej).
      pose proof (ok_keys0 b _ j ej Hc Hj' Hej). lia.
  - intros j ej Hj Hej.
    destruct (Hback j ej) as (e0 & He0 & ->); [by eapply elem_of_chains, Hin|done|].
    apply (ok_keys0 b _ j e0 Hc); [by apply Hin|done].
  - intros x y ex ey Hx Hy Hex Hey Hk.
    destruct (Hback x ex) as (ex0 & ? & ?); [by apply Hin'|done|].
    destruct (Hback y ey) as (ey0 & ? & ?); [by apply Hin'|done|].
    apply (ok_nodup0 x y ex0 ey0); auto. congruence.
  - rewrite Hlen, <- ok_perm0, <- Hp. cbn. by rewrite Permutation_middle.
  - rewrite EC, ok_count0, <- Hp. cbn. lia.
Qed.

(** Deletion finds what lookup finds, and removes exactly that. *)
Lemma del_ok key :
  let '(h', r) := utp_hash_del hash_compute hash_equal h key in
  (exists i chains', r = Found i /\ holds h chains key i /\
     table_ok h' chains' (i :: freelist) /\
     i :: concat chains' ≡ₚ concat chains /\
     forall j ej, elems h !! j = Some ej -> exists ej',
       elems h' !! j = Some ej' /\ e_key ej' = e_key ej /\ e_val ej' = e_val ej) \/
  (r = NotFound /\ h' = h /\ forall i, ~ holds h chains key i).
Proof.
  unfold utp_hash_del. destruct (bucket_chain h chains freelist Hok key) as (c & Hc & Hl).
  pose proof (mkidx_range h chains freelist Hok key) as Hr.
  destruct (del_walk_spec (length (elems h)) key
    (utp_hash_mkidx hash_compute h key) [] c _ Hl)
    as [(l1 & i & l2 & e & -> & He & Hk & E)|[E Hno]]; [by eapply chain_length| |];
    cbn [last] in E; rewrite E.
  - left. pose proof (unlink_ok _ l1 l2 i e Hc He) as Hok'.
    rewrite Z2Nat.id in Hok' by lia. exists i. eexists. split_and!; try done.
    + split; [apply (elem_of_chains chains i _ _ Hc); elem_list|]. rewrite He. cbn. by rewrite Hk.
    + by apply concat_insert_remove.
    + intros j ej Hj. replace (utp_hash_mkidx hash_compute h key)
        with (Z.of_nat (Z.to_nat (utp_hash_mkidx hash_compute h key))) by lia.
      by apply unlink_elem.
  - right. split_and!; try done. intros i [Hi Hk].
    pose proof (lookup_spec h chains freelist Hok key) as Hlk.
    unfold utp_hash_lookup in Hlk.
    destruct (chain_walk_spec h (length (elems h)) key _ c Hl)
      as [(j & e & Ej & Hj & He & Hkj)|[Ej _]]; [by eapply chain_length| |].
    + by apply (Hno j e).
    + rewrite Ej in Hlk. by apply (Hlk i).
Qed.
End Ops.
End HashFacts.

(** ** The table as a finite map *)

(** What the rest of the library relies on: a partial map from keys to values
    with a well-formedness invariant kept by every operation. *)
Class KeyedTable (T K V : Type) `{!EqDecision K} := {
  kt_wf : T -> Prop;
  kt_get : T -> K -> option V;
  kt_insert : T -> K -> V -> option T;
  kt_delete : T -> K -> T;
  kt_count : T -> Z;
  kt_insert_spec t t' k v : kt_wf t -> kt_get t k = None -> kt_insert t k v = Some t' ->
    kt_wf t' /\ kt_count t' = kt_count t + 1 /\
    forall k', kt_get t' k' = if decide (k' = k) then Some v else kt_get t k';
  kt_delete_spec t k : kt_wf t ->
    kt_wf (kt_delete t k) /\
    (forall k', kt_get (kt_delete t k) k'
       = if decide (k' = k) then None else kt_get t k') /\
    kt_count (kt_delete t k)
    = kt_count t - (match kt_get t k with Some _ => 1 | None => 0 end);
}.

Section Map.
Context {K V : Type} `{!EqDecision K}.
Context (hash_compute : K -> Z) (hash_equal : K -> K -> bool).
Context (Heq : forall a b, hash_equal a b = bool_decide (a = b)).
Implicit Types (h : utp_hash_t K V) (key k : K).

(** [Lookup(key)->socket] *)
Definition table_get h key : option V :=
  match utp_hash_lookup hash_compute hash_equal h key with
  | Found i => e ← elem_at h i; e_val e
  | _ => None
  end.

(** [Add(key)->socket = v] *)
Definition table_insert h key (v : V) : option (utp_hash_t K V) :=
  match utp_hash_add hash_compute h key with
  | Some (h, i) => Some (set_val h i v)
  | None => None
  end.

(** [Delete(key)] *)
Definition table_delete h key : utp_hash_t K V :=
  fst (utp_hash_del hash_compute hash_equal h key).

(** Well formed, with a socket stored in every live element. *)
Definition table_full h : Prop := exists chains freelist,
  table_ok hash_compute h chains freelist /\
  forall i, i ∈ concat chains -> exists e v, elem_at h i = Some e /\ e_val e = Some v.

Lemma set_val_ok h chains fl i v :
  table_ok hash_compute h chains fl -> table_ok hash_compute (set_val h i v) chains fl.
Proof.
  intros []. unfold set_val, set_elem.
  assert (Hb : forall j e', alter (fun e : elem K V => e <| e_val := Some v |>)
      (Z.to_nat i) (elems h) !! j = Some e' ->
      exists e, elems h !! j = Some e /\ e_key e = e_key e').
  { intros j e'. rewrite list_lookup_alter. case_decide as E; [|by eauto].
    rewrite E. destruct (elems h !! j); cbn; [|done]. intros [= <-]. eauto. }
  destruct h. cbn in *. split; cbn; rewrite ?length_alter; try done.
  - intros b c Hc. destruct (ok_lsegs0 b c Hc) as (s & Hs & Hl). exists s.
    split; [done|]. by apply lseg_alter_link.
  - by apply lseg_alter_link.
  - intros b c j e' Hc Hj He'. destruct (Hb _ _ He') as (e & He & <-). eauto.
  - intros x y ex ey Hx Hy Hex Hey Hk. destruct (Hb _ _ Hex) as (? & ? & ?).
    destruct (Hb _ _ Hey) as (? & ? & ?). eapply ok_nodup0; eauto. congruence.
Qed.

(** The value of a key, through the element that holds it. *)
Lemma table_get_holds h chains fl key i e :
  table_ok hash_compute h chains fl -> holds h chains key i -> elem_at h i = Some e ->
  table_get h key = e_val e.
Proof.
  intros Hok Hi He. unfold table_get.
  pose proof (lookup_spec hash_compute hash_equal Heq h chains fl Hok key) as Hl.
  destruct (utp_hash_lookup _ _ _ _) as [j| |]; [|by destruct (Hl i)|done].
  rewrite (holds_unique hash_compute h chains fl Hok key j i Hl Hi), He. done.
Qed.

Lemma table_get_absent h chains fl key :
  table_ok hash_compute h chains fl -> (forall i, ~ holds h chains key i) ->
  table_get h key = None.
Proof.
  intros Hok Hno. unfold table_get.
  pose proof (lookup_spec hash_compute hash_equal Heq h chains fl Hok key) as Hl.
  destruct (utp_hash_lookup _ _ _ _) as [j| |]; [by destruct (Hno j)|done|done].
Qed.

Lemma table_get_None h chains fl key :
  table_ok hash_compute h chains fl ->
  (forall i, i ∈ concat chains -> exists e v, elem_at h i = Some e /\ e_val e = Some v) ->
  table_get h key = None -> forall i, ~ holds h chains key i.
Proof.
  intros Hok Hfull Hn i Hi. destruct (Hfull i) as (e & v & He & Hv); [apply Hi|].
  rewrite (table_get_holds _ _ _ _ _ _ Hok Hi He), Hv in Hn. done.
Qed.

Lemma holds_dec h chains fl key :
  table_ok hash_compute h chains fl ->
  (exists i, holds h chains key i) \/ (forall i, ~ holds h chains key i).
Proof.
  intros Hok. pose proof (lookup_spec hash_compute hash_equal Heq h chains fl Hok key) as Hl.
  destruct (utp_hash_lookup _ _ _ _); [by eauto|by right|done].
Qed.

(** Two tables whose live elements carry the same keys and values agree. *)
Lemma table_get_transfer h chains fl h' chains' fl' key :
  table_ok hash_compute h chains fl -> table_ok hash_compute h' chains' fl' ->
  (forall i, holds h chains key i <-> holds h' chains' key i) ->
  (forall i, holds h chains key i ->
     e_val <$> elem_at h i = e_val <$> elem_at h' i) ->
  table_get h key = table_get h' key.
Proof.
  intros Hok Hok' Hh Hv. destruct (holds_dec h chains fl key Hok) as [[i Hi]|Hno].
  - pose proof (proj1 (Hh i) Hi) as Hi'. specialize (Hv i Hi).
    destruct Hi as [Hin Hk], (Hi') as [Hin' Hk']. unfold elem_at in *.
    destruct (elems h !! Z.to_nat i) as [e|] eqn:He; [|done].
    destruct (elems h' !! Z.to_nat i) as [e'|] eqn:He'; [|done].
    rewrite (table_get_holds h chains fl key i e Hok), (table_get_holds h' chains' fl' key i e' Hok');
      try done; [by injection Hv|]. split; [done|]. by rewrite He.
  - rewrite !(table_get_absent _ _ _ _ Hok), (table_get_absent _ _ _ _ Hok'); [done| |done].
    intros i Hi. by apply (Hno i), Hh.
Qed.

Lemma set_val_elem h i v j :
  elem_at (set_val h i v) j
  = if decide (Z.to_nat i = Z.to_nat j) then (fun e => e <| e_val := Some v |>) <$> elem_at h j
    else elem_at h j.
Proof.
  unfold elem_at, set_val, set_elem. destruct h. cbn.
  rewrite list_lookup_alter. case_decide as E; [by rewrite E|done].
Qed.

Lemma holds_set_val h chains i v key j :
  holds (set_val h i v) chains key j <-> holds h chains key j.
Proof.
  unfold holds. fold (elem_at (set_val h i v) j) (elem_at h j). rewrite set_val_elem.
  case_decide; [|done]. by destruct (elem_at h j).
Qed.

Lemma chain_elem h chains fl j :
  table_ok hash_compute h chains fl -> j ∈ concat chains -> is_Some (elem_at h j).
Proof.
  intros Hok Hj. destruct (chains_elem_of chains j Hj) as (b & c & Hb & Hjc).
  destruct (ok_lsegs _ _ _ _ Hok b c Hb) as (s & _ & Hl).
  by destruct (lseg_elem _ _ _ j Hl Hjc).
Qed.

(** The table after an insertion: one more live element, the others as before. *)
Lemma insert_effect h chains fl h1 i key v :
  table_ok hash_compute h chains fl -> (forall j, ~ holds h chains key j) ->
  utp_hash_add hash_compute h key = Some (h1, i) ->
  exists chains' fl', table_ok hash_compute (set_val h1 i v) chains' fl' /\
    (concat chains' ≡ₚ (i :: concat chains)) /\
    (exists e, elem_at (set_val h1 i v) i = Some e /\ e_key e = key /\ e_val e = Some v) /\
    (forall j, j ∈ concat chains -> elem_at (set_val h1 i v) j = elem_at h j).
Proof.
  intros Hok Hno Hadd.
  destruct (add_ok hash_compute h chains fl Hok key h1 i Hno Hadd)
    as (chains' & fl' & Hok1 & Hperm & Hout & Hkey & Hold).
  exists chains', fl'. destruct (elems h1 !! Z.to_nat i) as [e1|] eqn:He1; [|done].
  injection Hkey as Hkey. split_and!; [by apply set_val_ok|done| |].
  - rewrite set_val_elem, decide_True by done. unfold elem_at. rewrite He1. cbn. eauto.
  - intros j Hj. rewrite set_val_elem, decide_False.
    + destruct (chain_elem _ _ _ j Hok Hj) as [ej Hej]. unfold elem_at in *.
      by rewrite Hej, (Hold j ej Hj Hej).
    + intros E. apply Hout. pose proof (chains_nonneg hash_compute h chains fl Hok j Hj).
      assert (Hi : i ∈ concat chains') by (rewrite Hperm; by left).
      pose proof (chains_nonneg hash_compute h1 chains' fl' Hok1 i Hi).
      by replace i with j by lia.
Qed.

Lemma table_insert_spec h h' key v :
  table_full h -> table_get h key = None -> table_insert h key v = Some h' ->
  table_full h' /\ count h' = count h + 1 /\
  forall k, table_get h' k = if decide (k = key) then Some v else table_get h k.
Proof.
  intros (chains & fl & Hok & Hfull) Hn Hins. unfold table_insert in Hins.
  destruct (utp_hash_add hash_compute h key) as [[h1 i]|] eqn:Hadd; [|done].
  injection Hins as <-. pose proof (table_get_None _ _ _ _ Hok Hfull Hn) as Hno.
  destruct (insert_effect h chains fl h1 i key v Hok Hno Hadd)
    as (chains' & fl' & Hok2 & Hperm & (e1 & Hval & Hkey & Hv) & Hnew).
  assert (Hi : holds (set_val h1 i v) chains' key i).
  { split; [rewrite Hperm; by left|]. fold (elem_at (set_val h1 i v) i).
    rewrite Hval. cbn. by rewrite Hkey. }
  split_and!.
  - exists chains', fl'. split; [done|]. intros j Hj. rewrite Hperm in Hj.
    apply elem_of_cons in Hj as [->|Hj]; [eauto|]. rewrite (Hnew j Hj). by apply Hfull.
  - rewrite (ok_count _ _ _ _ Hok2), Hperm, (ok_count _ _ _ _ Hok). cbn. lia.
  - intros k. case_decide as Hk.
    + subst k. by rewrite (table_get_holds _ _ _ key i e1 Hok2).
    + symmetry. apply (table_get_transfer h chains fl _ chains' fl' k); try done.
      * intros j. unfold holds. fold (elem_at (set_val h1 i v) j) (elem_at h j).
        rewrite Hperm, elem_of_cons. split.
        -- intros [Hj Hkj]. rewrite Hnew by done. auto.
        -- intros [[->|Hj] Hkj]; [|by rewrite Hnew in Hkj].
           rewrite Hval in Hkj. cbn in Hkj. congruence.
      * intros j [Hj _]. by rewrite Hnew.
Qed.

(** the table after the element [i] was unlinked: the others are where they were *)
Section Deleted.
Context (h h' : utp_hash_t K V) (chains chains' : list (list Z)) (fl : list Z) (i : Z) (key : K).
Context (Hok : table_ok hash_compute h chains fl) (Hok' : table_ok hash_compute h' chains' (i :: fl)).
Context (Hi : holds h chains key i) (Hperm : i :: concat chains' ≡ₚ concat chains).
Context (Hel : forall j, j ∈ concat chains -> exists e e',
  elem_at h j = Some e /\ elem_at h' j = Some e' /\ e_key e' = e_key e /\ e_val e' = e_val e).

Lemma deleted_sub j : j ∈ concat chains <-> j = i \/ j ∈ concat chains'.
Proof. by rewrite <- Hperm, elem_of_cons. Qed.

Lemma deleted_out : i ∉ concat chains'.
Proof.
  pose proof (nodup_indices hash_compute h' chains' (i :: fl) Hok') as Hnd.
  apply NoDup_app in Hnd as (_ & Hnd & _). intros Hin. eapply Hnd; [done|by left].
Qed.

Lemma deleted_get k : table_get h' k = if decide (k = key) then None else table_get h k.
Proof.
  pose proof deleted_out as Hout. case_decide as Hk.
  - subst k. apply (table_get_absent h' chains' (i :: fl)); [done|].
    intros j [Hj Hkj]. assert (j = i) as ->; [|done].
    apply (holds_unique hash_compute h chains fl Hok key); [|done].
    destruct (Hel j) as (e & e' & He & He' & Ek & _); [apply deleted_sub; by right|].
    unfold elem_at in *. rewrite He' in Hkj. split; [apply deleted_sub; by right|].
    rewrite He. cbn in *. congruence.
  - symmetry. apply (table_get_transfer h chains fl h' chains' (i :: fl)); try done.
    + intros j. unfold holds. fold (elem_at h' j) (elem_at h j). split.
      * intros [Hj Hkj]. destruct (Hel j Hj) as (e & e' & He & He' & Ek & _).
        rewrite He in Hkj. rewrite He'. cbn in *. split; [|congruence].
        apply deleted_sub in Hj as [->|Hj]; [|done]. destruct Hi as [_ Hik].
        fold (elem_at h i) in Hik. rewrite He in Hik. cbn in Hik. congruence.
      * intros [Hj Hkj]. destruct (Hel j) as (e & e' & He & He' & Ek & _);
          [apply deleted_sub; by right|]. rewrite He' in Hkj. rewrite He.
        split; [apply deleted_sub; by right|]. cbn in *. congruence.
    + intros j [Hj _]. destruct (Hel j Hj) as (e & e' & -> & -> & _ & Ev). cbn. by rewrite Ev.
Qed.
End Deleted.

Lemma table_delete_spec h key :
  table_full h ->
  table_full (table_delete h key) /\
  (forall k, table_get (table_delete h key) k
     = if decide (k = key) then None else table_get h k) /\
  count (table_delete h key)
  = count h - (match table_get h key with Some _ => 1 | None => 0 end).
Proof.
  intros (chains & fl & Hok & Hfull). unfold table_delete.
  pose proof (del_ok hash_compute hash_equal Heq h chains fl Hok key) as Hdel.
  destruct (utp_hash_del hash_compute hash_equal h key) as [h' r]. cbn [fst].
  destruct Hdel as [(i & chains' & -> & Hi & Hok' & Hperm & Hkeep)|(-> & -> & Hno)].
  - assert (Hel : forall j, j ∈ concat chains -> exists e e',
      elem_at h j = Some e /\ elem_at h' j = Some e' /\
      e_key e' = e_key e /\ e_val e' = e_val e).
    { intros j Hj. destruct (chain_elem _ _ _ j Hok Hj) as [e He].
      destruct (Hkeep _ _ He) as (e' & He' & ?). eauto 6. }
    split_and!.
    + exists chains', (i :: fl). split; [done|]. intros j Hj.
      assert (Hin : j ∈ concat chains) by (rewrite <- Hperm; by right).
      destruct (Hel j Hin) as (e & e' & He & He' & _ & Hv).
      destruct (Hfull j Hin) as (e0 & v & He0 & Hv0). exists e', v. split; [done|]. congruence.
    + by apply (deleted_get h h' chains chains' fl i).
    + destruct (Hfull i (proj1 Hi)) as (e & v & He & Hv).
      rewrite (table_get_holds h chains fl key i e Hok Hi He), Hv.
      rewrite (ok_count _ _ _ _ Hok'), (ok_count _ _ _ _ Hok), <- Hperm. cbn. lia.
  - pose proof (table_get_absent h chains fl key Hok Hno) as Hn.
    split_and!.
    + by exists chains, fl.
    + intros k. case_decide; [by subst|done].
    + rewrite Hn. lia.
Qed.
End Map.
