(* ===== verification/HashMap.v ===== *)
(** * The hash table as a finite map, and sweeping it

    The contract the sockets rely on: [utpHashTable]'s Lookup, Add and Delete
    behave like the operations of a finite map ([KeyedTable] and its instance),
    Add cannot fail before 2^32 - 1 structures are live, and the iterator visits
    every live element exactly once even though the element just returned may be
    deleted before the next step, which is how utp_check_timeouts (in
    src/utp_internal.cpp) sweeps the sockets. *)
From S2P Require Import Prelude Hash.

Section Totality.
Context {K V : Type} `{!EqDecision K}.
Context (hash_compute : K -> Z) (hash_equal : K -> K -> bool).
Implicit Types (h : utp_hash_t K V).

Lemma take_elem_total h chains fl key :
  table_ok hash_compute h chains fl -> count h < LIBUTP_HASH_UNUSED ->
  is_Some (take_elem h key).
Proof.
  intros [] Hc. unfold take_elem. destruct fl as [|f fl].
  - cbn in ok_free. rewrite ok_free, Z.eqb_refl.
    rewrite app_nil_r in ok_perm. apply Permutation_length in ok_perm.
    unfold zseq in ok_perm. rewrite length_fmap, length_seq in ok_perm.
    unfold grow_allocated, LIBUTP_HASH_UNUSED in *.
    destruct (Z.eqb_spec (used h) (allocated h)); [|by eexists].
    destruct (Z.leb_spec (allocated h) (4294967295 / 2)); [by eexists|].
    destruct (Z.eqb_spec (allocated h) 4294967295); [lia|by eexists].
  - destruct ok_free as (E & Hf & e & He & _). rewrite E.
    destruct (Z.eqb_spec f LIBUTP_HASH_UNUSED); [lia|].
    unfold elem_at. rewrite He. by eexists.
Qed.

Lemma table_insert_total h key v :
  table_full hash_compute h -> count h < LIBUTP_HASH_UNUSED ->
  is_Some (table_insert hash_compute h key v).
Proof.
  intros (chains & fl & Hok & _) Hc. unfold table_insert, utp_hash_add.
  destruct (take_elem_total h chains fl key Hok Hc) as [[h1 i] ->]. by eexists.
Qed.

Lemma create_full n initial :
  0 < n -> 0 < initial <= LIBUTP_HASH_UNUSED ->
  table_full (V := V) hash_compute (empty_table n initial).
Proof.
  intros Hn Hi. eexists _, _. split; [by apply create_ok|]. intros i Hin.
  apply list_elem_of_In, in_concat in Hin as (c & Hc & Hi').
  apply list_elem_of_In, elem_of_replicate in Hc as [-> _]. done.
Qed.

Lemma create_get n initial key :
  0 < n -> table_get hash_compute hash_equal (empty_table n initial : utp_hash_t K V) key = None.
Proof.
  intros Hn. unfold table_get, utp_hash_lookup, utp_hash_mkidx, empty_table.
  pose proof (Z.mod_pos_bound (hash_compute key) n Hn) as Hb. unfold head_of, znth. cbn [N inits elems length].
  rewrite lookup_replicate_2 by lia. done.
Qed.
End Totality.

(** the number of buckets never changes *)
Section Buckets.
Context {K V : Type} (hash_compute : K -> Z) (hash_equal : K -> K -> bool).
Implicit Types (h : utp_hash_t K V).

Lemma take_elem_N h key h' i : take_elem h key = Some (h', i) -> N h' = N h.
Proof.
  unfold take_elem, grow_allocated. intros H. repeat case_match; simplify_eq; try done;
    match goal with h : utp_hash_t K V |- _ => by destruct h end.
Qed.

Lemma table_insert_N h key v h' : table_insert hash_compute h key v = Some h' -> N h' = N h.
Proof.
  unfold table_insert, utp_hash_add, set_val, set_elem, set_head. intros Hi.
  destruct (take_elem h key) as [[h1 i]|] eqn:Ht; [|done]. injection Hi as <-.
  apply take_elem_N in Ht. rewrite <- Ht. by destruct h1.
Qed.

Lemma del_walk_N fuel : forall h key idx prev cur,
  N (fst (del_walk hash_equal fuel h key idx prev cur)) = N h.
Proof.
  induction fuel as [|fuel IH]; intros h key idx prev cur; cbn [del_walk];
    (destruct (cur =? LIBUTP_HASH_UNUSED); [done|]); [done|].
  destruct (elem_at h cur) as [e|]; [|done]. destruct (hash_equal key (e_key e)); [|apply IH].
  destruct prev; by destruct h.
Qed.

Lemma table_delete_N h key : N (table_delete hash_compute hash_equal h key) = N h.
Proof. unfold table_delete, utp_hash_del. apply del_walk_N. Qed.
End Buckets.

(** ** Iteration *)
Section Iteration.
Context {K V : Type} `{!EqDecision K}.
Context (hash_compute : K -> Z) (hash_equal : K -> K -> bool).
Context (Heq : forall a b, hash_equal a b = bool_decide (a = b)).
Implicit Types (h : utp_hash_t K V) (it : Z * Z).

(** The iterator stands in bucket [b] after the elements [l1] of its chain,
    with [l] to come. *)
Definition it_at h (chains : list (list Z)) it (b : nat) (l1 l : list Z) : Prop :=
  fst it = Z.of_nat b /\ chains !! b = Some (l1 ++ l) /\ lseg (elems h) (snd it) l.

(** The elements still to be returned. *)
Definition it_rem h (chains : list (list Z)) it (rem : list Z) : Prop :=
  (it = iter_init /\ rem = concat chains) \/
  exists b l1 l, it_at h chains it b l1 l /\ rem = l ++ concat (drop (S b) chains).

(** The loop of utp_check_timeouts: every element returned is visited, and
    deleted when [doomed] says so.  The result is the final table and the keys
    visited. *)
Fixpoint sweep (fuel : nat) h it (doomed : K -> bool) : option (utp_hash_t K V * list K) :=
  match fuel with
  | O => None
  | S fuel =>
      match utp_hash_iterate h it with
      | None => Some (h, [])
      | Some (it, i) =>
          match elem_at h i with
          | None => None
          | Some e =>
              let h := if doomed (e_key e)
                       then table_delete hash_compute hash_equal h (e_key e) else h in
              match sweep fuel h it doomed with
              | Some (h, l) => Some (h, e_key e :: l)
              | None => None
              end
          end
      end
  end.

Section Step.
Context h chains fl (Hok : table_ok hash_compute h chains fl).
Context (HN : N h < LIBUTP_HASH_UNUSED).

Lemma next_bucket_spec fuel k :
  (Z.to_nat (N h) < k + fuel)%nat ->
  match next_bucket fuel h (Z.of_nat k) with
  | None => concat (drop k chains) = []
  | Some (b, x) => exists bn l, b = Z.of_nat bn /\ chains !! bn = Some (x :: l) /\
      lseg (elems h) x (x :: l) /\
      concat (drop k chains) = x :: l ++ concat (drop (S bn) chains)
  end.
Proof.
  revert k. induction fuel as [|fuel IH]; intros k Hf; cbn [next_bucket].
  - rewrite drop_ge; [done|]. destruct Hok. lia.
  - pose proof (ok_chains _ _ _ _ Hok) as Hlen.
    destruct (Z.leb_spec (N h) (Z.of_nat k)); [by rewrite drop_ge by lia|].
    destruct (lookup_lt_is_Some_2 chains k) as [c Hc]; [lia|].
    pose proof (chains_lseg hash_compute h chains fl Hok k c Hc) as Hl.
    destruct c as [|x l].
    + cbn in Hl. rewrite Hl, Z.eqb_refl.
      replace (Z.of_nat k + 1) with (Z.of_nat (S k)) by lia.
      rewrite (drop_S _ _ _ Hc). apply (IH (S k)). lia.
    + pose proof Hl as (E & Hx & _). rewrite E in Hl |- *.
      destruct (Z.eqb_spec x LIBUTP_HASH_UNUSED); [lia|].
      exists k, l. rewrite (drop_S _ _ _ Hc). done.
Qed.

(** One step returns the next pending element. *)
Lemma iterate_spec it rem :
  it_rem h chains it rem ->
  match rem with
  | [] => utp_hash_iterate h it = None
  | x :: rem' => exists it' b l1 l e, utp_hash_iterate h it = Some (it', x) /\
      elem_at h x = Some e /\
      it_at h chains it' b (l1 ++ [x]) l /\ rem' = l ++ concat (drop (S b) chains)
  end.
Proof.
  intros Hrem.
  assert (Hnext : forall k, fst it + 1 = Z.of_nat k \/ (it = iter_init /\ k = 0%nat) ->
    rem = concat (drop k chains) -> snd it = LIBUTP_HASH_UNUSED ->
    (k <= length chains)%nat ->
    match rem with
    | [] => utp_hash_iterate h it = None
    | x :: rem' => exists it' b l1 l e, utp_hash_iterate h it = Some (it', x) /\
        elem_at h x = Some e /\
        it_at h chains it' b (l1 ++ [x]) l /\ rem' = l ++ concat (drop (S b) chains)
    end).
  { intros k Hk -> Hs Hle. destruct it as [bk i]. cbn in Hk, Hs. subst i.
    unfold utp_hash_iterate. rewrite Z.eqb_refl.
    pose proof (ok_chains _ _ _ _ Hok) as Hlen. unfold LIBUTP_HASH_UNUSED in *.
    assert (u32 (bk + 1) = Z.of_nat k) as ->.
    { destruct Hk as [->|[[= ->] ->]]; [|done]. word_lia. }
    pose proof (next_bucket_spec (S (Z.to_nat (N h))) k) as Hnb.
    destruct (next_bucket _ _ _) as [[b x]|]; [|by rewrite Hnb by lia].
    destruct Hnb as (bn & l & -> & Hc & Hl & ->); [lia|].
    destruct Hl as (_ & _ & e & He & Hl). unfold elem_at. rewrite He.
    exists (Z.of_nat bn, e_link e), bn, [], l, e. by split_and!. }
  destruct Hrem as [[-> Hrem]|(b & l1 & l & (Hb & Hc & Hl) & Hrem)].
  - apply (Hnext 0%nat); [by right|done..|lia].
  - destruct l as [|x l]; [apply (Hnext (S b)); [left; lia|done..|]|].
    + apply lookup_lt_Some in Hc. lia.
    + destruct it as [bk i]. cbn in Hl, Hb. destruct Hl as (-> & Hx & e & He & Hl).
      subst bk rem. cbn. unfold utp_hash_iterate.
      destruct (Z.eqb_spec x LIBUTP_HASH_UNUSED); [lia|].
      unfold elem_at. rewrite He. exists (Z.of_nat b, e_link e), b, l1, l, e.
      unfold it_at. split_and!; try done. by rewrite <- (assoc_L (++)).
Qed.

Lemma chain_nodup b c : chains !! b = Some c -> NoDup c.
Proof.
  intros Hc. pose proof (nodup_indices hash_compute h chains fl Hok) as Hnd.
  apply NoDup_app in Hnd as (Hnd & _). apply list_elem_of_split_length in Hc
    as (A & B & -> & _). rewrite concat_app in Hnd. cbn in Hnd.
  apply NoDup_app in Hnd as (_ & _ & Hnd). by apply NoDup_app in Hnd as (Hnd & _).
Qed.
End Step.

Lemma nodup_split_eq (x : Z) l1 l2 l1' l2' :
  NoDup (l1 ++ x :: l2) -> l1 ++ x :: l2 = l1' ++ x :: l2' -> l1 = l1' /\ l2 = l2'.
Proof.
  revert l1'. induction l1 as [|a l1 IH]; intros l1' Hnd E; destruct l1' as [|a' l1'];
    cbn in *; [by simplify_eq|..]; injection E as <- E; subst.
  - apply NoDup_cons in Hnd as [Hx _]. destruct Hx. elem_list.
  - apply NoDup_cons in Hnd as [Hx _]. destruct Hx. elem_list.
  - apply NoDup_cons in Hnd as [_ Hnd]. by destruct (IH l1' Hnd E) as [-> ->].
Qed.

(** Deleting the element just returned keeps what is pending. *)
Lemma delete_returned h chains fl it b l1 x l e :
  table_ok hash_compute h chains fl -> elem_at h x = Some e ->
  it_at h chains it b (l1 ++ [x]) l ->
  let h' := table_delete hash_compute hash_equal h (e_key e) in
  table_ok hash_compute h' (<[b := l1 ++ l]> chains) (x :: fl) /\
  it_at h' (<[b := l1 ++ l]> chains) it b l1 l /\ N h' = N h.
Proof.
  intros Hok He (Hb & Hc & Hl) h'. rewrite <- (assoc_L (++)) in Hc. cbn in Hc.
  pose proof (chain_nodup h chains fl Hok b _ Hc) as Hnd.
  assert (Hidx : utp_hash_mkidx hash_compute h (e_key e) = Z.of_nat b).
  { apply (ok_keys _ _ _ _ Hok b _ x e Hc); [elem_list|done]. }
  assert (Hh' : h' = unlink h (Z.of_nat b) (last l1) x e).
  { unfold h', table_delete, utp_hash_del. rewrite Hidx.
    destruct (del_walk_spec hash_equal Heq h (length (elems h)) (e_key e) (Z.of_nat b) []
      (l1 ++ x :: l) (head_of h (Z.of_nat b))) as [(l1' & y & l2 & ey & E1 & Hy & Hk & E)|[_ Hno]].
    - by eapply chains_lseg.
    - by eapply chain_length.
    - cbn [last app] in E. rewrite E. cbn [fst].
      assert (y = x) as ->.
      { apply (ok_nodup _ _ _ _ Hok y x ey e); [| |done..].
        - eapply elem_of_chains; [done|]. rewrite E1. elem_list.
        - eapply elem_of_chains; [done|]. elem_list. }
      destruct (nodup_split_eq x l1 l l1' l2 Hnd E1) as [-> ->].
      unfold elem_at in He. rewrite He in Hy. by injection Hy as ->.
    - destruct (Hno x e); [elem_list|done|done]. }
  destruct (unlink_fields hash_compute h chains fl Hok (Z.of_nat b) (last l1) x e)
    as (Eel & _ & _ & EN & _). rewrite Hh'. split_and!; [by apply unlink_ok| |done].
  split; [done|]. split; [apply list_lookup_insert_eq; by eapply lookup_lt_Some|].
  eapply lseg_ext; [|exact Hl]. intros j ej Hj Hej.
  rewrite Eel. exists ej. split; [|done].
  assert (Hz : forall k, k ∈ l1 ++ x :: l -> 0 <= k).
  { intros k Hk. eapply chains_nonneg; [done|]. by eapply elem_of_chains. }
  assert (Hne : forall k, k ∈ l1 ++ [x] -> Z.to_nat k <> Z.to_nat j).
  { intros k Hk E. change (x :: l) with ([x] ++ l) in *. rewrite (assoc_L (++)) in Hnd, Hz.
    apply NoDup_app in Hnd as (_ & Hnd & _). apply (Hnd k Hk).
    replace k with j; [done|].
    pose proof (Hz k (proj2 (elem_of_app _ _ _) (or_introl Hk))).
    pose proof (Hz j (proj2 (elem_of_app _ _ _) (or_intror Hj))). lia. }
  rewrite list_lookup_alter_ne by (apply Hne; elem_list).
  destruct (last l1) as [p|] eqn:El; [|done]. apply last_Some in El as [l' ->].
  rewrite list_lookup_alter_ne by (apply Hne; elem_list). done.
Qed.

Definition keys_at h (l : list Z) : list K := omap (fun i => e_key <$> elem_at h i) l.

Lemma keys_at_ext h h' l :
  (forall i, i ∈ l -> e_key <$> elem_at h' i = e_key <$> elem_at h i) ->
  keys_at h' l = keys_at h l.
Proof.
  unfold keys_at. induction l as [|i l IH]; intros Hl; [done|]. cbn.
  rewrite (Hl i) by elem_list. rewrite IH; [done|]. intros j Hj. apply Hl. elem_list.
Qed.

(** Deletions keep the keys of all structures. *)
Lemma delete_keeps_key h chains fl k i :
  table_ok hash_compute h chains fl -> i ∈ concat chains ->
  e_key <$> elem_at (table_delete hash_compute hash_equal h k) i = e_key <$> elem_at h i.
Proof.
  intros Hok Hi. destruct (chain_elem hash_compute h chains fl i Hok Hi) as [e He].
  pose proof (del_ok hash_compute hash_equal Heq h chains fl Hok k) as Hdel.
  unfold table_delete, elem_at in *. destruct (utp_hash_del _ _ h k) as [h' r]. cbn [fst].
  destruct Hdel as [(j & chains' & _ & _ & _ & _ & Hkeep)|(_ & -> & _)]; [|done].
  destruct (Hkeep _ _ He) as (e' & He' & Hk & _). rewrite He, He'. cbn. by rewrite Hk.
Qed.

(** ... and their values, while fewer elements stay in the chains. *)
Lemma delete_keeps_val h chains fl k i :
  table_ok hash_compute h chains fl -> i ∈ concat chains ->
  e_val <$> elem_at (table_delete hash_compute hash_equal h k) i = e_val <$> elem_at h i.
Proof.
  intros Hok Hi. destruct (chain_elem hash_compute h chains fl i Hok Hi) as [e He].
  pose proof (del_ok hash_compute hash_equal Heq h chains fl Hok k) as Hdel.
  unfold table_delete, elem_at in *. destruct (utp_hash_del _ _ h k) as [h' r]. cbn [fst].
  destruct Hdel as [(j & chains' & _ & _ & _ & _ & Hkeep)|(_ & -> & _)]; [|done].
  destruct (Hkeep _ _ He) as (e' & He' & _ & Hv). rewrite He, He'. cbn. by rewrite Hv.
Qed.

Lemma it_rem_elem h chains it rem i :
  it_rem h chains it rem -> i ∈ rem -> i ∈ concat chains.
Proof.
  intros [[_ ->]|(b & l1 & l & (_ & Hc & _) & ->)] Hi; [done|].
  apply list_elem_of_split_length in Hc as (A & B & -> & ->).
  rewrite concat_app. cbn.
  replace (drop (S (length A)) (A ++ (l1 ++ l) :: B)) with B in Hi.
  - revert Hi. rewrite !elem_of_app. tauto.
  - replace (S (length A)) with (length A + 1)%nat by lia. by rewrite <- drop_drop, drop_app_length.
Qed.

Lemma sweep_ok doomed : forall rem fuel h chains fl it,
  table_ok hash_compute h chains fl -> table_full hash_compute h ->
  N h < LIBUTP_HASH_UNUSED -> it_rem h chains it rem -> (length rem < fuel)%nat ->
  exists h', sweep fuel h it doomed = Some (h', keys_at h rem) /\
    table_full hash_compute h' /\
    forall k, table_get hash_compute hash_equal h' k
      = if doomed k && bool_decide (k ∈ keys_at h rem) then None
        else table_get hash_compute hash_equal h k.
Proof.
  induction rem as [|x rem IH]; intros fuel h chains fl it Hok Hfull HN Hrem Hf;
    destruct fuel as [|fuel]; try (cbn in Hf; lia); cbn [sweep];
    pose proof (iterate_spec h chains fl Hok HN it _ Hrem) as Hit; cbn in Hit.
  - rewrite Hit. exists h. split_and!; [done|done|]. intros k.
    rewrite bool_decide_eq_false_2 by (apply not_elem_of_nil). by rewrite andb_false_r.
  - destruct Hit as (it' & b & l1 & l & e & -> & He & Hat & ->). rewrite He.
    assert (Hkx : keys_at h (x :: l ++ concat (drop (S b) chains))
      = e_key e :: keys_at h (l ++ concat (drop (S b) chains)))
      by (cbn; rewrite He; done).
    rewrite Hkx. pose proof (delete_returned h chains fl it' b l1 x l e Hok He Hat)
      as (Hok' & Hat' & HN').
    pose proof (table_delete_spec hash_compute hash_equal Heq h (e_key e) Hfull)
      as (Hfull' & Hget' & _).
    destruct (doomed (e_key e)) eqn:Hd.
    + destruct (IH fuel _ _ _ it' Hok' Hfull') as (h2 & -> & Hfull2 & Hget2);
        [lia| |cbn in Hf; lia|].
      { right. exists b, l1, l. split; [done|]. by rewrite drop_insert_lt by lia. }
      assert (EK : keys_at (table_delete hash_compute hash_equal h (e_key e))
          (l ++ concat (drop (S b) chains)) = keys_at h (l ++ concat (drop (S b) chains))).
      { apply keys_at_ext. intros i Hi. eapply delete_keeps_key; [done|].
        eapply (it_rem_elem h chains it' (l ++ concat (drop (S b) chains))); [|done].
        right. by exists b, (l1 ++ [x]), l. }
      rewrite EK in *.
      exists h2. split_and!; [done|done|]. intros k. rewrite Hget2, Hget'.
      case_decide as Ek; subst; [rewrite Hd, (bool_decide_eq_true_2 (_ ∈ _ :: _)) by (by left)|].
      * by destruct (_ && _).
      * case_bool_decide as E1; case_bool_decide as E2; rewrite ?elem_of_cons in *;
          try done; tauto.
    + destruct (IH fuel h chains fl it' Hok Hfull HN) as (h2 & -> & Hfull2 & Hget2);
        [|cbn in Hf; lia|].
      { right. exists b, (l1 ++ [x]), l. by split. }
      exists h2. split_and!; [done|done|]. intros k. rewrite Hget2.
      case_bool_decide as E1; case_bool_decide as E2; rewrite ?elem_of_cons in *;
        try done; try tauto.
      assert (k = e_key e) as -> by tauto. by rewrite Hd.
Qed.

Lemma elem_of_keys_at h l k :
  k ∈ keys_at h l <-> exists i, i ∈ l /\ e_key <$> elem_at h i = Some k.
Proof. apply list_elem_of_omap. Qed.

Lemma keys_at_nodup h chains fl :
  table_ok hash_compute h chains fl -> NoDup (keys_at h (concat chains)).
Proof.
  intros Hok. pose proof (nodup_indices hash_compute h chains fl Hok) as Hnd.
  apply NoDup_app in Hnd as (Hnd & _).
  assert (forall l, NoDup l -> (forall i, i ∈ l -> i ∈ concat chains) -> NoDup (keys_at h l)) as HH.
  { induction l as [|i l IH]; intros Hl Hsub; [constructor|].
    apply NoDup_cons in Hl as [Hi Hl]. unfold keys_at. cbn.
    destruct (elem_at h i) as [e|] eqn:He; cbn; [|apply IH; [done|]; intros; apply Hsub; elem_list].
    apply NoDup_cons. split; [|apply IH; [done|]; intros; apply Hsub; elem_list].
    intros (j & Hj & Ej)%elem_of_keys_at. destruct (elem_at h j) as [ej|] eqn:Hej; [|done].
    injection Ej as Ej. assert (i = j) as ->; [|done].
    apply (ok_nodup _ _ _ _ Hok i j e ej); try done; apply Hsub; elem_list. }
  apply HH; [done|done].
Qed.

Lemma keys_at_get h chains fl k :
  table_ok hash_compute h chains fl ->
  (forall i, i ∈ concat chains -> exists e v, elem_at h i = Some e /\ e_val e = Some v) ->
  k ∈ keys_at h (concat chains) <-> is_Some (table_get hash_compute hash_equal h k).
Proof.
  intros Hok Hfull. rewrite elem_of_keys_at. split.
  - intros (i & Hi & Hk). destruct (Hfull i Hi) as (e & v & He & Hv).
    rewrite (table_get_holds hash_compute hash_equal Heq h chains fl k i e Hok), Hv; [done| |done].
    by split.
  - intros Hs. destruct (holds_dec hash_compute hash_equal Heq h chains fl k Hok) as [[i [Hi Hk]]|Hno].
    + by exists i.
    + rewrite (table_get_absent hash_compute hash_equal Heq h chains fl k Hok Hno) in Hs.
      by destruct Hs.
Qed.
End Iteration.

(** ** The instance *)
#[export] Instance utpHashTable_map {K V} `{!EqDecision K} (hc : K -> Z) :
    KeyedTable (utp_hash_t K V) K V := {
  kt_wf := table_full hc;
  kt_get := table_get hc (fun a b => bool_decide (a = b));
  kt_insert := table_insert hc;
  kt_delete := table_delete hc (fun a b => bool_decide (a = b));
  kt_count := count;
  kt_insert_spec t t' k v := table_insert_spec hc _ (fun a b => eq_refl) t t' k v;
  kt_delete_spec t k := table_delete_spec hc _ (fun a b => eq_refl) t k;
}.

(** ** Properties *)

(** C24: the hash table is a finite map: adding an absent key (which cannot fail
    while fewer than 2^32 - 1 structures are live) stores the value under that
    key and nothing else, deleting removes exactly that key, the element count
    follows, and the invariant of chains and free list is kept. *)
Theorem hash_table_is_map {K V} `{!EqDecision K} (hc : K -> Z) (heq : K -> K -> bool)
    (h : utp_hash_t K V) (key : K) (v : V)
    (Heq : forall a b, heq a b = bool_decide (a = b))
    (Hwf : table_full hc h) (Hcount : count h < LIBUTP_HASH_UNUSED) :
  (table_get hc heq h key = None -> exists h',
     table_insert hc h key v = Some h' /\ table_full hc h' /\ count h' = count h + 1 /\
     forall k, table_get hc heq h' k = if decide (k = key) then Some v else table_get hc heq h k) /\
  (let h' := table_delete hc heq h key in
   table_full hc h' /\
   (forall k, table_get hc heq h' k = if decide (k = key) then None else table_get hc heq h k) /\
   count h' = count h - (match table_get hc heq h key with Some _ => 1 | None => 0 end)).
Proof.
  split; [|by apply table_delete_spec]. intros Hn.
  destruct (table_insert_total hc h key v Hwf Hcount) as [h' Hi]. exists h'.
  split; [done|]. by apply (table_insert_spec hc heq Heq h h' key v).
Qed.

(** A table of 3 buckets over integers, with the identity as hash. *)
Definition zeq (a b : Z) : bool := bool_decide (a = b).
Definition small_table : utp_hash_t Z Z :=
  default (empty_table 3 1)
    (table_insert id (empty_table 3 1) 5 50 ≫= fun h => table_insert id h 8 80).

Lemma small_table_full : table_full id small_table.
Proof.
  unfold small_table.
  pose proof (create_full (V := Z) id 3 1 ltac:(lia) ltac:(unfold LIBUTP_HASH_UNUSED; lia)) as H0.
  destruct (table_insert_total id _ 5 50 H0) as [h1 E1]; [done|]. rewrite E1. cbn [mbind option_bind].
  destruct (table_insert_spec id zeq (fun _ _ => eq_refl) _ _ 5 50 H0 eq_refl E1) as (H1 & _).
  assert (table_get id zeq h1 8 = None) as Hn by (injection E1 as <-; by vm_compute).
  destruct (table_insert_total id h1 8 80 H1) as [h2 E2]; [injection E1 as <-; by vm_compute|].
  rewrite E2. cbn. by destruct (table_insert_spec id zeq (fun _ _ => eq_refl) _ _ 8 80 H1 Hn E2).
Qed.

Lemma hash_table_is_map_witness :
  count small_table = 2 /\ table_get id zeq small_table 8 = Some 80 /\
  exists h', table_insert id small_table 11 110 = Some h' /\ count h' = 3.
Proof.
  split; [by vm_compute|]. split; [by vm_compute|].
  destruct (hash_table_is_map id zeq small_table 11 110 (fun _ _ => eq_refl)
    small_table_full ltac:(by vm_compute)) as [Hi _].
  destruct (Hi ltac:(by vm_compute)) as (h' & E & _ & Hc & _).
  exists h'. split; [exact E|exact Hc].
Defined.

(** C25: the sweep of utp_check_timeouts over the table visits every live key
    exactly once and ends, although the elements it is told to delete are
    unlinked (and put on the free list) while the iterator walks the chains; what
    remains is exactly the elements not deleted. *)
Theorem sweep_visits_once {K V} `{!EqDecision K} (hc : K -> Z) (heq : K -> K -> bool)
    (h : utp_hash_t K V) (doomed : K -> bool) (fuel : nat)
    (Heq : forall a b, heq a b = bool_decide (a = b))
    (Hwf : table_full hc h) (HN : N h < LIBUTP_HASH_UNUSED)
    (Hfuel : count h < Z.of_nat fuel) :
  exists h' keys, sweep hc heq fuel h iter_init doomed = Some (h', keys) /\
    NoDup keys /\ (forall k, k ∈ keys <-> is_Some (table_get hc heq h k)) /\
    table_full hc h' /\
    forall k, table_get hc heq h' k = if doomed k then None else table_get hc heq h k.
Proof.
  pose proof Hwf as (chains & fl & Hok & Hfull).
  destruct (sweep_ok hc heq Heq doomed (concat chains) fuel h chains fl iter_init)
    as (h' & Hs & Hfull' & Hget); try done; [by left| |].
  { pose proof (ok_count _ _ _ _ Hok). lia. }
  exists h', (keys_at h (concat chains)). split_and!; [done| | |done|].
  - by eapply keys_at_nodup.
  - intros k. by eapply keys_at_get.
  - intros k. rewrite Hget. destruct (doomed k); [|done]. cbn. case_bool_decide as Hk; [done|].
    rewrite (keys_at_get hc heq Heq h chains fl k Hok Hfull) in Hk.
    by apply eq_None_not_Some.
Qed.

Lemma sweep_visits_once_witness :
  count small_table = 2 /\
  exists h' keys, sweep id zeq 5 small_table iter_init (Z.eqb 8) = Some (h', keys) /\
    5 ∈ keys /\ table_get id zeq h' 8 = None.
Proof.
  split; [by vm_compute|].
  destruct (sweep_visits_once id zeq small_table (Z.eqb 8) 5 (fun _ _ => eq_refl)
    small_table_full ltac:(by vm_compute) ltac:(by vm_compute))
    as (h' & keys & E & _ & Hin & _ & Hget).
  exists h', keys. split; [exact E|]. split.
  - apply Hin. exists 50. vm_compute. reflexivity.
  - rewrite Hget. reflexivity.
Defined.
