(* ===== verification/Context.v ===== *)
(** * The context and its callbacks

    [struct_utp_context] (src/utp_internal.h, src/utp_api.cpp), the wrappers
    through which the library calls the application (src/utp_callbacks.cpp) and the
    callbacks it installs by default (src/utp_utils.cpp).

    The application is an oracle: [answer] gives the value returned by the
    latest call from the whole history of calls, newest first.  The history is
    the [trace] of the state, so what the library sends, delivers and reports
    can be stated as a property of the trace.  Callbacks do not re-enter the
    library in this model.  Log output is left out: it changes no state. *)
From S2P Require Import Prelude Arrays SockAddr Hash HashMap.

(** ** Names of src/utp.h *)
Definition UTP_UDP_DONTFRAG : Z := 2.
Definition UTP_STATE_CONNECT : Z := 1.
Definition UTP_STATE_WRITABLE : Z := 2.
Definition UTP_STATE_EOF : Z := 3.
Definition UTP_STATE_DESTROYING : Z := 4.
Definition UTP_ECONNREFUSED : Z := 0.
Definition UTP_ECONNRESET : Z := 1.
Definition UTP_ETIMEDOUT : Z := 2.

Definition UTP_ON_FIREWALL : Z := 0.
Definition UTP_ON_ACCEPT : Z := 1.
Definition UTP_ON_CONNECT : Z := 2.
Definition UTP_ON_ERROR : Z := 3.
Definition UTP_ON_READ : Z := 4.
Definition UTP_ON_OVERHEAD_STATISTICS : Z := 5.
Definition UTP_ON_STATE_CHANGE : Z := 6.
Definition UTP_GET_READ_BUFFER_SIZE : Z := 7.
Definition UTP_ON_DELAY_SAMPLE : Z := 8.
Definition UTP_GET_UDP_MTU : Z := 9.
Definition UTP_GET_UDP_OVERHEAD : Z := 10.
Definition UTP_GET_MILLISECONDS : Z := 11.
Definition UTP_GET_MICROSECONDS : Z := 12.
Definition UTP_GET_RANDOM : Z := 13.
Definition UTP_LOG : Z := 14.
Definition UTP_SENDTO : Z := 15.
Definition UTP_LOG_NORMAL : Z := 16.
Definition UTP_LOG_MTU : Z := 17.
Definition UTP_LOG_DEBUG : Z := 18.
Definition UTP_SNDBUF : Z := 19.
Definition UTP_RCVBUF : Z := 20.
Definition UTP_TARGET_DELAY : Z := 21.
Definition UTP_ARRAY_SIZE : Z := 22.

(** [bandwidth_type_t] of src/utp_internal.h *)
Inductive bandwidth_type_t :=
| payload_bandwidth | connect_overhead | close_overhead | ack_overhead
| header_overhead | retransmit_overhead.

Definition CCONTROL_TARGET : Z := 100000.
Definition UTP_SOCKET_BUCKETS : Z := 79.
Definition UTP_SOCKET_INIT : Z := 15.

(** ** Socket pointers and calls to the application *)

(** the address of a socket object; NULL is 0 *)
Definition ptr := Z.
Definition NULL : ptr := 0.

(** [utp_callback_arguments]: one constructor per callback, with the fields
    that its wrapper fills in. *)
Inductive request :=
| OnFirewall (address : sockaddr)
| OnAccept (socket : ptr) (address : sockaddr)
| OnConnect (socket : ptr)
| OnError (socket : ptr) (error_code : Z)
| OnRead (socket : ptr) (buf : list Z)
| OnOverheadStatistics (socket : ptr) (send : bool) (len : Z) (type : bandwidth_type_t)
| OnStateChange (socket : ptr) (state : Z)
| GetReadBufferSize (socket : ptr)
| OnDelaySample (socket : ptr) (sample_ms : Z)
| GetUdpMtu (socket : ptr) (address : sockaddr)
| GetUdpOverhead (socket : ptr) (address : sockaddr)
| GetMilliseconds (socket : ptr)
| GetMicroseconds (socket : ptr)
| GetRandom (socket : ptr)
| OnLog (socket : ptr) (buf : list Z)
| Sendto (socket : ptr) (buf : list Z) (address : sockaddr) (flags : Z).

(** The application: the result of each call, given the calls so far. *)
Class Env := { answer : list request -> Z }.

(** ** The context *)
Record RST_Info := mkRst {
  ri_addr : PackedSockAddr;
  ri_connid : Z;       (* uint32 *)
  ri_ack_nr : Z;       (* uint16 *)
  ri_timestamp : Z;    (* uint64 *)
}.

Record utp_context := mkCtx {
  callbacks : list Z;          (* the names whose pointer is not NULL *)
  current_ms : Z;              (* uint64 *)
  nraw_recv : list Z;          (* context_stats._nraw_recv, uint32[5] *)
  nraw_send : list Z;          (* context_stats._nraw_send, uint32[5] *)
  last_utp_socket : ptr;
  ack_sockets : Array ptr;
  rst_info : Array RST_Info;
  utp_sockets : utp_hash_t UTPSocketKey ptr;
  ctx_target_delay : Z;        (* size_t *)
  ctx_opt_sndbuf : Z;          (* size_t *)
  ctx_opt_rcvbuf : Z;          (* size_t *)
  last_check : Z;              (* uint64 *)
  log_normal : bool;
  log_mtu : bool;
  log_debug : bool;
  ctx_userdata : Z;
}.

(** UTPSocketHT's operations *)
Definition socket_lookup (t : utp_hash_t UTPSocketKey ptr) (k : UTPSocketKey) : option ptr :=
  table_get key_hash key_eqb t k.
Definition socket_insert (t : utp_hash_t UTPSocketKey ptr) (k : UTPSocketKey) (p : ptr) :
    option (utp_hash_t UTPSocketKey ptr) := table_insert key_hash t k p.
Definition socket_delete (t : utp_hash_t UTPSocketKey ptr) (k : UTPSocketKey) :
    utp_hash_t UTPSocketKey ptr := table_delete key_hash key_eqb t k.

(** the constructor of UTPSocketHT, whose structures take 40 bytes on a 64-bit machine *)
Definition sizeof_UTPSocketKeyData : Z := 40.
Definition UTPSocketHT_init : option (utp_hash_t UTPSocketKey ptr) :=
  utp_hash_create UTP_SOCKET_BUCKETS sizeof_UTPSocketKeyData UTP_SOCKET_INIT.

(** [struct_utp_context()] *)
Definition utp_context_init : utp_context := {|
  callbacks := [UTP_GET_UDP_MTU; UTP_GET_UDP_OVERHEAD; UTP_GET_MILLISECONDS;
                UTP_GET_MICROSECONDS; UTP_GET_RANDOM];
  current_ms := 0;
  nraw_recv := replicate 5 0;
  nraw_send := replicate 5 0;
  last_utp_socket := NULL;
  ack_sockets := arr_init;
  rst_info := arr_init;
  utp_sockets := default (empty_table 0 0) UTPSocketHT_init;
  ctx_target_delay := CCONTROL_TARGET;
  ctx_opt_sndbuf := 1024 * 1024;
  ctx_opt_rcvbuf := 1024 * 1024;
  last_check := 0;
  log_normal := false;
  log_mtu := false;
  log_debug := false;
  ctx_userdata := 0 |}.

(** is a message of this level passed to UTP_LOG? *)
Definition would_log (level : Z) (c : utp_context) : bool :=
  if level =? UTP_LOG_NORMAL then log_normal c
  else if level =? UTP_LOG_MTU then log_mtu c
  else if level =? UTP_LOG_DEBUG then log_debug c
  else true.

(** nothing is logged unless the application asks for it *)
Lemma silent_by_default level :
  level = UTP_LOG_NORMAL \/ level = UTP_LOG_MTU \/ level = UTP_LOG_DEBUG ->
  would_log level utp_context_init = false.
Proof. by intros [->|[->| ->]]. Qed.

(** [utp_init]; [None] is the failing assertion on the version *)
Definition utp_init (version : Z) : option utp_context :=
  if version =? 2 then Some utp_context_init else None.

(** the user data of a context, and its counters of datagrams *)
Definition utp_context_set_userdata (data : Z) (c : utp_context) : utp_context :=
  c <| ctx_userdata := data |>.
Definition utp_context_get_userdata (c : utp_context) : Z := ctx_userdata c.
Definition utp_get_context_stats (c : utp_context) : list Z * list Z := (nraw_recv c, nraw_send c).

(** [utp_set_callback]; [None] is a write outside the array *)
Definition utp_set_callback (callback_name : Z) (set : bool) (c : utp_context) : option utp_context :=
  if (0 <=? callback_name) && (callback_name <? UTP_ARRAY_SIZE) then
    Some (c <| callbacks ::= fun l =>
         let rest := filter (fun n => n <> callback_name) l in
         if set then callback_name :: rest else rest |>)
  else None.

Definition has_callback (c : utp_context) (name : Z) : bool :=
  bool_decide (name ∈ callbacks c).

Definition b2z (b : bool) : Z := if b then 1 else 0.

(** [utp_context_get_option] (the size_t fields are converted to int) *)
Definition utp_context_get_option (c : utp_context) (opt : Z) : Z :=
  if opt =? UTP_LOG_NORMAL then b2z (log_normal c)
  else if opt =? UTP_LOG_MTU then b2z (log_mtu c)
  else if opt =? UTP_LOG_DEBUG then b2z (log_debug c)
  else if opt =? UTP_TARGET_DELAY then i32 (ctx_target_delay c)
  else if opt =? UTP_SNDBUF then i32 (ctx_opt_sndbuf c)
  else if opt =? UTP_RCVBUF then i32 (ctx_opt_rcvbuf c)
  else -1.

(** ** The state every component works on

    [ida], the index of each socket in ack_sockets, is a field of the socket
    object; it is kept here, keyed by the object's address, because removing
    one socket from the list writes the [ida] of another. *)
Record Sys := mkSys {
  ctx : utp_context;
  idas : gmap ptr Z;
  trace : list request;
}.

(** States that contain a [Sys]: reading it, replacing it, and the laws. *)
Class HasSys (S : Type) := {
  sys : S -> Sys;
  put_sys : Sys -> S -> S;
  sys_put y s : sys (put_sys y s) = y;
  put_put y y' s : put_sys y (put_sys y' s) = put_sys y s;
  put_sys_same s : put_sys (sys s) s = s;
}.

#[export] Instance HasSys_Sys : HasSys Sys := {
  sys s := s; put_sys y _ := y;
  sys_put y s := eq_refl; put_put y y' s := eq_refl; put_sys_same s := eq_refl }.

(** an operation on the context alone, run inside a larger state *)
Definition lift_sys {S A} `{!HasSys S} (m : M Sys A) : M S A := fun s =>
  match m (sys s) with
  | Ok a y => Ok a (put_sys y s)
  | Err f y => Err f (put_sys y s)
  end.

Lemma wp_lift_sys {S A} `{!HasSys S} E (m : M Sys A) (Q : A -> S -> Prop) s :
  wp E m (fun a y => Q a (put_sys y s)) (sys s) -> wp E (lift_sys m) Q s.
Proof. unfold wp, lift_sys. by destruct (m (sys s)). Qed.

(** ** Calling the application *)
Section Calls.
Context {E : Env} {S : Type} `{!HasSys S}.

Definition get_ctx {A} (f : utp_context -> A) : M S A := gets (fun s => f (ctx (sys s))).
Definition mod_ctx (f : utp_context -> utp_context) : M S unit :=
  modify (fun s => put_sys ((sys s) <| ctx ::= f |>) s).

(** [utp_context_set_option] *)
Definition utp_context_set_option (opt val : Z) : M S Z :=
  if opt =? UTP_LOG_NORMAL then mod_ctx (fun c => c <| log_normal := negb (val =? 0) |>) ;; mret 0
  else if opt =? UTP_LOG_MTU then mod_ctx (fun c => c <| log_mtu := negb (val =? 0) |>) ;; mret 0
  else if opt =? UTP_LOG_DEBUG then mod_ctx (fun c => c <| log_debug := negb (val =? 0) |>) ;; mret 0
  else if opt =? UTP_TARGET_DELAY then mod_ctx (fun c => c <| ctx_target_delay := u64 val |>) ;; mret 0
  else if opt =? UTP_SNDBUF then
    assert_at 2698 (1 <=? val) ;; mod_ctx (fun c => c <| ctx_opt_sndbuf := u64 val |>) ;; mret 0
  else if opt =? UTP_RCVBUF then
    assert_at 2703 (1 <=? val) ;; mod_ctx (fun c => c <| ctx_opt_rcvbuf := u64 val |>) ;; mret 0
  else mret (-1).

(** [if (!ctx->callbacks[name]) return 0; ... return callbacks[name](&args)] *)
Definition call (name : Z) (r : request) : M S Z :=
  s ← get;
  if has_callback (ctx (sys s)) name then
    modify (fun s => put_sys ((sys s) <| trace ::= cons r |>) s) ;;
    mret (u64 (answer (r :: trace (sys s))))
  else mret 0.

Definition notify (name : Z) (r : request) : M S unit := call name r ;; mret tt.

Definition utp_call_on_firewall (a : sockaddr) : M S Z :=
  v ← call UTP_ON_FIREWALL (OnFirewall a); mret (i32 v).
Definition utp_call_on_accept (socket : ptr) (a : sockaddr) : M S unit :=
  notify UTP_ON_ACCEPT (OnAccept socket a).
Definition utp_call_on_connect (socket : ptr) : M S unit :=
  notify UTP_ON_CONNECT (OnConnect socket).
Definition utp_call_on_error (socket : ptr) (error_code : Z) : M S unit :=
  notify UTP_ON_ERROR (OnError socket error_code).
Definition utp_call_on_read (socket : ptr) (buf : list Z) : M S unit :=
  notify UTP_ON_READ (OnRead socket buf).
Definition utp_call_on_overhead_statistics (socket : ptr) (send : bool) (len : Z)
    (type : bandwidth_type_t) : M S unit :=
  notify UTP_ON_OVERHEAD_STATISTICS (OnOverheadStatistics socket send len type).
Definition utp_call_on_delay_sample (socket : ptr) (sample_ms : Z) : M S unit :=
  notify UTP_ON_DELAY_SAMPLE (OnDelaySample socket sample_ms).
Definition utp_call_log (socket : ptr) (buf : list Z) : M S unit := notify UTP_LOG (OnLog socket buf).

(** the context's log method, given the formatted text: at most 4095 bytes of it *)
Definition log_unchecked (socket : ptr) (text : list Z) : M S unit :=
  utp_call_log socket (take 4095 text).
Definition log (level : Z) (socket : ptr) (text : list Z) : M S unit :=
  c ← get_ctx (fun c => c);
  when (would_log level c) (log_unchecked socket text).
Definition utp_call_on_state_change (socket : ptr) (state : Z) : M S unit :=
  notify UTP_ON_STATE_CHANGE (OnStateChange socket state).
Definition utp_call_get_udp_mtu (socket : ptr) (a : sockaddr) : M S Z :=
  v ← call UTP_GET_UDP_MTU (GetUdpMtu socket a); mret (u16 v).
Definition utp_call_get_udp_overhead (socket : ptr) (a : sockaddr) : M S Z :=
  v ← call UTP_GET_UDP_OVERHEAD (GetUdpOverhead socket a); mret (u16 v).
Definition utp_call_get_milliseconds (socket : ptr) : M S Z :=
  call UTP_GET_MILLISECONDS (GetMilliseconds socket).
Definition utp_call_get_microseconds (socket : ptr) : M S Z :=
  call UTP_GET_MICROSECONDS (GetMicroseconds socket).
Definition utp_call_get_random (socket : ptr) : M S Z :=
  v ← call UTP_GET_RANDOM (GetRandom socket); mret (u32 v).
Definition utp_call_get_read_buffer_size (socket : ptr) : M S Z :=
  call UTP_GET_READ_BUFFER_SIZE (GetReadBufferSize socket).
Definition utp_call_sendto (socket : ptr) (buf : list Z) (a : sockaddr) (flags : Z) : M S unit :=
  notify UTP_SENDTO (Sendto socket buf a flags).
End Calls.

(** ** The default callbacks of src/utp_utils.cpp *)
Definition UDP_IPV4_OVERHEAD : Z := 20 + 8.
Definition UDP_IPV6_OVERHEAD : Z := 40 + 8.
Definition UDP_TEREDO_OVERHEAD : Z := UDP_IPV4_OVERHEAD + UDP_IPV6_OVERHEAD.
Definition UDP_IPV4_MTU : Z := 1500 - 20 - 8 - 24 - 8 - 2 - 36.
Definition UDP_TEREDO_MTU : Z := 1280 - 40 - 8.

Definition is_in6 (a : sockaddr) : bool :=
  match a with SockIn6 _ _ => true | SockIn _ _ => false end.
Definition utp_default_get_udp_mtu (a : sockaddr) : Z :=
  if is_in6 a then UDP_TEREDO_MTU else UDP_IPV4_MTU.
Definition utp_default_get_udp_overhead (a : sockaddr) : Z :=
  if is_in6 a then UDP_TEREDO_OVERHEAD else UDP_IPV4_OVERHEAD.

(** [UTP_GetMicroseconds]: the two static variables and the raw clock reading *)
Record Clock := mkClock { offset : Z; previous : Z }.
Definition UTP_GetMicroseconds (raw : Z) (c : Clock) : Clock * Z :=
  let now := u64 (raw + offset c) in
  if now <? previous c
  then (mkClock (u64 (offset c + (previous c - now))) (previous c), previous c)
  else (mkClock (offset c) now, now).
Definition UTP_GetMilliseconds (raw : Z) (c : Clock) : Clock * Z :=
  let '(c, us) := UTP_GetMicroseconds raw c in (c, us / 1000).
