(* ===== verification/Clock.v ===== *)
(** * The default clock

    src/utp_utils.cpp: the raw readings of the POSIX, the macOS and the Windows
    clock, and UTP_GetMicroseconds, which corrects a clock that jumps back.  What the
    operating system returns is an argument. *)
From Stdlib Require Import Sorted.
From S2P Require Import Prelude Doubles SockAddr Context.

(** ** Raw readings *)

(** one call of clock_gettime: its return code, seconds and nanoseconds; and of
    gettimeofday: seconds and microseconds *)
Record OsTime := mkOsTime {
  os_rc : Z;
  os_sec : Z;
  os_nsec : Z;
  os_tv_sec : Z;
  os_tv_usec : Z;
}.

(** [__GetMicroseconds] where POSIX timers are compiled in; [have] is the static
    variable have_posix_clocks, [probe] the first, checking call *)
Definition posix_GetMicroseconds (probe now : OsTime) (have : Z) : Z * Z :=
  let have := if have <? 0 then (if os_rc probe <? 0 then 0 else 1) else have in
  (have,
   if negb (have =? 0)
   then u64 (u64 (os_sec now) * 1000000 + u64 (os_nsec now) / 1000)
   else u64 (u64 (os_tv_sec now) * 1000000 + os_tv_usec now)).

(** [__GetMicroseconds] on macOS: the two static variables (the timebase is 0/0
    before the first call), the tick count and what mach_timebase_info reports *)
Record MachClock := mkMach { sTimebaseInfo : Z * Z; start_tick : Z }.
Definition mach_GetMicroseconds (tick : Z) (info : Z * Z) (c : MachClock) : MachClock * Z :=
  let c := if (sTimebaseInfo c).2 =? 0 then mkMach info tick else c in
  (c, u64 (u64 (tick - start_tick c) * (sTimebaseInfo c).1) / u32 ((sTimebaseInfo c).2 * 1000)).

(** *** Windows *)

(** what the calls to the operating system return: QueryPerformanceCounter and
    QueryPerformanceFrequency, GetTickCount64 and the 64-bit entry of GetTickCount where
    kernel32.dll has them, and GetTickCount *)
Record WinTime := mkWinTime {
  qpc : Z;
  qpf : Z;
  tick64 : option Z;
  real_tick : option Z;
  tick32 : Z;
}.

(** the static variables, after Time_Initialize *)
Record WinClock := mkWin {
  startPerformanceCounter : Z;
  startGetTickCount : Z;
  counterPerMicrosecond : double;
}.

Definition UTGetTickCount64 (w : WinTime) : Z :=
  match tick64 w with
  | Some t => t
  | None =>
      match real_tick w with
      | Some v => Z.lor (u32 v) (Z.land (Z.shiftr v 24) 18446744069414584320)
      | None => tick32 w
      end
  end.

Definition Time_Initialize (w : WinTime) : WinClock :=
  mkWin (qpc w) (UTGetTickCount64 w) (d_div (d_of_Z (qpf w)) (d_of_Z 1000000)).

Definition abs64 (x : Z) : Z := if x <? 0 then i64 (- x) else x.

(** [__GetMicroseconds]: [c] is [None] before the first call, whose initialization reads
    the clocks once more ([first]) *)
Definition win_GetMicroseconds (first now : WinTime) (c : option WinClock) : WinClock * Z :=
  let c := match c with Some c => c | None => Time_Initialize first end in
  let counter := qpc now in
  let tick := UTGetTickCount64 now in
  let ret := d_to_i64 (d_div (d_of_Z (i64 (i64 counter - i64 (startPerformanceCounter c))))
                             (counterPerMicrosecond c)) in
  let tick_diff := i64 (tick - startGetTickCount c) in
  if 10 <? abs64 (i64 (Z.quot ret 100000 - Z.quot tick_diff 100)) then
    let off := d_mul (d_of_Z (i64 (tick_diff * 1000 - ret))) (counterPerMicrosecond c) in
    let start := u64 (startPerformanceCounter c - d_to_size off) in
    (mkWin start (startGetTickCount c) (counterPerMicrosecond c),
     u64 (d_to_i64 (d_div (d_of_Z (u64 (counter - start))) (counterPerMicrosecond c))))
  else (c, u64 ret).

(** UTP_GetMilliseconds there *)
Definition win_GetMilliseconds (w : WinTime) : Z := tick32 w.

(** the high half of a 64-bit tick count is taken from 8 bits further up *)
Lemma real_tick_small w v :
  tick64 w = None -> real_tick w = Some v -> is_u32 v -> UTGetTickCount64 w = v.
Proof.
  intros E1 E2 Hv. unfold UTGetTickCount64. rewrite E1, E2, u32_small by done.
  replace (Z.land (Z.shiftr v 24) 18446744069414584320) with 0; [apply Z.lor_0_r|].
  apply Z.bits_inj'. intros i Hi. rewrite Z.bits_0, Z.land_spec, Z.shiftr_spec by lia.
  destruct (Z.lt_ge_cases i 32).
  - replace (Z.testbit 18446744069414584320 i) with false; [by rewrite andb_false_r|].
    change 18446744069414584320 with (Z.shiftl 4294967295 32). rewrite Z.shiftl_spec by lia.
    by rewrite Z.testbit_neg_r by lia.
  - unfold is_u32 in Hv. destruct (Z.eq_dec v 0) as [->|]; [by rewrite Z.bits_0|].
    rewrite Z.bits_above_log2; [done|lia|]. apply Z.log2_lt_pow2; [lia|].
    apply Z.lt_le_trans with (2 ^ 32); [lia|]. apply Z.pow_le_mono_r; lia.
Qed.

(** a counter of 10 MHz, two seconds after the start; and one that has leapt by an hour
    while the tick count says two seconds *)
Example win_clock_runs :
  let w0 := mkWinTime 5000000000 10000000 (Some 77000) None 77000 in
  win_GetMicroseconds w0 (mkWinTime 5020000000 10000000 (Some 79000) None 79000) None =
    (Time_Initialize w0, 2000000) /\
  (win_GetMicroseconds w0 (mkWinTime 1005020000000 10000000 (Some 79000) None 79000) None).2 = 2000000.
Proof. by vm_compute. Qed.

(** POSIX time in the order it is read gives readings in that order *)
Lemma posix_in_order s1 n1 s2 n2 :
  0 <= s1 < 4398046511104 -> 0 <= s2 < 4398046511104 -> 0 <= n1 < 1000000000 -> 0 <= n2 < 1000000000 ->
  s1 < s2 \/ (s1 = s2 /\ n1 <= n2) ->
  u64 (u64 s1 * 1000000 + u64 n1 / 1000) <= u64 (u64 s2 * 1000000 + u64 n2 / 1000).
Proof.
  intros. rewrite !(u64_small s1), !(u64_small s2), !(u64_small n1), !(u64_small n2) by (unfold is_u64; lia).
  rewrite !u64_small by (unfold is_u64; dlia). dlia.
Qed.

(** ** UTP_GetMicroseconds *)
Fixpoint clock_run (raws : list Z) (c : Clock) : list Z :=
  match raws with
  | [] => []
  | raw :: raws => let '(c, t) := UTP_GetMicroseconds raw c in t :: clock_run raws c
  end.

(** the clock that counts what the raw one advances; [last] is its last reading *)
Fixpoint ideal_clock (raws : list Z) (last now : Z) : list Z :=
  match raws with
  | [] => []
  | raw :: raws =>
      let now := now + Z.max 0 (raw - last) in
      now :: ideal_clock raws raw now
  end.

Lemma clock_step last c raw :
  0 <= last -> 0 <= raw -> offset c = previous c - last -> last <= previous c ->
  previous c + Z.max 0 (raw - last) < 18446744073709551616 ->
  exists c', UTP_GetMicroseconds raw c = (c', previous c + Z.max 0 (raw - last)) /\
    previous c' = previous c + Z.max 0 (raw - last) /\ offset c' = previous c' - raw /\ raw <= previous c'.
Proof.
  intros H0 Hr Ho Hl Hb. unfold UTP_GetMicroseconds.
  rewrite (u64_small (raw + offset c)) by (unfold is_u64; lia).
  destruct (Z.ltb_spec (raw + offset c) (previous c)).
  - rewrite (u64_small (offset c + _)) by (unfold is_u64; lia).
    eexists. split; [f_equal; lia|]. cbn. lia.
  - eexists. split; [f_equal; lia|]. cbn. lia.
Qed.

Lemma ideal_clock_from raws : forall last now t, t ∈ ideal_clock raws last now -> now <= t.
Proof.
  induction raws as [|raw raws IH]; intros last now t; cbn [ideal_clock]; [by intros ?%elem_of_nil|].
  intros [->|Ht]%elem_of_cons; [lia|]. specialize (IH _ _ _ Ht). lia.
Qed.

Lemma clock_run_ideal raws : forall last c,
  0 <= last -> offset c = previous c - last -> last <= previous c ->
  Forall (fun r => 0 <= r) raws ->
  Forall (fun t => t < 18446744073709551616) (ideal_clock raws last (previous c)) ->
  clock_run raws c = ideal_clock raws last (previous c).
Proof.
  induction raws as [|raw raws IH]; intros last c H0 Ho Hl Hr Hb; cbn [clock_run ideal_clock] in *; [done|].
  apply Forall_cons in Hr as [Hr Hrs], Hb as [Hb Hbs].
  destruct (clock_step last c raw H0 Hr Ho Hl Hb) as (c' & -> & Hp & Ho' & Hl').
  rewrite <- Hp in *. f_equal. by apply IH.
Qed.

Lemma ideal_clock_sorted raws : forall last now, StronglySorted Z.le (ideal_clock raws last now).
Proof.
  induction raws as [|raw raws IH]; intros last now; cbn [ideal_clock]; constructor; [apply IH|].
  apply Forall_forall. intros t. apply ideal_clock_from.
Qed.

(** the two static variables before the first call *)
Definition clock_init : Clock := mkClock 0 0.

(** C40: the default clock never goes back.  Whatever the operating system's clock
    returns, the results of UTP_GetMicroseconds are those of the clock that adds up
    how far each reading is ahead of the one before and ignores every step back; so
    they never decrease, and while the raw clock runs forward they measure the same
    differences (as long as the sum stays below 2^64 microseconds). *)
Theorem clock_never_goes_back (raws : list Z) :
  Forall (fun r => 0 <= r) raws ->
  Forall (fun t => t < 18446744073709551616) (ideal_clock raws 0 0) ->
  clock_run raws clock_init = ideal_clock raws 0 0 /\
  StronglySorted Z.le (clock_run raws clock_init).
Proof.
  intros Hr Hb. assert (Hrun : clock_run raws clock_init = ideal_clock raws 0 0).
  { by apply (clock_run_ideal raws 0 clock_init). }
  split; [exact Hrun|]. rewrite Hrun. apply ideal_clock_sorted.
Qed.

Lemma clock_never_goes_back_witness :
  clock_run [100; 250; 40; 90; 95] clock_init = [100; 250; 250; 300; 305] /\
  StronglySorted Z.le (clock_run [100; 250; 40; 90; 95] clock_init).
Proof. apply (clock_never_goes_back [100; 250; 40; 90; 95]); by repeat constructor. Defined.
