(* ===== verification/AckList.v ===== *)
(** * The list of sockets with a pending acknowledgement

    ctx->ack_sockets and the [ida] field of the sockets (src/utp_internal.cpp:
    schedule_ack, removeSocketFromAckList).  The invariant [ack_ok] is that the
    array and the back pointers agree: a socket's [ida] is its index in the array,
    or -1 if it is not there.  Both operations keep it, and the two assertions of
    the removal follow from it. *)
From S2P Require Import Prelude Arrays Context.

(** [ack_sockets[offset]]: the operator's assertion, then the cell *)
Definition ack_at (offset : Z) : M Sys ptr :=
  y ← get;
  let a := ack_sockets (ctx y) in
  let offset := u64 offset in
  if (offset =? 0) || (offset <? GetAlloc a) then
    match arr_at a offset with Some p => mret p | None => fail NullDeref end
  else fail OutOfBounds.

Definition ida_of (p : ptr) : M Sys Z :=
  y ← get; match idas y !! p with Some i => mret i | None => fail Dangling end.
Definition set_ida (p : ptr) (i : Z) : M Sys unit :=
  modify (fun y => y <| idas ::= <[p := i]> |>).
Definition mod_acks (f : Array ptr -> Array ptr) : M Sys unit :=
  modify (fun y => y <| ctx ::= fun c => c <| ack_sockets ::= f |> |>).

Definition removeSocketFromAckList (conn : ptr) : M Sys unit :=
  ida ← ida_of conn;
  when (0 <=? ida) (
    cnt ← gets (fun y => GetCount (ack_sockets (ctx y)));
    last ← ack_at (cnt - 1);
    last_ida ← ida_of last;
    assert_at 687 (last_ida <? i32 cnt) ;;
    p ← ack_at last_ida;
    assert_at 688 (p =? last) ;;
    set_ida last ida ;;
    mod_acks (arr_put ida last) ;;
    set_ida conn (-1) ;;
    mod_acks (fun a => SetCount (GetCount a - 1) a)).

Definition schedule_ack (conn : ptr) : M Sys unit :=
  ida ← ida_of conn;
  when (ida =? -1) (
    r ← gets (fun y => Append conn (ack_sockets (ctx y)));
    mod_acks (fun _ => fst r) ;;
    set_ida conn (i32 (snd r))).

(** ** The invariant *)
Record ack_ok (l : list ptr) (y : Sys) : Prop := {
  ack_arr : arr_rep (ack_sockets (ctx y)) l;
  ack_nodup : NoDup l;
  ack_ida : forall p i, idas y !! p = Some i ->
    if i =? -1 then p ∉ l else 0 <= i /\ l !! Z.to_nat i = Some p;
  ack_live : forall p, p ∈ l -> is_Some (idas y !! p);
  ack_small : Z.of_nat (length l) < INT_MAX;
}.

(** What the list operations leave alone. *)
Record ack_frame (y y' : Sys) : Prop := {
  fr_trace : trace y' = trace y;
  fr_ctx : (ctx y') <| ack_sockets := ack_sockets (ctx y) |> = ctx y;
  fr_dom : forall p, is_Some (idas y' !! p) <-> is_Some (idas y !! p);
}.

Lemma ack_frame_refl y : ack_frame y y.
Proof. split; [done| |done]. by destruct y as [[] ? ?]. Qed.

Lemma ack_frame_set y a ids :
  (forall p, is_Some (ids !! p) <-> is_Some (idas y !! p)) ->
  ack_frame y (mkSys ((ctx y) <| ack_sockets := a |>) ids (trace y)).
Proof. intros H. destruct y as [[] i t]. split; done. Qed.

Section Facts.
Context (l : list ptr) (y : Sys) (Hok : ack_ok l y).

Lemma ack_at_spec (k : Z) p :
  0 <= k -> l !! Z.to_nat k = Some p -> ack_at k y = Ok p y.
Proof.
  intros Hk Hp. destruct Hok as [Ha _ _ _ Hs]. unfold ack_at, get, mbind, M_bind.
  pose proof (lookup_lt_Some _ _ _ Hp) as Hlt.
  assert (u64 k = k) as -> by (apply u64_small; unfold is_u64, INT_MAX in *; lia).
  pose proof (arr_rep_alloc _ _ Ha). unfold GetAlloc.
  rewrite (arr_rep_at _ _ _ _ Ha Hk Hp).
  destruct (Z.ltb_spec k (Z.of_nat (length (mem (ack_sockets (ctx y)))))); [|lia].
  by rewrite orb_true_r.
Qed.

Lemma ack_index p k :
  l !! k = Some p -> idas y !! p = Some (Z.of_nat k).
Proof.
  intros Hp. destruct Hok as [_ Hnd Hi Hl _].
  destruct (Hl p) as [i Hpi]; [by eapply list_elem_of_lookup_2|]. rewrite Hpi.
  specialize (Hi p i Hpi). destruct (Z.eqb_spec i (-1)).
  - destruct Hi. by eapply list_elem_of_lookup_2.
  - destruct Hi as [Hi0 Hi]. f_equal.
    pose proof (NoDup_lookup _ _ _ _ Hnd Hp Hi). lia.
Qed.

(** the state the removal ends in *)
Definition ack_removed (p : ptr) (i : Z) (last : ptr) : Sys :=
  mkSys ((ctx y) <| ack_sockets := SetCount (Z.of_nat (length l) - 1)
                      (arr_put i last (ack_sockets (ctx y))) |>)
    (<[p := -1]> (<[last := i]> (idas y))) (trace y).

Lemma remove_run p i q :
  idas y !! p = Some i -> 0 <= i -> last l = Some q ->
  removeSocketFromAckList p y = Ok tt (ack_removed p i q).
Proof.
  intros Hpi Hi0 El. rewrite last_lookup in El.
  pose proof (ack_index q _ El) as Hq. pose proof Hok as [Ha _ _ _ Hs].
  unfold removeSocketFromAckList, when, ida_of, get, gets, set_ida, mod_acks, modify,
    mbind, M_bind, mret, M_ret, GetCount. rewrite Hpi.
  destruct (Z.leb_spec 0 i); [|lia].
  pose proof (lookup_lt_Some _ _ _ El) as Hlt.
  rewrite (arr_rep_count _ _ Ha), (ack_at_spec _ q), Hq; [|lia|].
  2: { rewrite <- El. f_equal. lia. }
  rewrite i32_small by (unfold is_i32, INT_MAX in *; lia).
  unfold assert_at. destruct (Z.ltb_spec (Z.of_nat (Nat.pred (length l))) (Z.of_nat (length l)));
    [|lia].
  unfold mret, M_ret.
  rewrite (ack_at_spec _ q); [|lia|by rewrite Nat2Z.id]. rewrite Z.eqb_refl.
  unfold ack_removed. destruct y as [[] ids tr]. cbn. unfold SetCount, arr_put. cbn in *.
  rewrite (arr_rep_count _ _ Ha). done.
Qed.

(** the array after the removal *)
Lemma ack_removed_array p i q :
  0 <= i < Z.of_nat (length l) -> last l = Some q ->
  arr_rep (ack_sockets (ctx (ack_removed p i q))) (swap_remove (Z.to_nat i) l).
Proof.
  intros Hi El. cbn. pose proof (ack_arr _ _ Hok) as Ha.
  destruct (MoveUpLast_rep _ _ i Ha Hi) as (a' & b & Em & Hm).
  unfold MoveUpLast in Em. rewrite (arr_rep_count _ _ Ha) in Em.
  rewrite (proj2 (Z.ltb_lt i _)) in Em by lia. cbn [negb] in Em.
  assert (Hat : arr_at (SetCount (Z.of_nat (length l) - 1) (ack_sockets (ctx y)))
            (Z.of_nat (length l) - 1) = Some q).
  { apply (arr_rep_at _ _ _ q Ha); [lia|]. rewrite <- El, last_lookup. f_equal. lia. }
  destruct (Z.eqb_spec i (Z.of_nat (length l) - 1)) as [E|E].
  - injection Em as <- <-. destruct Hm as [Hm1 Hm2]. split; [exact Hm1|]. cbn in *.
    rewrite length_swap_remove, take_insert_ge by lia.
    rewrite length_swap_remove in Hm2 by lia. exact Hm2.
  - rewrite Hat in Em. by injection Em as <- <-.
Qed.

Lemma ack_removed_ok p i q :
  idas y !! p = Some i -> 0 <= i -> last l = Some q -> l !! Z.to_nat i = Some p ->
  ack_ok (swap_remove (Z.to_nat i) l) (ack_removed p i q) /\
  ack_frame y (ack_removed p i q).
Proof.
  intros Hpi Hi0 El Hp. pose proof (swap_remove_perm _ _ _ Hp) as Hperm.
  pose proof Hok as [Ha Hnd Hi Hl Hs].
  pose proof (lookup_lt_Some _ _ _ Hp) as Hlt.
  pose proof (last_Some_elem_of _ _ El) as Hqin.
  assert (Hnd' : NoDup (p :: swap_remove (Z.to_nat i) l)) by (by rewrite Hperm).
  apply NoDup_cons in Hnd' as [Hpout Hnd'].
  split; [split|].
  - apply ack_removed_array; [lia|done].
  - done.
  - cbn. intros r j. rewrite lookup_insert_Some.
    intros [[<- <-]|[Hr Hj]]; [done|].
    rewrite lookup_insert_Some in Hj. destruct Hj as [[<- <-]|[Hrq Hj]].
    + destruct (Z.eqb_spec i (-1)); [lia|]. split; [done|].
      assert (i <> Z.of_nat (length l) - 1) as Hne.
      { intros ->. rewrite last_lookup in El. apply Hr.
        replace (Z.to_nat (Z.of_nat (length l) - 1)) with (Nat.pred (length l)) in Hp by lia.
        congruence. }
      unfold swap_remove. rewrite El, lookup_take_lt by lia.
      by rewrite list_lookup_insert_eq by lia.
    + specialize (Hi r j Hj). destruct (Z.eqb_spec j (-1)).
      * intros Hin. apply Hi. rewrite <- Hperm. by right.
      * destruct Hi as [Hj0 Hjr]. split; [done|]. unfold swap_remove. rewrite El.
        pose proof (lookup_lt_Some _ _ _ Hjr).
        assert (Z.to_nat j <> (length l - 1)%nat).
        { intros E. rewrite last_lookup in El.
          replace (Nat.pred (length l)) with (Z.to_nat j) in El by lia. congruence. }
        rewrite lookup_take_lt by lia. rewrite list_lookup_insert_ne; [done|].
        intros E. rewrite <- E in Hjr. congruence.
  - intros r Hr. cbn. apply lookup_insert_is_Some'. right.
    apply lookup_insert_is_Some'. right. apply Hl. rewrite <- Hperm. by right.
  - rewrite length_swap_remove by lia. lia.
  - apply ack_frame_set. intros r. rewrite !lookup_insert_is_Some'.
    split; [|by auto]. intros [->|[->|?]]; [by eexists|by apply Hl|done].
Qed.

(** Removal: the assertions hold, the socket is no longer in the list, the
    others are, and nothing else of the context changes. *)
Lemma remove_spec p :
  is_Some (idas y !! p) ->
  exists y' l', removeSocketFromAckList p y = Ok tt y' /\ ack_ok l' y' /\
    ack_frame y y' /\ (p ∉ l') /\ ((l ≡ₚ l') \/ (l ≡ₚ p :: l')).
Proof.
  intros [i Hpi]. pose proof Hok as [Ha Hnd Hi Hl Hs].
  specialize (Hi p i Hpi). destruct (Z.eqb_spec i (-1)) as [->|Hne].
  - exists y, l. split; [|split_and!; auto using ack_frame_refl].
    unfold removeSocketFromAckList, ida_of, get, mbind, M_bind, mret, M_ret.
    rewrite Hpi. done.
  - destruct Hi as [Hi0 Hp]. destruct (last l) as [q|] eqn:El.
    2: { apply last_None in El. subst. done. }
    destruct (ack_removed_ok p i q Hpi Hi0 El Hp) as [Hok' Hfr].
    exists (ack_removed p i q), (swap_remove (Z.to_nat i) l).
    pose proof (swap_remove_perm _ _ _ Hp) as Hperm.
    split_and!; [by apply remove_run|done|done| |by right].
    assert (NoDup (p :: swap_remove (Z.to_nat i) l)) as [? _]%NoDup_cons; [|done].
    by rewrite Hperm.
Qed.

(** Scheduling: the socket is in the list afterwards, once. *)
Lemma schedule_spec p :
  is_Some (idas y !! p) -> Z.of_nat (length l) + 1 < INT_MAX ->
  exists y' l', schedule_ack p y = Ok tt y' /\ ack_ok l' y' /\
    ack_frame y y' /\ p ∈ l' /\ (l' = l \/ ((p ∉ l) /\ l' = l ++ [p])).
Proof.
  intros [i Hpi] Hroom. pose proof Hok as [Ha Hnd Hi Hl Hs]. pose proof (Hi p i Hpi) as Hip.
  unfold schedule_ack, ida_of, get, gets, when, mod_acks, set_ida, modify,
    mbind, M_bind, mret, M_ret. rewrite Hpi.
  destruct (Z.eqb_spec i (-1)) as [->|Hne].
  - destruct (Append_rep _ _ p Ha) as [Ha' Hr].
    cbn [Z.eqb Pos.eqb fst snd]. rewrite Hr.
    rewrite i32_small by (unfold is_i32, INT_MAX in *; lia).
    eexists _, (l ++ [p]). split; [done|]. split; [split|split_and!; [| |by right]].
    + destruct y as [[] ? ?]. exact Ha'.
    + apply NoDup_app. split_and!; [done| |apply NoDup_singleton].
      intros r Hr' ->%list_elem_of_singleton. done.
    + destruct y as [[] ids tr]. cbn in *. intros r j. rewrite lookup_insert_Some.
      intros [[<- <-]|[Hrp Hj]].
      * destruct (Z.eqb_spec (Z.of_nat (length l)) (-1)); [lia|]. split; [lia|].
        rewrite Nat2Z.id. by apply list_lookup_middle.
      * specialize (Hi r j Hj). destruct (Z.eqb_spec j (-1)).
        -- rewrite elem_of_app, list_elem_of_singleton. intros [?| ->]; done.
        -- destruct Hi as [? Hi]. split; [done|]. by apply lookup_app_l_Some.
    + destruct y as [[] ids tr]. cbn in *. intros r. rewrite elem_of_app, list_elem_of_singleton.
      rewrite lookup_insert_is_Some'. intros [Hr'| ->]; [right; by apply Hl|by left].
    + rewrite length_app. cbn. lia.
    + destruct y as [[] ids tr]. split; cbn in *; try done.
      intros r. rewrite lookup_insert_is_Some'. split; [|by auto].
      intros [->|?]; [by eexists|done].
    + rewrite elem_of_app, list_elem_of_singleton. by right.
  - exists y, l. destruct Hip as [? Hp]. split_and!; auto using ack_frame_refl.
    by eapply list_elem_of_lookup_2.
Qed.
End Facts.
