(* ===== verification/Socket.v ===== *)
(** * The socket object

    [UTPSocket] and [OutgoingPacket] of src/utp_internal.cpp, grouped by the part
    of the protocol that uses each field, the accessors of the class, the
    constructor utp_create_socket and the socket options.  [St] is what a method
    of a socket works on: the object [me] ([*this]) and the context; [World]
    holds the objects by address. *)
From S2P Require Import Prelude Wrap Packet Ring Delay DelayAvg Arrays SockAddr Hash HashMap Context Doubles.

(** ** Constants *)
Definition TIMEOUT_CHECK_INTERVAL : Z := 500.
Definition MAX_CWND_INCREASE_BYTES_PER_RTT : Z := 3000.
Definition MAX_WINDOW_DECAY : Z := 100.
Definition REORDER_BUFFER_MAX_SIZE : Z := 1024.
Definition OUTGOING_BUFFER_MAX_SIZE : Z := 1024.
Definition PACKET_SIZE : Z := 1435.
Definition MIN_WINDOW_SIZE : Z := 10.
Definition DUPLICATE_ACKS_BEFORE_RESEND : Z := 3.
Definition ACK_NR_ALLOWED_WINDOW : Z := 3.
Definition MTU_FLOOR_MIN : Z := 576.
Definition RST_INFO_TIMEOUT : Z := 10000.
Definition RST_INFO_LIMIT : Z := 1000.
Definition KEEPALIVE_INTERVAL : Z := 29000.

(** [bits & 0xFFFF], and comparisons of CONN_STATE by its value *)
Inductive CONN_STATE :=
| CS_UNINITIALIZED | CS_IDLE | CS_SYN_SENT | CS_SYN_RECV
| CS_CONNECTED | CS_CONNECTED_FULL | CS_RESET | CS_DESTROY.

#[export] Instance CONN_STATE_eq_dec : EqDecision CONN_STATE.
Proof. solve_decision. Defined.

Definition state_val (s : CONN_STATE) : Z :=
  match s with
  | CS_UNINITIALIZED => 0 | CS_IDLE => 1 | CS_SYN_SENT => 2 | CS_SYN_RECV => 3
  | CS_CONNECTED => 4 | CS_CONNECTED_FULL => 5 | CS_RESET => 6 | CS_DESTROY => 7
  end.
Definition is_state (s t : CONN_STATE) : bool := bool_decide (s = t).

(** a packet of the send queue: the bookkeeping, the header (the first bytes of
    [data]) and the payload bytes *)
Record OutgoingPacket := mkPkt {
  pk_length : Z;          (* size_t *)
  pk_payload : Z;         (* size_t *)
  pk_time_sent : Z;       (* uint64, microseconds *)
  pk_transmissions : Z;   (* 31 bits *)
  pk_need_resend : bool;
  pk_hdr : PacketFormatV1;
  pk_body : list Z;
}.

(** the send queue *)
Record SendQueue := mkSq {
  cur_window_packets : Z;   (* uint16 *)
  cur_window : Z;           (* size_t *)
  seq_nr : Z;               (* uint16 *)
  outbuf : SizableCircularBuffer OutgoingPacket;
}.

(** retransmission and round-trip time *)
Record Retrans := mkRt {
  retransmit_count : Z;     (* uint16 *)
  duplicate_ack : Z;        (* byte *)
  timeout_seq_nr : Z;       (* uint16 *)
  fast_resend_seq_nr : Z;   (* uint16 *)
  fast_timeout : bool;
  rtt : Z;                  (* uint *)
  rtt_var : Z;              (* uint *)
  rto : Z;                  (* uint *)
  rtt_hist : DelayHist.t;
  retransmit_timeout : Z;   (* uint *)
  rto_timeout : Z;          (* uint64 *)
}.

(** window sizes *)
Record Windows := mkWn {
  max_window : Z;             (* size_t *)
  max_window_user : Z;        (* size_t *)
  opt_sndbuf : Z;             (* size_t *)
  opt_rcvbuf : Z;             (* size_t *)
  target_delay : Z;           (* size_t *)
  last_rwin_decay : Z;        (* int64 *)
  last_maxed_out_window : Z;  (* uint64 *)
  zerowindow_time : Z;        (* uint64 *)
  last_rcv_win : Z;           (* size_t *)
  slow_start : bool;
  ssthresh : Z;               (* size_t *)
}.

(** the receiving side *)
Record RecvQueue := mkRq {
  ack_nr : Z;               (* uint16 *)
  inbuf : SizableCircularBuffer (list Z);
  reorder_count : Z;        (* uint16 *)
  got_fin : bool;
  got_fin_reached : bool;
  eof_pkt : Z;              (* uint16 *)
  read_shutdown : bool;
  extensions : list Z;      (* byte[8] *)
}.

(** MTU discovery *)
Record Mtu := mkMtu {
  mtu_discover_time : Z;    (* uint64 *)
  mtu_ceiling : Z;          (* uint32 *)
  mtu_floor : Z;            (* uint32 *)
  mtu_last : Z;             (* uint32 *)
  mtu_probe_seq : Z;        (* uint32 *)
  mtu_probe_size : Z;       (* uint32 *)
}.

(** delay measurements *)
Record Delays := mkDl {
  our_hist : DelayHist.t;
  their_hist : DelayHist.t;
  reply_micro : Z;          (* uint32 *)
  avg : AvgState;
  last_measured_delay : Z;  (* uint64 *)
}.

Record UTPSocket := mkSock {
  this : ptr;
  addr : PackedSockAddr;
  conn_seed : Z;            (* uint32 *)
  conn_id_recv : Z;         (* uint32 *)
  conn_id_send : Z;         (* uint32 *)
  userdata : Z;
  state : CONN_STATE;
  fin_sent : bool;
  fin_sent_acked : bool;
  close_requested : bool;
  last_got_packet : Z;      (* uint64 *)
  last_sent_packet : Z;     (* uint64 *)
  sq : SendQueue;
  rt : Retrans;
  wn : Windows;
  rq : RecvQueue;
  mt : Mtu;
  dl : Delays;
}.

(** ** States *)
Record St := mkSt { me : UTPSocket; st_sys : Sys }.
Record World := mkWorld { heap : gmap ptr UTPSocket; w_sys : Sys }.

#[export] Instance HasSys_St : HasSys St := {
  sys := st_sys; put_sys y s := mkSt (me s) y;
  sys_put y s := eq_refl; put_put y y' s := eq_refl;
  put_sys_same s := match s with mkSt _ _ => eq_refl end }.
#[export] Instance HasSys_World : HasSys World := {
  sys := w_sys; put_sys y w := mkWorld (heap w) y;
  sys_put y w := eq_refl; put_put y y' w := eq_refl;
  put_sys_same w := match w with mkWorld _ _ => eq_refl end }.

(** running a method on the object at an address *)
Definition on_socket {A} (p : ptr) (m : M St A) : M World A := fun w =>
  match heap w !! p with
  | None => Err Dangling w
  | Some c =>
      match m (mkSt c (w_sys w)) with
      | Ok a s => Ok a (mkWorld (<[p := me s]> (heap w)) (st_sys s))
      | Err f s => Err f (mkWorld (<[p := me s]> (heap w)) (st_sys s))
      end
  end.

(** reading and writing the fields of [*this] *)
Definition my {A} (f : UTPSocket -> A) : M St A := gets (fun s => f (me s)).
Definition upd (f : UTPSocket -> UTPSocket) : M St unit :=
  modify (fun s => mkSt (f (me s)) (st_sys s)).
Definition upd_sq (f : SendQueue -> SendQueue) : M St unit := upd (fun c => c <| sq ::= f |>).
Definition upd_rt (f : Retrans -> Retrans) : M St unit := upd (fun c => c <| rt ::= f |>).
Definition upd_wn (f : Windows -> Windows) : M St unit := upd (fun c => c <| wn ::= f |>).
Definition upd_rq (f : RecvQueue -> RecvQueue) : M St unit := upd (fun c => c <| rq ::= f |>).
Definition upd_mt (f : Mtu -> Mtu) : M St unit := upd (fun c => c <| mt ::= f |>).
Definition upd_dl (f : Delays -> Delays) : M St unit := upd (fun c => c <| dl ::= f |>).
Definition set_state (s : CONN_STATE) : M St unit := upd (fun c => c <| state := s |>).
Definition now_ms : M St Z := get_ctx current_ms.

(** ** Accessors of the class *)
Section Accessors.
Context {E : Env}.

Definition get_header_size : Z := sizeof_PacketFormatV1.

(** [get_rcv_window], with its assertion *)
Definition get_rcv_window : M St Z :=
  c ← my (fun c => c);
  numbuf ← utp_call_get_read_buffer_size (this c);
  assert_at 602 (0 <=? i32 numbuf) ;;
  mret (if numbuf <? opt_rcvbuf (wn c) then opt_rcvbuf (wn c) - numbuf else 0).

Definition can_decay_win (msec : Z) (w : Windows) : bool :=
  MAX_WINDOW_DECAY <=? i64 (msec - last_rwin_decay w).

(** [maybe_decay_win] *)
Definition maybe_decay_win (current_ms : Z) (w : Windows) : Windows :=
  if can_decay_win (i64 current_ms) w then
    let half := d_to_size (d_mul (d_of_Z (max_window w)) d_half) in
    let mw := if half <? MIN_WINDOW_SIZE then MIN_WINDOW_SIZE else half in
    w <| max_window := mw |> <| last_rwin_decay := i64 current_ms |>
      <| slow_start := false |> <| ssthresh := mw |>
  else w.

Definition get_udp_mtu : M St Z :=
  c ← my (fun c => c); utp_call_get_udp_mtu (this c) (get_sockaddr_storage (addr c)).
Definition get_udp_overhead : M St Z :=
  c ← my (fun c => c); utp_call_get_udp_overhead (this c) (get_sockaddr_storage (addr c)).
Definition get_overhead : M St Z :=
  n ← get_udp_overhead; mret (n + get_header_size).

(** [get_packet_size]: payload bytes per packet *)
Definition get_packet_size (c : UTPSocket) : Z :=
  let m := mt c in
  let mtu := if mtu_last m =? 0 then mtu_ceiling m else mtu_last m in
  u64 (mtu - get_header_size).
End Accessors.

(** ** utp_create_socket

    The fields the constructor leaves unset are given zeros; they are all
    written by utp_initialize_socket before anything reads them. *)
Definition utp_create_socket (ctx : utp_context) (p : ptr) : UTPSocket := {|
  this := p;
  addr := mkAddr (replicate 16 0) 0;
  conn_seed := 0; conn_id_recv := 0; conn_id_send := 0;
  userdata := 0;
  state := CS_UNINITIALIZED;
  fin_sent := false; fin_sent_acked := false; close_requested := false;
  last_got_packet := 0; last_sent_packet := 0;
  sq := {| cur_window_packets := 0; cur_window := 0; seq_nr := 1; outbuf := ring_init |};
  rt := {| retransmit_count := 0; duplicate_ack := 0; timeout_seq_nr := 0;
           fast_resend_seq_nr := 1; fast_timeout := false; rtt := 0; rtt_var := 800;
           rto := 3000; rtt_hist := DelayHist.clear 0; retransmit_timeout := 0;
           rto_timeout := 0 |};
  wn := {| max_window := 0; max_window_user := 255 * PACKET_SIZE;
           opt_sndbuf := ctx_opt_sndbuf ctx; opt_rcvbuf := ctx_opt_rcvbuf ctx;
           target_delay := ctx_target_delay ctx; last_rwin_decay := 0;
           last_maxed_out_window := 0; zerowindow_time := 0; last_rcv_win := 0;
           slow_start := true; ssthresh := ctx_opt_sndbuf ctx |};
  rq := {| ack_nr := 0; inbuf := ring_init; reorder_count := 0; got_fin := false;
           got_fin_reached := false; eof_pkt := 0; read_shutdown := false;
           extensions := replicate 8 0 |};
  mt := {| mtu_discover_time := 0; mtu_ceiling := 0; mtu_floor := 0; mtu_last := 0;
           mtu_probe_seq := 0; mtu_probe_size := 0 |};
  dl := {| our_hist := DelayHist.clear 0; their_hist := DelayHist.clear 0; reply_micro := 0;
           avg := mkAvg 0 0 0 0 0 0 0; last_measured_delay := 0 |} |}.

(** ** Socket options *)

(** [utp_setsockopt] *)
Definition utp_setsockopt (opt val : Z) : M St Z :=
  if opt =? UTP_SNDBUF then
    assert_at 2735 (1 <=? val) ;; upd_wn (fun w => w <| opt_sndbuf := u64 val |>) ;; mret 0
  else if opt =? UTP_RCVBUF then
    assert_at 2740 (1 <=? val) ;; upd_wn (fun w => w <| opt_rcvbuf := u64 val |>) ;; mret 0
  else if opt =? UTP_TARGET_DELAY then upd_wn (fun w => w <| target_delay := u64 val |>) ;; mret 0
  else mret (-1).

(** [utp_getsockopt] *)
Definition utp_getsockopt (c : UTPSocket) (opt : Z) : Z :=
  if opt =? UTP_SNDBUF then i32 (opt_sndbuf (wn c))
  else if opt =? UTP_RCVBUF then i32 (opt_rcvbuf (wn c))
  else if opt =? UTP_TARGET_DELAY then i32 (target_delay (wn c))
  else -1.

(** [utp_get_delays]: the result, and what is written through each pointer that is not
    NULL *)
Definition utp_get_delays (ours theirs age : bool) : M St (Z * (option Z * option Z * option Z)) :=
  c ← my (fun c => c);
  assert_at 3376 (negb (is_state (state c) CS_UNINITIALIZED)) ;;
  t ← now_ms;
  let out (wanted : bool) (v : Z) := if wanted then Some v else None in
  mret (0, (out ours (DelayHist.get_value (our_hist (dl c))),
            out theirs (DelayHist.get_value (their_hist (dl c))),
            out age (u32 (t - last_measured_delay (dl c))))).

(** [utp_getpeername]: the result, the new value of [addrlen], and the address of which
    that many bytes are copied *)
Definition utp_getpeername (addrlen : Z) : M St (Z * Z * sockaddr) :=
  c ← my (fun c => c);
  assert_at 3361 (negb (is_state (state c) CS_UNINITIALIZED)) ;;
  let sa := get_sockaddr_storage (addr c) in
  mret (0, tmin (sockaddr_len sa) addrlen, sa).

(** the user data *)
Definition utp_set_userdata (v : Z) (c : UTPSocket) : UTPSocket := c <| userdata := v |>.
Definition utp_get_userdata (c : UTPSocket) : Z := userdata c.
