(* ===== verification/Frame.v ===== *)
(** * What a method of a socket may do to the rest of the program

    A method works on its own object and, through callbacks and the
    acknowledgement list, on the context.  [sys_next R] says what can have
    happened to the context in between: calls that satisfy [R] were appended to
    the trace, the acknowledgement list and the send counters changed, its
    invariant was kept, and everything else is as before.  The rules below
    turn each primitive operation into such a step. *)
From S2P Require Import Prelude Packet Arrays SockAddr Context AckList Socket.

(** The acknowledgement list is consistent, the object [p] is live, there are
    fewer objects than an int can count, and the MTU can be asked for. *)
Definition sys_ok (p : ptr) (y : Sys) : Prop :=
  (exists l, ack_ok l y) /\ Z.of_nat (size (idas y)) + 1 < INT_MAX /\ is_Some (idas y !! p) /\
  has_callback (ctx y) UTP_GET_UDP_MTU = true.

(** What the library relies on the application for: the bytes waiting to be read
    fit an int, an MTU leaves room for a payload byte after the header, and the
    clock has not counted 2^63 microseconds. *)
Class GoodApp {E : Env} : Prop := {
  app_read_buffer p h : 0 <= i32 (u64 (answer (GetReadBufferSize p :: h)));
  app_udp_mtu p a h : 21 <= u16 (u64 (answer (GetUdpMtu p a :: h)));
  app_micros p h : u64 (answer (GetMicroseconds p :: h)) < 9223372036854775808;
}.

(** Only well-formed packets are sent. *)
Definition polite (r : request) : Prop :=
  match r with Sendto _ bs _ _ => wire bs | _ => True end.

(** what was requested in between, when the context also changes in other ways *)
Definition traced (R : request -> Prop) (y y' : Sys) : Prop :=
  exists rs, trace y' = rs ++ trace y /\ Forall R rs.

Lemma traced_refl R y : traced R y y.
Proof. by exists []. Qed.

Lemma traced_trans R y1 y2 y3 : traced R y1 y2 -> traced R y2 y3 -> traced R y1 y3.
Proof.
  intros (r1 & E1 & F1) (r2 & E2 & F2). exists (r2 ++ r1). rewrite E2, E1, (assoc_L (++)).
  split; [done|]. by apply Forall_app.
Qed.

Record sys_next (R : request -> Prop) (y y' : Sys) : Prop := {
  nx_trace : traced (fun r => R r /\ polite r) y y';
  nx_ctx : (ctx y') <| ack_sockets := ack_sockets (ctx y) |>
                    <| nraw_send := nraw_send (ctx y) |> = ctx y;
  nx_dom : dom (idas y') = dom (idas y);
  nx_ok : (exists l, ack_ok l y) -> exists l, ack_ok l y';
}.

Lemma sys_next_refl R y : sys_next R y y.
Proof.
  split; [by exists []| |done|done]. by destruct y as [[] ? ?].
Qed.

Lemma sys_next_trans R y1 y2 y3 : sys_next R y1 y2 -> sys_next R y2 y3 -> sys_next R y1 y3.
Proof.
  intros [T1 C1 D1 O1] [T2 C2 D2 O2]. split.
  - by eapply traced_trans.
  - rewrite <- C2 in C1. destruct y1 as [[] ? ?], y2 as [[] ? ?], y3 as [[] ? ?].
    cbn in *. by simplify_eq.
  - congruence.
  - auto.
Qed.

Lemma sys_next_mono (R R' : request -> Prop) y y' :
  (forall r, R r -> R' r) -> sys_next R y y' -> sys_next R' y y'.
Proof.
  intros H [(rs & E & Hr) C D O]. split; [|done..].
  exists rs. split; [done|]. eapply Forall_impl; [exact Hr|]. intros r []. auto.
Qed.

Lemma sys_next_field {A} (f : utp_context -> A) R y y' :
  sys_next R y y' ->
  (forall c a n, f (c <| ack_sockets := a |> <| nraw_send := n |>) = f c) ->
  f (ctx y') = f (ctx y).
Proof. intros [_ C _ _] H. rewrite <- C. by rewrite H. Qed.

Lemma sys_next_ms R y y' : sys_next R y y' -> current_ms (ctx y') = current_ms (ctx y).
Proof. intros H. apply (sys_next_field current_ms R y y' H). by intros []. Qed.
Lemma sys_next_cb R y y' : sys_next R y y' -> callbacks (ctx y') = callbacks (ctx y).
Proof. intros H. apply (sys_next_field callbacks R y y' H). by intros []. Qed.
Lemma sys_next_table R y y' : sys_next R y y' -> utp_sockets (ctx y') = utp_sockets (ctx y).
Proof. intros H. apply (sys_next_field utp_sockets R y y' H). by intros []. Qed.

Lemma sys_next_ok R p y y' : sys_next R y y' -> sys_ok p y -> sys_ok p y'.
Proof.
  intros Hn (Hl & Hs & Hp & Hm). pose proof Hn as [_ C D O]. split_and!; [by apply O| | |].
  - rewrite <- size_dom, D, size_dom. done.
  - apply elem_of_dom. rewrite D. by apply elem_of_dom.
  - unfold has_callback. by rewrite (sys_next_cb R y y' Hn).
Qed.

(** the list is no longer than the number of objects *)
Lemma ack_length p y l : sys_ok p y -> ack_ok l y -> Z.of_nat (length l) + 1 < INT_MAX.
Proof.
  intros (_ & Hs & _ & _) Hok. enough (length l <= size (idas y))%nat by lia.
  rewrite <- size_dom. rewrite <- (size_list_to_set (C := gset ptr) l)
    by apply (ack_nodup _ _ Hok).
  apply subseteq_size. intros q. rewrite elem_of_list_to_set. intros Hq.
  apply elem_of_dom. by apply (ack_live _ _ Hok).
Qed.

Lemma ack_frame_next R l y y' :
  ack_frame y y' -> ack_ok l y' -> sys_next R y y'.
Proof.
  intros [Ht Hc Hd] Hok. split.
  - exists []. by rewrite Ht.
  - rewrite <- Hc. by destruct y as [[] ? ?], y' as [[] ? ?].
  - apply set_eq. intros p. rewrite !elem_of_dom. apply Hd.
  - by eauto.
Qed.

(** changes that do not touch the list or the objects keep [ack_ok] *)
Lemma ack_ok_other l y c tr :
  ack_sockets c = ack_sockets (ctx y) -> ack_ok l y -> ack_ok l (mkSys c (idas y) tr).
Proof. intros Hc [Ha Hn Hi Hl Hs]. split; cbn; rewrite ?Hc; done. Qed.

Lemma sys_next_push (R : request -> Prop) r y : R r /\ polite r -> sys_next R y (y <| trace ::= cons r |>).
Proof.
  intros Hr. destruct y as [[] ids tr]. split; cbn; try done.
  - exists [r]. split; [done|]. by apply Forall_singleton.
  - intros [l Hl]. exists l. exact (ack_ok_other l _ _ (r :: tr) eq_refl Hl).
Qed.

(** The context may have changed in ways no other socket depends on. *)
Record sys_kept (y y' : Sys) : Prop := {
  kp_trace : traced polite y y';
  kp_dom : dom (idas y') = dom (idas y);
  kp_table : utp_sockets (ctx y') = utp_sockets (ctx y);
  kp_cb : callbacks (ctx y') = callbacks (ctx y);
  kp_last : last_utp_socket (ctx y') = last_utp_socket (ctx y);
  kp_rst : rst_info (ctx y') = rst_info (ctx y);
  kp_ack : (exists l, ack_ok l y) -> exists l, ack_ok l y';
}.

Lemma sys_kept_refl y : sys_kept y y.
Proof. split; try done. by exists []. Qed.
#[export] Hint Resolve sys_kept_refl : core.

Lemma sys_kept_trans y1 y2 y3 : sys_kept y1 y2 -> sys_kept y2 y3 -> sys_kept y1 y3.
Proof. intros [] []. split; try congruence; [by eapply traced_trans|auto]. Qed.

Lemma sys_next_kept R y y' : sys_next R y y' -> sys_kept y y'.
Proof.
  intros H. split; try apply H.
  - destruct (nx_trace _ _ _ H) as (rs & Et & Hrs). exists rs. split; [done|].
    eapply Forall_impl; [exact Hrs|]. by intros r [].
  - by apply (sys_next_table R).
  - by apply (sys_next_cb R).
  - apply (sys_next_field last_utp_socket R y y' H). by intros [].
  - apply (sys_next_field rst_info R y y' H). by intros [].
Qed.

Lemma sys_kept_ctx y f :
  (forall c, (f c) <| current_ms := current_ms c |> <| nraw_recv := nraw_recv c |> = c) ->
  sys_kept y (y <| ctx ::= f |>).
Proof.
  intros Hf. destruct y as [c ids tr]. specialize (Hf c). cbn in *.
  assert (E : ack_sockets (f c) = ack_sockets c) by (rewrite <- Hf at 2; by destruct (f c)).
  split; cbn; try done; try (rewrite <- Hf at 2; by destruct (f c)); [by exists []|].
  intros [l Hl]. exists l. exact (ack_ok_other l (mkSys c ids tr) (f c) tr E Hl).
Qed.

Lemma sys_kept_ok p y y' : sys_kept y y' -> sys_ok p y -> sys_ok p y'.
Proof.
  intros [_ D T C _ _ K] (Hl & Hs & Hp & Hm). split_and!; [by apply K| | |].
  - rewrite <- size_dom, D, size_dom. done.
  - apply elem_of_dom. rewrite D. by apply elem_of_dom.
  - unfold has_callback. by rewrite C.
Qed.

Lemma sys_ok_ctx p y f :
  (forall c, ack_sockets (f c) = ack_sockets c /\ callbacks (f c) = callbacks c) ->
  sys_ok p y -> sys_ok p (y <| ctx ::= f |>).
Proof.
  intros Hf ([l Hl] & Hs & Hp & Hm). destruct y as [c ids tr]. cbn in *.
  destruct (Hf c) as [Ha Hc]. split_and!; cbn; try done.
  - exists l. exact (ack_ok_other l (mkSys c ids tr) (f c) tr Ha Hl).
  - unfold has_callback. by rewrite Hc.
Qed.

(** Calls that only ask for a value, send a datagram or report statistics. *)
Definition quiet (r : request) : Prop :=
  match r with
  | OnOverheadStatistics _ _ _ _ | GetReadBufferSize _ | OnDelaySample _ _
  | GetUdpMtu _ _ | GetUdpOverhead _ _ | GetMilliseconds _ | GetMicroseconds _
  | GetRandom _ | Sendto _ _ _ _ => True
  | _ => False
  end.

(** ... the same without sending, and with datagrams that satisfy [D] only *)
Definition sends_only (D : list Z -> Prop) (r : request) : Prop :=
  quiet r /\ match r with Sendto _ bs _ _ => D bs | _ => True end.
Definition silent (r : request) : Prop := sends_only (fun _ => False) r.

Lemma silent_sends D r : silent r -> sends_only D r.
Proof. intros [H1 H2]. split; [done|]. by destruct r. Qed.

Lemma silent_quiet r : silent r -> quiet r.
Proof. by intros []. Qed.

Lemma sys_next_quiet D y y' : sys_next (sends_only D) y y' -> sys_next quiet y y'.
Proof. apply sys_next_mono. by intros r []. Qed.

Lemma sys_next_sends D y y' : sys_next silent y y' -> sys_next (sends_only D) y y'.
Proof. apply sys_next_mono, silent_sends. Qed.

Lemma traced_next R y y' : sys_next R y y' -> traced R y y'.
Proof.
  intros (rs & E & Hr)%nx_trace. exists rs. split; [done|]. eapply Forall_impl; [exact Hr|]. by intros r [].
Qed.

Lemma traced_carry (D D' : list Z -> Prop) y y' :
  (forall bs, D bs -> D' bs) -> traced (sends_only D) y y' -> traced (sends_only D') y y'.
Proof.
  intros H (rs & E & HF). exists rs. split; [done|]. eapply Forall_impl; [exact HF|].
  intros r [H1 H2]. split; [done|]. destruct r; auto.
Qed.

Lemma sys_next_carry (D D' : list Z -> Prop) y y' :
  (forall bs, D bs -> D' bs) -> sys_next (sends_only D) y y' -> sys_next (sends_only D') y y'.
Proof. intros H. apply sys_next_mono. intros r [H1 H2]. split; [done|]. destruct r; auto. Qed.

(** if the callback is installed, a call that satisfies [P] was made *)
Definition called (name : Z) (P : request -> Prop) (y y' : Sys) : Prop :=
  has_callback (ctx y) name = true ->
  exists rs r, trace y' = rs ++ trace y /\ r ∈ rs /\ P r.

Lemma called_before R name P y1 y2 y3 : sys_next R y1 y2 -> called name P y2 y3 -> called name P y1 y3.
Proof.
  intros H1 H2 Hc. unfold has_callback in *. rewrite <- (sys_next_cb _ _ _ H1) in Hc.
  destruct (H2 Hc) as (rs & r & Et & Hin & Hd), (nx_trace _ _ _ H1) as (r1 & E1 & _).
  exists (rs ++ r1), r. rewrite Et, E1, (assoc_L (++)), elem_of_app. auto.
Qed.

Lemma called_trace name P rs y1 y2 y3 :
  trace y3 = rs ++ trace y2 -> called name P y1 y2 -> called name P y1 y3.
Proof.
  intros E2 H1 Hc. destruct (H1 Hc) as (r1 & r & E1 & Hin & Hd).
  exists (rs ++ r1), r. rewrite E2, E1, (assoc_L (++)), elem_of_app. auto.
Qed.

Lemma called_after R name P y1 y2 y3 : sys_next R y2 y3 -> called name P y1 y2 -> called name P y1 y3.
Proof. intros H. destruct (nx_trace _ _ _ H) as (rs & E2 & _). by apply (called_trace _ _ rs). Qed.

Lemma called_mono name (P P' : request -> Prop) y y' :
  (forall r, P r -> P' r) -> called name P y y' -> called name P' y y'.
Proof. intros H He Hc. destruct (He Hc) as (rs & r & Et & Hin & Hd). exists rs, r. auto. Qed.

Lemma called_now name (P : request -> Prop) r y : P r -> called name P y (y <| trace ::= cons r |>).
Proof. intros Hr _. exists [r], r. split; [by destruct y|]. split; [by left|done]. Qed.

(** a datagram that satisfies [D] was sent for [p] *)
Definition emitted (p : ptr) (D : list Z -> Prop) : Sys -> Sys -> Prop :=
  called UTP_SENDTO (fun r => match r with Sendto q bs _ _ => q = p /\ D bs | _ => False end).

Lemma emitted_mono p (D D' : list Z -> Prop) y y' :
  (forall bs, D bs -> D' bs) -> emitted p D y y' -> emitted p D' y y'.
Proof. intros H. apply called_mono. intros [] Hr; try done. destruct Hr. auto. Qed.

(** Calls that deliver no data. *)
Definition no_read (r : request) : Prop := match r with OnRead _ _ => False | _ => True end.

Lemma quiet_no_read r : quiet r -> no_read r.
Proof. by destruct r. Qed.

(** ... and send only datagrams that satisfy [D], or none *)
Definition speaks (D : list Z -> Prop) (r : request) : Prop :=
  no_read r /\ match r with Sendto _ bs _ _ => D bs | _ => True end.
Definition mute (r : request) : Prop := speaks (fun _ => False) r.

Lemma speaks_mono (D D' : list Z -> Prop) r : (forall bs, D bs -> D' bs) -> speaks D r -> speaks D' r.
Proof. intros H [H1 H2]. split; [done|]. destruct r; auto. Qed.

Lemma mute_speaks D r : mute r -> speaks D r.
Proof. by apply speaks_mono. Qed.

Lemma sends_speaks D r : sends_only D r -> speaks D r.
Proof. intros [H1%quiet_no_read H2]. by split. Qed.

Lemma silent_mute r : silent r -> mute r.
Proof. apply sends_speaks. Qed.

Lemma sys_next_speaks (D D' : list Z -> Prop) y y' :
  (forall bs, D bs -> D' bs) -> sys_next (speaks D) y y' -> sys_next (speaks D') y y'.
Proof. intros H. apply sys_next_mono. intros r. by apply speaks_mono. Qed.

Lemma sys_next_mute D y y' : sys_next mute y y' -> sys_next (speaks D) y y'.
Proof. by apply sys_next_speaks. Qed.

Lemma sys_next_heard D y y' : sys_next (speaks D) y y' -> sys_next no_read y y'.
Proof. apply sys_next_mono. by intros r []. Qed.

Lemma sys_next_no_read y y' : sys_next quiet y y' -> sys_next no_read y y'.
Proof. apply sys_next_mono, quiet_no_read. Qed.

Section Rules.
Context {E : Env} {S : Type} `{!HasSys S} (F : fault -> Prop).
Implicit Types (s : S).

(** the result is the application's answer, or 0 without the callback *)
Lemma wp_call_val R name r (Q : Z -> S -> Prop) s :
  R r /\ polite r ->
  (forall v y, sys_next R (sys s) y ->
     (v = 0 /\ has_callback (ctx (sys s)) name = false) \/
     (exists h, v = u64 (answer (r :: h))) -> Q v (put_sys y s)) ->
  wp F (call name r) Q s.
Proof.
  intros Hr H. unfold call. apply wp_bind, wp_get, wp_if; intros Hc.
  - apply wp_bind, wp_modify, wp_ret. apply H; [by apply sys_next_push|by right; eauto].
  - apply wp_ret. rewrite <- (put_sys_same s). apply H; [apply sys_next_refl|by left].
Qed.

Lemma wp_call R name r (Q : Z -> S -> Prop) s :
  R r /\ polite r ->
  (forall v y, sys_next R (sys s) y -> is_u64 v -> Q v (put_sys y s)) ->
  wp F (call name r) Q s.
Proof.
  intros Hr H. apply (wp_call_val R); [done|]. intros v y Hy Hv. apply H; [done|].
  destruct Hv as [[-> _]|[h ->]]; [unfold is_u64; lia|apply u64_range].
Qed.

Lemma wp_notify R name r (Q : unit -> S -> Prop) s :
  R r /\ polite r -> (forall y, sys_next R (sys s) y -> Q tt (put_sys y s)) ->
  wp F (notify name r) Q s.
Proof.
  intros Hr H. unfold notify. apply wp_bind. apply (wp_call R); [done|].
  intros v y Hy _. apply wp_ret. by apply H.
Qed.

(** with the callback installed, the call was made *)
Lemma wp_notify_called R name r (Q : unit -> S -> Prop) s :
  R r /\ polite r ->
  (forall y, sys_next R (sys s) y -> called name (fun r' => r' = r) (sys s) y -> Q tt (put_sys y s)) ->
  wp F (notify name r) Q s.
Proof.
  intros Hr H. unfold notify, call. apply wp_bind, wp_bind, wp_get, wp_if; intros Hc.
  - apply wp_bind, wp_modify, wp_ret, wp_ret. apply H; [by apply sys_next_push|by apply called_now].
  - apply wp_ret, wp_ret. rewrite <- (put_sys_same s). apply H; [apply sys_next_refl|].
    intros Hc'. by rewrite Hc in Hc'.
Qed.

(** with the callback installed, the call is the newest of the trace *)
Lemma wp_notify_yes name r (Q : unit -> S -> Prop) s :
  has_callback (ctx (sys s)) name = true ->
  Q tt (put_sys ((sys s) <| trace ::= cons r |>) s) -> wp F (notify name r) Q s.
Proof.
  intros Hc H. unfold notify, call. apply wp_bind, wp_bind, wp_get. rewrite Hc.
  by apply wp_bind, wp_modify, wp_ret, wp_ret.
Qed.

Lemma wp_remove R p (Q : unit -> S -> Prop) s :
  sys_ok p (sys s) ->
  (forall y, sys_next R (sys s) y -> idas y !! p = Some (-1) -> Q tt (put_sys y s)) ->
  wp F (lift_sys (removeSocketFromAckList p)) Q s.
Proof.
  intros ([l Hl] & Hs & Hp & _) H. apply wp_lift_sys.
  destruct (remove_spec l (sys s) Hl p Hp) as (y' & l' & E' & Hl' & Hfr & Hout & _).
  unfold wp. rewrite E'. apply H; [by eapply ack_frame_next|].
  destruct Hfr as [_ _ Hd]. destruct (proj2 (Hd p) Hp) as [i Hi].
  pose proof (ack_ida _ _ Hl' p i Hi) as Hpi.
  destruct (Z.eqb_spec i (-1)) as [->|]; [done|]. destruct Hpi as [_ Hpi].
  destruct Hout. by eapply list_elem_of_lookup_2.
Qed.

Lemma wp_schedule R p (Q : unit -> S -> Prop) s :
  sys_ok p (sys s) ->
  (forall y i, sys_next R (sys s) y -> idas y !! p = Some i -> 0 <= i -> Q tt (put_sys y s)) ->
  wp F (lift_sys (schedule_ack p)) Q s.
Proof.
  intros Hok H. pose proof Hok as ([l Hl] & Hs & Hp & _). apply wp_lift_sys.
  destruct (schedule_spec l (sys s) Hl p Hp) as (y' & l' & E' & Hl' & Hfr & Hin & _).
  { by eapply ack_length. }
  unfold wp. rewrite E'. apply list_elem_of_lookup in Hin as [k Hk].
  eapply (H y' (Z.of_nat k)); [by eapply ack_frame_next|by eapply ack_index|lia].
Qed.
End Rules.

Section Asking.
Context {E : Env} {HE : GoodApp} (F : fault -> Prop) (R : request -> Prop).
Context (HR : forall r, silent r -> R r).

(** the assertion of get_rcv_window holds *)
Lemma wp_get_rcv_window_R (Q : Z -> St -> Prop) c y :
  (forall w y', sys_next R y y' -> Q w (mkSt c y')) ->
  wp F get_rcv_window Q (mkSt c y).
Proof.
  intros H. unfold get_rcv_window. apply wp_bind, wp_gets, wp_bind.
  apply (wp_call_val F R); [split; [by apply HR|done]|]. intros v y' Hy Hv.
  apply wp_bind, wp_assert.
  - intros _. apply wp_ret. by apply H.
  - intros Hf%Z.leb_gt. destruct Hv as [[-> _]|[h ->]]; [done|].
    pose proof (app_read_buffer (this (me (mkSt c y))) h). lia.
Qed.

(** the clock *)
Lemma wp_micros_R p (Q : Z -> St -> Prop) c y :
  (forall t y', sys_next R y y' -> 0 <= t < 9223372036854775808 -> Q t (mkSt c y')) ->
  wp F (utp_call_get_microseconds p) Q (mkSt c y).
Proof.
  intros H. unfold utp_call_get_microseconds. apply (wp_call_val F R); [split; [by apply HR|done]|].
  intros v y' Hy Hv. apply H; [done|]. destruct Hv as [[-> _]|[h ->]]; [lia|].
  pose proof (app_micros p h). pose proof (u64_range (answer (GetMicroseconds p :: h))).
  unfold is_u64 in *. lia.
Qed.
End Asking.

Lemma wp_get_rcv_window {E : Env} {HE : GoodApp} F (Q : Z -> St -> Prop) c y :
  (forall w y', sys_next quiet y y' -> Q w (mkSt c y')) ->
  wp F get_rcv_window Q (mkSt c y).
Proof. apply wp_get_rcv_window_R, silent_quiet. Qed.

Lemma wp_micros {E : Env} {HE : GoodApp} F p (Q : Z -> St -> Prop) c y :
  (forall t y', sys_next quiet y y' -> 0 <= t < 9223372036854775808 -> Q t (mkSt c y')) ->
  wp F (utp_call_get_microseconds p) Q (mkSt c y).
Proof. apply wp_micros_R, silent_quiet. Qed.

(** ** One step of a proof about a method *)
Ltac wp_step :=
  lazymatch goal with
  | |- wp _ (mbind _ _) _ _ => apply wp_bind
  | |- wp _ (mret _) _ _ => apply wp_ret
  | |- wp _ get _ _ => apply wp_get
  | |- wp _ (gets _) _ _ => apply wp_gets
  | |- wp _ (my _) _ _ => apply wp_gets
  | |- wp _ now_ms _ _ => apply wp_gets
  | |- wp _ (get_ctx _) _ _ => apply wp_gets
  | |- wp _ (modify _) _ _ => apply wp_modify
  | |- wp _ (mod_ctx _) _ _ => apply wp_modify
  | |- wp _ (upd _) _ _ => apply wp_modify
  | |- wp _ (upd_sq _) _ _ => apply wp_modify
  | |- wp _ (upd_rt _) _ _ => apply wp_modify
  | |- wp _ (upd_wn _) _ _ => apply wp_modify
  | |- wp _ (upd_rq _) _ _ => apply wp_modify
  | |- wp _ (upd_mt _) _ _ => apply wp_modify
  | |- wp _ (upd_dl _) _ _ => apply wp_modify
  | |- wp _ (set_state _) _ _ => apply wp_modify
  end; cbn [me st_sys sys put_sys HasSys_St].
Ltac wp_steps := repeat wp_step.
