(* ===== verification/MtuSearch.v ===== *)
(** * Path MTU discovery

    mtu_search_update and mtu_reset of src/utp_internal.cpp, and the places that
    move the ends of the search range (a probe acknowledged, a probe lost, an
    ICMP fragmentation-needed message).  Proved: the assertions on the range hold
    whatever the peer and the routers report.  That the search ends is in MtuSpec. *)
From S2P Require Import Prelude Packet SockAddr AckList Context Socket Frame.

(** ** The search on the fields *)

Definition mtu_repair (m : Mtu) : Mtu :=
  if mtu_ceiling m <? mtu_floor m then
    let c := mtu_floor m in
    m <| mtu_ceiling := c |>
      <| mtu_floor := if MTU_FLOOR_MIN <? c then u32 (MTU_FLOOR_MIN + c) / 2 else c |>
  else m.

Definition mtu_bisect (m : Mtu) : Mtu :=
  m <| mtu_last := u32 (mtu_floor m + mtu_ceiling m) / 2 |>
    <| mtu_probe_seq := 0 |> <| mtu_probe_size := 0 |>.

Definition mtu_close_enough (m : Mtu) : bool :=
  u32 (mtu_ceiling m - mtu_floor m) <=? 16.

Definition mtu_finish (m : Mtu) : Mtu :=
  m <| mtu_last := mtu_floor m |> <| mtu_ceiling := mtu_floor m |>.

Definition clear_probe (m : Mtu) : Mtu := m <| mtu_probe_seq := 0 |> <| mtu_probe_size := 0 |>.

Section Ops.
Context {E : Env}.

Definition restart_discovery : M St unit :=
  c ← my this;
  t ← utp_call_get_milliseconds c;
  upd_mt (fun m => m <| mtu_discover_time := u64 (t + 30 * 60 * 1000) |>).

Definition mtu_search_update : M St unit :=
  upd_mt mtu_repair ;;
  m ← my mt;
  assert_at 1314 (mtu_floor m <=? mtu_ceiling m) ;;
  upd_mt mtu_bisect ;;
  m ← my mt;
  when (mtu_close_enough m) (
    upd_mt mtu_finish ;;
    m ← my mt;
    assert_at 1331 (mtu_floor m <=? mtu_ceiling m) ;;
    restart_discovery).

Definition reset_range (mtu : Z) (m : Mtu) : Mtu :=
  m <| mtu_ceiling := mtu |>
    <| mtu_floor := if mtu <? MTU_FLOOR_MIN then mtu else MTU_FLOOR_MIN |>.

Definition mtu_reset : M St unit :=
  mtu ← get_udp_mtu;
  upd_mt (reset_range mtu) ;;
  m ← my mt;
  assert_at 1346 (mtu_floor m <=? mtu_ceiling m) ;;
  restart_discovery.

(** the probe got through: utp_process_incoming *)
Definition probe_acked : M St unit :=
  upd_mt (fun m => m <| mtu_floor := mtu_probe_size m |>) ;; mtu_search_update.

(** the probe is considered lost: check_timeouts, utp_process_incoming *)
Definition probe_lost : M St unit :=
  upd_mt (fun m => m <| mtu_ceiling := u32 (mtu_probe_size m - 1) |>) ;; mtu_search_update.

(** utp_process_icmp_fragmentation, once the socket is found *)
Definition icmp_fragmentation (next_hop_mtu : Z) : M St unit :=
  if (576 <=? next_hop_mtu) && (next_hop_mtu <? 8192) then
    upd_mt (fun m => m <| mtu_ceiling := Z.min next_hop_mtu (mtu_ceiling m) |>) ;;
    mtu_search_update ;;
    upd_mt (fun m => m <| mtu_last := mtu_ceiling m |>)
  else
    upd_mt (fun m => m <| mtu_ceiling := u32 (mtu_floor m + mtu_ceiling m) / 2 |>) ;;
    mtu_search_update.
End Ops.

(** ** The range *)

(** every size is a 16-bit value with room for a header and a byte *)
Record mtu_ok (m : Mtu) : Prop := {
  mo_ceiling : mtu_ceiling m < 65536;
  mo_floor : 21 <= mtu_floor m <= mtu_ceiling m;
  mo_last : 21 <= mtu_last m < 65536;
  mo_probe : 0 <= mtu_probe_size m < 65536;
  mo_probe_pos : mtu_probe_seq m <> 0 -> 21 <= mtu_probe_size m;
}.

(** the same, before the range is repaired *)
Definition mtu_loose (m : Mtu) : Prop :=
  0 <= mtu_ceiling m < 65536 /\ 21 <= mtu_floor m < 65536.

Lemma mtu_ok_loose m : mtu_ok m -> mtu_loose m.
Proof. intros []. unfold mtu_loose. lia. Qed.

Lemma mtu_repair_ok m :
  mtu_loose m ->
  let m' := mtu_repair m in
  mtu_loose m' /\ mtu_floor m' <= mtu_ceiling m' /\
  (mtu_floor m <= mtu_ceiling m -> m' = m).
Proof.
  intros [Hc Hf]. unfold mtu_repair, mtu_loose, MTU_FLOOR_MIN.
  destruct (Z.ltb_spec (mtu_ceiling m) (mtu_floor m)); [|split_and!; done || lia].
  destruct m as [t c f l ps pz]. cbn in *. destruct (Z.ltb_spec 576 f); split_and!; word_lia.
Qed.

(** The search as a function of the fields: what it leaves but for the time of
    the next discovery. *)
Definition mtu_search (m : Mtu) : Mtu :=
  let m := mtu_bisect (mtu_repair m) in
  if mtu_close_enough m then mtu_finish m else m.

Lemma mtu_search_ok m :
  mtu_loose m ->
  let m' := mtu_search m in
  mtu_ok m' /\ mtu_probe_seq m' = 0 /\ mtu_floor m' <= mtu_last m' <= mtu_ceiling m'.
Proof.
  intros Hm. destruct (mtu_repair_ok m Hm) as ([Hc Hf] & Hle & _). unfold mtu_search.
  destruct (mtu_repair m) as [t c f l ps pz]. unfold mtu_bisect, mtu_close_enough, mtu_finish. cbn in *.
  destruct (Z.leb_spec (u32 (c - f)) 16); cbn;
    (split; [split; cbn|split; cbn]); word_lia.
Qed.

(** ** The operations on a socket *)

Section Wp.
Context {E : Env} (F : fault -> Prop).

Lemma wp_restart_discovery_R R (HR : forall r, silent r -> R r) (Q : unit -> St -> Prop) c y :
  (forall t y', sys_next R y y' -> is_u64 t ->
     Q tt (mkSt (c <| mt ::= fun m => m <| mtu_discover_time := t |> |>) y')) ->
  wp F restart_discovery Q (mkSt c y).
Proof.
  intros H. unfold restart_discovery. wp_steps. apply (wp_call F R); [split; [by apply HR|done]|].
  intros t y' Hy _. wp_steps. apply H; [done|apply u64_range].
Qed.

Lemma wp_restart_discovery (Q : unit -> St -> Prop) c y :
  (forall t y', sys_next quiet y y' -> is_u64 t ->
     Q tt (mkSt (c <| mt ::= fun m => m <| mtu_discover_time := t |> |>) y')) ->
  wp F restart_discovery Q (mkSt c y).
Proof. apply wp_restart_discovery_R, silent_quiet. Qed.

(** The assertions hold, whatever the ends of the range are, and the fields
    are those of the search. *)
Lemma wp_mtu_search_update (Q : unit -> St -> Prop) c y :
  mtu_loose (mt c) ->
  (forall t y', sys_next silent y y' -> is_u64 t \/ t = mtu_discover_time (mt c) ->
     Q tt (mkSt (c <| mt := (mtu_search (mt c)) <| mtu_discover_time := t |> |>) y')) ->
  wp F mtu_search_update Q (mkSt c y).
Proof.
  intros Hm H. unfold mtu_search_update. wp_steps.
  destruct (mtu_repair_ok _ Hm) as (Hl & Hle & _).
  assert (Hrep : mtu_discover_time (mtu_repair (mt c)) = mtu_discover_time (mt c)).
  { unfold mtu_repair. case_match; [|done]. by destruct (mt c). }
  unfold mtu_search, mtu_close_enough in H. destruct c. cbn in *.
  set (m := mtu_repair _) in *. clearbody m. destruct m as [t0 c0 f l ps pz]. cbn in *.
  apply wp_assert; [intros _|intros Hf%Z.leb_gt; cbn in Hf; lia].
  wp_steps. apply wp_when; intros Hc; unfold mtu_close_enough in Hc; cbn in *;
    rewrite Hc in H.
  - wp_steps. apply wp_assert; [intros _|intros Hf%Z.leb_gt; cbn in Hf; lia].
    apply (wp_restart_discovery_R silent); [done|]. intros t y' Hy Ht. apply (H t y' Hy). by left.
  - apply (H t0 y (sys_next_refl _ _)). by right.
Qed.

Lemma wp_mtu_reset_R {HA : GoodApp} R (HR : forall r, silent r -> R r) (Q : unit -> St -> Prop) c y :
  has_callback (ctx y) UTP_GET_UDP_MTU = true ->
  (forall u t y', sys_next R y y' -> is_u16 u -> 21 <= u -> is_u64 t ->
     Q tt (mkSt (c <| mt := (reset_range u (mt c)) <| mtu_discover_time := t |> |>) y')) ->
  wp F mtu_reset Q (mkSt c y).
Proof.
  intros Hcb H. unfold mtu_reset, get_udp_mtu, utp_call_get_udp_mtu. wp_steps.
  apply (wp_call_val F R); [split; [by apply HR|done]|]. intros v y1 Hy1 Hv. wp_steps.
  assert (21 <= u16 v) as Hmin.
  { destruct Hv as [[_ Hf]|[h ->]]; [cbn in Hf; congruence|].
    exact (app_udp_mtu (this c) (get_sockaddr_storage (addr c)) h). }
  apply wp_assert.
  - intros _. apply (wp_restart_discovery_R R HR). intros t y2 Hy2 Ht.
    destruct c. cbn. apply H; [by eapply sys_next_trans|apply u16_range|done..].
  - destruct c. cbn. unfold MTU_FLOOR_MIN. intros Hf%Z.leb_gt.
    destruct (Z.ltb_spec (u16 v) 576); lia.
Qed.
Lemma wp_mtu_reset {HA : GoodApp} (Q : unit -> St -> Prop) c y :
  has_callback (ctx y) UTP_GET_UDP_MTU = true ->
  (forall u t y', sys_next quiet y y' -> is_u16 u -> 21 <= u -> is_u64 t ->
     Q tt (mkSt (c <| mt := (reset_range u (mt c)) <| mtu_discover_time := t |> |>) y')) ->
  wp F mtu_reset Q (mkSt c y).
Proof. apply wp_mtu_reset_R, silent_quiet. Qed.
End Wp.

Lemma reset_range_ok u m : mtu_ok m -> is_u16 u -> 21 <= u -> mtu_ok (reset_range u m).
Proof.
  intros [] Hu Hmin. unfold reset_range, MTU_FLOOR_MIN. destruct m. cbn in *.
  destruct (Z.ltb_spec u 576); split; cbn; word_lia.
Qed.

Lemma set_discover_ok m t : mtu_ok m -> mtu_ok (m <| mtu_discover_time := t |>).
Proof. by intros []; destruct m; split. Qed.

(** ** Properties *)

(** C22: whatever the ends of the search range have become (a lost probe may
    have moved the ceiling below the floor), mtu_search_update repairs the range:
    neither of its assertions fails, afterwards every size leaves room for a
    header and a byte, the next probe lies inside the range, and no probe is
    pending. *)
Theorem mtu_search_update_safe {E : Env} (s : St) :
  mtu_loose (mt (me s)) ->
  exists s', mtu_search_update s = Ok tt s' /\
    mtu_ok (mt (me s')) /\ mtu_probe_seq (mt (me s')) = 0 /\
    mtu_floor (mt (me s')) <= mtu_last (mt (me s')) <= mtu_ceiling (mt (me s')).
Proof.
  intros Hm. destruct s as [c y]. cbn in Hm.
  destruct (proj1 (wp_ok mtu_search_update (fun _ s' => mtu_ok (mt (me s')) /\
    mtu_probe_seq (mt (me s')) = 0 /\
    mtu_floor (mt (me s')) <= mtu_last (mt (me s')) <= mtu_ceiling (mt (me s'))) (mkSt c y)))
    as ([] & s' & E' & H); [|by exists s'].
  apply wp_mtu_search_update; [done|]. intros t y' _ _.
  destruct (mtu_search_ok _ Hm) as (H1 & H2 & H3). cbn [me].
  destruct c, (mtu_search mt) eqn:Em. cbn in *. rewrite Em in *.
  split; [|done]. by destruct H1; split.
Qed.

Definition crossed_mtu : Mtu := mkMtu 0 899 1000 949 7 900.
Definition crossed_sock : St :=
  mkSt ((utp_create_socket utp_context_init 1) <| mt := crossed_mtu |>)
    (mkSys utp_context_init {[ 1 := -1 ]} []).

Lemma mtu_search_update_safe_witness :
  exists s', @mtu_search_update {| answer := fun _ => 5 |} crossed_sock = Ok tt s' /\
    mtu_ok (mt (me s')) /\ mtu_probe_seq (mt (me s')) = 0 /\
    mtu_floor (mt (me s')) <= mtu_last (mt (me s')) <= mtu_ceiling (mt (me s')).
Proof.
  apply (@mtu_search_update_safe {| answer := fun _ => 5 |} crossed_sock).
  split; vm_compute; ((split; [discriminate|reflexivity]) || (split; discriminate)).
Defined.
