(* ===== verification/Send.v ===== *)
(** * Sending

    The sending half of src/utp_internal.cpp: send_data and the packets built on
    it (send_ack, send_keep_alive, send_rst, send_packet), the window test
    is_full, the queue operations flush_packets and write_outgoing_packet, and
    the debug check check_invariant.  A packet is passed as its index in the send
    queue, which is where every caller takes the pointer from. *)
From S2P Require Import Prelude Wrap Packet Ring Arrays SockAddr Context AckList Socket MtuSearch.

Definition PACKET_SIZE_EMPTY : Z := 23.
Definition PACKET_SIZE_SMALL : Z := 373.
Definition PACKET_SIZE_MID : Z := 723.
Definition PACKET_SIZE_BIG : Z := 1400.

(** the bucket of utp_register_sent_packet and utp_register_recv_packet *)
Definition size_bucket (length : Z) : nat :=
  if length <=? PACKET_SIZE_MID then
    if length <=? PACKET_SIZE_EMPTY then 0%nat
    else if length <=? PACKET_SIZE_SMALL then 1%nat else 2%nat
  else if length <=? PACKET_SIZE_BIG then 3%nat else 4%nat.

Definition count_packet (length : Z) (l : list Z) : list Z :=
  alter (fun n => u32 (n + 1)) (size_bucket length) l.

Section Send.
Context {E : Env}.

Definition utp_register_sent_packet {S} `{!HasSys S} (length : Z) : M S unit :=
  mod_ctx (fun c => c <| nraw_send ::= count_packet length |>).

Definition send_to_addr {S} `{!HasSys S} (socket : ptr) (p : list Z) (a : PackedSockAddr)
    (flags : Z) : M S unit :=
  utp_register_sent_packet (Z.of_nat (length p)) ;;
  utp_call_sendto socket p (get_sockaddr_storage a) flags.

(** the time stamps, then the report, the datagram, and the acknowledgement
    this packet makes unnecessary; the stamped header is returned *)
Definition send_data (b1 : PacketFormatV1) (rest : list Z) (len : Z)
    (type : bandwidth_type_t) (flags : Z) : M St PacketFormatV1 :=
  p ← my this;
  time ← utp_call_get_microseconds p;
  d ← my dl;
  let b1 := b1 <| pf_tv_usec := u32 time |> <| pf_reply_micro := reply_micro d |> in
  t ← now_ms;
  upd (fun c => c <| last_sent_packet := t |>) ;;
  stats ← get_ctx (fun c => has_callback c UTP_ON_OVERHEAD_STATISTICS);
  when stats (
    match type with
    | payload_bandwidth =>
        n ← get_overhead;
        utp_call_on_overhead_statistics p true n header_overhead
    | _ =>
        o ← get_udp_overhead;
        utp_call_on_overhead_statistics p true (u64 (len + o)) type
    end) ;;
  a ← my addr;
  send_to_addr p (take (Z.to_nat len) (encode_header b1 ++ rest)) a flags ;;
  lift_sys (removeSocketFromAckList p) ;;
  mret b1.

(** the header send_ack fills in *)
Definition ack_header (c : UTPSocket) (win ext : Z) : PacketFormatV1 :=
  (set_type ST_STATE (set_version 1 zero_header))
    <| pf_ext := ext |> <| pf_connid := u16 (conn_id_send c) |>
    <| pf_ack_nr := ack_nr (rq c) |> <| pf_seq_nr := seq_nr (sq c) |>
    <| pf_windowsize := u32 win |>.

(** [m |= 1 << i] for the packets in the reorder buffer *)
Definition eack_mask (inb : SizableCircularBuffer (list Z)) (ack : Z) : Z :=
  foldl (fun m i => match ring_get inb (ack + i + 2) with
                    | Some _ => Z.lor m (Z.shiftl 1 i)
                    | None => m
                    end) 0 (zseq (Z.to_nat (tmin 30 (ring_size inb)))).

Definition send_ack (synack : bool) : M St unit :=
  w ← get_rcv_window;
  upd_wn (fun n => n <| last_rcv_win := w |>) ;;
  c ← my (fun c => c);
  let q := rq c in
  (if negb (reorder_count q =? 0) && negb (got_fin_reached q) then
     assert_at 802 (negb synack) ;;
     assert_at 811 (bool_decide (ring_get (inbuf q) (ack_nr q + 1) = None)) ;;
     let m := eack_mask (inbuf q) (ack_nr q) in
     send_data (ack_header c w 1) ([0; 4] ++ acks_bytes m) (20 + 4 + 2) ack_overhead 0
   else send_data (ack_header c w 0) (replicate 6 0) 20 ack_overhead 0) ;;
  lift_sys (removeSocketFromAckList (this c)).

Definition send_keep_alive : M St unit :=
  upd_rq (fun q => q <| ack_nr := u16 (ack_nr q - 1) |>) ;;
  send_ack false ;;
  upd_rq (fun q => q <| ack_nr := u16 (ack_nr q + 1) |>).

Definition rst_header (conn_id_send ack_nr seq_nr : Z) : PacketFormatV1 :=
  (set_type ST_RESET (set_version 1 zero_header))
    <| pf_connid := u16 conn_id_send |> <| pf_ack_nr := u16 ack_nr |>
    <| pf_seq_nr := u16 seq_nr |>.

Definition send_rst {S} `{!HasSys S} (a : PackedSockAddr) (conn_id_send ack_nr seq_nr : Z) :
    M S unit :=
  send_to_addr NULL (encode_header (rst_header conn_id_send ack_nr seq_nr)) a 0.

(** ** The packets of the queue *)

Definition get_pkt (i : Z) : M St OutgoingPacket :=
  q ← my sq;
  match ring_get (outbuf q) i with Some p => mret p | None => fail NullDeref end.
Definition put_pkt (i : Z) (p : OutgoingPacket) : M St unit :=
  upd_sq (fun q => q <| outbuf ::= fun r => ring_put r i (Some p) |>).

(** is this transmission used to probe the MTU? *)
Definition is_probe (c : UTPSocket) (p : OutgoingPacket) : bool :=
  let m := mt c in
  (mtu_floor m <? mtu_ceiling m) && (mtu_floor m <? pk_length p) &&
  (pk_length p <=? mtu_ceiling m) && (mtu_probe_seq m =? 0) &&
  negb (seq_nr (sq c) =? 1) && (pk_transmissions p =? 0).

Definition start_probe (p : OutgoingPacket) : M St unit :=
  q ← my sq;
  upd_mt (fun m => m <| mtu_probe_seq := Z.land (seq_nr q - 1) ACK_NR_MASK |>
                     <| mtu_probe_size := u32 (pk_length p) |>) ;;
  m ← my mt;
  assert_at 925 (mtu_floor m <=? pk_length p) ;;
  assert_at 926 (pk_length p <=? mtu_ceiling m).

(** it starts counting as in flight, with a fresh acknowledgement number *)
Definition stamp_packet (i : Z) (p : OutgoingPacket) (time : Z) : M St unit :=
  when ((pk_transmissions p =? 0) || pk_need_resend p)
    (upd_sq (fun q => q <| cur_window ::= fun w => u64 (w + pk_payload p) |>)) ;;
  q ← my rq;
  put_pkt i (p <| pk_need_resend := false |>
               <| pk_hdr ::= fun h => h <| pf_ack_nr := ack_nr q |> |>
               <| pk_time_sent := time |>).

Definition transmit_packet (i : Z) (probe : bool) : M St unit :=
  p ← get_pkt i;
  let p := p <| pk_transmissions ::= fun t => (t + 1) mod 2147483648 |> in
  put_pkt i p ;;
  st ← my state;
  h ← send_data (pk_hdr p) (pk_body p) (pk_length p)
        (if is_state st CS_SYN_SENT then connect_overhead
         else if pk_transmissions p =? 1 then payload_bandwidth else retransmit_overhead)
        (if probe then UTP_UDP_DONTFRAG else 0);
  put_pkt i (p <| pk_hdr := h |>).

Definition send_packet (i : Z) : M St unit :=
  c ← my this;
  cur_time ← utp_call_get_milliseconds c;
  p ← get_pkt i;
  time ← utp_call_get_microseconds c;
  stamp_packet i p time ;;
  m ← my mt;
  when (mtu_discover_time m <? cur_time) mtu_reset ;;
  c ← my (fun c => c);
  let use_as_mtu_probe := is_probe c p in
  when use_as_mtu_probe (start_probe p) ;;
  transmit_packet i use_as_mtu_probe.

Definition max_send (c : UTPSocket) : Z :=
  tmin (tmin (max_window (wn c)) (opt_sndbuf (wn c))) (max_window_user (wn c)).

Definition full_bytes (packet_size bytes : Z) : Z :=
  if bytes <? 0 then i32 packet_size
  else if i32 packet_size <? bytes then i32 packet_size else bytes.

(** is there no room for [bytes] more bytes in flight? *)
Definition window_full (c : UTPSocket) (bytes : Z) : bool :=
  (OUTGOING_BUFFER_MAX_SIZE - 1 <=? cur_window_packets (sq c)) ||
  (max_send c <? u64 (cur_window (sq c) + full_bytes (get_packet_size c) bytes)).

Definition is_full (bytes : Z) : M St bool :=
  c ← my (fun c => c);
  let full := window_full c bytes in
  t ← now_ms;
  when full (upd_wn (fun n => n <| last_maxed_out_window := t |>)) ;;
  mret full.

(** the loop of flush_packets: [true] when the window is full *)
Fixpoint flush_loop (fuel : nat) (packet_size i : Z) : M St bool :=
  q ← my sq;
  if i =? seq_nr q then mret false else
  match fuel with
  | O => fail OutOfFuel
  | S fuel =>
      match ring_get (outbuf q) i with
      | None => flush_loop fuel packet_size (u16 (i + 1))
      | Some p =>
          if (0 <? pk_transmissions p) && negb (pk_need_resend p)
          then flush_loop fuel packet_size (u16 (i + 1))
          else
            full ← is_full (-1);
            if full : bool then mret true
            else
              when (negb (i =? Z.land (seq_nr q - 1) ACK_NR_MASK) ||
                    (cur_window_packets q =? 1) || (packet_size <=? pk_payload p))
                (send_packet i) ;;
              flush_loop fuel packet_size (u16 (i + 1))
      end
  end.

Definition flush_packets : M St bool :=
  c ← my (fun c => c);
  let q := sq c in
  flush_loop (Z.to_nat (cur_window_packets q)) (get_packet_size c)
    (u16 (seq_nr q - cur_window_packets q)).

(** ** Queueing *)

(** the copy loop over the iovecs: the bytes taken, what is left of the
    iovecs, and how many bytes are still needed *)
Fixpoint iov_take (needed : nat) (iov : list (list Z)) : list Z * list (list Z) * nat :=
  match iov with
  | [] => ([], [], needed)
  | v :: iov =>
      let num := Nat.min needed (length v) in
      let '(bs, iov', needed') := iov_take (needed - num) iov in
      (take num v ++ bs, drop num v :: iov', needed')
  end.

Definition new_packet : OutgoingPacket := {|
  pk_length := 0; pk_payload := 0; pk_time_sent := 0; pk_transmissions := 0;
  pk_need_resend := false; pk_hdr := zero_header; pk_body := [] |}.

(** the header fields write_outgoing_packet sets *)
Definition data_header (c : UTPSocket) (flags win : Z) (h : PacketFormatV1) : PacketFormatV1 :=
  (set_type flags (set_version 1 h))
    <| pf_ext := 0 |> <| pf_connid := u16 (conn_id_send c) |>
    <| pf_windowsize := u32 win |> <| pf_ack_nr := ack_nr (rq c) |>.

(** the last queued packet, if it has room and was never sent *)
Definition fill_target (q : SendQueue) (payload packet_size : Z) : option OutgoingPacket :=
  if 0 <? cur_window_packets q then
    p ← ring_get (outbuf q) (seq_nr q - 1);
    if negb (payload =? 0) && (pk_transmissions p =? 0) && (pk_payload p <? packet_size)
    then Some p else None
  else None.

Definition append_packet (p : OutgoingPacket) : M St unit :=
  upd_sq (fun q => q <| outbuf ::= fun r =>
      ring_put (ensure_size r (seq_nr q) (cur_window_packets q)) (seq_nr q)
        (Some (p <| pk_hdr ::= fun h => h <| pf_seq_nr := seq_nr q |> |>)) |>) ;;
  upd_sq (fun q => q <| seq_nr ::= fun n => u16 (n + 1) |>
                     <| cur_window_packets ::= fun n => u16 (n + 1) |>).

(** one round of the loop: the payload left and the iovecs *)
Definition write_round (packet_size payload flags : Z) (iov : list (list Z)) :
    M St (Z * list (list Z)) :=
  q ← my sq;
  assert_at 1011 (cur_window_packets q <? OUTGOING_BUFFER_MAX_SIZE) ;;
  assert_at 1012 ((flags =? ST_DATA) || (flags =? ST_FIN)) ;;
  let target := fill_target q payload packet_size in
  let '(p, added, append) :=
    match target with
    | Some p => (p, u64 (tmin (u64 (payload + pk_payload p)) (tmax packet_size (pk_payload p))
                         - pk_payload p), false)
    | None => (new_packet, payload, true)
    end in
  assert_at 1036 (append || negb (pk_need_resend p)) ;;
  assert_at 1049 ((added =? 0) || (flags =? ST_DATA)) ;;
  let '(bs, iov, needed) := iov_take (Z.to_nat added) iov in
  assert_at 1078 (Nat.eqb needed 0) ;;
  let p := p <| pk_body ::= fun b => b ++ bs |>
             <| pk_payload ::= fun n => u64 (n + added) |> in
  let p := p <| pk_length := u64 (get_header_size + pk_payload p) |> in
  w ← get_rcv_window;
  upd_wn (fun n => n <| last_rcv_win := w |>) ;;
  c ← my (fun c => c);
  let p := p <| pk_hdr ::= data_header c flags w |> in
  (if append : bool then append_packet p else put_pkt (seq_nr q - 1) p) ;;
  mret (payload - added, iov).

Fixpoint write_loop (fuel : nat) (packet_size payload flags : Z) (iov : list (list Z)) :
    M St (list (list Z)) :=
  match fuel with
  | O => fail OutOfFuel
  | S fuel =>
      r ← write_round packet_size payload flags iov;
      if r.1 =? 0 then mret r.2 else write_loop fuel packet_size r.1 flags r.2
  end.

(** "Setup initial timeout timer" *)
Definition start_timer : M St unit :=
  c ← my (fun c => c);
  when (cur_window_packets (sq c) =? 0) (
    t ← now_ms;
    upd_rt (fun r => r <| retransmit_timeout := rto r |>
                       <| rto_timeout := u64 (t + rto r) |>) ;;
    assert_at 1006 (cur_window (sq c) =? 0)).

(** a partly filled packet and a new one: two rounds *)
Definition write_outgoing_packet (payload flags : Z) (iov : list (list Z)) :
    M St (list (list Z)) :=
  start_timer ;;
  packet_size ← my get_packet_size;
  iov ← write_loop 2 packet_size payload flags iov;
  flush_packets ;;
  mret iov.

(** ** The debug check *)

Definition in_flight (p : OutgoingPacket) : bool :=
  negb (pk_transmissions p =? 0) && negb (pk_need_resend p).

(** the bytes of a slot that count as outstanding *)
Definition slot_bytes (o : option OutgoingPacket) : Z :=
  match o with Some p => if in_flight p then pk_payload p else 0 | None => 0 end.

Definition outstanding_bytes (q : SendQueue) : Z :=
  sumZ ((fun i => slot_bytes (ring_get (outbuf q) (seq_nr q - i - 1)))
        <$> zseq (Z.to_nat (cur_window_packets q))).

Definition check_invariant (c : UTPSocket) : bool :=
  (negb (0 <? reorder_count (rq c)) ||
   bool_decide (ring_get (inbuf (rq c)) (ack_nr (rq c) + 1) = None)) &&
  (outstanding_bytes (sq c) =? cur_window (sq c)).
End Send.
