(* ===== verification/SendQueue.v ===== *)
(** * The send queue and its invariant

    The window of packets seq_nr - cur_window_packets .. seq_nr - 1 in outbuf
    (src/utp_internal.cpp).  [sq_ok] says that the slots outside the window are
    empty, that the packets are well formed, and that cur_window is the number of
    payload bytes sent and not marked lost, which is what the debug function
    check_invariant recomputes.  The operations that the code performs on the
    queue are shown to keep it. *)
From S2P Require Import Prelude Packet Ring Context Socket Send.

(** ** Sums over a window *)
Definition sum_upto (f : Z -> Z) (n : nat) : Z := sumZ (f <$> zseq n).

Lemma zseq_S n : zseq (S n) = zseq n ++ [Z.of_nat n].
Proof. unfold zseq. by rewrite seq_S, fmap_app. Qed.

Lemma sum_upto_S f n : sum_upto f (S n) = sum_upto f n + f (Z.of_nat n).
Proof. unfold sum_upto. rewrite zseq_S, fmap_app, sumZ_app. cbn. lia. Qed.

Lemma sum_upto_ext f g n :
  (forall j, 0 <= j < Z.of_nat n -> f j = g j) -> sum_upto f n = sum_upto g n.
Proof.
  induction n as [|n IH]; intros H; [done|]. rewrite !sum_upto_S.
  rewrite IH by (intros; apply H; lia). by rewrite H by lia.
Qed.

Lemma sum_upto_shift f n : sum_upto f (S n) = f 0 + sum_upto (fun j => f (j + 1)) n.
Proof.
  induction n as [|n IH]; [reflexivity|].
  rewrite sum_upto_S, IH, sum_upto_S. replace (Z.of_nat (S n)) with (Z.of_nat n + 1) by lia. lia.
Qed.

(** one term changes *)
Lemma sum_upto_update f g n k :
  0 <= k < Z.of_nat n -> (forall j, 0 <= j < Z.of_nat n -> j <> k -> f j = g j) ->
  sum_upto g n = sum_upto f n - f k + g k.
Proof.
  induction n as [|n IH]; intros Hk H; [lia|]. rewrite !sum_upto_S.
  destruct (Z.eq_dec k (Z.of_nat n)) as [->|Hne].
  - rewrite (sum_upto_ext g f n); [lia|]. intros j Hj. symmetry. apply H; lia.
  - rewrite IH, (H (Z.of_nat n)); try lia. intros j Hj Hjk. apply H; lia.
Qed.

Lemma sum_upto_bounds f n b :
  (forall j, 0 <= j < Z.of_nat n -> 0 <= f j <= b) -> 0 <= sum_upto f n <= b * Z.of_nat n.
Proof.
  induction n as [|n IH]; intros H; [unfold sum_upto; cbn; lia|]. rewrite sum_upto_S.
  pose proof (H (Z.of_nat n) ltac:(lia)).
  assert (0 <= sum_upto f n <= b * Z.of_nat n) by (apply IH; intros; apply H; lia). lia.
Qed.

Lemma sum_upto_term f n b k :
  (forall j, 0 <= j < Z.of_nat n -> 0 <= f j <= b) -> 0 <= k < Z.of_nat n ->
  f k <= sum_upto f n.
Proof.
  induction n as [|n IH]; intros H Hk; [lia|]. rewrite sum_upto_S.
  pose proof (H (Z.of_nat n) ltac:(lia)).
  assert (H' : forall j, 0 <= j < Z.of_nat n -> 0 <= f j <= b) by (intros; apply H; lia).
  pose proof (sum_upto_bounds f n b H').
  destruct (Z.eq_dec k (Z.of_nat n)) as [->|]; [lia|].
  specialize (IH H' ltac:(lia)). lia.
Qed.

Lemma sum_upto_tail f (a b : nat) :
  (a <= b)%nat -> (forall j, Z.of_nat a <= j < Z.of_nat b -> f j = 0) ->
  sum_upto f b = sum_upto f a.
Proof.
  induction 1 as [|b Hle IH]; intros H; [done|].
  rewrite sum_upto_S, H by lia. rewrite IH; [lia|]. intros j Hj. apply H. lia.
Qed.

(** ** The invariant *)

(** largest payload of a packet: what a 16-bit MTU leaves *)
Definition max_payload : Z := 131072.

(** A queued packet after at most [n] transmissions; one that waits to be sent
    again counts as if it had been. *)
Record pkt_ok (n : Z) (p : OutgoingPacket) : Prop := {
  po_payload : 0 <= pk_payload p <= max_payload;
  po_body : pk_payload p = Z.of_nat (length (pk_body p));
  po_length : pk_length p = get_header_size + pk_payload p;
  po_trans : 0 <= pk_transmissions p;
  po_bound : pk_transmissions p + b2z (pk_need_resend p) <= n;
  po_resend : pk_need_resend p = true -> 0 < pk_transmissions p;
  po_time : 0 <= pk_time_sent p < 9223372036854775808;
  po_header : plain_header (pk_hdr p);
}.

(** the packet [j] places before the end of the queue *)
Definition slot (q : SendQueue) (j : Z) : option OutgoingPacket :=
  ring_get (outbuf q) (seq_nr q - j - 1).

Record sq_ok (n : Z) (q : SendQueue) : Prop := {
  so_ring : ring_wf (outbuf q);
  so_mask : Ring.mask (outbuf q) < 2048;
  so_seq : is_u16 (seq_nr q);
  so_count : 0 <= cur_window_packets q <= 1024;
  so_fits : cur_window_packets q <= Ring.mask (outbuf q) + 1;
  so_empty : forall j, cur_window_packets q <= j <= Ring.mask (outbuf q) -> slot q j = None;
  so_pkts : forall j p, 0 <= j < cur_window_packets q -> slot q j = Some p -> pkt_ok n p;
  so_window : cur_window q = outstanding_bytes q;
}.

Lemma outstanding_sum q :
  outstanding_bytes q = sum_upto (fun j => slot_bytes (slot q j)) (Z.to_nat (cur_window_packets q)).
Proof. done. Qed.

Lemma pkt_trans_le n p : pkt_ok n p -> 0 <= pk_transmissions p <= n.
Proof. intros []. split; [done|]. destruct (pk_need_resend p); cbn in *; lia. Qed.
Lemma pkt_ok_mono n n' p : n <= n' -> pkt_ok n p -> pkt_ok n' p.
Proof. intros ? []. split; try done. lia. Qed.

Lemma sq_ok_mono n n' q : n <= n' -> sq_ok n q -> sq_ok n' q.
Proof. intros ? []. split; try done. intros. eapply pkt_ok_mono; eauto. Qed.

(** indices that agree modulo 2^16 name the same slot *)
Lemma ring_get_cong {A} (r : SizableCircularBuffer A) i j :
  ring_wf r -> Ring.mask r < 65536 -> u16 i = u16 j -> ring_get r i = ring_get r j.
Proof.
  intros Hr Hm E. rewrite <- (ring_get_u16 r i), <- (ring_get_u16 r j) by done. by rewrite E.
Qed.

Lemma ring_put_cong {A} (r : SizableCircularBuffer A) i j d :
  ring_wf r -> Ring.mask r < 65536 -> u16 i = u16 j -> ring_put r i d = ring_put r j d.
Proof.
  intros Hr Hm E. rewrite <- (ring_put_u16 r i), <- (ring_put_u16 r j) by done. by rewrite E.
Qed.

Lemma slot_bytes_bounds n q j :
  sq_ok n q -> 0 <= j < cur_window_packets q -> 0 <= slot_bytes (slot q j) <= max_payload.
Proof.
  intros Hq Hj. unfold slot_bytes. destruct (slot q j) as [p|] eqn:E; [|unfold max_payload; lia].
  destruct (so_pkts _ _ Hq j p Hj E). case_match; lia.
Qed.

Lemma slot_bytes_bounds' n q :
  sq_ok n q -> forall j, 0 <= j < Z.of_nat (Z.to_nat (cur_window_packets q)) ->
  0 <= slot_bytes (slot q j) <= max_payload.
Proof. intros Hq j Hj. pose proof (so_count _ _ Hq). eapply slot_bytes_bounds; [done|lia]. Qed.

(** cur_window stays far below 2^64 *)
Lemma cur_window_bounds n q : sq_ok n q -> 0 <= cur_window q <= max_payload * 1024.
Proof.
  intros Hq. rewrite (so_window _ _ Hq), outstanding_sum.
  pose proof (sum_upto_bounds _ _ _ (slot_bytes_bounds' n q Hq)).
  pose proof (so_count _ _ Hq). unfold max_payload in *. lia.
Qed.

(** what is in flight in one slot is part of cur_window *)
Lemma slot_le_window n q j :
  sq_ok n q -> 0 <= j < cur_window_packets q -> slot_bytes (slot q j) <= cur_window q.
Proof.
  intros Hq Hj. rewrite (so_window _ _ Hq), outstanding_sum.
  apply (sum_upto_term (fun j => slot_bytes (slot q j)) _ max_payload);
    [by eapply slot_bytes_bounds'|lia].
Qed.

(** ** Changing the packet in one slot *)

(** the queue with slot [j] replaced and cur_window adjusted *)
Definition set_slot (q : SendQueue) (j : Z) (o : option OutgoingPacket) (w : Z) : SendQueue :=
  q <| outbuf ::= fun r => ring_put r (seq_nr q - j - 1) o |> <| cur_window := w |>.

Lemma slot_set q j o w k :
  ring_wf (outbuf q) -> 0 <= j <= Ring.mask (outbuf q) -> 0 <= k <= Ring.mask (outbuf q) ->
  slot (set_slot q j o w) k = if decide (k = j) then o else slot q k.
Proof.
  intros Hr Hj Hk. unfold slot, set_slot. destruct q as [cwp cw sn ob]. cbn in *.
  case_decide as E; [subst; by apply ring_get_put_eq|].
  apply ring_get_put_near; [done|lia|lia].
Qed.

Lemma set_slot_ok n q j o :
  sq_ok n q -> 0 <= j < cur_window_packets q ->
  (forall p, o = Some p -> pkt_ok n p) ->
  sq_ok n (set_slot q j o (cur_window q - slot_bytes (slot q j) + slot_bytes o)).
Proof.
  intros Hq Hj Ho. pose proof Hq as [H1 H2 H3 H4 H5 H6 H7 H8].
  set (w := _ - _ + _).
  assert (Hs : forall k, 0 <= k <= Ring.mask (outbuf q) ->
    slot (set_slot q j o w) k = if decide (k = j) then o else slot q k).
  { intros k Hk. apply slot_set; [done|lia|done]. }
  split; try (destruct q; cbn in *; by eauto using ring_put_wf).
  - intros k Hk. replace (Ring.mask _) with (Ring.mask (outbuf q)) in Hk by by destruct q.
    replace (cur_window_packets _) with (cur_window_packets q) in Hk by by destruct q.
    rewrite Hs, decide_False by lia. by apply H6.
  - intros k p Hk. replace (cur_window_packets _) with (cur_window_packets q) in Hk by by destruct q.
    rewrite Hs by lia. case_decide; [by eauto|]. by apply H7.
  - rewrite outstanding_sum.
    replace (cur_window_packets (set_slot q j o w)) with (cur_window_packets q) by by destruct q.
    replace (cur_window (set_slot q j o w)) with w by by destruct q.
    rewrite (sum_upto_update (fun j => slot_bytes (slot q j)) _ _ j); [|lia|].
    + cbn beta. rewrite Hs, decide_True by (done || lia). unfold w. by rewrite H8, outstanding_sum.
    + intros k Hk Hne. cbn beta. by rewrite Hs, decide_False by lia.
Qed.

(** ** Adding and removing packets *)

(** the new packet at the end of the queue *)
Definition push_slot (q : SendQueue) (p : OutgoingPacket) : SendQueue :=
  q <| outbuf ::= fun r =>
        ring_put (ensure_size r (seq_nr q) (cur_window_packets q)) (seq_nr q) (Some p) |>
    <| seq_nr ::= fun n => u16 (n + 1) |> <| cur_window_packets ::= fun n => u16 (n + 1) |>.

(** the oldest packet of a queue between two calls is never an empty place *)
Definition front_ok (q : SendQueue) : Prop :=
  0 < cur_window_packets q -> slot q (cur_window_packets q - 1) <> None.

(** the oldest place given up *)
Definition drop_oldest (q : SendQueue) : SendQueue :=
  q <| cur_window_packets ::= fun n => u16 (n - 1) |>.

Lemma drop_oldest_ok n q :
  sq_ok n q -> 0 < cur_window_packets q -> slot q (cur_window_packets q - 1) = None ->
  sq_ok n (drop_oldest q).
Proof.
  intros Hq Hc He. pose proof Hq as [H1 H2 H3 H4 H5 H6 H7 H8].
  assert (Ec : cur_window_packets (drop_oldest q) = cur_window_packets q - 1).
  { destruct q. cbn in *. apply u16_small. unfold is_u16. lia. }
  assert (Es : forall j, slot (drop_oldest q) j = slot q j) by by destruct q.
  assert (Eo : outbuf (drop_oldest q) = outbuf q) by by destruct q.
  split; rewrite ?Ec, ?Eo; try done; try lia.
  - intros j Hj. rewrite Es. destruct (Z.eq_dec j (cur_window_packets q - 1)) as [->|]; [done|].
    apply H6. lia.
  - intros j p Hj. rewrite Es. apply H7. lia.
  - replace (cur_window (drop_oldest q)) with (cur_window q) by by destruct q.
    rewrite H8, !outstanding_sum, Ec.
    replace (Z.to_nat (cur_window_packets q)) with (S (Z.to_nat (cur_window_packets q - 1))) by lia.
    rewrite sum_upto_S. rewrite Z2Nat.id by lia. rewrite He. cbn. rewrite Z.add_0_r.
    apply sum_upto_ext. intros j _. by rewrite Es.
Qed.

Section Grow.
Context {A : Type}.
Implicit Types (r : SizableCircularBuffer A).

Lemma ensure_size_mask r item index :
  ring_wf r -> 0 <= index ->
  Ring.mask (ensure_size r item index) = Ring.mask r \/
  (Ring.mask r < index /\
   Ring.mask (ensure_size r item index) + 1 <= 2 * Z.max index (Ring.mask r + 1)).
Proof.
  intros Hr Hi. unfold ensure_size. destruct (Z.ltb_spec (Ring.mask r) index); [right|by left].
  destruct (grow_size_wf r index Hr Hi) as (k & ? & E & ?).
  unfold ring_grow. cbn [Ring.mask]. rewrite E. split; [done|lia].
Qed.

(** making room leaves the places outside the window empty *)
Lemma ensure_size_empty r item index :
  ring_wf r -> 0 <= index <= Ring.mask r + 1 ->
  (forall o, index <= o <= Ring.mask r -> ring_get r (item - o - 1) = None) ->
  let r' := ensure_size r item index in
  forall o, index <= o < Ring.mask r' -> ring_get r' (item - o - 1) = None.
Proof.
  intros Hr Hi He. cbn zeta. unfold ensure_size.
  destruct (Z.ltb_spec (Ring.mask r) index).
  - intros o Ho. destruct (ring_grow_spec r item index Hr) as (Hr' & H1 & H2 & H3); [lia|].
    cbn zeta in *. set (r' := ring_grow r item index) in *.
    rewrite (ring_get_mod r' _ (item - index + (Ring.mask r' + index - o)) Hr').
    + rewrite H3, decide_False by lia. done.
    + replace (item - index + (Ring.mask r' + index - o))
        with (item - o - 1 + 1 * (Ring.mask r' + 1)) by lia.
      by rewrite Z.mod_add by lia.
  - intros o Ho. apply He. lia.
Qed.
End Grow.

Lemma push_slot_slots n q p :
  sq_ok n q -> cur_window_packets q < 1024 ->
  let q' := push_slot q p in
  ring_wf (outbuf q') /\ Ring.mask (outbuf q') < 2048 /\
  cur_window_packets q' = cur_window_packets q + 1 /\
  cur_window_packets q' <= Ring.mask (outbuf q') + 1 /\
  slot q' 0 = Some p /\
  (forall j, 0 <= j < cur_window_packets q -> slot q' (j + 1) = slot q j) /\
  (forall j, cur_window_packets q' <= j <= Ring.mask (outbuf q') -> slot q' j = None).
Proof.
  intros Hq Hc. pose proof Hq as [H1 H2 H3 H4 H5 H6 _ _].
  destruct q as [cwp cw sn ob]. unfold push_slot. cbn in *.
  pose proof (ring_append ob sn cwp p H1 ltac:(lia)) as (R1 & R2 & R3 & R4 & R5).
  pose proof (ensure_size_mask ob sn cwp H1 ltac:(lia)) as Hm.
  pose proof (ensure_size_empty ob sn cwp H1 ltac:(lia)) as Hem.
  destruct (ensure_size_spec ob sn cwp H1 ltac:(lia)) as (Hwf & _).
  cbn zeta in *. set (r := ensure_size ob sn cwp) in *.
  change (Ring.mask (ring_put r sn (Some p))) with (Ring.mask r) in *.
  assert (E : u16 (cwp + 1) = cwp + 1) by (apply u16_small; unfold is_u16; lia). rewrite E.
  assert (Hslot : forall j, slot (mkSq (cwp + 1) cw (u16 (sn + 1)) (ring_put r sn (Some p))) j
    = ring_get (ring_put r sn (Some p)) (sn - j)).
  { intros j. unfold slot. cbn. apply ring_get_cong; [done|cbn; lia|word_lia]. }
  split_and!; try done; try lia.
  - rewrite Hslot. by rewrite Z.sub_0_r.
  - intros j Hj. rewrite Hslot, R5 by lia. unfold slot. cbn. f_equal. lia.
  - intros j Hj. rewrite Hslot. rewrite ring_get_put_near by (done || lia).
    replace (sn - j) with (sn - (j - 1) - 1) by lia. apply Hem; [|lia]. intros o Ho. by apply H6.
Qed.

Lemma push_slot_ok n q p :
  sq_ok n q -> cur_window_packets q < 1024 -> pkt_ok n p -> slot_bytes (Some p) = 0 ->
  sq_ok n (push_slot q p).
Proof.
  intros Hq Hc Hp H0. pose proof Hq as [H1 H2 H3 H4 H5 H6 H7 H8].
  destruct (push_slot_slots n q p Hq Hc) as (R1 & R2 & R3 & R4 & R5 & R6 & R7).
  cbn zeta in *. set (q' := push_slot q p) in *. rewrite R3 in *. split; rewrite ?R3; try done; try lia.
  - destruct q. apply u16_range.
  - intros j x Hj. destruct (Z.eq_dec j 0) as [->|Hne].
    + rewrite R5. by intros [= <-].
    + replace j with (j - 1 + 1) by lia. rewrite R6 by lia. apply H7. lia.
  - rewrite outstanding_sum, R3.
    replace (Z.to_nat (cur_window_packets q + 1)) with (S (Z.to_nat (cur_window_packets q))) by lia.
    rewrite sum_upto_shift, R5. cbn [slot_bytes] in *. rewrite H0.
    replace (cur_window q') with (cur_window q) by by destruct q.
    rewrite H8, outstanding_sum. cbn. apply sum_upto_ext. intros j Hj. rewrite R6 by lia. done.
Qed.

(** the oldest packet stays the oldest, or the new one is *)
Lemma push_slot_front n q p :
  sq_ok n q -> cur_window_packets q < 1024 -> front_ok q -> front_ok (push_slot q p).
Proof.
  intros Hq Hc Hf _. destruct (push_slot_slots n q p Hq Hc) as (_ & _ & E & _ & R5 & R6 & _).
  pose proof (so_count _ _ Hq). rewrite E.
  destruct (Z.eq_dec (cur_window_packets q) 0) as [->|Hne]; [change (0 + 1 - 1) with 0; by rewrite R5|].
  replace (cur_window_packets q + 1 - 1) with (cur_window_packets q - 1 + 1) by lia.
  rewrite R6 by lia. apply Hf. lia.
Qed.

Lemma set_slot_front n q j p w :
  sq_ok n q -> 0 <= j < cur_window_packets q -> front_ok q -> front_ok (set_slot q j (Some p) w).
Proof.
  intros Hq Hj Hf _. pose proof (so_fits _ _ Hq).
  replace (cur_window_packets (set_slot _ _ _ _)) with (cur_window_packets q) by by destruct q.
  rewrite slot_set by (apply Hq || lia). case_decide; [done|]. apply Hf. lia.
Qed.

(** ** Empty queues *)
Lemma empty_queue_ok n sn : is_u16 sn -> sq_ok n (mkSq 0 0 sn ring_init).
Proof.
  intros Hs. split; cbn [cur_window_packets cur_window seq_nr outbuf]; try done.
  - apply ring_init_wf.
  - intros j _. apply ring_get_init.
  - intros j p Hj. lia.
Qed.

(** a queue without packets: the whole buffer is empty *)
Lemma empty_slots n q v : sq_ok n q -> cur_window_packets q = 0 -> ring_get (outbuf q) v = None.
Proof.
  intros Hq Hc. pose proof (ring_wf_mask _ (so_ring _ _ Hq)) as Hm. pose proof (so_ring _ _ Hq) as Hr.
  set (m := Ring.mask (outbuf q)) in *. set (j := (seq_nr q - v - 1) mod (m + 1)).
  assert (Hj : 0 <= j < m + 1) by (apply Z.mod_pos_bound; lia).
  rewrite (ring_get_mod _ _ (seq_nr q - j - 1) Hr); [apply (so_empty _ _ Hq); fold m; lia|].
  fold m. subst j. pose proof (Z.div_mod (seq_nr q - v - 1) (m + 1) ltac:(lia)).
  replace (seq_nr q - (seq_nr q - v - 1) mod (m + 1) - 1)
    with (v + (seq_nr q - v - 1) / (m + 1) * (m + 1)) by lia.
  by rewrite Z.mod_add by lia.
Qed.

(** ... so it may start at any sequence number *)
Lemma empty_seq n q sn :
  sq_ok n q -> cur_window_packets q = 0 -> is_u16 sn -> sq_ok n (q <| seq_nr := sn |>).
Proof.
  intros Hq Hc Hsn. pose proof (empty_slots n q) as He. pose proof Hq as [H1 H2 H3 H4 H5 H6 H7 H8].
  assert (Hw : cur_window q = 0) by (by rewrite H8, outstanding_sum, Hc).
  destruct q. cbn in *. subst. split; cbn; try done.
  - intros j _. by apply He.
  - intros j p Hj. lia.
Qed.
