(* ===== verification/Reorder.v ===== *)
(** * The reorder buffer

    inbuf, ack_nr and reorder_count of a socket (src/utp_internal.cpp) as the
    implementation of a set of received packets: [buffered D isn R k q] says that
    the packets with offsets in [R] have been received, that everything before
    offset [k] was handed on, and that the buffer holds exactly the rest, the
    packet at offset [k + j] at place ack_nr + 1 + j. *)
From S2P Require Import Prelude Wrap Ring Context Socket Send SendQueue.

Lemma held_again (o : Z) (R : gset Z) : o ∈ R -> R = {[o]} ∪ R.
Proof. set_solver. Qed.

Definition islot (q : RecvQueue) (j : Z) : option (list Z) :=
  ring_get (inbuf q) (ack_nr q + 1 + j).

Definition held (o : option (list Z)) : Z := match o with Some _ => 1 | None => 0 end.

Definition held_count (q : RecvQueue) : Z :=
  sum_upto (fun j => held (islot q j)) (Z.to_nat (Ring.mask (inbuf q) + 1)).

(** What send_ack and the keep-alive rely on: the places of the next packet and
    of the last one delivered are empty. *)
Record rq_ok (q : RecvQueue) : Prop := {
  ri_ring : ring_wf (inbuf q);
  ri_mask : Ring.mask (inbuf q) < 2048;
  ri_ack : is_u16 (ack_nr q);
  ri_first : islot q 0 = None;
  ri_last : islot q (Ring.mask (inbuf q)) = None;
}.

Lemma held_bounds o : 0 <= held o <= 1.
Proof. destruct o; cbn; lia. Qed.

Lemma held_count_bounds q :
  0 <= Ring.mask (inbuf q) < 2048 -> 0 <= held_count q <= 2048.
Proof.
  intros Hm. unfold held_count.
  pose proof (sum_upto_bounds (fun j => held (islot q j)) (Z.to_nat (Ring.mask (inbuf q) + 1)) 1).
  assert (0 <= held_count q <= 1 * Z.of_nat (Z.to_nat (Ring.mask (inbuf q) + 1))).
  { apply H. intros. apply held_bounds. }
  unfold held_count in *. lia.
Qed.

Lemma held_count_zero q j :
  0 <= j <= Ring.mask (inbuf q) -> held_count q = 0 -> islot q j = None.
Proof.
  intros Hj H0. pose proof (sum_upto_term (fun j => held (islot q j))
    (Z.to_nat (Ring.mask (inbuf q) + 1)) 1 j) as H.
  unfold held_count in H0. rewrite H0 in H.
  destruct (islot q j); [|done]. cbn in H.
  enough (1 <= 0) by lia. apply H; [|lia]. intros. apply held_bounds.
Qed.

Lemma held_count_ext q q' :
  Ring.mask (inbuf q') = Ring.mask (inbuf q) ->
  (forall j, 0 <= j <= Ring.mask (inbuf q) -> islot q' j = islot q j) ->
  held_count q' = held_count q.
Proof.
  intros Hm H. unfold held_count. rewrite Hm. apply sum_upto_ext. intros j Hj. by rewrite H by lia.
Qed.

Section Received.
Context (D : Z -> list Z) (isn : Z).

Record buffered (R : gset Z) (k : Z) (q : RecvQueue) : Prop := {
  bf_ring : ring_wf (inbuf q);
  bf_mask : Ring.mask (inbuf q) < 2048;
  bf_start : 0 <= k;
  bf_ack : ack_nr q = u16 (isn + k - 1);
  bf_slots : forall j, 0 <= j <= Ring.mask (inbuf q) ->
    islot q j = if decide (k + j ∈ R) then Some (D (k + j)) else None;
  bf_got : forall o, 0 <= o < k -> o ∈ R;
  bf_range : forall o, o ∈ R -> 0 <= o < k + Ring.mask (inbuf q);
  bf_count : reorder_count q = held_count q;
}.

(** the same fields, whatever the others are *)
Lemma buffered_same R k q q' :
  inbuf q' = inbuf q -> ack_nr q' = ack_nr q -> reorder_count q' = reorder_count q ->
  buffered R k q -> buffered R k q'.
Proof.
  intros Ei Ea Ec [H1 H2 H3 H4 H5 H6 H7 H8].
  assert (Hs : forall j, islot q' j = islot q j) by (intros; unfold islot; by rewrite Ei, Ea).
  split; rewrite ?Ei, ?Ea, ?Ec; try done.
  - intros j Hj. rewrite Hs. by apply H5.
  - rewrite H8. symmetry. apply held_count_ext; [by rewrite Ei|by intros].
Qed.

Lemma buffered_mask R k q : buffered R k q -> 0 <= Ring.mask (inbuf q) < 2048.
Proof. intros []. split; [by apply ring_wf_mask|done]. Qed.

Lemma buffered_rq_ok R k q : buffered R k q -> k ∉ R -> rq_ok q.
Proof.
  intros Hb Hk. pose proof (buffered_mask _ _ _ Hb). pose proof Hb as [H1 H2 H3 H4 H5 H6 H7 H8].
  split; try done.
  - rewrite H4. apply u16_range.
  - rewrite H5, Z.add_0_r, decide_False by (done || lia). done.
  - rewrite H5, decide_False; [done| |lia]. intros Hr%H7. lia.
Qed.

(** nothing buffered *)
Lemma buffered_empty R k q : buffered R k q -> reorder_count q = 0 -> k ∉ R.
Proof.
  intros Hb H0 Hk. pose proof (buffered_mask _ _ _ Hb).
  rewrite (bf_count _ _ _ Hb) in H0. pose proof (held_count_zero q 0 ltac:(lia) H0) as Hs.
  rewrite (bf_slots _ _ _ Hb), Z.add_0_r, decide_True in Hs by (done || lia). done.
Qed.

Lemma islot_next q j a :
  ring_wf (inbuf q) -> Ring.mask (inbuf q) < 2048 -> ack_nr a = u16 (ack_nr q + 1) ->
  inbuf a = inbuf q -> islot a j = islot q (j + 1).
Proof.
  intros Hr Hm Ea Ei. unfold islot. rewrite Ea, Ei.
  apply ring_get_cong; [done|lia|]. word_lia.
Qed.

(** *** The next packet arrives *)
Lemma buffered_next R k q q' :
  buffered R k q -> k ∉ R -> inbuf q' = inbuf q -> ack_nr q' = u16 (ack_nr q + 1) ->
  reorder_count q' = reorder_count q -> buffered ({[k]} ∪ R) (k + 1) q'.
Proof.
  intros Hb Hk Ei Ea Ec. pose proof (buffered_mask _ _ _ Hb).
  pose proof Hb as [H1 H2 H3 H4 H5 H6 H7 H8]. set (m := Ring.mask (inbuf q)) in *.
  assert (Hs : forall j, islot q' j = islot q (j + 1)) by (intros; by apply islot_next).
  assert (Hlast : islot q m = None)
    by apply (buffered_rq_ok _ _ _ Hb Hk).
  assert (Hfirst : islot q 0 = None) by apply (buffered_rq_ok _ _ _ Hb Hk).
  assert (Hwrap : islot q (m + 1) = islot q 0).
  { unfold islot. apply ring_get_mod; [done|]. fold m.
    replace (ack_nr q + 1 + (m + 1)) with (ack_nr q + 1 + 0 + 1 * (m + 1)) by lia.
    apply Z.mod_add. lia. }
  split; rewrite ?Ei; fold m; try done; try lia.
  - rewrite Ea, H4. word_lia.
  - intros j Hj. rewrite Hs. destruct (Z.eq_dec j m) as [->|].
    + rewrite Hwrap, Hfirst, decide_False; [done|].
      rewrite elem_of_union, elem_of_singleton. intros [?|Hr]; [lia|].
      specialize (H7 _ Hr). lia.
    + rewrite H5 by lia. replace (k + 1 + j) with (k + (j + 1)) by lia.
      destruct (decide (k + (j + 1) ∈ R)) as [Hr|Hr].
      * rewrite decide_True; [done|]. set_solver.
      * rewrite decide_False; [done|]. rewrite elem_of_union, elem_of_singleton.
        intros [?|?]; [lia|done].
  - intros o Ho. rewrite elem_of_union, elem_of_singleton.
    destruct (Z.eq_dec o k); [by left|right]. apply H6. lia.
  - intros o. rewrite elem_of_union, elem_of_singleton. intros [->|Hr%H7]; lia.
  - rewrite Ec, H8. unfold held_count. rewrite Ei. fold m.
    replace (Z.to_nat (m + 1)) with (S (Z.to_nat m)) by lia.
    rewrite sum_upto_shift, sum_upto_S, Hfirst. rewrite Z2Nat.id by lia.
    rewrite Hs, Hwrap, Hfirst. cbn [held]. rewrite Z.add_0_r, Z.add_0_l.
    apply sum_upto_ext. intros j Hj. by rewrite Hs.
Qed.

(** *** A buffered packet becomes the next one *)
Lemma buffered_take R k q q' :
  buffered R k q -> k ∈ R -> inbuf q' = ring_put (inbuf q) (ack_nr q + 1) None ->
  ack_nr q' = u16 (ack_nr q + 1) -> reorder_count q' = u16 (reorder_count q - 1) ->
  islot q 0 = Some (D k) /\ 0 < reorder_count q /\ buffered R (k + 1) q'.
Proof.
  intros Hb Hk Ei Ea Ec. pose proof (buffered_mask _ _ _ Hb) as Hm.
  pose proof Hb as [H1 H2 H3 H4 H5 H6 H7 H8]. set (m := Ring.mask (inbuf q)) in *.
  assert (H0 : islot q 0 = Some (D k)).
  { rewrite H5, Z.add_0_r, decide_True by (done || lia). done. }
  assert (Hm' : Ring.mask (inbuf q') = m) by by rewrite Ei.
  assert (Hs : forall j, 0 <= j < m -> islot q' j = islot q (j + 1)).
  { intros j Hj. unfold islot. rewrite Ei, Ea.
    rewrite (ring_get_cong _ _ (ack_nr q + 1 + (j + 1)));
      [|by apply ring_put_wf|cbn; fold m; lia|word_lia].
    apply ring_get_put_near; [done|lia|fold m; lia]. }
  assert (Hlast : islot q' m = None).
  { unfold islot. rewrite Ei, Ea.
    rewrite (ring_get_cong _ _ (ack_nr q + 1 + 1 * (m + 1)));
      [|by apply ring_put_wf|cbn; fold m; lia|word_lia].
    rewrite ring_get_put by done. fold m. rewrite decide_True; [done|].
    rewrite Z.mod_add by lia. done. }
  assert (Hsum : held_count q = 1 + held_count q').
  { unfold held_count. rewrite Hm'. fold m.
    replace (Z.to_nat (m + 1)) with (S (Z.to_nat m)) by lia.
    rewrite sum_upto_shift, sum_upto_S, H0. rewrite Z2Nat.id by lia. rewrite Hlast. cbn [held].
    rewrite (sum_upto_ext (fun j => held (islot q' j)) (fun j => held (islot q (j + 1)))); [lia|].
    intros j Hj. by rewrite Hs by lia. }
  assert (Hc : 0 <= held_count q' <= 2048) by (apply held_count_bounds; lia).
  split; [done|]. split; [lia|]. split; rewrite ?Hm'; try done; try lia.
  - rewrite Ei. by apply ring_put_wf.
  - rewrite Ea, H4. word_lia.
  - intros j Hj. destruct (Z.eq_dec j m) as [->|].
    + rewrite Hlast, decide_False; [done|]. intros Hr%H7. lia.
    + rewrite Hs, H5 by lia. by replace (k + 1 + j) with (k + (j + 1)) by lia.
  - intros o Ho. destruct (Z.eq_dec o k) as [->|]; [done|]. apply H6. lia.
  - intros o Hr%H7. lia.
  - rewrite Ec, H8, Hsum. rewrite u16_small; [lia|]. unfold is_u16. lia.
Qed.
(** *** A packet ahead of the next one *)

(** making room first leaves the contents alone *)
Lemma buffered_room R k q q' d s :
  buffered R k q -> 1 <= d <= 1023 -> u16 (s - d) = u16 (ack_nr q + 1) ->
  inbuf q' = ensure_size (inbuf q) (s + 1) (d + 1) -> ack_nr q' = ack_nr q ->
  reorder_count q' = reorder_count q ->
  buffered R k q' /\ d + 1 <= Ring.mask (inbuf q').
Proof.
  intros Hb Hd Es Ei Ea Ec. pose proof (buffered_mask _ _ _ Hb) as Hm.
  pose proof Hb as [H1 H2 H3 H4 H5 H6 H7 H8]. set (m := Ring.mask (inbuf q)) in *.
  unfold ensure_size in Ei. fold m in Ei. destruct (Z.ltb_spec m (d + 1)).
  2: { split; [by eapply buffered_same|]. rewrite Ei. fold m. lia. }
  destruct (ring_grow_spec (inbuf q) (s + 1) (d + 1) H1) as (Hr' & G1 & G2 & G3); [lia|].
  destruct (grow_size_wf (inbuf q) (d + 1) H1) as (kk & _ & Ek & _ & _ & Hmax); [lia|].
  cbn zeta in *. fold m in G2, G3, Hmax.
  assert (Hm' : Ring.mask (inbuf q') = 2 ^ kk - 1)
    by (rewrite Ei; unfold ring_grow; cbn [Ring.mask]; by rewrite Ek).
  rewrite <- Ei in *. set (m' := Ring.mask (inbuf q')) in *.
  assert (Hm'b : m' < 2048) by (destruct Hmax; lia).
  assert (Hs : forall j, 0 <= j <= m' -> islot q' j = if decide (j <= m) then islot q j else None).
  { intros j Hj. specialize (G3 j Hj). unfold islot. rewrite Ea.
    rewrite (ring_get_cong (inbuf q') _ (s + 1 - (d + 1) + j)); [|done|lia|].
    2: { revert Es. word_lia. }
    rewrite G3. case_decide; [|done]. apply ring_get_cong; [done|lia|]. revert Es. word_lia. }
  split; [|lia]. split; fold m'; try done; try congruence.
  - intros j Hj. rewrite Hs by done. destruct (decide (j <= m)); [by apply H5; lia|].
    rewrite decide_False; [done|]. intros Hr%H7. lia.
  - intros o Hr%H7. lia.
  - rewrite Ec, H8. unfold held_count. fold m m'.
    rewrite (sum_upto_tail _ (Z.to_nat (m + 1)) (Z.to_nat (m' + 1))); [|lia|].
    2: { intros j Hj. by rewrite Hs, decide_False by lia. }
    apply sum_upto_ext. intros j Hj. by rewrite Hs, decide_True by lia.
Qed.

Lemma buffered_store R k q q' d s :
  buffered R k q -> 1 <= d -> d + 1 <= Ring.mask (inbuf q) -> k + d ∉ R ->
  u16 s = u16 (ack_nr q + 1 + d) -> inbuf q' = ring_put (inbuf q) s (Some (D (k + d))) ->
  ack_nr q' = ack_nr q -> reorder_count q' = u16 (reorder_count q + 1) ->
  buffered ({[k + d]} ∪ R) k q'.
Proof.
  intros Hb Hd Hdm Hn Es Ei Ea Ec. pose proof (buffered_mask _ _ _ Hb) as Hm.
  pose proof Hb as [H1 H2 H3 H4 H5 H6 H7 H8]. set (m := Ring.mask (inbuf q)) in *.
  assert (Hm' : Ring.mask (inbuf q') = m) by by rewrite Ei.
  rewrite (ring_put_cong _ _ (ack_nr q + 1 + d)) in Ei by (done || lia).
  assert (Hs : forall j, 0 <= j <= m ->
    islot q' j = if decide (j = d) then Some (D (k + d)) else islot q j).
  { intros j Hj. unfold islot. rewrite Ei, Ea. case_decide as E.
    - subst. by apply ring_get_put_eq.
    - apply ring_get_put_near; [done|lia|fold m; lia]. }
  split; rewrite ?Hm'; try done; try congruence.
  - rewrite Ei. by apply ring_put_wf.
  - intros j Hj. rewrite Hs by done. case_decide as E.
    + subst. rewrite decide_True by set_solver. done.
    + rewrite H5 by done. destruct (decide (k + j ∈ R)).
      * by rewrite decide_True by set_solver.
      * rewrite decide_False; [done|]. rewrite elem_of_union, elem_of_singleton.
        intros [?|?]; [lia|done].
  - intros o Ho. rewrite elem_of_union. right. by apply H6.
  - intros o. rewrite elem_of_union, elem_of_singleton. intros [->|Hr%H7]; lia.
  - assert (Hc : held_count q' = held_count q + 1).
    { unfold held_count. rewrite Hm'. fold m.
      rewrite (sum_upto_update (fun j => held (islot q j)) _ _ d); [|lia|].
      - cbn beta. rewrite Hs, decide_True, H5 by lia. rewrite decide_False by done. cbn. lia.
      - intros j Hj Hne. cbn beta. by rewrite Hs, decide_False by lia. }
    pose proof (held_count_bounds q ltac:(fold m; lia)).
    rewrite Ec, H8, Hc. apply u16_small. unfold is_u16. lia.
Qed.

(** an offset in the window is in [R] exactly when its place is taken *)
Lemma buffered_slot R k q d :
  buffered R k q -> 0 <= d <= Ring.mask (inbuf q) ->
  islot q d = None <-> k + d ∉ R.
Proof. intros Hb Hd. rewrite (bf_slots _ _ _ Hb) by done. by case_decide. Qed.
End Received.
