(* ===== verification/SendInv.v ===== *)
(** * The sending operations keep the send queue consistent

    Specifications of send_to_addr, send_data and send_packet
    (src/utp_internal.cpp) against the invariant of SendQueue.v: no assertion
    fails, cur_window stays the number of bytes in flight, only the packets that
    are sent change, and every datagram is well formed. *)
From S2P Require Import Prelude Packet Ring Arrays SockAddr Context AckList Socket Frame MtuSearch Send SendQueue.

Lemma sys_next_nraw R y f :
  sys_next R y (y <| ctx ::= fun c => c <| nraw_send ::= f |> |>).
Proof.
  destruct y as [[] ids tr]. split; cbn; try done; [by exists []|].
  intros [l Hl]. exists l. by refine (ack_ok_other l _ _ tr _ Hl).
Qed.

Section Wp.
Context {E : Env} (F : fault -> Prop).
Implicit Types (c : UTPSocket) (y : Sys) (q : SendQueue) (p : OutgoingPacket).

(** [D] is what is known of the datagram *)
Lemma wp_send_anywhere_D D {S} `{!HasSys S} socket bs a flags (Q : unit -> S -> Prop) (s : S) :
  D bs -> wire bs -> (forall y', sys_next (sends_only D) (sys s) y' -> emitted socket D (sys s) y' -> Q tt (put_sys y' s)) ->
  wp F (send_to_addr socket bs a flags) Q s.
Proof.
  intros HD Hw H. unfold send_to_addr, utp_register_sent_packet, utp_call_sendto.
  apply wp_bind, wp_modify. set (y0 := _ <| ctx ::= _ |>).
  assert (H0 : sys_next (sends_only D) (sys s) y0) by apply sys_next_nraw.
  apply (wp_notify_called F (sends_only D)); [done|]. intros y'. rewrite sys_put, put_put.
  intros Hy He. apply H; [by eapply sys_next_trans|]. eapply called_before; [exact H0|].
  eapply called_mono; [|exact He]. by intros r ->.
Qed.

Lemma wp_send_anywhere {S} `{!HasSys S} socket bs a flags (Q : unit -> S -> Prop) (s : S) :
  wire bs -> (forall y', sys_next quiet (sys s) y' -> Q tt (put_sys y' s)) ->
  wp F (send_to_addr socket bs a flags) Q s.
Proof.
  intros Hw H. apply (wp_send_anywhere_D (fun _ => True)); [done|done|]. intros y' Hy _.
  by eapply H, sys_next_quiet.
Qed.

Lemma rst_wire id ack seq : wire (encode_header (rst_header id ack seq)).
Proof. exists (rst_header id ack seq), []. rewrite app_nil_r. by split; [|left]. Qed.

Lemma wp_get_udp_overhead_R R (HR : forall r, silent r -> R r) (Q : Z -> St -> Prop) c y :
  (forall v y', sys_next R y y' -> is_u16 v -> Q v (mkSt c y')) ->
  wp F get_udp_overhead Q (mkSt c y).
Proof.
  intros H. unfold get_udp_overhead, utp_call_get_udp_overhead. wp_steps.
  apply (wp_call F R); [split; [by apply HR|done]|]. intros v y' Hy _. wp_steps. apply H; [done|apply u16_range].
Qed.

Lemma wp_get_udp_overhead (Q : Z -> St -> Prop) c y :
  (forall v y', sys_next quiet y y' -> is_u16 v -> Q v (mkSt c y')) ->
  wp F get_udp_overhead Q (mkSt c y).
Proof. apply wp_get_udp_overhead_R, silent_quiet. Qed.

(** the optional overhead report of send_data *)
Lemma wp_report_overhead R (HR : forall r, silent r -> R r) pt type len (Q : unit -> St -> Prop) c y :
  (forall y', sys_next R y y' -> Q tt (mkSt c y')) ->
  wp F (match type with
        | payload_bandwidth =>
            n ← get_overhead;
            utp_call_on_overhead_statistics pt true n header_overhead
        | _ =>
            o ← get_udp_overhead;
            utp_call_on_overhead_statistics pt true (u64 (len + o)) type
        end) Q (mkSt c y).
Proof.
  intros H. destruct type; unfold get_overhead; wp_steps; apply (wp_get_udp_overhead_R R HR);
    intros v y1 H1 _; wp_steps; unfold utp_call_on_overhead_statistics;
    (apply (wp_notify F R); [split; [by apply HR|done]|]; intros y2 H2; apply H; by eapply sys_next_trans).
Qed.

(** the header send_data sends *)
Definition stamped (c : UTPSocket) (time : Z) (h : PacketFormatV1) : PacketFormatV1 :=
  h <| pf_tv_usec := u32 time |> <| pf_reply_micro := reply_micro (dl c) |>.

Lemma wp_send_data_D D h rest len type flags (Q : PacketFormatV1 -> St -> Prop) c y :
  sys_ok (this c) y ->
  (forall time, let bs := take (Z.to_nat len) (encode_header (stamped c time h) ++ rest) in D bs /\ wire bs) ->
  (forall time y', sys_next (sends_only D) y y' -> emitted (this c) D y y' ->
     idas y' !! this c = Some (-1) -> is_u64 time -> Q (stamped c time h) (mkSt (c <| last_sent_packet := current_ms (ctx y) |>) y')) ->
  wp F (send_data h rest len type flags) Q (mkSt c y).
Proof.
  intros Hok HD H. unfold send_data. wp_steps.
  apply (wp_call F (sends_only D)); [done|]. intros time y1 H1 Ht. wp_steps.
  rewrite (sys_next_ms _ _ _ H1). set (c1 := c <| last_sent_packet := _ |>).
  assert (Hthis : this c1 = this c) by by destruct c.
  assert (Hfin : forall y2, sys_next (sends_only D) y y2 -> wp F
    (a ← my addr;
     send_to_addr (this c) (take (Z.to_nat len) (encode_header (stamped c time h) ++ rest)) a flags ;;
     lift_sys (removeSocketFromAckList (this c)) ;;
     mret (stamped c time h)) Q (mkSt c1 y2)).
  { intros y2 H2. wp_steps. apply (wp_send_anywhere_D D); [apply HD|apply HD|].
    cbn [sys put_sys HasSys_St me st_sys]. intros y3 H3 He. wp_steps.
    apply (wp_remove F (sends_only D)).
    { eapply sys_next_ok; [|exact Hok]. by eapply sys_next_trans. }
    intros y4 H4 Hi. wp_steps. apply H; [| |done|done].
    - do 2 (eapply sys_next_trans; [eassumption|]). done.
    - eapply called_before; [exact H2|]. by eapply called_after. }
  apply wp_when; intros _.
  - apply (wp_report_overhead (sends_only D)); [by intros r Hr; apply silent_sends|].
    intros y2 H2. apply Hfin. by eapply sys_next_trans.
  - by apply Hfin.
Qed.

(** ** Sending a packet *)

(** the fields of a header that no retransmission changes *)
Record like (h' h : PacketFormatV1) : Prop := {
  lk_type : pf_ver_type h' = pf_ver_type h;
  lk_ext : pf_ext h' = pf_ext h;
  lk_seq : pf_seq_nr h' = pf_seq_nr h;
}.

Lemma like_refl h : like h h.
Proof. by split. Qed.
Lemma like_trans h1 h2 h3 : like h1 h2 -> like h2 h3 -> like h1 h3.
Proof. intros [] []. split; congruence. Qed.
Lemma like_sym h1 h2 : like h1 h2 -> like h2 h1.
Proof. by intros []. Qed.

(** a datagram that carries the packet, with acknowledgement number [ack] *)
Definition carried_by (ack : Z) (p : OutgoingPacket) (bs : list Z) : Prop :=
  exists h, like h (pk_hdr p) /\ pf_ack_nr h = ack /\ bs = encode_header h ++ pk_body p.

Lemma like_plain h h' : like h' h -> plain_header h -> plain_header h'.
Proof.
  intros [Ht He _]. unfold plain_header, header_ok, UTP_Version, pf_type, pf_version.
  by rewrite Ht, He.
Qed.

Lemma carried_wire ack p bs : plain_header (pk_hdr p) -> carried_by ack p bs -> wire bs.
Proof.
  intros Hv (h & Hl & _ & ->). exists h, (pk_body p). split; [done|]. left. by eapply like_plain.
Qed.

Lemma carried_both ack p bs :
  plain_header (pk_hdr p) -> carried_by ack p bs -> carried_by ack p bs /\ wire bs.
Proof. intros Hv Hc. split; [exact Hc|exact (carried_wire ack p bs Hv Hc)]. Qed.

(** the packet after one more transmission *)
Record resent (p p' : OutgoingPacket) : Prop := {
  rs_payload : pk_payload p' = pk_payload p;
  rs_body : pk_body p' = pk_body p;
  rs_length : pk_length p' = pk_length p;
  rs_trans : pk_transmissions p' = pk_transmissions p + 1;
  rs_need : pk_need_resend p' = false;
  rs_like : like (pk_hdr p') (pk_hdr p);
  rs_time : 0 <= pk_time_sent p' < 9223372036854775808;
}.

Lemma resent_ok n p p' : pkt_ok n p -> resent p p' -> pkt_ok (n + 1) p'.
Proof.
  intros [] []. rewrite <- (rs_payload0), <- rs_body0 in *. split; rewrite ?rs_need0; cbn [b2z];
    try congruence; try lia; [destruct (pk_need_resend p); cbn [b2z] in *; lia|].
  by eapply like_plain.
Qed.

(** a packet that was not in flight had been counted already *)
Lemma resent_idle n p p' :
  pkt_ok n p -> 1 <= n -> in_flight p = false -> resent p p' -> pkt_ok n p'.
Proof.
  intros Hp Hn Hf Hr. destruct (resent_ok n p p' Hp Hr) as [? ? ? ? _ ? ?]. split; try done.
  destruct Hp, Hr. rewrite rs_need0, rs_trans0. cbn [b2z]. unfold in_flight in Hf.
  destruct (Z.eqb_spec (pk_transmissions p) 0); [lia|].
  destruct (pk_need_resend p); cbn in *; [lia|done].
Qed.

Lemma resent_bytes p p' n :
  pkt_ok n p -> resent p p' -> slot_bytes (Some p') = pk_payload p.
Proof.
  intros [] []. cbn. unfold in_flight. rewrite rs_need0, rs_trans0.
  destruct (Z.eqb_spec (pk_transmissions p + 1) 0); [lia|done].
Qed.

(** the queue after the packet [j] places before its end was sent *)
Definition sent_queue q (j : Z) (p' : OutgoingPacket) : SendQueue :=
  set_slot q j (Some p') (cur_window q - slot_bytes (slot q j) + slot_bytes (Some p')).

Lemma sent_queue_ok n n' q j p' :
  sq_ok n q -> n <= n' -> 0 <= j < cur_window_packets q -> pkt_ok n' p' ->
  sq_ok n' (sent_queue q j p').
Proof.
  intros Hq Hn Hj Hp. unfold sent_queue. apply set_slot_ok; [|done|].
  - by eapply sq_ok_mono.
  - by intros x [= <-].
Qed.

Lemma ring_put_put {A} (r : SizableCircularBuffer A) i d d' :
  ring_put (ring_put r i d) i d' = ring_put r i d'.
Proof. unfold ring_put. cbn. by rewrite list_insert_insert_eq. Qed.

(** what sending may change of the socket, besides the queue *)
Definition sent_sock c q' m' (t : Z) : UTPSocket :=
  c <| sq := q' |> <| mt := m' |> <| last_sent_packet := t |>.

Lemma wp_transmit i j p0 p probe n (Q : unit -> St -> Prop) c y q :
  sys_ok (this c) y -> sq_ok n q -> n + 1 < 2147483648 -> 0 <= j < cur_window_packets q ->
  same_place (outbuf q) i (seq_nr q - j - 1) -> slot q j = Some p0 -> pkt_ok n p0 ->
  pk_payload p = pk_payload p0 -> pk_body p = pk_body p0 -> pk_length p = pk_length p0 ->
  pk_transmissions p = pk_transmissions p0 -> pk_need_resend p = false ->
  0 <= pk_time_sent p < 9223372036854775808 ->
  like (pk_hdr p) (pk_hdr p0) ->
  sq c = set_slot q j (Some p) (cur_window q - slot_bytes (slot q j) + pk_payload p0) ->
  (forall p' y', resent p0 p' ->
     sys_next (sends_only (carried_by (pf_ack_nr (pk_hdr p)) p0)) y y' ->
     emitted (this c) (carried_by (pf_ack_nr (pk_hdr p)) p0) y y' ->
     Q tt (mkSt (sent_sock c (sent_queue q j p') (mt c) (current_ms (ctx y))) y')) ->
  wp F (transmit_packet i probe) Q (mkSt c y).
Proof.
  intros Hok Hq Hn Hj Hi Hp0 Hpk E1 E2 E3 E4 E5 E8 E6 Esq H.
  pose proof (so_ring _ _ Hq) as Hwf. pose proof (so_mask _ _ Hq) as Hmask.
  pose proof (so_fits _ _ Hq) as Hfits. pose proof (pkt_trans_le _ _ Hpk) as Htr. destruct Hpk.
  unfold transmit_packet, get_pkt, put_pkt. wp_steps. rewrite Esq.
  assert (Hslot : ring_get (outbuf (set_slot q j (Some p)
      (cur_window q - slot_bytes (slot q j) + pk_payload p0))) i = Some p).
  { destruct q. cbn in *. rewrite (ring_get_place _ i (seq_nr - j - 1)) by exact Hi.
    by apply ring_get_put_eq. }
  rewrite Hslot. wp_steps.
  apply (wp_send_data_D (carried_by (pf_ack_nr (pk_hdr p)) p0)); [by destruct c| |].
  { intros time. apply (carried_both _ _ _ po_header). eexists. split; [|split]; cycle 2.
    - rewrite take_ge; [by rewrite <- E2|]. rewrite length_app, encode_header_length.
      destruct p. cbn in *. unfold get_header_size, sizeof_PacketFormatV1 in *. subst. lia.
    - destruct E6. unfold stamped. destruct p as [? ? ? ? ? [] ?]. by split.
    - unfold stamped. by destruct p as [? ? ? ? ? [] ?]. }
  intros time y' Hy' He _ _. unfold stamped. wp_steps.
  set (p' := p <| pk_transmissions ::= _ |> <| pk_hdr := _ |>).
  assert (Hres : resent p0 p').
  { unfold p'. destruct E6. destruct p as [? ? ? ? ? h ?], h. cbn in *. split; cbn; try done.
    rewrite Z.mod_small; lia. }
  specialize (H p' y' Hres Hy' He).
  replace (mkSt _ y') with (mkSt (sent_sock c (sent_queue q j p') (mt c) (current_ms (ctx y))) y');
    [exact H|].
  f_equal. unfold sent_sock, sent_queue, set_slot.
  rewrite (resent_bytes p0 p' n) by (done || by split).
  destruct c, q. cbn in *. subst. cbn.
  rewrite !(ring_put_place _ i (seq_nr - j - 1)) by exact Hi.
  by rewrite !ring_put_put.
Qed.

Lemma mtu_probe_ok m s len :
  mtu_ok m -> mtu_floor m < len <= mtu_ceiling m ->
  mtu_ok (m <| mtu_probe_seq := s |> <| mtu_probe_size := u32 len |>).
Proof.
  intros [] Hl. rewrite u32_small by (unfold is_u32; lia).
  destruct m. cbn in *. split; cbn; lia.
Qed.

Lemma ring_get_slot q i j :
  same_place (outbuf q) i (seq_nr q - j - 1) -> ring_get (outbuf q) i = slot q j.
Proof. apply ring_get_place. Qed.

(** sequence numbers modulo 2^16 name places *)
Lemma place_u16 n q i j :
  sq_ok n q -> u16 i = u16 j -> same_place (outbuf q) i j.
Proof. intros []. apply same_place_u16; [done|lia]. Qed.

(** the bookkeeping before the transmission *)
Lemma wp_stamp i j p time n (Q : unit -> St -> Prop) c y :
  sq_ok n (sq c) -> 0 <= j < cur_window_packets (sq c) ->
  same_place (outbuf (sq c)) i (seq_nr (sq c) - j - 1) -> slot (sq c) j = Some p ->
  (let p1 := p <| pk_need_resend := false |>
               <| pk_hdr ::= fun h => h <| pf_ack_nr := ack_nr (rq c) |> |>
               <| pk_time_sent := time |> in
   Q tt (mkSt (c <| sq := set_slot (sq c) j (Some p1)
                   (cur_window (sq c) - slot_bytes (slot (sq c) j) + pk_payload p) |>) y)) ->
  wp F (stamp_packet i p time) Q (mkSt c y).
Proof.
  intros Hq Hj Hi Hp H. pose proof (so_ring _ _ Hq) as Hwf. pose proof (so_mask _ _ Hq) as Hm.
  destruct (so_pkts _ _ Hq j p Hj Hp) as [Hpl _ _ Ht _ Hnr].
  pose proof (cur_window_bounds _ _ Hq) as Hw. unfold max_payload in *.
  pose proof (slot_le_window _ _ j Hq Hj) as Hle. rewrite Hp in *.
  unfold stamp_packet, put_pkt. wp_steps.
  assert (Hb : slot_bytes (Some p)
    = if (pk_transmissions p =? 0) || pk_need_resend p then 0 else pk_payload p).
  { cbn. unfold in_flight. by destruct (pk_transmissions p =? 0), (pk_need_resend p). }
  rewrite Hb in *. apply wp_when; intros Ec; rewrite Ec in *; wp_steps.
  - cbn zeta in H. match goal with |- Q tt (mkSt ?c1 _) =>
      match type of H with Q tt (mkSt ?c2 _) => replace c1 with c2; [exact H|] end end.
    unfold set_slot. destruct c, sq. cbn in *. rewrite u64_small by (unfold is_u64; lia).
    rewrite !(ring_put_place _ i (seq_nr - j - 1)) by exact Hi.
    by replace (cur_window - 0) with cur_window by lia.
  - cbn zeta in H. match goal with |- Q tt (mkSt ?c1 _) =>
      match type of H with Q tt (mkSt ?c2 _) => replace c1 with c2; [exact H|] end end.
    unfold set_slot. destruct c, sq. cbn in *.
    rewrite !(ring_put_place _ i (seq_nr - j - 1)) by exact Hi.
    by replace (cur_window - pk_payload p + pk_payload p) with cur_window by lia.
Qed.

(** the time-driven restart of MTU discovery *)
Lemma wp_maybe_reset {HA : GoodApp} R (HR : forall r, silent r -> R r) (b : bool)
    (Q : unit -> St -> Prop) c y :
  mtu_ok (mt c) -> has_callback (ctx y) UTP_GET_UDP_MTU = true ->
  (forall m' y', mtu_ok m' -> mtu_last m' = mtu_last (mt c) -> sys_next R y y' ->
     Q tt (mkSt (c <| mt := m' |>) y')) ->
  wp F (when b mtu_reset) Q (mkSt c y).
Proof.
  intros Hm Hcb H. apply wp_when; intros _.
  - apply (wp_mtu_reset_R F R HR); [done..|]. intros u t y' Hy Hu Hmin _.
    apply H; [by apply set_discover_ok, reset_range_ok|by destruct (mt c)|done].
  - replace (mkSt c y) with (mkSt (c <| mt := mt c |>) y) by by destruct c.
    apply H; [done..|apply sys_next_refl].
Qed.

Lemma wp_start_probe p (Q : unit -> St -> Prop) c y :
  is_probe c p = true -> mtu_ok (mt c) ->
  (forall m', mtu_ok m' -> mtu_last m' = mtu_last (mt c) -> Q tt (mkSt (c <| mt := m' |>) y)) ->
  wp F (start_probe p) Q (mkSt c y).
Proof.
  intros Hp Hm H. unfold is_probe in Hp. rewrite !andb_true_iff in Hp.
  destruct Hp as [[[[[_ H1%Z.ltb_lt] H2%Z.leb_le] _] _] _].
  unfold start_probe. wp_steps.
  apply wp_assert; [intros _|destruct c, mt; cbn in *; intros ?%Z.leb_gt; lia].
  apply wp_assert; [intros _|destruct c, mt; cbn in *; intros ?%Z.leb_gt; lia].
  set (s := Z.land _ _). specialize (H _ (mtu_probe_ok _ s (pk_length p) Hm (conj H1 H2))).
  destruct c, mt. by apply H.
Qed.

(** Sending a queued packet: no assertion fails; the packet is transmitted
    once more and counts as in flight; nothing else in the queue changes; and the
    datagrams sent carry it. *)
Lemma wp_send_packet {HA : GoodApp} i j p n (Q : unit -> St -> Prop) c y :
  sys_ok (this c) y -> sq_ok n (sq c) -> mtu_ok (mt c) -> n + 1 < 2147483648 ->
  0 <= j < cur_window_packets (sq c) -> same_place (outbuf (sq c)) i (seq_nr (sq c) - j - 1) ->
  slot (sq c) j = Some p ->
  (forall p' m' y', resent p p' -> mtu_ok m' -> mtu_last m' = mtu_last (mt c) ->
     sys_next (sends_only (carried_by (ack_nr (rq c)) p)) y y' ->
     emitted (this c) (carried_by (ack_nr (rq c)) p) y y' ->
     Q tt (mkSt (sent_sock c (sent_queue (sq c) j p') m' (current_ms (ctx y))) y')) ->
  wp F (send_packet i) Q (mkSt c y).
Proof.
  intros Hok Hq Hm Hn Hj Hi Hp H. pose proof (so_pkts _ _ Hq j p Hj Hp) as Hpk.
  set (R := sends_only (carried_by (ack_nr (rq c)) p)) in *.
  assert (HR : forall r, silent r -> R r) by (intros r; apply silent_sends).
  unfold send_packet. wp_steps. apply (wp_call F R); [split; [by apply HR|done]|]. intros cur y1 H1 _.
  cbn [me put_sys HasSys_St]. unfold get_pkt. wp_steps.
  rewrite (ring_get_slot _ _ j) by done. rewrite Hp. wp_steps.
  apply (wp_micros_R F R HR). intros time y2 H2 Ht. cbn [me put_sys HasSys_St].
  assert (H12 : sys_next R y y2) by by eapply sys_next_trans.
  wp_steps. apply (wp_stamp i j p time n); [done..|]. cbn zeta.
  set (p1 := p <| pk_need_resend := false |> <| pk_hdr ::= _ |> <| pk_time_sent := time |>).
  set (q1 := set_slot _ _ _ _). wp_steps.
  apply (wp_maybe_reset R HR); [by destruct c|by eapply sys_next_ok|]. intros m1 y3 Hm1 Hl1 H3.
  replace (mtu_last (mt (c <| sq := q1 |>))) with (mtu_last (mt c)) in Hl1 by by destruct c.
  assert (H13 : sys_next R y y3) by by eapply sys_next_trans.
  assert (Hlast : forall b m2, mtu_ok m2 -> mtu_last m2 = mtu_last (mt c) ->
    wp F (transmit_packet i b) Q (mkSt ((c <| sq := q1 |>) <| mt := m2 |>) y3)).
  { intros b m2 Hm2 Hl2. apply (wp_transmit i j p p1 b n Q _ y3 (sq c)); try done; try by destruct c.
    - eapply sys_next_ok; [done|]. by destruct c.
    - assert (Ea : pf_ack_nr (pk_hdr p1) = ack_nr (rq c)) by (unfold p1; by destruct p as [? ? ? ? ? [] ?]).
      rewrite Ea. intros p' y4 Hres H4 He. rewrite (sys_next_ms _ _ _ H13).
      assert (H04 : sys_next R y y4) by by eapply sys_next_trans.
      assert (He4 : emitted (this c) (carried_by (ack_nr (rq c)) p) y y4).
      { eapply called_before; [exact H13|]. by destruct c. }
      specialize (H p' m2 y4 Hres Hm2 Hl2 H04 He4). by destruct c. }
  wp_steps. apply wp_when; intros Hpr.
  - apply wp_start_probe; [done|by destruct c|]. intros m2 Hm2 Hl2.
    specialize (Hlast true m2 Hm2 ltac:(rewrite <- Hl1, Hl2; by destruct c)). rewrite Hpr. by destruct c.
  - rewrite Hpr. by apply Hlast.
Qed.
End Wp.
