(* ===== verification/Flush.v ===== *)
(** * Flushing the send queue

    is_full and flush_packets of src/utp_internal.cpp: the loop over the queue
    ends, sends only what the window has room for, and when it does not stop for
    lack of room everything but a partly filled last packet is in flight. *)
From S2P Require Import Prelude Wrap Packet Ring Arrays SockAddr Context AckList Socket Frame MtuSearch Send SendQueue SendInv.

(** ** Packets and queues that only progressed *)

Record kept (p p' : OutgoingPacket) : Prop := {
  kp_payload : pk_payload p' = pk_payload p;
  kp_body : pk_body p' = pk_body p;
  kp_like : like (pk_hdr p') (pk_hdr p);
  kp_trans : pk_transmissions p <= pk_transmissions p';
  kp_need : pk_need_resend p = false -> pk_need_resend p' = false;
}.

Definition slot_kept (o o' : option OutgoingPacket) : Prop :=
  match o, o' with
  | Some p, Some p' => kept p p'
  | None, None => True
  | _, _ => False
  end.

Record queue_kept (q q' : SendQueue) : Prop := {
  qk_count : cur_window_packets q' = cur_window_packets q;
  qk_seq : seq_nr q' = seq_nr q;
  qk_slots : forall j, 0 <= j < cur_window_packets q -> slot_kept (slot q j) (slot q' j);
}.

Lemma kept_refl p : kept p p.
Proof. by split. Qed.
Lemma kept_trans p1 p2 p3 : kept p1 p2 -> kept p2 p3 -> kept p1 p3.
Proof. intros [] []. split; (congruence || lia || eauto using like_trans). Qed.
Lemma slot_kept_refl o : slot_kept o o.
Proof. by destruct o; cbn; try apply kept_refl. Qed.
Lemma slot_kept_trans o1 o2 o3 : slot_kept o1 o2 -> slot_kept o2 o3 -> slot_kept o1 o3.
Proof. destruct o1, o2, o3; cbn; try done. apply kept_trans. Qed.

Lemma queue_kept_refl q : queue_kept q q.
Proof. split; auto using slot_kept_refl. Qed.
Lemma queue_kept_trans q1 q2 q3 : queue_kept q1 q2 -> queue_kept q2 q3 -> queue_kept q1 q3.
Proof.
  intros [C1 S1 K1] [C2 S2 K2]. split; [congruence..|].
  intros j Hj. eapply slot_kept_trans; [by apply K1|]. apply K2. by rewrite C1.
Qed.

Lemma kept_front q q' : queue_kept q q' -> front_ok q -> front_ok q'.
Proof.
  intros [C S K] Hf Hc. rewrite C in *. specialize (K (cur_window_packets q - 1) ltac:(lia)).
  specialize (Hf Hc). destruct (slot q _); [|done]. by destruct (slot q' _).
Qed.

Lemma resent_kept n p p' : pkt_ok n p -> resent p p' -> kept p p'.
Proof. intros [] []. split; (done || lia || auto). Qed.

(** a datagram that carries a packet of the queue that was sent *)
Definition carries (q : SendQueue) (ack : Z) (bs : list Z) : Prop :=
  exists j p, 0 <= j < cur_window_packets q /\ slot q j = Some p /\
    0 < pk_transmissions p /\ carried_by ack p bs.

Lemma carried_kept ack p p' bs : kept p p' -> carried_by ack p bs -> carried_by ack p' bs.
Proof.
  intros Hk (h & Hl & Ha & ->). destruct Hk. exists h. split; [|by rewrite kp_body0].
  eapply like_trans; [exact Hl|]. by apply like_sym.
Qed.

Lemma carries_kept q q' ack bs : queue_kept q q' -> carries q ack bs -> carries q' ack bs.
Proof.
  intros [C S K] (j & p & Hj & Hp & Ht & Hc). specialize (K j Hj). rewrite Hp in K.
  destruct (slot q' j) as [p'|] eqn:Hp'; [|done]. exists j, p'. split; [lia|]. split; [done|].
  split; [destruct K; lia|]. exact (carried_kept ack p p' bs K Hc).
Qed.

Lemma kept_in_flight n p p' :
  pkt_ok n p -> kept p p' -> in_flight p = true -> in_flight p' = true.
Proof.
  intros [] []. unfold in_flight. rewrite !andb_true_iff, !negb_true_iff, !Z.eqb_neq.
  intros [? ?]. split; [lia|auto].
Qed.

Lemma resent_in_flight n p p' : pkt_ok n p -> resent p p' -> in_flight p' = true.
Proof.
  intros [] []. unfold in_flight. rewrite rs_need, andb_true_r. apply negb_true_iff, Z.eqb_neq. lia.
Qed.

Lemma sent_queue_slots n q j p' k :
  sq_ok n q -> 0 <= j < cur_window_packets q -> 0 <= k < cur_window_packets q ->
  slot (sent_queue q j p') k = if decide (k = j) then Some p' else slot q k.
Proof. intros [] Hj Hk. apply slot_set; [done|lia|lia]. Qed.

Lemma sent_queue_kept n q j p p' :
  sq_ok n q -> 0 <= j < cur_window_packets q -> slot q j = Some p -> resent p p' ->
  queue_kept q (sent_queue q j p').
Proof.
  intros Hq Hj Hp Hr. split; [by destruct q..|]. intros k Hk.
  rewrite (sent_queue_slots n) by done. case_decide; [subst|apply slot_kept_refl].
  rewrite Hp. cbn. eapply resent_kept; [by eapply so_pkts|done].
Qed.

(** ** What flushing does to the socket and the context *)
Record sends (n' : Z) (s s' : St) : Prop := {
  sd_me : exists q m t w, me s' = (sent_sock (me s) q m t) <| wn := w |>;
  sd_wn : (wn (me s')) <| last_maxed_out_window := last_maxed_out_window (wn (me s)) |>
          = wn (me s);
  sd_sq : sq_ok n' (sq (me s'));
  sd_mt : mtu_ok (mt (me s'));
  sd_kept : queue_kept (sq (me s)) (sq (me s'));
  sd_sys : sys_next quiet (st_sys s) (st_sys s');
  sd_sent : sys_next (sends_only (carries (sq (me s')) (ack_nr (rq (me s))))) (st_sys s) (st_sys s');
}.

Lemma sends_rq n s s' : sends n s s' -> rq (me s') = rq (me s).
Proof. intros [(q & m & t & w & ->) _ _ _ _ _]. by destruct (me s). Qed.

Lemma sends_refl n s : sq_ok n (sq (me s)) -> mtu_ok (mt (me s)) -> sends n s s.
Proof.
  intros Hq Hm. split; auto using queue_kept_refl, sys_next_refl.
  - exists (sq (me s)), (mt (me s)), (last_sent_packet (me s)), (wn (me s)). by destruct s as [[] ?].
  - by destruct s as [[] ?]; cbn; destruct wn.
Qed.

Lemma sends_trans n1 n2 s1 s2 s3 : sends n1 s1 s2 -> sends n2 s2 s3 -> sends n2 s1 s3.
Proof.
  intros H1 H2. pose proof (sends_rq _ _ _ H1) as Er.
  destruct H1 as [(q1 & m1 & t1 & w1 & E1) W1 _ _ K1 Y1 Z1], H2 as [(q2 & m2 & t2 & w2 & E2) W2 Q2 M2 K2 Y2 Z2].
  split; try done.
  - exists q2, m2, t2, w2. rewrite E2, E1. by destruct (me s1).
  - rewrite <- W1, <- W2. by destruct (wn (me s3)), (wn (me s2)), (wn (me s1)).
  - by eapply queue_kept_trans.
  - by eapply sys_next_trans.
  - rewrite Er in Z2. eapply sys_next_trans; [|exact Z2]. eapply sys_next_carry; [|exact Z1].
    intros bs. by apply carries_kept.
Qed.

Lemma sends_this n s s' : sends n s s' -> this (me s') = this (me s).
Proof. intros [(q & m & t & w & ->) _ _ _ _ _ _]. by destruct (me s). Qed.

(** ** The window *)
Lemma packet_size_range c : mtu_ok (mt c) -> 1 <= get_packet_size c <= 65536.
Proof.
  intros []. unfold get_packet_size, get_header_size, sizeof_PacketFormatV1.
  destruct (Z.eqb_spec (mtu_last (mt c)) 0); [lia|].
  rewrite u64_small by (unfold is_u64; lia). lia.
Qed.

Lemma packet_size_last c c' :
  mtu_ok (mt c) -> mtu_ok (mt c') -> mtu_last (mt c') = mtu_last (mt c) ->
  get_packet_size c' = get_packet_size c.
Proof.
  intros Hm Hm' Hl. unfold get_packet_size. rewrite Hl. pose proof (mo_last _ Hm).
  destruct (Z.eqb_spec (mtu_last (mt c)) 0); [lia|done].
Qed.

Lemma slot_bytes_nonneg n p : pkt_ok n p -> 0 <= slot_bytes (Some p).
Proof. intros []. cbn. destruct (in_flight p); lia. Qed.

(** when is_full says no, a packet of the current size fits *)
Lemma window_room n c :
  sq_ok n (sq c) -> mtu_ok (mt c) -> window_full c (-1) = false ->
  cur_window (sq c) + get_packet_size c <= max_send c.
Proof.
  intros Hq Hm. pose proof (packet_size_range c Hm) as Hp.
  pose proof (cur_window_bounds _ _ Hq) as Hw. unfold max_payload in Hw.
  unfold window_full, full_bytes. rewrite (i32_small (get_packet_size c)) by (unfold is_i32; lia).
  change (-1 <? 0) with true. cbn iota. rewrite u64_small by (unfold is_u64; lia).
  intros [_ H%Z.ltb_ge]%orb_false_iff. lia.
Qed.

Lemma window_full_maxed c w b :
  w <| last_maxed_out_window := last_maxed_out_window (wn c) |> = wn c ->
  window_full (c <| wn := w |>) b = window_full c b.
Proof. intros Hw. destruct c, w, wn. cbn in *. injection Hw. intros. by subst. Qed.

Lemma max_send_maxed c c' :
  (wn c') <| last_maxed_out_window := last_maxed_out_window (wn c) |> = wn c -> max_send c' = max_send c.
Proof. intros Hw. unfold max_send. destruct (wn c'), (wn c). injection Hw. by intros; subst. Qed.

(** no queued packet carries more than [M] bytes *)
Definition fits (M : Z) (q : SendQueue) : Prop :=
  forall j p, 0 <= j < cur_window_packets q -> slot q j = Some p -> pk_payload p <= M.

Lemma fits_kept M q q' : queue_kept q q' -> fits M q -> fits M q'.
Proof.
  intros [C S K] Hf j p' Hj Hp'. rewrite C in Hj. specialize (K j Hj). rewrite Hp' in K.
  destruct (slot q j) as [p|] eqn:Hp; [|done]. rewrite (kp_payload _ _ K). by eapply Hf.
Qed.

(** Sending keeps to the window: with packets of at most [M] bytes, the bytes in
    flight exceed the window only by what a packet exceeds the packet size. *)
Record paced (M : Z) (c c' : UTPSocket) : Prop := {
  pc_size : get_packet_size c' = get_packet_size c;
  pc_limit : max_send c' = max_send c;
  pc_window : fits M (sq c) -> fits M (sq c') /\
    cur_window (sq c') <= Z.max (cur_window (sq c)) (max_send c + M - get_packet_size c);
}.

Lemma paced_refl M c : paced M c c.
Proof. split; [done..|]. intros Hf. split; [done|lia]. Qed.

Lemma paced_trans M c1 c2 c3 : paced M c1 c2 -> paced M c2 c3 -> paced M c1 c3.
Proof.
  intros [S1 L1 W1] [S2 L2 W2]. split; [congruence..|]. intros [F2 B2]%W1.
  destruct (W2 F2) as [F3 B3]. split; [done|]. rewrite S1, L1 in B3. lia.
Qed.

(** a packet the loop passes over is in flight, one it stops at is not *)
Lemma sent_flies p : (0 <? pk_transmissions p) && negb (pk_need_resend p) = true -> in_flight p = true.
Proof.
  intros [Ht%Z.ltb_lt Hnr]%andb_true_iff. unfold in_flight.
  rewrite Hnr, andb_true_r. apply negb_true_iff, Z.eqb_neq. lia.
Qed.

Lemma unsent_idle n p :
  pkt_ok n p -> (0 <? pk_transmissions p) && negb (pk_need_resend p) = false -> in_flight p = false.
Proof.
  intros Hp Hfl. unfold in_flight. destruct (Z.ltb_spec 0 (pk_transmissions p)); cbn in Hfl |- *.
  - by rewrite Hfl, andb_false_r.
  - pose proof (po_trans _ _ Hp). by replace (pk_transmissions p) with 0 by lia.
Qed.

Section Wp.
Context {E : Env} {HA : GoodApp} (F : fault -> Prop).

Lemma wp_is_full b (Q : bool -> St -> Prop) c y :
  (forall w, let full := window_full c b in
     w <| last_maxed_out_window := last_maxed_out_window (wn c) |> = wn c ->
     Q full (mkSt (c <| wn := w |>) y)) ->
  wp F (is_full b) Q (mkSt c y).
Proof.
  intros H. unfold is_full. wp_steps. apply wp_when; intros Ef; wp_steps; cbn zeta in H.
  - specialize (H ((wn c) <| last_maxed_out_window := current_ms (ctx y) |>)).
    destruct c, wn. cbn in *. by apply H.
  - specialize (H (wn c)). destruct c, wn. cbn in *. by apply H.
Qed.

Lemma send_sends n' i j p n c y (Q : unit -> St -> Prop) :
  sys_ok (this c) y -> sq_ok n (sq c) -> mtu_ok (mt c) -> n + 1 < 2147483648 ->
  n <= n' -> (forall p', resent p p' -> pkt_ok n' p') ->
  0 <= j < cur_window_packets (sq c) -> same_place (outbuf (sq c)) i (seq_nr (sq c) - j - 1) ->
  slot (sq c) j = Some p ->
  (forall s', sends n' (mkSt c y) s' ->
     (exists p', slot (sq (me s')) j = Some p' /\ resent p p') ->
     emitted (this c) (carried_by (ack_nr (rq c)) p) y (st_sys s') ->
     (forall k, 0 <= k < cur_window_packets (sq c) -> k <> j ->
        slot (sq (me s')) k = slot (sq c) k) ->
     get_packet_size (me s') = get_packet_size c /\
       cur_window (sq (me s')) <= cur_window (sq c) + pk_payload p -> Q tt s') ->
  wp F (send_packet i) Q (mkSt c y).
Proof.
  intros Hok Hq Hm Hn Hn1 Hn2 Hj Hi Hp H. apply (wp_send_packet F i j p n); try done.
  intros p' m' y' Hr Hm' Hlast Hy He.
  assert (Eq : sq (sent_sock c (sent_queue (sq c) j p') m' (current_ms (ctx y))) = sent_queue (sq c) j p')
    by by destruct c.
  assert (Hs' : slot (sent_queue (sq c) j p') j = Some p')
    by by rewrite (sent_queue_slots n), decide_True by done.
  pose proof (so_pkts _ _ Hq j p Hj Hp) as Hpk. apply H.
  - split; cbn [me st_sys].
    + exists (sent_queue (sq c) j p'), m', (current_ms (ctx y)), (wn c). by destruct c.
    + by destruct c, wn.
    + destruct c. apply (sent_queue_ok n); auto.
    + by destruct c.
    + destruct c. by eapply sent_queue_kept.
    + by eapply sys_next_quiet.
    + rewrite Eq. eapply sys_next_carry; [|exact Hy]. intros bs Hbs. exists j, p'.
      split; [by destruct (sq c)|]. split; [done|]. pose proof (po_trans _ _ Hpk).
      split; [rewrite (rs_trans _ _ Hr); lia|]. exact (carried_kept _ p p' bs (resent_kept n p p' Hpk Hr) Hbs).
  - exists p'. split; [|done]. cbn [me]. unfold sent_sock.
    replace (sq _) with (sent_queue (sq c) j p') by by destruct c.
    by rewrite (sent_queue_slots n), decide_True by done.
  - exact He.
  - intros k Hk Hne. cbn [me]. unfold sent_sock.
    replace (sq _) with (sent_queue (sq c) j p') by by destruct c.
    by rewrite (sent_queue_slots n), decide_False by done.
  - cbn [me]. split.
    + apply packet_size_last; [done|by destruct c|by destruct c].
    + replace (sq _) with (sent_queue (sq c) j p') by by destruct c. unfold sent_queue.
      rewrite Hp, (resent_bytes p p' n Hpk Hr). pose proof (slot_bytes_nonneg n p Hpk).
      destruct (sq c). cbn in *. lia.
Qed.

(** what holds of the [k] newest packets when the loop did not run out of room *)
Definition settled (ps : Z) (q : SendQueue) (j : Z) (p : OutgoingPacket) : Prop :=
  in_flight p = true \/ (j = 0 /\ pk_payload p < ps /\ cur_window_packets q <> 1).

Definition flushed (packet_size : Z) (q : SendQueue) (k : Z) : Prop :=
  forall j p, 0 <= j < k -> slot q j = Some p -> settled packet_size q j p.

Lemma settled_kept ps n q q' j p p' :
  queue_kept q q' -> sq_ok n q -> 0 <= j < cur_window_packets q -> slot q j = Some p ->
  slot q' j = Some p' -> settled ps q j p -> settled ps q' j p'.
Proof.
  intros [Kc Ks Kk] Hq Hj Hp Hp' Hd. specialize (Kk j Hj). rewrite Hp, Hp' in Kk. cbn in Kk.
  destruct Hd as [Hd|(? & ? & ?)].
  - left. eapply kept_in_flight; [by eapply so_pkts|done|done].
  - right. rewrite Kc. split; [done|]. split; [|done]. by rewrite (kp_payload _ _ Kk).
Qed.

(** what the loop has done once it has dealt with the [k] newest packets *)
Record flush_done (n ps k : Z) (s : St) (full : bool) (s' : St) : Prop := {
  fd_sends : sends n s s';
  fd_flushed : full = false -> flushed ps (sq (me s')) k;
  fd_paced : forall M, paced M (me s) (me s');
}.

(** ... and with the packet before them *)
Lemma flush_done_next n ps k s s1 full s' :
  sends n s s1 -> (forall M, paced M (me s) (me s1)) -> 0 <= k < cur_window_packets (sq (me s1)) ->
  (forall p1, slot (sq (me s1)) k = Some p1 -> settled ps (sq (me s1)) k p1) ->
  flush_done n ps k s1 full s' -> flush_done n ps (k + 1) s full s'.
Proof.
  intros H1 P1 Hk Hset [H2 Hf P2]. split; [by eapply sends_trans| |intros M; by eapply paced_trans].
  intros Hr j p Hj Hp. destruct (Z.eq_dec j k) as [->|]; [|apply (Hf Hr); [lia|done]].
  pose proof (sd_kept _ _ _ H2) as K2. pose proof (qk_slots _ _ K2 k Hk) as Hsk. rewrite Hp in Hsk.
  destruct (slot (sq (me s1)) k) as [p1|] eqn:E1; [|done].
  eapply (settled_kept ps n (sq (me s1))); [done|apply H1|done|exact E1|done|by apply Hset].
Qed.

(** the number of the packet the loop is at *)
Lemma flush_index n q k :
  sq_ok n q -> 0 <= k < cur_window_packets q ->
  u16 (seq_nr q - (k + 1)) <> seq_nr q /\
  u16 (u16 (seq_nr q - (k + 1)) + 1) = u16 (seq_nr q - k) /\
  ring_get (outbuf q) (u16 (seq_nr q - (k + 1))) = slot q k /\
  same_place (outbuf q) (u16 (seq_nr q - (k + 1))) (seq_nr q - k - 1) /\
  (u16 (seq_nr q - (k + 1)) = Z.land (seq_nr q - 1) ACK_NR_MASK -> k = 0).
Proof.
  intros Hq Hk. pose proof (so_seq _ _ Hq) as Hs. pose proof (so_count _ _ Hq) as Hc.
  assert (Hidx : u16 (u16 (seq_nr q - (k + 1))) = u16 (seq_nr q - k - 1)) by word_lia.
  pose proof (place_u16 _ _ _ _ Hq Hidx) as Hpl. split_and!; [|word_lia|by apply ring_get_slot|done|].
  - intros Ee. revert Ee. word_lia.
  - unfold ACK_NR_MASK. rewrite land_ffff. intros He. revert He. clear -Hc Hk. word_lia.
Qed.

(** the window test of the loop: the socket differs in a time only *)
Lemma sends_maxed n c y w :
  sq_ok n (sq c) -> mtu_ok (mt c) ->
  w <| last_maxed_out_window := last_maxed_out_window (wn c) |> = wn c ->
  sends n (mkSt c y) (mkSt (c <| wn := w |>) y) /\ forall M, paced M c (c <| wn := w |>).
Proof.
  intros Hq Hm Hw. split.
  - split; cbn [me st_sys]; try (by destruct c); [| |apply sys_next_refl..].
    + exists (sq c), (mt c), (last_sent_packet c), w. by destruct c.
    + destruct c. apply queue_kept_refl.
  - intros M. split; [by destruct c|by apply max_send_maxed; destruct c|].
    intros Hf. split; [by destruct c|]. destruct c. cbn. lia.
Qed.

(** the loop sends a packet only if there is room for a full one *)
Lemma send_in_window n c y p j s1 M :
  sq_ok n (sq c) -> mtu_ok (mt c) -> 0 <= j < cur_window_packets (sq c) -> slot (sq c) j = Some p ->
  window_full c (-1) = false -> sends n (mkSt c y) s1 ->
  get_packet_size (me s1) = get_packet_size c /\
    cur_window (sq (me s1)) <= cur_window (sq c) + pk_payload p ->
  paced M c (me s1).
Proof.
  intros Hq Hm Hj Hp Hroom Hs [Hps Hcw]. pose proof (window_room _ _ Hq Hm Hroom) as Hr.
  split; [done| |].
  - apply max_send_maxed, (sd_wn _ _ _ Hs).
  - intros Hf. split; [by eapply fits_kept; [apply (sd_kept _ _ _ Hs)|]|].
    specialize (Hf j p Hj Hp). lia.
Qed.

Lemma wp_flush_loop (ps : Z) : forall (fuel : nat) c y n,
  sys_ok (this c) y -> sq_ok n (sq c) -> mtu_ok (mt c) ->
  Z.of_nat fuel <= cur_window_packets (sq c) -> 1 <= n -> n + 1 < 2147483648 ->
  wp F (flush_loop fuel ps (u16 (seq_nr (sq c) - Z.of_nat fuel)))
    (flush_done n ps (Z.of_nat fuel) (mkSt c y)) (mkSt c y).
Proof.
  induction fuel as [|fuel IH]; intros c y n Hok Hq Hm Hk Hn0 Hn; cbn [flush_loop]; wp_steps.
  { rewrite Z.sub_0_r, u16_small, Z.eqb_refl by apply Hq. wp_steps.
    split; [by apply sends_refl|by intros _ j p Hj; lia|intros M; apply paced_refl]. }
  set (k := Z.of_nat fuel) in *. assert (Hk1 : Z.of_nat (S fuel) = k + 1) by lia. rewrite Hk1 in *.
  destruct (flush_index n (sq c) k Hq ltac:(lia)) as (Hne & Hnext & Hget & Hpl & Hlast).
  apply Z.eqb_neq in Hne. rewrite Hne, Hnext, Hget.
  (* the rest of the loop, from a later state *)
  assert (Hrest : forall s1, sends n (mkSt c y) s1 -> (forall M, paced M c (me s1)) ->
    (forall p1, slot (sq (me s1)) k = Some p1 -> settled ps (sq (me s1)) k p1) ->
    wp F (flush_loop fuel ps (u16 (seq_nr (sq c) - k))) (flush_done n ps (k + 1) (mkSt c y)) s1).
  { intros s1 H1 P1 Hp1. pose proof (sends_this _ _ _ H1) as Hth.
    pose proof H1 as [_ _ Q1 M1 [C1 S1 K1] Y1 _]. cbn in *. rewrite <- S1. destruct s1 as [c1 y1]. cbn in *.
    eapply wp_mono.
    - apply (IH c1 y1 n); try done; try lia. rewrite Hth. by eapply sys_next_ok.
    - intros r s' H2. eapply flush_done_next; [exact H1|exact P1|cbn; lia|exact Hp1|exact H2]. }
  assert (Hsame : forall M, paced M c c) by (intros M; apply paced_refl).
  destruct (slot (sq c) k) as [p|] eqn:Hp.
  2: { apply Hrest; [by apply sends_refl|done|]. intros p1. cbn. by rewrite Hp. }
  destruct ((0 <? pk_transmissions p) && negb (pk_need_resend p)) eqn:Hfl.
  { apply Hrest; [by apply sends_refl|done|]. intros p1. cbn. rewrite Hp. intros [= <-].
    left. by apply sent_flies. }
  wp_steps. apply wp_is_full. intros w full Hw.
  destruct (sends_maxed n c y w Hq Hm Hw) as [Hs0 P0].
  destruct full eqn:Hfull; [wp_steps; by split|]. set (c1 := c <| wn := w |>) in *.
  assert (Hc1 : sq c1 = sq c /\ mt c1 = mt c /\ this c1 = this c) by by destruct c.
  destruct Hc1 as (Esq & Emt & Eth). wp_steps. apply wp_when; intros Hcond.
  - apply (send_sends n _ k p n); rewrite ?Esq, ?Emt, ?Eth; try done; try lia.
    { intros p'. apply resent_idle; [eapply (so_pkts _ _ Hq k p); [lia|done]|lia|].
      apply (unsent_idle n); [eapply (so_pkts _ _ Hq k p); [lia|done]|done]. }
    intros s1 H1 (p1 & Hp1 & Hres) _ _ Hwin. apply Hrest; [by eapply sends_trans| |].
    + intros M. eapply paced_trans; [apply P0|]. eapply (send_in_window n c1 y p k); rewrite ?Esq, ?Emt; try done; [lia|].
      unfold c1. by rewrite (window_full_maxed c w (-1) Hw).
    + intros p2. rewrite Hp1. intros [= <-]. left. eapply resent_in_flight; [|done].
      eapply (so_pkts _ _ Hq k); [lia|done].
  - apply Hrest; [done|exact P0|]. cbn [me]. rewrite Esq. intros p1. rewrite Hp. intros [= <-].
    right. rewrite !orb_false_iff, negb_false_iff in Hcond.
    destruct Hcond as [[Hl%Z.eqb_eq Hone%Z.eqb_neq] Hsize%Z.leb_gt]. split; [by apply Hlast|done].
Qed.

(** Flushing: it ends; unless the window is full, every queued packet is in
    flight afterwards, but for a last packet that is kept back to be filled. *)
Lemma wp_flush_packets c y n :
  sys_ok (this c) y -> sq_ok n (sq c) -> mtu_ok (mt c) -> 1 <= n -> n + 1 < 2147483648 ->
  wp F flush_packets
    (flush_done n (get_packet_size c) (cur_window_packets (sq c)) (mkSt c y)) (mkSt c y).
Proof.
  intros Hok Hq Hm Hn0 Hn. pose proof (so_count _ _ Hq) as Hc.
  unfold flush_packets. wp_steps.
  pose proof (wp_flush_loop (get_packet_size c) (Z.to_nat (cur_window_packets (sq c))) c y n
    Hok Hq Hm) as H. rewrite Z2Nat.id in H by lia. apply H; lia.
Qed.
End Wp.
