(* ===== verification/Streams.v ===== *)
(** * The byte stream behind a send queue

    The packets a socket ever queued are numbered from 0; [N] of them have been
    queued so far, and the packet [j] places before the end of the send queue is
    number [N - 1 - j].  [D] gives the bytes of each.  What the operations of
    src/utp_internal.cpp do to the queue is described against this numbering,
    which outlives the packets. *)
From S2P Require Import Prelude Wrap Packet Ring Arrays SockAddr Context AckList Socket Frame MtuSearch Send SendQueue SendInv Flush.

(** ** Bytes of a range of packets *)

(** the bytes of the packets [k .. k' - 1] *)
Definition stream_data (D : Z -> list Z) (k k' : Z) : list Z := concat (D <$> seqZ k (k' - k)).

Lemma stream_data_refl D k : stream_data D k k = [].
Proof. unfold stream_data. by rewrite Z.sub_diag. Qed.

Lemma stream_data_cons D k k' : k < k' -> stream_data D k k' = D k ++ stream_data D (k + 1) k'.
Proof.
  intros H. unfold stream_data. rewrite seqZ_cons by lia. cbn.
  by replace (Z.pred (k' - k)) with (k' - (k + 1)) by lia.
Qed.

Lemma stream_data_app D k1 k2 k3 :
  k1 <= k2 <= k3 -> stream_data D k1 k2 ++ stream_data D k2 k3 = stream_data D k1 k3.
Proof.
  intros H. unfold stream_data. replace (k3 - k1) with ((k2 - k1) + (k3 - k2)) by lia.
  rewrite seqZ_app by lia. rewrite fmap_app, concat_app.
  by replace (k1 + (k2 - k1)) with k2 by lia.
Qed.

Lemma stream_data_snoc D k k' :
  k < k' -> stream_data D k k' = stream_data D k (k' - 1) ++ D (k' - 1).
Proof.
  intros H. rewrite <- (stream_data_app D k (k' - 1) k') by lia. f_equal.
  rewrite stream_data_cons by lia. replace (k' - 1 + 1) with k' by lia.
  by rewrite stream_data_refl, app_nil_r.
Qed.

Lemma stream_data_ext D D' k k' :
  (forall o, k <= o < k' -> D' o = D o) -> stream_data D' k k' = stream_data D k k'.
Proof.
  intros H. unfold stream_data. f_equal. apply list_fmap_ext. intros i x Hx.
  apply list_elem_of_lookup_2, elem_of_seqZ in Hx. apply H. lia.
Qed.

(** ** Packets that stay *)

(** the same packet, possibly sent again or taken for lost *)
Record outlasts (p p' : OutgoingPacket) : Prop := {
  ol_body : pk_body p' = pk_body p;
  ol_like : like (pk_hdr p') (pk_hdr p);
  ol_trans : pk_transmissions p <= pk_transmissions p';
}.

Lemma outlasts_refl p : outlasts p p.
Proof. split; [done|apply like_refl|lia]. Qed.

Lemma outlasts_trans p1 p2 p3 : outlasts p1 p2 -> outlasts p2 p3 -> outlasts p1 p3.
Proof. intros [] []. split; [congruence|by eapply like_trans|lia]. Qed.

Lemma kept_outlasts p p' : kept p p' -> outlasts p p'.
Proof. by intros []. Qed.

(** every packet of [q'] is one of [q], at the same place *)
Record descends (q q' : SendQueue) : Prop := {
  de_seq : seq_nr q' = seq_nr q;
  de_count : cur_window_packets q' <= cur_window_packets q;
  de_left : forall j p', 0 <= j < cur_window_packets q' -> slot q' j = Some p' ->
    exists p, slot q j = Some p /\ outlasts p p';
}.

Lemma descends_refl q : descends q q.
Proof. split; [done|lia|]. intros j p' _ Hp. exists p'. split; [done|apply outlasts_refl]. Qed.

Lemma descends_trans q1 q2 q3 : descends q1 q2 -> descends q2 q3 -> descends q1 q3.
Proof.
  intros [S1 C1 L1] [S2 C2 L2]. split; [congruence|lia|]. intros j p3 Hj H3.
  destruct (L2 j p3 Hj H3) as (p2 & H2 & K2). destruct (L1 j p2 ltac:(lia) H2) as (p1 & H1 & K1).
  exists p1. split; [done|by eapply outlasts_trans].
Qed.

Lemma kept_descends q q' : queue_kept q q' -> descends q q'.
Proof.
  intros [C S K]. split; [done|lia|]. intros j p' Hj Hp'. rewrite C in Hj. specialize (K j Hj).
  rewrite Hp' in K. destruct (slot q j) as [p|]; [|done]. exists p. split; [done|by apply kept_outlasts].
Qed.

(** ... and none has left *)
Record unmoved (q q' : SendQueue) : Prop := {
  um_descends : descends q q';
  um_count : cur_window_packets q' = cur_window_packets q;
  um_stay : forall j p, 0 <= j < cur_window_packets q -> slot q j = Some p -> is_Some (slot q' j);
}.

Lemma unmoved_refl q : unmoved q q.
Proof. split; [apply descends_refl|done|by eauto]. Qed.

Lemma unmoved_trans q1 q2 q3 : unmoved q1 q2 -> unmoved q2 q3 -> unmoved q1 q3.
Proof.
  intros [D1 C1 S1] [D2 C2 S2]. split; [by eapply descends_trans|congruence|].
  intros j p Hj Hp. destruct (S1 j p Hj Hp) as [p2 Hp2]. apply (S2 j p2); [lia|done].
Qed.

Lemma kept_unmoved q q' : queue_kept q q' -> unmoved q q'.
Proof.
  intros HK. split; [by apply kept_descends|apply HK|]. intros j p Hj Hp.
  pose proof (qk_slots _ _ HK j Hj) as K. rewrite Hp in K. destruct (slot q' j); [by eexists|done].
Qed.

(** the datagram [bs] carries a packet of [q]; if the packet is in [q'], it counts as sent there *)
Definition ferries (q q' : SendQueue) (ack : Z) (bs : list Z) : Prop :=
  exists j p, 0 <= j < cur_window_packets q /\ slot q j = Some p /\ carried_by ack p bs /\
    forall p', j < cur_window_packets q' -> slot q' j = Some p' -> 0 < pk_transmissions p'.

Lemma ferries_before q1 q2 q3 ack bs :
  descends q2 q3 -> ferries q1 q2 ack bs -> ferries q1 q3 ack bs.
Proof.
  intros [_ C L] (j & p & Hj & Hp & Hc & Ht). exists j, p. split_and!; [lia..|done|done|].
  intros p3 Hj3 Hp3. destruct (L j p3 ltac:(lia) Hp3) as (p2 & Hp2 & K).
  specialize (Ht p2 ltac:(lia) Hp2). pose proof (ol_trans _ _ K). lia.
Qed.

Lemma carried_outlasts ack p p' bs : outlasts p p' -> carried_by ack p' bs -> carried_by ack p bs.
Proof.
  intros [Hb Hl _] (h & Hh & Ha & ->). exists h. split; [by eapply like_trans|]. by rewrite Hb.
Qed.

Lemma ferries_after q1 q2 q3 ack bs :
  descends q1 q2 -> ferries q2 q3 ack bs -> ferries q1 q3 ack bs.
Proof.
  intros [_ C L] (j & p2 & Hj & Hp2 & Hc & Ht). destruct (L j p2 Hj Hp2) as (p & Hp & K).
  exists j, p. split_and!; [lia..|done| |done]. by eapply carried_outlasts.
Qed.

Lemma carries_ferries q q' ack bs : queue_kept q q' -> carries q' ack bs -> ferries q q' ack bs.
Proof.
  intros HK (j & p & Hj & Hp & Ht & Hc). apply (ferries_after _ q'); [by apply kept_descends|].
  exists j, p. split_and!; [lia..|done|done|]. intros p'. rewrite Hp. by intros _ [= <-].
Qed.

(** ** The queue as the end of the stream *)

(** the queued packets carry their bytes of the stream *)
Definition on_stream (D : Z -> list Z) (N : Z) (q : SendQueue) : Prop :=
  forall j p, 0 <= j < cur_window_packets q -> slot q j = Some p -> pk_body p = D (N - 1 - j).

(** packet [o] is still queued *)
Definition waits (N : Z) (q : SendQueue) (o : Z) : Prop :=
  exists p, 0 <= N - 1 - o < cur_window_packets q /\ slot q (N - 1 - o) = Some p.

(** packet [o] was sent, or is gone: its bytes are final *)
Definition final (N : Z) (q : SendQueue) (o : Z) : Prop :=
  o < N /\ forall p, 0 <= N - 1 - o < cur_window_packets q -> slot q (N - 1 - o) = Some p ->
    0 < pk_transmissions p.

Lemma descends_stream D N q q' : descends q q' -> on_stream D N q -> on_stream D N q'.
Proof.
  intros [_ C L] HD j p' Hj Hp'. destruct (L j p' Hj Hp') as (p & Hp & K).
  rewrite (ol_body _ _ K). apply HD; [lia|done].
Qed.

Lemma descends_final N q q' o : descends q q' -> final N q o -> final N q' o.
Proof.
  intros [_ C L] [Ho Hf]. split; [done|]. intros p' Hj Hp'. destruct (L _ p' Hj Hp') as (p & Hp & K).
  specialize (Hf p ltac:(lia) Hp). pose proof (ol_trans _ _ K). lia.
Qed.

(** [bs] was appended to the stream, to packets that were not sent yet *)
Record streams (bs : list Z) (q q' : SendQueue) : Prop := {
  ss_count : cur_window_packets q <= cur_window_packets q';
  ss_waits : forall N o, waits N q o -> waits (N + cur_window_packets q' - cur_window_packets q) q' o;
  ss_new : forall N o, N <= o < N + cur_window_packets q' - cur_window_packets q ->
    waits (N + cur_window_packets q' - cur_window_packets q) q' o;
  ss_data : forall D N, 0 <= cur_window_packets q <= N -> on_stream D N q ->
    exists D', let N' := N + cur_window_packets q' - cur_window_packets q in
      on_stream D' N' q' /\ stream_data D' 0 N' = stream_data D 0 N ++ bs /\
      forall o, final N q o -> D' o = D o /\ final N' q' o;
}.

Lemma streams_kept q q' : queue_kept q q' -> streams [] q q'.
Proof.
  intros HK. pose proof HK as [C S K].
  assert (Hw : forall N o, waits N q o -> waits N q' o).
  { intros N o (p & Hj & Hp). specialize (K _ Hj). rewrite Hp in K.
    destruct (slot q' (N - 1 - o)) as [p'|] eqn:Hp'; [|done]. exists p'. by rewrite C. }
  split; rewrite C; [lia| |lia|].
  - intros N o Hwo. replace (N + _ - _) with N by lia. by apply Hw.
  - intros D N _ HD. exists D. replace (N + _ - _) with N by lia. split; [|split].
    + by eapply descends_stream; [apply kept_descends|].
    + by rewrite app_nil_r.
    + intros o Ho. split; [done|]. by eapply descends_final; [apply kept_descends|].
Qed.

Lemma streams_refl q : streams [] q q.
Proof. apply streams_kept, queue_kept_refl. Qed.

Lemma streams_trans b1 b2 q1 q2 q3 :
  streams b1 q1 q2 -> streams b2 q2 q3 -> streams (b1 ++ b2) q1 q3.
Proof.
  intros [C1 W1 N1 D1] [C2 W2 N2 D2].
  assert (EN : forall N, N + cur_window_packets q2 - cur_window_packets q1 +
    cur_window_packets q3 - cur_window_packets q2 = N + cur_window_packets q3 - cur_window_packets q1)
    by (intros; lia).
  split; [lia| | |].
  - intros N o Ho%W1%W2. by rewrite EN in Ho.
  - intros N o Ho. rewrite <- EN.
    destruct (Z.lt_ge_cases o (N + cur_window_packets q2 - cur_window_packets q1)).
    + apply W2, N1. lia.
    + apply N2. lia.
  - intros D N Hc HD. destruct (D1 D N Hc HD) as (D' & H1 & H2 & H3). cbn zeta in *.
    destruct (D2 D' (N + cur_window_packets q2 - cur_window_packets q1)) as (D'' & G1 & G2 & G3);
      [lia|done|]. cbn zeta in *. rewrite EN in *. exists D''. split; [done|]. split.
    + by rewrite G2, H2, (assoc_L (++)).
    + intros o Ho. destruct (H3 o Ho) as [E1 F1]. destruct (G3 o F1) as [E2 F2].
      split; [congruence|done].
Qed.

(** the last packet, never sent before, filled up *)
Lemma streams_last n q p p' w bs :
  sq_ok n q -> 0 < cur_window_packets q -> slot q 0 = Some p -> pk_transmissions p = 0 ->
  pk_body p' = pk_body p ++ bs -> streams bs q (set_slot q 0 (Some p') w).
Proof.
  intros Hq Hc Hp H0 Hb. pose proof (so_fits _ _ Hq) as Hfit. set (q' := set_slot q 0 (Some p') w).
  assert (Ec : cur_window_packets q' = cur_window_packets q) by by destruct q.
  assert (Es : forall j, 0 <= j < cur_window_packets q ->
    slot q' j = if decide (j = 0) then Some p' else slot q j)
    by (intros j Hj; apply slot_set; [apply Hq|lia|lia]).
  assert (EN : forall N, N + cur_window_packets q' - cur_window_packets q = N) by (intros; lia).
  split; [lia| |lia|].
  - intros N o (x & Hj & Hx). rewrite EN. unfold waits. rewrite Ec, Es by done.
    case_decide; eauto.
  - intros D N HcN HD. rewrite EN. exists (fun o => if decide (o = N - 1) then pk_body p' else D o). split; [|split].
    + intros j x Hj. rewrite Ec in Hj. rewrite Es by done. case_decide as Hj0.
      * intros [= <-]. by rewrite decide_True by lia.
      * intros Hx. rewrite decide_False by lia. by apply HD.
    + rewrite !(stream_data_snoc _ 0 N) by lia. rewrite decide_True by lia.
      rewrite Hb, (HD 0 p) by (lia || done). replace (N - 1 - 0) with (N - 1) by lia.
      rewrite (assoc_L (++)). do 2 f_equal. apply stream_data_ext. intros o Ho. by rewrite decide_False by lia.
    + intros o [Ho Hf]. assert (Hne : o <> N - 1).
      { intros ->. replace (N - 1 - (N - 1)) with 0 in Hf by lia. specialize (Hf p ltac:(lia) Hp). lia. }
      rewrite decide_False by done. split; [done|]. split; [done|]. intros x Hj.
      rewrite Ec in Hj. rewrite Es, decide_False by lia. by apply Hf.
Qed.

(** a packet added *)
Lemma streams_push n q p :
  sq_ok n q -> cur_window_packets q < 1024 -> streams (pk_body p) q (push_slot q p).
Proof.
  intros Hq Hc. destruct (push_slot_slots n q p Hq Hc) as (_ & _ & Ec & _ & E0 & Es & _).
  cbn zeta in *. set (q' := push_slot q p) in *.
  assert (EN : forall N, N + cur_window_packets q' - cur_window_packets q = N + 1) by (intros; lia).
  assert (Hold : forall N o, 0 <= N - 1 - o < cur_window_packets q ->
    slot q' (N + 1 - 1 - o) = slot q (N - 1 - o))
    by (intros N o Ho; replace (N + 1 - 1 - o) with (N - 1 - o + 1) by lia; by apply Es).
  split; [lia| | |].
  - intros N o (x & Hj & Hx). rewrite EN. exists x. rewrite Hold by done. split; [lia|done].
  - intros N o Ho. rewrite EN in *. exists p. replace (N + 1 - 1 - o) with 0 by lia.
    pose proof (so_count _ _ Hq). split; [lia|done].
  - intros D N HcN HD. rewrite EN. exists (fun o => if decide (o = N) then pk_body p else D o). split; [|split].
    + intros j x Hj Hx. rewrite Ec in Hj. destruct (Z.eq_dec j 0) as [->|Hne].
      * rewrite E0 in Hx. injection Hx as <-. by rewrite decide_True by lia.
      * rewrite decide_False by lia. replace j with (j - 1 + 1) in Hx by lia.
        rewrite Es in Hx by lia. replace (N + 1 - 1 - j) with (N - 1 - (j - 1)) by lia.
        by apply HD; [lia|].
    + rewrite (stream_data_snoc _ 0 (N + 1)) by lia. replace (N + 1 - 1) with N by lia.
      rewrite decide_True by done. f_equal.
      apply stream_data_ext. intros o Ho. by rewrite decide_False by lia.
    + intros o [Ho Hf]. rewrite decide_False by lia. split; [done|]. split; [lia|].
      intros x Hj. rewrite Ec in Hj. rewrite Hold by lia. apply Hf. lia.
Qed.
