(* ===== verification/WriteQueue.v ===== *)
(** * Queueing outgoing data

    write_outgoing_packet of src/utp_internal.cpp: the bytes handed over are
    appended to the byte stream of the send queue, in order and exactly once, by
    filling a last packet that was not sent yet and adding at most one packet. *)
From S2P Require Import Prelude Wrap Packet Ring Arrays SockAddr Context AckList Socket Frame MtuSearch Send SendQueue SendInv Flush Streams.

(** ** The byte stream of a queue *)

Fixpoint window_bytes (f : Z -> list Z) (n : nat) : list Z :=
  match n with
  | O => []
  | S n => f (Z.of_nat n) ++ window_bytes f n
  end.

Definition body_at (q : SendQueue) (j : Z) : list Z :=
  match slot q j with Some p => pk_body p | None => [] end.

(** the payload bytes queued and not acknowledged, oldest first *)
Definition content (q : SendQueue) : list Z :=
  window_bytes (body_at q) (Z.to_nat (cur_window_packets q)).

Lemma window_bytes_ext f g n :
  (forall j, 0 <= j < Z.of_nat n -> f j = g j) -> window_bytes f n = window_bytes g n.
Proof.
  induction n as [|n IH]; intros H; [done|]. cbn.
  rewrite IH by (intros; apply H; lia). by rewrite H by lia.
Qed.

Lemma window_bytes_shift f n :
  window_bytes f (S n) = window_bytes (fun j => f (j + 1)) n ++ f 0.
Proof.
  induction n as [|n IH]; [apply app_nil_r|].
  change (window_bytes f (S (S n))) with (f (Z.of_nat (S n)) ++ window_bytes f (S n)).
  rewrite IH. cbn [window_bytes]. rewrite (assoc_L (++)).
  replace (Z.of_nat (S n)) with (Z.of_nat n + 1) by lia. done.
Qed.

Lemma content_kept q q' : queue_kept q q' -> content q' = content q.
Proof.
  intros [C S K]. unfold content. rewrite C. apply window_bytes_ext. intros j Hj.
  specialize (K j ltac:(lia)). unfold body_at.
  destruct (slot q j), (slot q' j); cbn in K; try done. by destruct K.
Qed.

Lemma content_unmoved q q' : unmoved q q' -> content q' = content q.
Proof.
  intros [[_ _ L] C S]. unfold content. rewrite C. apply window_bytes_ext. intros j Hj. unfold body_at.
  destruct (slot q' j) as [p'|] eqn:Hp'.
  - destruct (L j p' ltac:(lia) Hp') as (p & -> & K). apply K.
  - destruct (slot q j) as [p|] eqn:Hp; [|done]. destruct (S j p ltac:(lia) Hp) as [x Hx]. congruence.
Qed.

Lemma content_push n q p :
  sq_ok n q -> cur_window_packets q < 1024 -> content (push_slot q p) = content q ++ pk_body p.
Proof.
  intros Hq Hc. pose proof (so_count _ _ Hq).
  destruct (push_slot_slots n q p Hq Hc) as (_ & _ & Ec & _ & H0 & Hs & _). cbn zeta in *.
  unfold content. rewrite Ec.
  replace (Z.to_nat (cur_window_packets q + 1)) with (S (Z.to_nat (cur_window_packets q))) by lia.
  rewrite window_bytes_shift. f_equal.
  - apply window_bytes_ext. intros j Hj. unfold body_at. by rewrite Hs by lia.
  - unfold body_at. by rewrite H0.
Qed.


Lemma content_last n q p w bs p' :
  sq_ok n q -> 0 < cur_window_packets q -> slot q 0 = Some p ->
  pk_body p' = pk_body p ++ bs ->
  content (set_slot q 0 (Some p') w) = content q ++ bs.
Proof.
  intros Hq Hc Hp Hb. pose proof (so_ring _ _ Hq). pose proof (so_fits _ _ Hq).
  unfold content. replace (cur_window_packets (set_slot _ _ _ _)) with (cur_window_packets q)
    by by destruct q.
  replace (Z.to_nat (cur_window_packets q)) with (S (Z.to_nat (cur_window_packets q - 1))) by lia.
  rewrite !window_bytes_shift, <- (assoc_L (++)). f_equal.
  - apply window_bytes_ext. intros j Hj. unfold body_at.
    by rewrite slot_set, decide_False by (done || lia).
  - unfold body_at. rewrite slot_set, decide_True by (done || lia). by rewrite Hp.
Qed.

(** ** The copy loop *)
Lemma iov_take_spec iov : forall needed bs iov' n',
  iov_take needed iov = (bs, iov', n') ->
  bs = take needed (concat iov) /\ concat iov' = drop needed (concat iov) /\
  (n' = needed - length (concat iov))%nat.
Proof.
  induction iov as [|v iov IH]; intros needed bs iov' n' E; cbn in E.
  - injection E as <- <- <-. cbn. rewrite take_nil, drop_nil. split_and!; [done..|lia].
  - destruct (iov_take (needed - Nat.min needed (length v)) iov) as [[bs1 iov1] n1] eqn:E1.
    injection E as <- <- <-. destruct (IH _ _ _ _ E1) as (-> & Hd & ->). cbn.
    rewrite Hd, length_app, take_app, drop_app.
    destruct (Nat.le_gt_cases needed (length v)) as [Hle|Hgt].
    + rewrite Nat.min_l by done. replace (needed - needed)%nat with 0%nat by lia.
      replace (needed - length v)%nat with 0%nat by lia. rewrite !take_0, !drop_0.
      split_and!; [done..|lia].
    + rewrite Nat.min_r by lia. rewrite (take_ge v needed), (drop_ge v needed) by lia.
      rewrite (take_ge v (length v)), (drop_ge v (length v)) by lia. split_and!; [done..|lia].
Qed.

(** ** One round *)

(** the added bytes when the last packet is filled *)
Lemma fill_amount payload pp ps :
  0 < payload <= 65536 -> 0 <= pp <= max_payload -> pp < ps <= 65536 ->
  u64 (tmin (u64 (payload + pp)) (tmax ps pp) - pp) = Z.min payload (ps - pp).
Proof.
  unfold max_payload. intros H1 H2 H3. rewrite (u64_small (payload + pp)) by (unfold is_u64; lia).
  unfold tmin, tmax. destruct (Z.ltb_spec pp ps); [|lia].
  destruct (Z.ltb_spec (payload + pp) ps); rewrite u64_small by (unfold is_u64; lia); lia.
Qed.

Lemma fill_target_spec q payload ps p :
  fill_target q payload ps = Some p ->
  0 < cur_window_packets q /\ slot q 0 = Some p /\ payload <> 0 /\
  pk_transmissions p = 0 /\ pk_payload p < ps.
Proof.
  unfold fill_target, slot. destruct (Z.ltb_spec 0 (cur_window_packets q)); [|done].
  replace (seq_nr q - 0 - 1) with (seq_nr q - 1) by lia.
  destruct (ring_get (outbuf q) (seq_nr q - 1)) as [x|]; [|done]. cbn [mbind option_bind].
  destruct (Z.eqb_spec payload 0), (Z.eqb_spec (pk_transmissions x) 0),
    (Z.ltb_spec (pk_payload x) ps); cbn; try done. by intros [= <-].
Qed.

(** ** The headers of the queue *)

(** every packet is of type [fl], without extensions, and numbered by its place *)
Record label_ok (fl : Z) (q : SendQueue) (j : Z) (h : PacketFormatV1) : Prop := {
  lb_byte : is_u8 (pf_ver_type h);
  lb_type : pf_type h = fl;
  lb_ext : pf_ext h = 0;
  lb_seq : pf_seq_nr h = u16 (seq_nr q - j - 1);
}.

Definition labelled (fl : Z) (q : SendQueue) : Prop :=
  forall j p, 0 <= j < cur_window_packets q -> slot q j = Some p -> label_ok fl q j (pk_hdr p).

Lemma label_like fl q q' j h h' :
  seq_nr q' = seq_nr q -> like h' h -> label_ok fl q j h -> label_ok fl q' j h'.
Proof.
  intros Es [] []. split; try congruence. unfold pf_type. by rewrite lk_type.
Qed.

Lemma labelled_kept fl q q' : queue_kept q q' -> labelled fl q -> labelled fl q'.
Proof.
  intros [C S K] Hl j p' Hj Hp'. rewrite C in Hj. specialize (K j Hj). rewrite Hp' in K.
  destruct (slot q j) as [p|] eqn:Hp; [|done]. eapply label_like; [exact S|apply K|by apply Hl].
Qed.

Lemma labelled_push n fl q p :
  sq_ok n q -> cur_window_packets q < 1024 -> label_ok fl (push_slot q p) 0 (pk_hdr p) ->
  labelled fl q -> labelled fl (push_slot q p).
Proof.
  intros Hq Hc Hp Hl j p' Hj Hp'.
  destruct (push_slot_slots n q p Hq Hc) as (_ & _ & Ec & _ & H0 & Hs & _). cbn zeta in *.
  destruct (Z.eq_dec j 0) as [->|Hne]; [rewrite H0 in Hp'; by injection Hp' as <-|].
  replace j with ((j - 1) + 1) in Hp' by lia. rewrite Hs in Hp' by lia.
  destruct (Hl (j - 1) p' ltac:(lia) Hp') as [L1 L2 L3 L4]. split; try done. rewrite L4.
  destruct q. cbn. word_lia.
Qed.

Lemma carries_push n q p ack bs :
  sq_ok n q -> cur_window_packets q < 1024 -> carries q ack bs -> carries (push_slot q p) ack bs.
Proof.
  intros Hq Hc (j & p' & Hj & Hp' & H).
  destruct (push_slot_slots n q p Hq Hc) as (_ & _ & Ec & _ & H0 & Hs & _). cbn zeta in *.
  exists (j + 1), p'. rewrite Hs by lia. split; [lia|done].
Qed.

(** the last packet, never sent before, replaced *)
Lemma labelled_last n fl q p p' w :
  sq_ok n q -> 0 < cur_window_packets q -> slot q 0 = Some p -> label_ok fl q 0 (pk_hdr p') ->
  labelled fl q -> labelled fl (set_slot q 0 (Some p') w).
Proof.
  intros Hq Hc Hp Hl' Hl j x Hj Hx. pose proof (so_fits _ _ Hq).
  assert (Ec : cur_window_packets (set_slot q 0 (Some p') w) = cur_window_packets q) by by destruct q.
  rewrite slot_set in Hx by (apply Hq || lia).
  assert (Hok : label_ok fl q j (pk_hdr x)).
  { case_decide as E; [|by apply Hl; [lia|]]. subst. by injection Hx as <-. }
  eapply label_like; [|apply like_refl|exact Hok]. by destruct q.
Qed.

Lemma carries_last n q p p' w ack bs :
  sq_ok n q -> 0 < cur_window_packets q -> slot q 0 = Some p -> pk_transmissions p = 0 ->
  carries q ack bs -> carries (set_slot q 0 (Some p') w) ack bs.
Proof.
  intros Hq Hc Hp H0 (j & x & Hj & Hx & Ht & H). pose proof (so_fits _ _ Hq).
  assert (Ec : cur_window_packets (set_slot q 0 (Some p') w) = cur_window_packets q) by by destruct q.
  exists j, x. rewrite slot_set by (apply Hq || lia). rewrite decide_False; [by rewrite Ec|].
  intros ->. rewrite Hp in Hx. injection Hx as <-. lia.
Qed.

(** the header write_outgoing_packet makes *)
Lemma data_header_label fl q j c win h :
  0 <= fl < 16 -> pf_seq_nr h = u16 (seq_nr q - j - 1) -> label_ok fl q j (data_header c fl win h).
Proof.
  intros Hf Hs. unfold data_header. destruct (version_type_set h 1 fl ltac:(lia) Hf) as [_ Ht].
  split; [apply u8_range|exact Ht|done|exact Hs].
Qed.

(** the sequence number of the oldest place *)
Definition first_seq (q : SendQueue) : Z := u16 (seq_nr q - cur_window_packets q).

(** the newest packet is of type [fl] and holds the end of [bs] *)
Definition ends_with (fl : Z) (bs : list Z) (q : SendQueue) : Prop :=
  exists p b, slot q 0 = Some p /\ label_ok fl q 0 (pk_hdr p) /\ bs = b ++ pk_body p.

Lemma ends_kept fl bs q q' :
  queue_kept q q' -> 0 < cur_window_packets q -> ends_with fl bs q -> ends_with fl bs q'.
Proof.
  intros [C S K] Hc (p & b & Hp & Hl & Hb). specialize (K 0 ltac:(lia)). rewrite Hp in K.
  destruct (slot q' 0) as [p'|] eqn:Hp'; [|done]. exists p', b. split; [done|].
  split; [eapply label_like; [exact S|apply K|done]|]. by rewrite (kp_body _ _ K).
Qed.

(** the state after queueing [bs] as packets of type [fl]: the queue, and a fresh
    advertised window *)
(** one packet was added, and the others stayed *)
Definition grown (q q' : SendQueue) : Prop :=
  cur_window_packets q' = cur_window_packets q + 1 /\ exists p, queue_kept (push_slot q p) q'.

Lemma grown_kept q q1 q2 : grown q q1 -> queue_kept q1 q2 -> grown q q2.
Proof.
  intros [Hc (p & HK)] HK2. split; [by rewrite (qk_count _ _ HK2)|]. exists p. by eapply queue_kept_trans.
Qed.

Record queued (n fl : Z) (bs : list Z) (s s' : St) : Prop := {
  qd_me : exists q w, me s' = (me s) <| sq := q |> <| wn := w |>;
  qd_wn : (wn (me s')) <| last_rcv_win := last_rcv_win (wn (me s)) |> = wn (me s);
  qd_sq : sq_ok n (sq (me s'));
  qd_content : content (sq (me s')) = content (sq (me s)) ++ bs;
  qd_count : cur_window_packets (sq (me s)) <= cur_window_packets (sq (me s'))
             <= cur_window_packets (sq (me s)) + 1;
  qd_window : cur_window (sq (me s')) = cur_window (sq (me s));
  qd_sys : sys_next silent (st_sys s) (st_sys s');
  qd_front : front_ok (sq (me s)) -> front_ok (sq (me s'));
  qd_label : labelled fl (sq (me s)) -> labelled fl (sq (me s'));
  qd_carried : forall ack d, carries (sq (me s)) ack d -> carries (sq (me s')) ack d;
  qd_first : first_seq (sq (me s')) = first_seq (sq (me s));
  qd_last : cur_window_packets (sq (me s')) = cur_window_packets (sq (me s)) + 1 ->
    ends_with fl bs (sq (me s'));
  qd_stream : streams bs (sq (me s)) (sq (me s'));
}.

Section Wp.
Context {E : Env} {HA : GoodApp} (F : fault -> Prop).

(** the packet a round writes *)
Definition filled (c : UTPSocket) (flags win added : Z) (bs : list Z) (p : OutgoingPacket) :
    OutgoingPacket :=
  let p := p <| pk_body ::= fun b => b ++ bs |> <| pk_payload ::= fun n => u64 (n + added) |> in
  let p := p <| pk_length := u64 (get_header_size + pk_payload p) |> in
  p <| pk_hdr ::= data_header c flags win |>.

Lemma data_header_version c flags win h :
  flags = ST_DATA \/ flags = ST_FIN -> plain_header (data_header c flags win h).
Proof.
  intros Hf. unfold data_header, plain_header, header_ok, UTP_Version.
  split; [|done]. split; [apply u8_range|]. destruct (version_type_set h 1 flags ltac:(lia)) as [Hv Ht];
    [destruct Hf as [->| ->]; done|].
  destruct (set_type flags (set_version 1 h)) eqn:Es. cbn in *.
  unfold pf_type, pf_version in *. cbn in *. rewrite Hv, Ht. by destruct Hf as [->| ->].
Qed.

Lemma filled_ok n c flags win added bs p :
  flags = ST_DATA \/ flags = ST_FIN -> 0 <= n -> pk_payload p = Z.of_nat (length (pk_body p)) ->
  added = Z.of_nat (length bs) -> pk_payload p + added <= max_payload ->
  pk_transmissions p = 0 -> pk_need_resend p = false ->
  0 <= pk_time_sent p < 9223372036854775808 ->
  let p' := filled c flags win added bs p in
  pkt_ok n p' /\ slot_bytes (Some p') = 0 /\ pk_body p' = pk_body p ++ bs /\
  pk_payload p' = pk_payload p + added /\ pk_transmissions p' = 0.
Proof.
  intros Hfl Hn0 Hb Ha Hm H0 Hn Ht. unfold max_payload in *.
  pose proof (data_header_version c flags win (pk_hdr p) Hfl) as Hv.
  assert (E1 : u64 (pk_payload p + added) = pk_payload p + added)
    by (apply u64_small; unfold is_u64; lia).
  unfold filled, get_header_size, sizeof_PacketFormatV1. destruct p as [len pl ts tr nr h b].
  cbn in *. rewrite E1, (u64_small (20 + _)) by (unfold is_u64; lia).
  split_and!; try done.
  - split; cbn; unfold max_payload, get_header_size, sizeof_PacketFormatV1;
      rewrite ?length_app, ?Hn, ?H0; cbn; try done; try lia.
  - unfold in_flight. cbn. rewrite H0. done.
Qed.

Lemma slot_bytes_unsent p : pk_transmissions p = 0 -> slot_bytes (Some p) = 0.
Proof. intros H. cbn. unfold in_flight. by rewrite H. Qed.

(** A round: the new bytes are at the end of the stream, and what is left is
    either nothing or what did not fit the packet that was filled. *)
Definition round_done (n ps payload fl : Z) (iov : list (list Z)) (s : St) (r : Z * list (list Z))
    (s' : St) : Prop :=
  exists added, 0 <= added <= payload /\ r.1 = payload - added /\
    concat r.2 = drop (Z.to_nat added) (concat iov) /\
    queued n fl (take (Z.to_nat added) (concat iov)) s s' /\
    (forall M, ps <= M -> payload <= M -> fits M (sq (me s)) -> fits M (sq (me s'))) /\
    (payload = 0 -> grown (sq (me s)) (sq (me s'))) /\
    (r.1 <> 0 -> cur_window_packets (sq (me s')) = cur_window_packets (sq (me s)) /\
       exists p, slot (sq (me s')) 0 = Some p /\ ps <= pk_payload p).

Lemma fits_set n M q p w :
  sq_ok n q -> 0 < cur_window_packets q -> pk_payload p <= M -> fits M q ->
  fits M (set_slot q 0 (Some p) w).
Proof.
  intros Hq Hc Hp Hf j p' Hj. rewrite slot_set; [|apply Hq|pose proof (so_fits _ _ Hq); lia|].
  - case_decide; [by intros [= <-]|]. apply Hf. by destruct q.
  - replace (cur_window_packets (set_slot _ _ _ _)) with (cur_window_packets q) in Hj by by destruct q.
    pose proof (so_fits _ _ Hq). lia.
Qed.

Lemma fits_push n M q p :
  sq_ok n q -> cur_window_packets q < 1024 -> pk_payload p <= M -> fits M q -> fits M (push_slot q p).
Proof.
  intros Hq Hc Hp Hf j p' Hj Hp'.
  destruct (push_slot_slots n q p Hq Hc) as (_ & _ & Ec & _ & H0 & Hs & _). cbn zeta in *.
  destruct (Z.eq_dec j 0) as [->|Hne]; [rewrite H0 in Hp'; by injection Hp' as <-|].
  replace j with ((j - 1) + 1) in Hp' by lia. rewrite Hs in Hp' by lia. eapply (Hf (j - 1)); [lia|done].
Qed.

(** the last packet filled *)
Lemma queued_fill n fl c y y' w win p p' bs :
  sq_ok n (sq c) -> 0 < cur_window_packets (sq c) -> slot (sq c) 0 = Some p ->
  pk_transmissions p = 0 -> pkt_ok n p' -> slot_bytes (Some p') = 0 ->
  pk_body p' = pk_body p ++ bs -> w = (wn c) <| last_rcv_win := win |> -> sys_next silent y y' ->
  (label_ok fl (sq c) 0 (pk_hdr p) -> label_ok fl (sq c) 0 (pk_hdr p')) ->
  queued n fl bs (mkSt c y)
    (mkSt ((c <| wn := w |>) <| sq := set_slot (sq c) 0 (Some p') (cur_window (sq c)) |>) y').
Proof.
  intros Hq Hc0 Hp Htr Hok H0 Hb -> Hy Hlb. set (q1 := set_slot _ _ _ _).
  assert (Hqok : sq_ok n q1).
  { unfold q1. pose proof (set_slot_ok n (sq c) 0 (Some p') Hq) as Hs.
    rewrite Hp, (slot_bytes_unsent p Htr), H0 in Hs.
    replace (cur_window (sq c) - 0 + 0) with (cur_window (sq c)) in Hs by lia.
    apply Hs; [lia|]. by intros x [= <-]. }
  assert (Es : sq ((c <| wn := (wn c) <| last_rcv_win := win |> |>) <| sq := q1 |>) = q1)
    by by destruct c.
  split; cbn [me st_sys]; rewrite ?Es; try done.
  - exists q1. eexists. by destruct c.
  - by destruct c, wn.
  - unfold q1. by eapply content_last.
  - unfold q1. destruct (sq c). cbn. lia.
  - unfold q1. apply (set_slot_front n); [done|lia].
  - intros Hl. unfold q1. eapply labelled_last; [done..| |done]. apply Hlb, Hl; [lia|done].
  - intros ack d. unfold q1. by eapply carries_last.
  - unfold q1. destruct (sq c). cbn. lia.
  - by eapply streams_last.
Qed.

(** a packet added *)
Lemma queued_push n fl c y y' w win p :
  sq_ok n (sq c) -> cur_window_packets (sq c) < 1024 -> pkt_ok n p -> slot_bytes (Some p) = 0 ->
  w = (wn c) <| last_rcv_win := win |> -> sys_next silent y y' ->
  label_ok fl (push_slot (sq c) p) 0 (pk_hdr p) ->
  queued n fl (pk_body p) (mkSt c y) (mkSt ((c <| wn := w |>) <| sq := push_slot (sq c) p |>) y').
Proof.
  intros Hq Hc Hok H0 -> Hy Hlb.
  assert (Es : forall w', sq ((c <| wn := w' |>) <| sq := push_slot (sq c) p |>) = push_slot (sq c) p)
    by by destruct c.
  destruct (push_slot_slots n (sq c) p Hq Hc) as (_ & _ & Ec & _ & E0 & _).
  split; cbn [me st_sys]; rewrite ?Es; try done.
  - exists (push_slot (sq c) p). eexists. by destruct c.
  - by destruct c, wn.
  - by apply push_slot_ok.
  - by eapply content_push.
  - rewrite Ec. lia.
  - by apply (push_slot_front n).
  - by apply (labelled_push n).
  - intros ack d. by apply (carries_push n).
  - unfold first_seq. rewrite Ec. destruct (sq c). cbn. word_lia.
  - intros _. by exists p, [].
  - by eapply streams_push.
Qed.

Lemma wp_fill_last n ps payload flags iov p c y :
  sq_ok n (sq c) -> 0 <= n -> cur_window_packets (sq c) < 1024 -> 0 <= ps <= 65536 ->
  0 <= payload <= 65536 -> payload <= Z.of_nat (length (concat iov)) ->
  flags = ST_DATA \/ (flags = ST_FIN /\ payload = 0) -> fill_target (sq c) payload ps = Some p ->
  wp F (write_round ps payload flags iov) (round_done n ps payload flags iov (mkSt c y)) (mkSt c y).
Proof.
  intros Hq Hn Hc Hps Hpl Hiov Hfl Ht. unfold write_round. wp_steps.
  apply wp_assert; [intros _|intros Hf%Z.ltb_ge; unfold OUTGOING_BUFFER_MAX_SIZE in Hf; lia].
  wp_step. apply wp_assert; [intros _|destruct Hfl as [->|[-> _]]; done].
  rewrite Ht. destruct (fill_target_spec _ _ _ _ Ht) as (Hc0 & Hp & Hne & Htr & Hlt).
  pose proof (so_pkts _ _ Hq 0 p ltac:(lia) Hp) as Hpk.
  destruct Hfl as [->|[_ ?]]; [|done].
  rewrite fill_amount by (try apply Hpk; lia).
  set (added := Z.min payload (ps - pk_payload p)).
  assert (Hnr : pk_need_resend p = false).
  { destruct (pk_need_resend p) eqn:En; [|done]. pose proof (po_resend _ _ Hpk En). lia. }
  rewrite Hnr. cbn [orb negb]. wp_steps. apply wp_assert; [intros _|done].
  rewrite orb_true_r. wp_steps. apply wp_assert; [intros _|done].
  destruct (iov_take (Z.to_nat added) iov) as [[bs iov'] n'] eqn:Ei.
  destruct (iov_take_spec _ _ _ _ _ Ei) as (Hbs & Hio & ->).
  wp_step. apply wp_assert; [intros _|intros Hf%Nat.eqb_neq; lia].
  wp_step. apply (wp_get_rcv_window_R F silent); [done|]. intros win y' Hy. wp_steps.
  set (c1 := c <| wn ::= _ |>). unfold put_pkt. wp_steps.
  destruct (filled_ok n c1 ST_DATA win added bs p) as (F1 & F2 & F3 & F4 & F5);
    try done; try apply Hpk; [by left|rewrite Hbs, length_take; lia|unfold max_payload; lia|].
  set (p' := filled c1 ST_DATA win added bs p) in *. cbn zeta in *.
  fold (filled c1 ST_DATA win added bs p). fold p'.
  assert (Hlb : label_ok ST_DATA (sq c) 0 (pk_hdr p) -> label_ok ST_DATA (sq c) 0 (pk_hdr p')).
  { intros [_ _ _ Hs]. by apply data_header_label. }
  pose proof (queued_fill n ST_DATA c y y' _ win p p' bs Hq Hc0 Hp Htr F1 F2 F3 eq_refl Hy Hlb) as Hqd.
  match type of Hqd with queued _ _ _ _ (mkSt ?c2 _) => match goal with |- round_done _ _ _ _ _ _ _ (mkSt ?c3 _) =>
    assert (Hc2 : c3 = c2) end end.
  { unfold set_slot, c1. destruct c, sq. cbn. by replace (seq_nr - 0 - 1) with (seq_nr - 1) by lia. }
  rewrite Hc2. exists added. cbn [fst snd me]. rewrite <- Hbs.
  assert (E2 : forall c2 : UTPSocket, sq (c2 <| sq := set_slot (sq c) 0 (Some p') (cur_window (sq c)) |>)
    = set_slot (sq c) 0 (Some p') (cur_window (sq c))) by by intros [].
  rewrite E2. split; [subst added; lia|]. split_and!; try done.
  { intros M H1 H2. apply (fits_set n); try done. subst added. lia. }
  intros Hr. split; [by destruct c, sq|]. exists p'. split; [|subst added; lia].
  rewrite slot_set, decide_True; [done..|apply Hq| |]; pose proof (so_fits _ _ Hq); lia.
Qed.

Lemma wp_add_packet n ps payload flags iov c y :
  sq_ok n (sq c) -> 0 <= n -> cur_window_packets (sq c) < 1024 -> 0 <= ps <= 65536 ->
  0 <= payload <= 65536 -> payload <= Z.of_nat (length (concat iov)) ->
  flags = ST_DATA \/ (flags = ST_FIN /\ payload = 0) -> fill_target (sq c) payload ps = None ->
  wp F (write_round ps payload flags iov) (round_done n ps payload flags iov (mkSt c y)) (mkSt c y).
Proof.
  intros Hq Hn Hc Hps Hpl Hiov Hfl Ht. unfold write_round. wp_steps.
  apply wp_assert; [intros _|intros Hf%Z.ltb_ge; unfold OUTGOING_BUFFER_MAX_SIZE in Hf; lia].
  wp_step. apply wp_assert; [intros _|destruct Hfl as [->|[-> _]]; done].
  rewrite Ht. cbn [orb]. wp_step. apply wp_assert; [intros _|done].
  wp_step. apply wp_assert; [intros _|].
  2: { intros Hf. apply orb_false_iff in Hf as [Hz%Z.eqb_neq Hd%Z.eqb_neq].
       destruct Hfl as [->|[_ ?]]; lia. }
  destruct (iov_take (Z.to_nat payload) iov) as [[bs iov'] n'] eqn:Ei.
  destruct (iov_take_spec _ _ _ _ _ Ei) as (Hbs & Hio & ->).
  wp_step. apply wp_assert; [intros _|intros Hf%Nat.eqb_neq; lia].
  wp_step. apply (wp_get_rcv_window_R F silent); [done|]. intros win y' Hy. wp_steps.
  set (c1 := c <| wn ::= _ |>). unfold append_packet. wp_steps.
  destruct (filled_ok n c1 flags win payload bs new_packet) as (F1 & F2 & F3 & F4 & F5);
    try done; [by destruct Hfl as [->|[-> _]]; [left|right]|rewrite Hbs, length_take; lia|cbn; unfold max_payload; lia|].
  set (p' := filled c1 flags win payload bs new_packet) in *. cbn zeta in *.
  fold (filled c1 flags win payload bs new_packet). fold p'.
  set (p2 := p' <| pk_hdr ::= fun h => h <| pf_seq_nr := seq_nr (sq c) |> |>).
  assert (Hp2 : pkt_ok n p2 /\ slot_bytes (Some p2) = 0 /\ pk_body p2 = bs).
  { unfold p2. clearbody p'. destruct p' as [? ? ? ? ? [] ?]. cbn in *.
    split_and!; [|done|done]. destruct F1. by split. }
  destruct Hp2 as (G1 & G2 & G3).
  assert (Hlb : label_ok flags (push_slot (sq c) p2) 0 (pk_hdr p2)).
  { pose proof (so_seq _ _ Hq) as Hseq.
    assert (Eh : pk_hdr p2 = data_header c1 flags win (zero_header <| pf_seq_nr := seq_nr (sq c) |>))
      by reflexivity.
    rewrite Eh. apply data_header_label.
    - destruct Hfl as [->|[-> _]]; done.
    - destruct (sq c). cbn in *. word_lia. }
  pose proof (queued_push n flags c y y' _ win p2 Hq Hc G1 G2 eq_refl Hy Hlb) as Hqd.
  match type of Hqd with queued _ _ _ _ (mkSt ?c2 _) => match goal with |- round_done _ _ _ _ _ _ _ (mkSt ?c3 _) =>
    assert (Hc2 : c3 = c2) end end.
  { unfold push_slot, p2, c1. by destruct c, sq. }
  rewrite Hc2. exists payload. cbn [fst snd me]. rewrite <- Hbs, <- G3.
  split; [lia|]. split_and!; try done; [| |lia].
  2: { intros _. destruct (push_slot_slots n (sq c) p2 Hq Hc) as (_ & _ & Ec & _).
       split; [by destruct c|]. exists p2. destruct c. apply queue_kept_refl. }
  intros M H1 H2 Hf.
  replace (sq _) with (push_slot (sq c) p2) by by destruct c. apply (fits_push n); try done.
  unfold p2. clearbody p'. destruct p'. cbn in *. lia.
Qed.

Lemma wp_write_round n ps payload flags iov c y :
  sq_ok n (sq c) -> 0 <= n -> cur_window_packets (sq c) < 1024 -> 0 <= ps <= 65536 ->
  0 <= payload <= 65536 -> payload <= Z.of_nat (length (concat iov)) ->
  flags = ST_DATA \/ (flags = ST_FIN /\ payload = 0) ->
  wp F (write_round ps payload flags iov) (round_done n ps payload flags iov (mkSt c y)) (mkSt c y).
Proof.
  intros. destruct (fill_target (sq c) payload ps) as [p|] eqn:Ht;
    [by eapply wp_fill_last|by apply wp_add_packet].
Qed.

Lemma queued_trans n fl b1 b2 s1 s2 s3 :
  queued n fl b1 s1 s2 -> cur_window_packets (sq (me s2)) = cur_window_packets (sq (me s1)) ->
  queued n fl b2 s2 s3 -> queued n fl (b1 ++ b2) s1 s3.
Proof.
  intros [(q1 & w1 & E1) W1 Q1 C1 N1 V1 Y1 G1 L1 D1 P1 _ T1] Hc [(q2 & w2 & E2) W2 Q2 C2 N2 V2 Y2 G2 L2 D2 P2 Z2 T2].
  split; try done.
  - exists q2, w2. rewrite E2, E1. by destruct (me s1).
  - rewrite <- W1, <- W2. by destruct (wn (me s3)), (wn (me s2)), (wn (me s1)).
  - by rewrite C2, C1, (assoc_L (++)).
  - lia.
  - congruence.
  - by eapply sys_next_trans.
  - auto.
  - auto.
  - auto.
  - congruence.
  - rewrite <- Hc. intros (p & b & Hp & Hl & ->)%Z2. exists p, (b1 ++ b).
    split; [done|]. split; [done|]. by rewrite (assoc_L (++)).
  - by eapply streams_trans.
Qed.

Lemma fill_target_full q payload ps p :
  slot q 0 = Some p -> ps <= pk_payload p -> fill_target q payload ps = None.
Proof.
  intros Hp Hle. destruct (fill_target q payload ps) as [x|] eqn:Ef; [|done].
  destruct (fill_target_spec _ _ _ _ Ef) as (_ & Hx & _ & _ & ?). rewrite Hp in Hx.
  injection Hx as <-. lia.
Qed.

(** without a packet to fill, one round takes everything *)
Lemma write_round_all ps payload flags iov c y :
  fill_target (sq c) payload ps = None ->
  wp (fun _ => True) (write_round ps payload flags iov) (fun r _ => r.1 = 0) (mkSt c y).
Proof.
  intros Ht. unfold write_round. wp_steps. apply wp_assert; [intros _|done]. wp_step.
  apply wp_assert; [intros _|done]. rewrite Ht. wp_step. apply wp_assert; [intros _|done].
  wp_step. apply wp_assert; [intros _|done].
  destruct (iov_take (Z.to_nat payload) iov) as [[bs iov'] n'].
  wp_step. apply wp_assert; [intros _|done]. wp_step.
  eapply wp_mono; [apply (wp_get_rcv_window _ (fun _ _ => True)); done|].
  intros win [c1 y1] _. wp_steps. unfold append_packet. wp_steps. cbn. lia.
Qed.

Lemma wp_write_loop n ps payload flags iov c y :
  sq_ok n (sq c) -> 0 <= n -> cur_window_packets (sq c) < 1024 -> 0 <= ps <= 65536 ->
  0 <= payload <= 65536 -> payload <= Z.of_nat (length (concat iov)) ->
  flags = ST_DATA \/ (flags = ST_FIN /\ payload = 0) ->
  wp F (write_loop 2 ps payload flags iov)
    (fun iov' s' => concat iov' = drop (Z.to_nat payload) (concat iov) /\
       queued n flags (take (Z.to_nat payload) (concat iov)) (mkSt c y) s' /\
       (forall M, ps <= M -> payload <= M -> fits M (sq c) -> fits M (sq (me s'))) /\
       (payload = 0 -> grown (sq c) (sq (me s')))) (mkSt c y).
Proof.
  intros Hq Hn Hc Hps Hpl Hiov Hfl. unfold write_loop. wp_steps.
  eapply wp_mono; [by apply (wp_write_round n)|].
  intros [left iov1] s1 (added & Ha & Hl & Hio & Hqd & Hfit & Hgrow & Hmore). cbn [fst snd] in *.
  destruct (Z.eqb_spec left 0) as [El|Hne].
  - wp_steps. split; [|split]; [by replace payload with added by lia..|by split].
  - destruct (Hmore Hne) as (Hcnt & p & Hp & Hpp). destruct s1 as [c1 y1]. cbn [me] in *.
    wp_steps. assert (Hfl' : flags = ST_DATA \/ (flags = ST_FIN /\ left = 0))
      by (destruct Hfl as [->|[? ?]]; [by left|lia]).
    eapply wp_mono.
    + apply wp_strengthen.
      * apply (wp_write_round n ps left flags iov1 c1 y1); try done; try lia; [apply Hqd|].
        rewrite Hio, length_drop. lia.
      * apply write_round_all. by eapply fill_target_full.
    + intros [left2 iov2] s2 [(added2 & Ha2 & Hl2 & Hio2 & Hqd2 & Hfit2 & _) E2]. cbn [fst snd] in *.
      rewrite E2, Z.eqb_refl. wp_steps. split; [|split; [|split; [|lia]]].
      * rewrite Hio2, Hio, drop_drop. f_equal. lia.
      * replace (Z.to_nat payload) with (Z.to_nat added + Z.to_nat added2)%nat by lia.
        rewrite <- take_take_drop, <- Hio. by eapply queued_trans.
      * intros M H1 H2 Hf. apply Hfit2; [done|lia|]. by apply Hfit.
Qed.

(** What queueing and flushing leave of the socket. *)
Record wrote (n' fl : Z) (bs : list Z) (s s' : St) : Prop := {
  wr_me : exists q r w m t, me s' = (sent_sock (me s) q m t) <| rt := r |> <| wn := w |>;
  wr_wn : (wn (me s')) <| last_rcv_win := last_rcv_win (wn (me s)) |>
             <| last_maxed_out_window := last_maxed_out_window (wn (me s)) |> = wn (me s);
  wr_rt : (rt (me s')) <| retransmit_timeout := retransmit_timeout (rt (me s)) |>
             <| rto_timeout := rto_timeout (rt (me s)) |> = rt (me s);
  wr_sq : sq_ok n' (sq (me s'));
  wr_mt : mtu_ok (mt (me s'));
  wr_content : content (sq (me s')) = content (sq (me s)) ++ bs;
  wr_count : cur_window_packets (sq (me s)) <= cur_window_packets (sq (me s'))
             <= cur_window_packets (sq (me s)) + 1;
  wr_sys : sys_next quiet (st_sys s) (st_sys s');
  wr_front : front_ok (sq (me s)) -> front_ok (sq (me s'));
  wr_sent : sys_next (sends_only (carries (sq (me s')) (ack_nr (rq (me s))))) (st_sys s) (st_sys s');
  wr_label : labelled fl (sq (me s)) -> labelled fl (sq (me s'));
  wr_carried : forall ack d, carries (sq (me s)) ack d -> carries (sq (me s')) ack d;
  wr_first : first_seq (sq (me s')) = first_seq (sq (me s));
  wr_paced : forall M, get_packet_size (me s) <= M -> Z.of_nat (length bs) <= M ->
    paced M (me s) (me s');
  wr_last : cur_window_packets (sq (me s')) = cur_window_packets (sq (me s)) + 1 ->
    ends_with fl bs (sq (me s'));
  wr_stream : streams bs (sq (me s)) (sq (me s'));
  wr_grows : bs = [] -> grown (sq (me s)) (sq (me s'));
}.

Lemma empty_window n q : sq_ok n q -> cur_window_packets q = 0 -> cur_window q = 0.
Proof. intros Hq Hc. rewrite (so_window _ _ Hq), outstanding_sum, Hc. done. Qed.

Lemma wp_start_timer n (Q : unit -> St -> Prop) c y :
  sq_ok n (sq c) ->
  (forall r, r <| retransmit_timeout := retransmit_timeout (rt c) |>
               <| rto_timeout := rto_timeout (rt c) |> = rt c ->
     Q tt (mkSt (c <| rt := r |>) y)) ->
  wp F start_timer Q (mkSt c y).
Proof.
  intros Hq H. unfold start_timer. wp_steps. apply wp_when; intros Hc.
  - apply Z.eqb_eq in Hc. wp_steps. rewrite (empty_window n _ Hq Hc).
    apply wp_assert; [intros _|done].
    specialize (H ((rt c) <| retransmit_timeout := rto (rt c) |>
      <| rto_timeout := u64 (current_ms (ctx y) + rto (rt c)) |>)).
    destruct c, rt. cbn in *. by apply H.
  - specialize (H (rt c)). destruct c, rt. cbn in *. by apply H.
Qed.

Lemma windows_restored w1 w2 w3 :
  w2 <| last_rcv_win := last_rcv_win w1 |> = w1 ->
  w3 <| last_maxed_out_window := last_maxed_out_window w2 |> = w2 ->
  w3 <| last_rcv_win := last_rcv_win w1 |>
     <| last_maxed_out_window := last_maxed_out_window w1 |> = w1.
Proof. destruct w1, w2, w3. cbn. intros [=] [=]. by subst. Qed.

(** queueing leaves the window and the bytes in flight as they are *)
Lemma paced_queued n fl bs c c1 y c2 y2 M :
  sq c1 = sq c -> mt c1 = mt c -> wn c1 = wn c -> queued n fl bs (mkSt c1 y) (mkSt c2 y2) ->
  (fits M (sq c) -> fits M (sq c2)) -> paced M c c2.
Proof.
  intros Es Em Ew [(q2 & w2 & E2) W2 _ _ _ V2 _ _ _ _ _ _ _] Hf. cbn [me] in *. split.
  - unfold get_packet_size. rewrite E2, <- Em. by destruct c1.
  - unfold max_send. rewrite <- Ew, <- W2. by destruct (wn c2).
  - intros H. split; [by apply Hf|]. rewrite V2, Es. lia.
Qed.

(** Queueing [payload] bytes: no assertion fails, exactly those bytes are
    appended to the stream, and the iovecs hold what comes after them. *)
Lemma wp_write_outgoing_packet n payload flags iov c y :
  sys_ok (this c) y -> sq_ok n (sq c) -> mtu_ok (mt c) -> 1 <= n -> n + 1 < 2147483648 ->
  cur_window_packets (sq c) < 1024 -> 0 <= payload <= 65536 ->
  payload <= Z.of_nat (length (concat iov)) ->
  flags = ST_DATA \/ (flags = ST_FIN /\ payload = 0) ->
  wp F (write_outgoing_packet payload flags iov)
    (fun iov' s' => concat iov' = drop (Z.to_nat payload) (concat iov) /\
       wrote n flags (take (Z.to_nat payload) (concat iov)) (mkSt c y) s') (mkSt c y).
Proof.
  intros Hok Hq Hm Hn Hnb Hc Hpl Hiov Hfl. unfold write_outgoing_packet. wp_steps.
  apply (wp_start_timer n); [done|]. intros r Hr. set (c1 := c <| rt := r |>).
  assert (Hc1 : sq c1 = sq c /\ mt c1 = mt c /\ this c1 = this c) by by destruct c.
  destruct Hc1 as (Esq & Emt & Eth). wp_steps.
  assert (Hps : 0 <= get_packet_size c1 <= 65536).
  { unfold get_packet_size, get_header_size, sizeof_PacketFormatV1. rewrite Emt.
    destruct Hm. destruct (Z.eqb_spec (mtu_last (mt c)) 0); [lia|].
    rewrite u64_small by (unfold is_u64; lia). lia. }
  eapply wp_mono; [apply (wp_write_loop n); rewrite ?Esq; try done; lia|].
  intros iov' s2 (Hio & Hqd & Hfit & Hgrow). pose proof Hqd as [(q2 & w2 & E2) W2 Q2 C2 N2 V2 Y2 G2 L2 D2 P2 Z2 T2].
  destruct s2 as [c2 y2].
  cbn [me st_sys] in *. wp_steps. eapply wp_mono.
  - apply (wp_flush_packets F c2 y2 n); try done.
    + eapply sys_next_ok; [done|]. replace (this c2) with (this c1); [by rewrite Eth|].
      rewrite E2. by destruct c1.
    + replace (mt c2) with (mt c1); [by rewrite Emt|]. rewrite E2. by destruct c1.
  - intros full s3 [[(q3 & m3 & t3 & w3 & E3) W3 Q3 M3 K3 Y3 Z3] _ P3]. wp_steps.
    split; [done|]. cbn [me st_sys] in *. split; cbn [me st_sys]; try done.
    + exists q3, r, w3, m3, t3. rewrite E3, E2. subst c1. by destruct c.
    + assert (Ew : wn c1 = wn c) by (subst c1; by destruct c). rewrite <- Ew.
      by eapply windows_restored.
    + rewrite E3, E2. subst c1. by destruct c.
    + rewrite (content_kept _ _ K3), C2, Esq. done.
    + rewrite (qk_count _ _ K3), <- Esq. done.
    + eapply sys_next_trans; [|exact Y3]. eapply sys_next_mono, Y2. apply silent_quiet.
    + intros Hf. eapply kept_front; [done|]. apply G2. by rewrite Esq.
    + replace (ack_nr (rq c)) with (ack_nr (rq c2)) by (rewrite E2; subst c1; by destruct c).
      eapply sys_next_trans; [|exact Z3]. by apply sys_next_sends.
    + intros Hl. eapply labelled_kept; [done|]. apply L2. by rewrite Esq.
    + intros ack d Hd. eapply carries_kept; [done|]. apply D2. by rewrite Esq.
    + rewrite <- Esq, <- P2. unfold first_seq. by rewrite (qk_seq _ _ K3), (qk_count _ _ K3).
    + intros M Hps1 Hpl1. eapply paced_trans; [|apply P3]. rewrite length_take in Hpl1.
      assert (E12 : get_packet_size c1 = get_packet_size c) by (subst c1; by destruct c).
      eapply (paced_queued n flags _ c c1 y c2 y2); [subst c1; by destruct c..|exact Hqd|]. rewrite <- Esq.
      apply Hfit; [by rewrite E12|lia].
    + rewrite (qk_count _ _ K3), <- Esq. intros Hg. pose proof (so_count _ _ Hq) as H0.
      rewrite <- Esq in H0. eapply ends_kept; [exact K3|lia|by apply Z2].
    + rewrite <- Esq, <- (app_nil_r (take _ _)). eapply streams_trans; [exact T2|]. by apply streams_kept.
    + rewrite <- Esq. intros Hnil. eapply grown_kept; [|exact K3]. apply Hgrow. apply (f_equal length) in Hnil.
      rewrite length_take in Hnil. cbn in Hnil. lia.
Qed.
End Wp.
