(* ===== verification/Ack.v ===== *)
(** * Acknowledgements received

    ack_packet, selective_ack_bytes and selective_ack of src/utp_internal.cpp:
    a packet leaves the send queue, the round-trip time and the retransmission
    timeout are updated, and packets that selective acknowledgements show to be
    lost are sent again.  [mask] is the packet from the first byte of the
    selective acknowledgement to its end; a read past it is the fault
    [OutOfBounds]. *)
From S2P Require Import Prelude Wrap Packet Ring Delay Arrays SockAddr Context AckList Socket MtuSearch Send.

Section Ack.
Context {E : Env}.

Definition update_rtt (ertt current_ms : Z) (r : Retrans) : Retrans :=
  let r :=
    if rtt r =? 0 then r <| rtt := ertt |> <| rtt_var := ertt / 2 |>
    else
      let delta := i32 (rtt r - ertt) in
      r <| rtt_var := u32 (rtt_var r
                           + Z.quot (i32 (Z.abs delta - rtt_var r)) 4) |>
        <| rtt := u32 (rtt r - rtt r / 8 + ertt / 8) |>
        <| rtt_hist ::= DelayHist.add_sample ertt current_ms |> in
  r <| rto := tmax (u32 (rtt r + rtt_var r * 4)) 1000 |>.

Definition ack_packet (seq : Z) : M St Z :=
  q ← my sq;
  match ring_get (outbuf q) seq with
  | None => mret 1
  | Some p =>
      if pk_transmissions p =? 0 then mret 2
      else
        upd_sq (fun q => q <| outbuf ::= fun r => ring_put r seq None |>) ;;
        t ← now_ms;
        when (pk_transmissions p =? 1) (
          c ← my this;
          us ← utp_call_get_microseconds c;
          upd_rt (update_rtt (u32 (u64 (us - pk_time_sent p) / 1000)) t)) ;;
        upd_rt (fun r => r <| retransmit_timeout := rto r |>
                           <| rto_timeout := u64 (t + rto r) |>) ;;
        when (negb (pk_need_resend p)) (
          q ← my sq;
          assert_at 1419 (pk_payload p <=? cur_window q) ;;
          upd_sq (fun q => q <| cur_window ::= fun w => w - pk_payload p |>)) ;;
        upd_rt (fun r => r <| retransmit_count := 0 |>) ;;
        mret 0
  end.

(** [min_rtt] after one more packet, sent at [time_sent], is acknowledged *)
Definition sample_rtt (now time_sent min_rtt : Z) : Z :=
  if time_sent <? now then tmin min_rtt (i64 (now - time_sent)) else tmin min_rtt 50000.

(** is [v] outside the packets a selective acknowledgement may name? *)
Definition outside_window (q : SendQueue) (v : Z) : bool :=
  u16 (cur_window_packets q - 1) <=? u16 (seq_nr q - v - 1).

(** [mask[bits>>3] & (1 << (bits & 7))] *)
Definition bit_of (mask : list Z) (bits : Z) : option bool :=
  mask_bit mask bits.

(** the values of [bits] in a loop that counts down to -1 *)
Definition bits_down (hi : Z) : list Z := (fun k => hi - k) <$> zseq (Z.to_nat (hi + 2)).

Definition sack_bytes_step (q : SendQueue) (base now : Z) (mask : list Z)
    (acc : Z * Z) (bits : Z) : M St (Z * Z) :=
  let '(acked_bytes, min_rtt) := acc in
  let v := u32 (base + bits) in
  if outside_window q v then mret acc else
  match ring_get (outbuf q) v with
  | None => mret acc
  | Some p =>
      if pk_transmissions p =? 0 then mret acc
      else
        match (if bits <? 0 then Some false else bit_of mask bits) with
        | None => fail OutOfBounds
        | Some bit_set =>
            if bit_set : bool then
              assert_at 1452 (0 <=? i32 (pk_payload p)) ;;
              mret (u64 (acked_bytes + pk_payload p), sample_rtt now (pk_time_sent p) min_rtt)
            else mret acc
        end
  end.

(** the bytes a selective acknowledgement covers, and the new [min_rtt] *)
Definition selective_ack_bytes (base : Z) (mask : list Z) (len min_rtt : Z) : M St (Z * Z) :=
  q ← my sq;
  if cur_window_packets q =? 0 then mret (0, min_rtt) else
  c ← my this;
  now ← utp_call_get_microseconds c;
  mfold (sack_bytes_step q base now mask) (0, min_rtt) (bits_down (len * 8)).

Definition MAX_EACK : Z := 128.

(** pushing on the stack of packets to resend: when it is full, the lower
    half is thrown away (the top is the head of the list) *)
Definition push_resend (v : Z) (resends : list Z) : list Z :=
  let nr := Z.of_nat (length resends) in
  v :: (if MAX_EACK - 2 <=? nr then take (Z.to_nat (nr - MAX_EACK / 2)) resends else resends).

(** may [v] be resent, [count] packets after it having arrived? *)
Definition resend_due (r : Retrans) (v count : Z) : bool :=
  (u16 (v - fast_resend_seq_nr r) <=? OUTGOING_BUFFER_MAX_SIZE) &&
  (DUPLICATE_ACKS_BEFORE_RESEND <=? count).

Definition sack_step (base : Z) (mask : list Z) (acc : Z * list Z) (bits : Z) :
    M St (Z * list Z) :=
  let '(count, resends) := acc in
  c ← my (fun c => c);
  let q := sq c in
  let v := u32 (base + bits) in
  if outside_window q v then mret acc else
  match (if bits <? 0 then Some false else bit_of mask bits) with
  | None => fail OutOfBounds
  | Some bit_set =>
      let count := if bit_set : bool then count + 1 else count in
      match ring_get (outbuf q) v with
      | None => mret (count, resends)
      | Some p =>
          if pk_transmissions p =? 0 then mret (count, resends)
          else if bit_set then
            assert_at 1553 (negb (Z.land v (Ring.mask (outbuf q)) =?
              Z.land (seq_nr q - cur_window_packets q) (Ring.mask (outbuf q)))) ;;
            ack_packet v ;;
            mret (count, resends)
          else if resend_due (rt c) v count
          then mret (count, push_resend v resends)
          else mret (count, resends)
      end
  end.

(** resending from the top of the stack, at most four packets; was anything
    sent? *)
Fixpoint resend_loop (resends : list Z) (left : nat) : M St bool :=
  match resends, left with
  | [], _ => mret false
  | _, O => mret false
  | v :: resends, S left' =>
      q ← my sq;
      match ring_get (outbuf q) v with
      | None => resend_loop resends left
      | Some _ =>
          send_packet v ;;
          upd_rt (fun r => r <| fast_resend_seq_nr := u16 (v + 1) |>) ;;
          resend_loop resends left' ;;
          mret true
      end
  end.

Definition selective_ack (base : Z) (mask : list Z) (len : Z) : M St unit :=
  q ← my sq;
  if cur_window_packets q =? 0 then mret tt else
  acc ← mfold (sack_step base mask) (0, []) (bits_down (len * 8 - 1));
  let '(count, resends) := acc in
  r ← my rt;
  let resends := if resend_due r (base - 1) count
                 then u16 (base - 1) :: resends else resends in
  back_off ← resend_loop resends 4;
  t ← now_ms;
  when back_off (upd_wn (maybe_decay_win t)) ;;
  upd_rt (fun r => r <| duplicate_ack := u8 count |>).
End Ack.
