(* ===== verification/Ccontrol.v ===== *)
(** * The congestion controller

    apply_ccontrol of src/utp_internal.cpp, with the floating-point arithmetic of
    the source. *)
From S2P Require Import Prelude Wrap Delay DelayAvg Arrays SockAddr Context AckList Socket Doubles.

Section Ccontrol.
Context {E : Env}.

(** the delay used: our estimate, never more than the round trip *)
Definition our_delay_of (d : Delays) (min_rtt : Z) : Z :=
  i32 (tmin (DelayHist.get_value (our_hist d)) (u32 min_rtt)).

(** the penalty for a peer whose clock runs slow *)
Definition drift_penalty (clock_drift : Z) : Z :=
  if clock_drift <? -200000 then Z.quot (i32 (- clock_drift - 200000)) 7 else 0.

Definition target_of (w : Windows) : Z :=
  let target := i32 (target_delay w) in if target <=? 0 then 100000 else target.

Definition window_factor (bytes_acked max_window : Z) : double :=
  d_div (d_of_Z (tmin bytes_acked max_window)) (d_of_Z (tmax max_window bytes_acked)).

Definition scaled_gain (bytes_acked max_window target our_delay : Z) : double :=
  let off_target := d_of_Z (i32 (target - our_delay)) in
  let delay_factor := d_div off_target (d_of_Z target) in
  d_mul (d_mul (d_of_Z MAX_CWND_INCREASE_BYTES_PER_RTT) (window_factor bytes_acked max_window))
    delay_factor.

(** the right-hand side of the assertion on the gain *)
Definition gain_bound (bytes_acked max_window : Z) : double :=
  d_add (d_of_Z 1)
    (d_div (d_mul (d_of_Z MAX_CWND_INCREASE_BYTES_PER_RTT)
                  (d_of_Z (tmin bytes_acked max_window)))
           (d_of_Z (tmax max_window bytes_acked))).

Definition ledbat_cwnd (max_window : Z) (gain : double) : Z :=
  let d := d_add (d_of_Z max_window) gain in
  if d_ltb d (d_of_Z MIN_WINDOW_SIZE) then MIN_WINDOW_SIZE else d_to_size d.

(** slow start, or the LEDBAT window *)
Definition grow_window (c : UTPSocket) (bytes_acked target our_delay ledbat : Z) (w : Windows) :
    Windows :=
  if slow_start w then
    let ss_cwnd := d_to_size (d_add (d_of_Z (max_window w))
      (d_mul (window_factor bytes_acked (max_window w)) (d_of_Z (get_packet_size c)))) in
    if ssthresh w <? ss_cwnd then w <| slow_start := false |>
    else if d_ltb (d_mul (d_of_Z target) d_0_9) (d_of_Z our_delay)
    then w <| slow_start := false |> <| ssthresh := max_window w |>
    else w <| max_window := tmax ss_cwnd ledbat |>
  else w <| max_window := ledbat |>.

Definition clamp_window (w : Windows) : Windows :=
  w <| max_window := clamp (max_window w) MIN_WINDOW_SIZE (opt_sndbuf w) |>.

Definition apply_ccontrol (bytes_acked actual_delay min_rtt : Z) : M St unit :=
  assert_at 1645 (0 <=? min_rtt) ;;
  c ← my (fun c => c);
  let our_delay := our_delay_of (dl c) min_rtt in
  assert_at 1647 (negb (our_delay =? INT_MAX)) ;;
  assert_at 1648 (0 <=? our_delay) ;;
  utp_call_on_delay_sample (this c) (our_delay / 1000) ;;
  let w := wn c in
  let target := target_of w in
  let our_delay := i32 (our_delay + drift_penalty (clock_drift (avg (dl c)))) in
  assert_at 1693 (0 <? bytes_acked) ;;
  let gain := scaled_gain bytes_acked (max_window w) target our_delay in
  assert_at 1704 (d_leb gain (gain_bound bytes_acked (max_window w))) ;;
  t ← now_ms;
  let gain := if d_ltb (d_of_Z 0) gain && (1000 <? u64 (t - last_maxed_out_window w))
              then d_of_Z 0 else gain in
  let ledbat := ledbat_cwnd (max_window w) gain in
  upd_wn (grow_window c bytes_acked target our_delay ledbat) ;;
  upd_wn clamp_window ;;
  (* an argument of the log call *)
  utp_call_get_microseconds (this c) ;;
  mret tt.
End Ccontrol.
