(* ===== verification/Incoming.v ===== *)
(** * Processing an incoming packet

    utp_process_incoming of src/utp_internal.cpp, one definition per stage of the
    function, composed in its order: validation of the acknowledgement number,
    the extension headers, duplicate acknowledgements and MTU probes, the count
    of acknowledged bytes, the delay measurements, the congestion controller,
    the state changes, the send queue, and the delivery of data through the
    reorder buffer. *)
From S2P Require Import Prelude Wrap Packet Ring Delay DelayAvg Arrays SockAddr Context AckList Socket MtuSearch Send Ack Ccontrol.

Section Incoming.
Context {E : Env}.

Definition utp_register_recv_packet (len : Z) : M St unit :=
  mod_ctx (fun c => c <| nraw_recv ::= count_packet len |>).

(** the acknowledgement number is one we could have been sent: neither past
    what was sent nor too far back *)
Definition ack_nr_invalid (c : UTPSocket) (pk_flags pk_ack_nr : Z) : bool :=
  let q := sq c in
  let curr_window := tmax (u16 (cur_window_packets q + ACK_NR_ALLOWED_WINDOW))
                          ACK_NR_ALLOWED_WINDOW in
  (negb (pk_flags =? ST_SYN) || negb (is_state (state c) CS_SYN_RECV)) &&
  (wrapping_compare_less (u32 (seq_nr q - 1)) pk_ack_nr ACK_NR_MASK ||
   wrapping_compare_less pk_ack_nr (u32 (seq_nr q - 1 - curr_window)) ACK_NR_MASK).

(** the number of packets acknowledged; 0 for an old acknowledgement *)
Definition acks_of (q : SendQueue) (pk_ack_nr : Z) : Z :=
  let acks := u16 (pk_ack_nr - (seq_nr q - 1 - cur_window_packets q)) in
  if cur_window_packets q <? acks then 0 else acks.

(** the duplicate-acknowledgement counter, and what it says about a probe *)
Definition count_duplicate (pk_flags pk_ack_nr : Z) : M St unit :=
  c ← my (fun c => c);
  let q := sq c in
  when (0 <? cur_window_packets q) (
    if (pk_ack_nr =? u16 (seq_nr q - cur_window_packets q - 1)) && (pk_flags =? ST_STATE) then
      upd_rt (fun r => r <| duplicate_ack ::= fun n => u8 (n + 1) |>) ;;
      r ← my rt;
      when ((duplicate_ack r =? DUPLICATE_ACKS_BEFORE_RESEND) &&
            negb (mtu_probe_seq (mt c) =? 0)) (
        if pk_ack_nr =? u16 (mtu_probe_seq (mt c) - 1) then probe_lost
        else upd_mt clear_probe)
    else upd_rt (fun r => r <| duplicate_ack := 0 |>)).

(** one acknowledged packet: its bytes, its round trip, the MTU probe *)
Definition count_acked (now : Z) (acc : Z * Z) (i : Z) : M St (Z * Z) :=
  let '(acked_bytes, min_rtt) := acc in
  c ← my (fun c => c);
  let q := sq c in
  let seq := u16 (seq_nr q - cur_window_packets q + i) in
  match ring_get (outbuf q) seq with
  | None => mret acc
  | Some p =>
      if pk_transmissions p =? 0 then mret acc
      else
        assert_at 1992 (0 <=? i32 (pk_payload p)) ;;
        when (negb (mtu_probe_seq (mt c) =? 0) && (seq =? mtu_probe_seq (mt c))) probe_acked ;;
        mret (u64 (acked_bytes + pk_payload p), sample_rtt now (pk_time_sent p) min_rtt)
  end.

Definition count_acked_bytes (packet : list Z) (pk_ack_nr acks : Z) (selack_ptr : option Z) :
    M St (Z * Z) :=
  p ← my this;
  now ← utp_call_get_microseconds p;
  r ← mfold (count_acked now) (0, INT64_MAX) (zseq (Z.to_nat acks));
  match selack_ptr with
  | None => mret r
  | Some sp =>
      match Packet.rd packet (sp - 1) with
      | None => fail OutOfBounds
      | Some len =>
          s ← selective_ack_bytes (u16 (pk_ack_nr + 2)) (drop (Z.to_nat sp) packet) len r.2;
          mret (u64 (r.1 + s.1), s.2)
      end
  end.

(** our measurement of the peer's delay, and the correction of our own
    history for clock skew *)
Definition their_delay_update (tv_usec time current_ms : Z) (d : Delays) : Delays :=
  let their_delay := if tv_usec =? 0 then 0 else u32 (time - tv_usec) in
  let prev_delay_base := DelayHist.delay_base (their_hist d) in
  let d := d <| reply_micro := their_delay |> <| last_measured_delay := current_ms |> in
  let d := if negb (their_delay =? 0)
           then d <| their_hist ::= DelayHist.add_sample their_delay current_ms |> else d in
  let base := DelayHist.delay_base (their_hist d) in
  if negb (prev_delay_base =? 0) && wrapping_compare_less base prev_delay_base TIMESTAMP_MASK
     && (u32 (prev_delay_base - base) <=? 10000)
  then d <| our_hist ::= DelayHist.shift (u32 (prev_delay_base - base)) |> else d.

Definition actual_delay_of (reply : Z) : Z := if reply =? INT_MAX then 0 else reply.

(** the peer's measurement of our delay, and the average over five seconds *)
Definition our_delay_update (actual_delay : Z) : M St unit :=
  t ← now_ms;
  when (negb (actual_delay =? 0)) (
    upd_dl (fun d => d <| our_hist ::= DelayHist.add_sample actual_delay t |>) ;;
    d ← my dl;
    match update_average actual_delay t (avg d) with
    | inl f => fail f
    | inr a => upd_dl (fun d => d <| avg := a |>)
    end).

(** "if the delay estimate exceeds the RTT, adjust the base_delay" *)
Definition cap_delay_by_rtt (min_rtt : Z) (d : Delays) : Delays :=
  let v := DelayHist.get_value (our_hist d) in
  if min_rtt <? v then d <| our_hist ::= DelayHist.shift (u32 (v - min_rtt)) |> else d.

Definition measure_delays (pf1 : PacketFormatV1) (time acked_bytes min_rtt : Z) : M St unit :=
  t ← now_ms;
  upd_dl (their_delay_update (pf_tv_usec pf1) time t) ;;
  let actual_delay := actual_delay_of (pf_reply_micro pf1) in
  our_delay_update actual_delay ;;
  assert_at 2160 (0 <=? min_rtt) ;;
  upd_dl (cap_delay_by_rtt min_rtt) ;;
  when (negb (actual_delay =? 0) && (1 <=? acked_bytes))
    (apply_ccontrol acked_bytes actual_delay min_rtt).

(** the peer's window, and the timer that reopens a closed one *)
Definition update_peer_window (windowsize : Z) : M St unit :=
  t ← now_ms;
  upd_wn (fun w =>
    let w := w <| max_window_user := windowsize |> in
    if windowsize =? 0 then w <| zerowindow_time := u64 (t + 15000) |> else w).

(** the state changes an acknowledgement causes *)
Definition ack_transitions (pk_flags acks : Z) : M St unit :=
  c ← my (fun c => c);
  when ((pk_flags =? ST_DATA) && is_state (state c) CS_SYN_RECV) (
    set_state CS_CONNECTED ;;
    utp_call_on_state_change (this c) UTP_STATE_WRITABLE) ;;
  c ← my (fun c => c);
  if (pk_flags =? ST_STATE) && is_state (state c) CS_SYN_SENT then
    set_state CS_CONNECTED ;;
    on_connect ← get_ctx (fun x => has_callback x UTP_ON_CONNECT);
    (if on_connect : bool then utp_call_on_connect (this c)
     else utp_call_on_state_change (this c) UTP_STATE_CONNECT)
  else
    when (fin_sent c && (cur_window_packets (sq c) =? acks)) (
      upd (fun c => c <| fin_sent_acked := true |>) ;;
      when (close_requested c) (set_state CS_DESTROY)).

Definition advance_fast_resend (pk_ack_nr : Z) (r : Retrans) : Retrans :=
  if wrapping_compare_less (fast_resend_seq_nr r) (u16 (pk_ack_nr + 1)) ACK_NR_MASK
  then r <| fast_resend_seq_nr := u16 (pk_ack_nr + 1) |> else r.

(** the oldest [acks] packets leave the queue, up to one never sent *)
Fixpoint ack_loop (acks : nat) : M St unit :=
  match acks with
  | O => mret tt
  | S acks =>
      q ← my sq;
      ack_status ← ack_packet (u16 (seq_nr q - cur_window_packets q));
      if ack_status =? 2 then mret tt
      else
        upd_sq (fun q => q <| cur_window_packets ::= fun n => u16 (n - 1) |>) ;;
        ack_loop acks
  end.

Definition front (q : SendQueue) : option OutgoingPacket :=
  ring_get (outbuf q) (seq_nr q - cur_window_packets q).

(** packets at the front that were selectively acknowledged leave too *)
Fixpoint skip_acked (fuel : nat) : M St unit :=
  q ← my sq;
  if (0 <? cur_window_packets q) && bool_decide (front q = None) then
    match fuel with
    | O => fail OutOfFuel
    | S fuel =>
        upd_sq (fun q => q <| cur_window_packets ::= fun n => u16 (n - 1) |>) ;;
        skip_acked fuel
    end
  else mret tt.

Definition assert_front (line : Z) : M St unit :=
  q ← my sq;
  assert_at line ((cur_window_packets q =? 0) || negb (bool_decide (front q = None))).

(** the last packet is sent when it is the only one *)
Definition flush_nagle : M St unit :=
  q ← my sq;
  when (cur_window_packets q =? 1) (
    p ← get_pkt (seq_nr q - 1);
    when (pk_transmissions p =? 0) (send_packet (seq_nr q - 1))).

Definition fast_timeout_retry : M St unit :=
  c ← my (fun c => c);
  let q := sq c in
  when (fast_timeout (rt c)) (
    if negb (u16 (seq_nr q - cur_window_packets q) =? fast_resend_seq_nr (rt c)) then
      upd_rt (fun r => r <| fast_timeout := false |>)
    else
      match front q with
      | None => mret tt
      | Some p =>
          when (0 <? pk_transmissions p) (
            upd_rt (fun r => r <| fast_resend_seq_nr ::= fun n => u16 (n + 1) |>) ;;
            send_packet (seq_nr q - cur_window_packets q))
      end).

(** everything guarded by [if (acks <= conn->cur_window_packets)] *)
Definition process_acks (pf1 : PacketFormatV1) (pk_flags pk_ack_nr acks : Z) : M St unit :=
  q ← my sq;
  when (acks <=? cur_window_packets q) (
    update_peer_window (pf_windowsize pf1) ;;
    ack_transitions pk_flags acks ;;
    upd_rt (advance_fast_resend pk_ack_nr) ;;
    ack_loop (Z.to_nat acks) ;;
    q ← my sq;
    skip_acked (Z.to_nat (cur_window_packets q)) ;;
    assert_front 2279 ;;
    flush_nagle ;;
    fast_timeout_retry).

Definition process_selack (packet : list Z) (pk_ack_nr : Z) (selack_ptr : option Z) : M St unit :=
  match selack_ptr with
  | None => mret tt
  | Some sp =>
      match Packet.rd packet (sp - 1) with
      | None => fail OutOfBounds
      | Some len => selective_ack (pk_ack_nr + 2) (drop (Z.to_nat sp) packet) len
      end
  end.

(** "Mark the socket as writable" *)
Definition mark_writable : M St unit :=
  c ← my (fun c => c);
  if is_state (state c) CS_CONNECTED_FULL then
    full ← is_full (-1);
    when (negb full) (
      set_state CS_CONNECTED ;;
      utp_call_on_state_change (this c) UTP_STATE_WRITABLE)
  else mret tt.

(** ** Data *)

Definition note_fin (pk_flags pk_seq_nr : Z) (q : RecvQueue) : RecvQueue :=
  if (pk_flags =? ST_FIN) && negb (got_fin q)
  then q <| got_fin := true |> <| eof_pkt := pk_seq_nr |> else q.

Definition deliver (data : list Z) : M St unit :=
  c ← my (fun c => c);
  when (negb (bool_decide (data = [])) && negb (read_shutdown (rq c)))
    (utp_call_on_read (this c) data) ;;
  upd_rq (fun q => q <| ack_nr ::= fun n => u16 (n + 1) |>).

(** the end of the stream, once everything before it was delivered *)
Definition reach_eof : M St unit :=
  c ← my (fun c => c);
  let q := rq c in
  when (negb (got_fin_reached q) && got_fin q && (eof_pkt q =? ack_nr q)) (
    t ← now_ms;
    upd_rq (fun q => q <| got_fin_reached := true |>) ;;
    upd_rt (fun r => r <| rto_timeout := u64 (t + tmin (u32 (rto r * 3)) 60) |>) ;;
    utp_call_on_state_change (this c) UTP_STATE_EOF ;;
    send_ack false ;;
    upd_rq (fun q => q <| reorder_count := 0 |>)).

(** the [for (;;)] loop over the reorder buffer *)
Fixpoint drain (fuel : nat) : M St unit :=
  match fuel with
  | O => fail OutOfFuel
  | S fuel =>
      reach_eof ;;
      q ← my rq;
      if reorder_count q =? 0 then mret tt else
      match ring_get (inbuf q) (ack_nr q + 1) with
      | None => mret tt
      | Some p =>
          upd_rq (fun q => q <| inbuf ::= fun r => ring_put r (ack_nr q + 1) None |>) ;;
          deliver p ;;
          assert_at 2435 (0 <? reorder_count q) ;;
          upd_rq (fun q => q <| reorder_count ::= fun n => u16 (n - 1) |>) ;;
          drain fuel
      end
  end.

Definition in_order (data : list Z) : M St unit :=
  deliver data ;;
  q ← my rq;
  drain (S (Z.to_nat (reorder_count q))) ;;
  p ← my this;
  lift_sys (schedule_ack p).

(** a packet ahead of the expected one; [false] when it is dropped *)
Definition out_of_order (pk_seq_nr seqnr : Z) (data : list Z) : M St bool :=
  q ← my rq;
  if got_fin q && (eof_pkt q <? pk_seq_nr) then mret false
  else if 1023 <? seqnr then mret false
  else
    upd_rq (fun q => q <| inbuf ::= fun r => ensure_size r (pk_seq_nr + 1) (seqnr + 1) |>) ;;
    q ← my rq;
    match ring_get (inbuf q) pk_seq_nr with
    | Some _ => mret false
    | None =>
        assert_at 2499 (negb (Z.land pk_seq_nr (Ring.mask (inbuf q)) =?
                              Z.land (ack_nr q + 1) (Ring.mask (inbuf q)))) ;;
        upd_rq (fun q => q <| inbuf ::= fun r => ring_put r pk_seq_nr (Some data) |>
                           <| reorder_count ::= fun n => u16 (n + 1) |>) ;;
        p ← my this;
        lift_sys (schedule_ack p) ;;
        mret true
    end.

Definition receive_data (pk_flags pk_seq_nr seqnr : Z) (data : list Z) : M St Z :=
  c ← my (fun c => c);
  if pk_flags =? ST_STATE then mret 0
  else if negb (is_state (state c) CS_CONNECTED) && negb (is_state (state c) CS_CONNECTED_FULL)
  then mret 0
  else
    upd_rq (note_fin pk_flags pk_seq_nr) ;;
    if seqnr =? 0 then in_order data ;; mret (Z.of_nat (length data))
    else
      kept ← out_of_order pk_seq_nr seqnr data;
      mret (if kept : bool then Z.of_nat (length data) else 0).

(** ** The whole function *)

(** what follows the check of the sequence number *)
Definition process_valid (packet : list Z) (pf1 : PacketFormatV1) (time seqnr data : Z)
    (selack_ptr : option Z) : M St Z :=
  let pk_flags := pf_type pf1 in
  let pk_ack_nr := pf_ack_nr pf1 in
  q ← my sq;
  let acks := acks_of q pk_ack_nr in
  count_duplicate pk_flags pk_ack_nr ;;
  r ← count_acked_bytes packet pk_ack_nr acks selack_ptr;
  measure_delays pf1 time r.1 r.2 ;;
  process_acks pf1 pk_flags pk_ack_nr acks ;;
  process_selack packet pk_ack_nr selack_ptr ;;
  assert_front 2328 ;;
  mark_writable ;;
  receive_data pk_flags (pf_seq_nr pf1) seqnr (drop (Z.to_nat data) packet).

Definition process_parsed (packet : list Z) (pf1 : PacketFormatV1) (time : Z) (syn : bool)
    (data : Z) (selack_ptr : option Z) : M St Z :=
  c ← my (fun c => c);
  t ← now_ms;
  when (is_state (state c) CS_SYN_SENT)
    (upd_rq (fun q => q <| ack_nr := u16 (pf_seq_nr pf1 - 1) |>)) ;;
  upd (fun c => c <| last_got_packet := t |>) ;;
  if syn then mret 0 else
  q ← my rq;
  let seqnr := u16 (pf_seq_nr pf1 - ack_nr q - 1) in
  if REORDER_BUFFER_MAX_SIZE <=? seqnr then
    when ((SEQ_NR_MASK + 1 - REORDER_BUFFER_MAX_SIZE <=? seqnr) &&
          negb (pf_type pf1 =? ST_STATE))
      (lift_sys (schedule_ack (this c))) ;;
    mret 0
  else process_valid packet pf1 time seqnr data selack_ptr.

Definition utp_process_incoming (packet : list Z) (syn : bool) : M St Z :=
  utp_register_recv_packet (Z.of_nat (length packet)) ;;
  p ← my this;
  t ← utp_call_get_milliseconds p;
  mod_ctx (fun x => x <| current_ms := t |>) ;;
  match decode_header packet with
  | None => fail OutOfBounds
  | Some pf1 =>
      if ST_NUM_STATES <=? pf_type pf1 then mret 0 else
      time ← utp_call_get_microseconds p;
      c ← my (fun c => c);
      if ack_nr_invalid c (pf_type pf1) (pf_ack_nr pf1) then mret 0 else
      assert_at 1836 (negb (pf_type pf1 =? ST_RESET)) ;;
      match skip_extensions packet pf1 (extensions (rq c)) with
      | ExtOutOfBounds => fail OutOfBounds
      | ExtOutOfFuel => fail OutOfFuel
      | ExtDrop exts => upd_rq (fun q => q <| extensions := exts |>) ;; mret 0
      | ExtOk data selack_ptr exts =>
          upd_rq (fun q => q <| extensions := exts |>) ;;
          process_parsed packet pf1 time syn data selack_ptr
      end
  end.
End Incoming.
