(* ===== verification/AckQueue.v ===== *)
(** * Acknowledgements and the send queue

    ack_packet, selective_ack and the queue part of utp_process_incoming
    (src/utp_internal.cpp) against the invariant of SendQueue.v: whatever a peer
    acknowledges, no assertion on the queue fails, cur_window stays the number of
    bytes in flight, and only acknowledged packets leave the queue. *)
From S2P Require Import Prelude Wrap Packet Ring Delay Arrays SockAddr Context AckList Socket Frame.
From S2P Require Import MtuSearch Send SendQueue SendInv Flush Streams Ack Incoming.

(** ** Queues some packets of which were acknowledged *)

(** [q'] is what is left of [q]: only packets at places in [A] are gone *)
Record trimmed (A : Z -> Prop) (q q' : SendQueue) : Prop := {
  tm_seq : seq_nr q' = seq_nr q;
  tm_count : cur_window_packets q' <= cur_window_packets q;
  tm_left : forall j p', 0 <= j < cur_window_packets q' -> slot q' j = Some p' ->
    exists p, slot q j = Some p /\ kept p p';
  tm_gone : forall j p, 0 <= j < cur_window_packets q -> slot q j = Some p ->
    A j \/ (j < cur_window_packets q' /\ slot q' j <> None);
}.

Lemma trimmed_refl A q : trimmed A q q.
Proof.
  split; [done|done| |].
  - intros j p' _ Hp. exists p'. split; [done|apply kept_refl].
  - intros j p Hj Hp. right. split; [lia|by rewrite Hp].
Qed.

Lemma trimmed_trans A q1 q2 q3 : trimmed A q1 q2 -> trimmed A q2 q3 -> trimmed A q1 q3.
Proof.
  intros [S1 C1 L1 G1] [S2 C2 L2 G2]. split; [congruence|lia| |].
  - intros j p3 Hj H3. destruct (L2 j p3 Hj H3) as (p2 & H2 & K2).
    destruct (L1 j p2 ltac:(lia) H2) as (p1 & H1 & K1). exists p1.
    split; [done|by eapply kept_trans].
  - intros j p Hj Hp. destruct (G1 j p Hj Hp) as [|[Hlt Hn]]; [by left|].
    destruct (slot q2 j) as [p2|] eqn:E2; [|done]. apply (G2 j p2); [lia|done].
Qed.

Lemma trimmed_mono (A A' : Z -> Prop) q q' :
  (forall j, A j -> A' j) -> trimmed A q q' -> trimmed A' q q'.
Proof.
  intros H [? ? ? G]. split; try done. intros j p Hj Hp. destruct (G j p Hj Hp); [left|right]; auto.
Qed.

Lemma trimmed_descends A q q' : trimmed A q q' -> descends q q'.
Proof.
  intros [S C L _]. split; [done..|]. intros j p' Hj Hp'. destruct (L j p' Hj Hp') as (p & Hp & K).
  exists p. split; [done|by apply kept_outlasts].
Qed.

Lemma kept_trimmed A q q' : queue_kept q q' -> trimmed A q q'.
Proof.
  intros [C S K]. split; [done|lia| |].
  - intros j p' Hj Hp. specialize (K j ltac:(lia)). rewrite Hp in K.
    destruct (slot q j) as [p|]; [|done]. by exists p.
  - intros j p Hj Hp. right. split; [lia|]. specialize (K j Hj). rewrite Hp in K.
    by destruct (slot q' j).
Qed.

(** one packet taken out *)
Definition remove_at (q : SendQueue) (j : Z) : SendQueue :=
  set_slot q j None (cur_window q - slot_bytes (slot q j)).

Lemma remove_at_ok n q j :
  sq_ok n q -> 0 <= j < cur_window_packets q -> sq_ok n (remove_at q j).
Proof.
  intros Hq Hj. unfold remove_at.
  replace (cur_window q - _) with (cur_window q - slot_bytes (slot q j) + slot_bytes None)
    by (cbn; lia). by apply set_slot_ok.
Qed.

Lemma remove_at_slot n q j k :
  sq_ok n q -> 0 <= j < cur_window_packets q -> 0 <= k < cur_window_packets q ->
  slot (remove_at q j) k = if decide (k = j) then None else slot q k.
Proof. intros [] Hj Hk. apply slot_set; [done|lia|lia]. Qed.

Lemma remove_at_trimmed n (A : Z -> Prop) q j :
  sq_ok n q -> 0 <= j < cur_window_packets q -> A j -> trimmed A q (remove_at q j).
Proof.
  intros Hq Hj Ha. pose proof (remove_at_slot n q j) as Hs.
  assert (Ec : cur_window_packets (remove_at q j) = cur_window_packets q) by by destruct q.
  split; [by destruct q|lia| |]; rewrite ?Ec.
  - intros k p' Hk. rewrite Hs by done. case_decide; [done|]. intros Hp. exists p'.
    split; [done|apply kept_refl].
  - intros k p Hk Hp. rewrite Hs by done. case_decide; [subst; by left|right].
    split; [lia|by rewrite Hp].
Qed.

(** an empty place at the front given up *)
Lemma drop_oldest_count n q :
  sq_ok n q -> 0 < cur_window_packets q ->
  cur_window_packets (drop_oldest q) = cur_window_packets q - 1.
Proof.
  intros Hq Hc. pose proof (so_count _ _ Hq). destruct q. cbn in *.
  apply u16_small. unfold is_u16. lia.
Qed.

Lemma drop_oldest_trimmed n A q :
  sq_ok n q -> 0 < cur_window_packets q -> slot q (cur_window_packets q - 1) = None ->
  trimmed A q (drop_oldest q).
Proof.
  intros Hq Hc He. pose proof (drop_oldest_count n q Hq Hc) as Ec.
  assert (Es : forall j, slot (drop_oldest q) j = slot q j) by by destruct q.
  split; [by destruct q|lia| |]; rewrite ?Ec.
  - intros j p' Hj. rewrite Es. intros Hp. exists p'. split; [done|apply kept_refl].
  - intros j p Hj Hp. right. rewrite Es, Hp. split; [|done].
    destruct (Z.eq_dec j (cur_window_packets q - 1)) as [->|]; [|lia]. by rewrite He in Hp.
Qed.

(** what only opening and closing a socket change *)
Definition identity (c : UTPSocket) : PackedSockAddr * Z * bool :=
  (addr c, conn_id_recv c, fin_sent c).

(** ** What handling an acknowledgement may do *)
Record progress (A : Z -> Prop) (n' : Z) (s s' : St) : Prop := {
  pg_this : this (me s') = this (me s);
  pg_rq : rq (me s') = rq (me s);
  pg_avg : avg (dl (me s')) = avg (dl (me s));
  pg_state : state (me s') = CS_SYN_SENT -> state (me s) = CS_SYN_SENT;
  pg_sq : sq_ok n' (sq (me s'));
  pg_mt : mtu_ok (mt (me s'));
  pg_trim : trimmed A (sq (me s)) (sq (me s'));
  pg_sys : sys_next (speaks (ferries (sq (me s)) (sq (me s')) (ack_nr (rq (me s))))) (st_sys s) (st_sys s');
  pg_ident : identity (me s') = identity (me s);
}.

Lemma progress_trans A n1 n2 s1 s2 s3 :
  progress A n1 s1 s2 -> progress A n2 s2 s3 -> progress A n2 s1 s3.
Proof.
  intros [T1 R1 D1 S1 _ _ K1 Y1 I1] [T2 R2 D2 S2 Q2 M2 K2 Y2 I2]. split; auto; try congruence.
  - by eapply trimmed_trans.
  - rewrite R1 in Y2. eapply sys_next_trans; (eapply sys_next_speaks; [|eassumption]); intros bs.
    + eapply ferries_before, trimmed_descends, K2.
    + eapply ferries_after, trimmed_descends, K1.
Qed.

Lemma progress_mono (A A' : Z -> Prop) n s s' :
  (forall j, A j -> A' j) -> progress A n s s' -> progress A' n s s'.
Proof. intros H []. split; try done. by eapply trimmed_mono. Qed.

(** only fields the send queue does not depend on *)
Lemma progress_upd A n c y c' y' :
  sq_ok n (sq c) -> mtu_ok (mt c') -> this c' = this c -> rq c' = rq c ->
  avg (dl c') = avg (dl c) -> sq c' = sq c ->
  (state c' = CS_SYN_SENT -> state c = CS_SYN_SENT) -> identity c' = identity c ->
  sys_next mute y y' -> progress A n (mkSt c y) (mkSt c' y').
Proof.
  intros Hq Hm ? ? ? Es ? ? Hy. split; cbn [me st_sys]; rewrite ?Es; try done; [apply trimmed_refl|].
  by apply sys_next_mute.
Qed.

Lemma progress_refl A n c y :
  sq_ok n (sq c) -> mtu_ok (mt c) -> progress A n (mkSt c y) (mkSt c y).
Proof. intros. apply progress_upd; try done. apply sys_next_refl. Qed.

Lemma sends_progress A n s s' : sends n s s' -> progress A n s s'.
Proof.
  intros [(q & m & t & w & E) _ Q M K _ Z]. split; try done; try (rewrite E; by destruct (me s)).
  - by apply kept_trimmed.
  - eapply sys_next_speaks; [intros bs; by apply carries_ferries|].
    eapply sys_next_mono; [|exact Z]. intros r. apply sends_speaks.
Qed.

Lemma progress_sys A n s s' :
  progress A n s s' -> sys_ok (this (me s)) (st_sys s) -> sys_ok (this (me s')) (st_sys s').
Proof. intros [-> _ _ _ _ _ _ Hy _] H. by eapply sys_next_ok. Qed.

Section Wp.
Context {E : Env} {HA : GoodApp} (F : fault -> Prop).

(** ** One packet acknowledged *)
Lemma wp_ack_packet n seq j (Q : Z -> St -> Prop) c y :
  sq_ok n (sq c) -> 0 <= j < cur_window_packets (sq c) ->
  same_place (outbuf (sq c)) seq (seq_nr (sq c) - j - 1) ->
  (slot (sq c) j = None -> Q 1 (mkSt c y)) ->
  (forall p, slot (sq c) j = Some p -> pk_transmissions p = 0 -> Q 2 (mkSt c y)) ->
  (forall p r y', slot (sq c) j = Some p -> pk_transmissions p <> 0 -> sys_next mute y y' ->
     Q 0 (mkSt (c <| sq := remove_at (sq c) j |> <| rt := r |>) y')) ->
  wp F (ack_packet seq) Q (mkSt c y).
Proof.
  intros Hq Hj Hi H1 H2 H0. pose proof (so_ring _ _ Hq) as Hwf. pose proof (so_mask _ _ Hq) as Hm.
  unfold ack_packet. wp_steps. rewrite (ring_get_slot _ _ j) by done.
  destruct (slot (sq c) j) as [p|] eqn:Hp; [|by wp_steps; apply H1].
  destruct (Z.eqb_spec (pk_transmissions p) 0) as [H0'|Hn0]; [by wp_steps; eapply H2|].
  wp_steps. set (c1 := c <| sq ::= _ |>).
  (* after the round-trip measurement *)
  assert (Hrest : forall r y', sys_next mute y y' -> wp F
    (upd_rt (fun r => r <| retransmit_timeout := rto r |>
                        <| rto_timeout := u64 (current_ms (ctx y) + rto r) |>) ;;
     when (negb (pk_need_resend p)) (
       q ← my sq;
       assert_at 1419 (pk_payload p <=? cur_window q) ;;
       upd_sq (fun q => q <| cur_window ::= fun w => w - pk_payload p |>)) ;;
     upd_rt (fun r => r <| retransmit_count := 0 |>) ;; mret 0) Q (mkSt (c1 <| rt := r |>) y')).
  { intros r y' Hy'. pose proof (slot_le_window _ _ j Hq Hj) as Hle.
    rewrite Hp in Hle. cbn [slot_bytes] in Hle. unfold in_flight in Hle.
    rewrite (proj2 (Z.eqb_neq _ _) Hn0) in Hle. cbn [negb andb] in Hle.
    assert (Hend : forall r1, Q 0 (mkSt (c <| sq := remove_at (sq c) j |> <| rt := r1 |>) y'))
      by (intros; by eapply H0).
    unfold remove_at, set_slot in Hend. rewrite Hp in Hend. cbn [slot_bytes] in Hend.
    unfold in_flight in Hend. rewrite (proj2 (Z.eqb_neq _ _) Hn0) in Hend. cbn [negb andb] in Hend.
    assert (Eput : ring_put (outbuf (sq c)) seq None
                   = ring_put (outbuf (sq c)) (seq_nr (sq c) - j - 1) None)
      by by apply ring_put_place.
    wp_steps. apply wp_when; intros Hr; rewrite Hr in *; cbn iota in *.
    - wp_steps. apply wp_assert; [intros _|].
      + wp_steps. destruct c, sq. cbn in *. rewrite Eput. apply Hend.
      + destruct c, sq. cbn in *. intros ?%Z.leb_gt. lia.
    - wp_steps. destruct c, sq. cbn in *. rewrite Eput. rewrite Z.sub_0_r in Hend. apply Hend. }
  apply wp_when; intros Ht.
  - wp_steps. apply (wp_micros_R F mute silent_mute). intros us y' Hy' _. wp_step.
    set (r1 := update_rtt (u32 (u64 (us - pk_time_sent p) / 1000)) (current_ms (ctx y)) (rt c)).
    specialize (Hrest r1 y' Hy'). unfold c1, r1 in *. destruct c. exact Hrest.
  - specialize (Hrest (rt c) y (sys_next_refl _ _)). unfold c1 in *. destruct c. exact Hrest.
Qed.

Lemma remove_progress A n j c y r y' :
  sq_ok n (sq c) -> mtu_ok (mt c) -> 0 <= j < cur_window_packets (sq c) -> A j ->
  sys_next mute y y' ->
  progress A n (mkSt c y) (mkSt (c <| sq := remove_at (sq c) j |> <| rt := r |>) y').
Proof.
  intros Hq Hm Hj Ha Hy. pose proof (remove_at_ok n _ j Hq Hj).
  pose proof (remove_at_trimmed n A _ j Hq Hj Ha).
  split; cbn [me st_sys]; try (by destruct c). by apply sys_next_mute.
Qed.

(** the places [acks] from the front *)
Definition acked_front (q : SendQueue) (acks : Z) (j : Z) : Prop :=
  cur_window_packets q - acks <= j.

(** the loop stopped at a packet that was never sent *)
Definition unsent_front (q : SendQueue) : Prop :=
  exists p, slot q (cur_window_packets q - 1) = Some p /\ pk_transmissions p = 0.

Lemma drop_progress A n c y :
  sq_ok n (sq c) -> mtu_ok (mt c) -> 0 < cur_window_packets (sq c) ->
  slot (sq c) (cur_window_packets (sq c) - 1) = None ->
  progress A n (mkSt c y) (mkSt (c <| sq ::= drop_oldest |>) y).
Proof.
  intros Hq Hm Hc He. pose proof (drop_oldest_ok n _ Hq Hc He).
  pose proof (drop_oldest_trimmed n A _ Hq Hc He).
  split; cbn [me st_sys]; try (by destruct c). apply sys_next_refl.
Qed.

Lemma wp_ack_loop A n : forall (acks : nat) c y,
  sq_ok n (sq c) -> mtu_ok (mt c) -> Z.of_nat acks <= cur_window_packets (sq c) ->
  (forall j, acked_front (sq c) (Z.of_nat acks) j -> A j) ->
  wp F (ack_loop acks) (fun _ s' => progress A n (mkSt c y) s' /\
    (cur_window_packets (sq (me s')) = cur_window_packets (sq c) - Z.of_nat acks \/
     unsent_front (sq (me s')))) (mkSt c y).
Proof.
  induction acks as [|acks IH]; intros c y Hq Hm Hle Ha; cbn [ack_loop].
  { wp_steps. split; [by apply progress_refl|left; lia]. }
  pose proof (so_count _ _ Hq) as Hc. set (w := cur_window_packets (sq c)) in *.
  (* the packet is gone, or its place was empty already *)
  assert (Hnext : forall c1 y1, progress A n (mkSt c y) (mkSt c1 y1) ->
    cur_window_packets (sq c1) = w -> slot (sq c1) (w - 1) = None ->
    wp F (upd_sq drop_oldest ;; ack_loop acks) (fun _ s' => progress A n (mkSt c y) s' /\
      (cur_window_packets (sq (me s')) = w - Z.of_nat (S acks) \/ unsent_front (sq (me s'))))
      (mkSt c1 y1)).
  { intros c1 y1 H1 Ec He. wp_step. wp_step. pose proof (pg_sq _ _ _ _ H1) as Hq1.
    pose proof (pg_mt _ _ _ _ H1) as Hm1. cbn [me] in *.
    assert (H2 : progress A n (mkSt c1 y1) (mkSt (c1 <| sq ::= drop_oldest |>) y1))
      by (apply drop_progress; rewrite ?Ec; (done || lia)).
    pose proof (drop_oldest_count n (sq c1) Hq1 ltac:(lia)) as Ed.
    assert (Ec2 : cur_window_packets (sq (c1 <| sq ::= drop_oldest |>)) = w - 1)
      by (rewrite Ec in Ed; by destruct c1).
    eapply wp_mono.
    - apply IH; [apply H2|apply H2|lia|]. unfold acked_front. rewrite Ec2. intros j Hj.
      apply Ha. unfold acked_front. fold w. lia.
    - intros _ s' [H3 Hend]. rewrite Ec2 in Hend. split.
      + eapply progress_trans; [exact H1|]. by eapply progress_trans.
      + destruct Hend; [left; lia|by right]. }
  wp_steps. apply (wp_ack_packet n _ (w - 1)); [done|lia| | | |].
  - apply (place_u16 n); [done|]. fold w. word_lia.
  - intros He. cbn [Z.eqb Pos.eqb]. apply Hnext; [by apply progress_refl|done|done].
  - intros p Hp H0. cbn [Z.eqb Pos.eqb]. wp_steps. split; [by apply progress_refl|].
    right. exists p. by split.
  - intros p r y' Hp Hn0 Hy'. cbn [Z.eqb]. apply Hnext.
    + apply remove_progress; try done; [lia|]. apply Ha. unfold acked_front. fold w. lia.
    + by destruct c, sq.
    + replace (sq _) with (remove_at (sq c) (w - 1)) by by destruct c.
      by rewrite (remove_at_slot n), decide_True by (done || lia).
Qed.

Lemma front_slot q n :
  sq_ok n q -> ring_get (outbuf q) (seq_nr q - cur_window_packets q) = slot q (cur_window_packets q - 1).
Proof. intros Hq. unfold slot. f_equal. lia. Qed.

(** the queue starts at a packet again *)
Lemma wp_skip_acked A n : forall (fuel : nat) c y,
  sq_ok n (sq c) -> mtu_ok (mt c) -> cur_window_packets (sq c) <= Z.of_nat fuel ->
  wp F (skip_acked fuel)
    (fun _ s' => progress A n (mkSt c y) s' /\ front_ok (sq (me s')) /\
       (unsent_front (sq c) -> sq (me s') = sq c)) (mkSt c y).
Proof.
  assert (Hstop : forall c y, sq_ok n (sq c) -> mtu_ok (mt c) ->
    (0 <? cur_window_packets (sq c)) && bool_decide (Incoming.front (sq c) = None) = false ->
    progress A n (mkSt c y) (mkSt c y) /\ front_ok (sq c) /\ (unsent_front (sq c) -> sq c = sq c)).
  { intros c y Hq Hm Hb. split; [by apply progress_refl|]. split; [|done]. intros Hc.
    rewrite (proj2 (Z.ltb_lt _ _)) in Hb by done. cbn in Hb.
    apply bool_decide_eq_false in Hb. unfold Incoming.front in Hb. by rewrite (front_slot _ n) in Hb. }
  induction fuel as [|fuel IH]; intros c y Hq Hm Hfuel; cbn [skip_acked]; wp_steps;
    destruct (_ && _) eqn:Hb; wp_steps; try by apply Hstop.
  { apply andb_true_iff in Hb as [Hc%Z.ltb_lt _]. lia. }
  apply andb_true_iff in Hb as [Hc%Z.ltb_lt He%bool_decide_eq_true].
  unfold Incoming.front in He. rewrite (front_slot _ n) in He by done.
  pose proof (drop_progress A n c y Hq Hm Hc He) as H1.
  set (c1 := c <| sq ::= _ |>). change (c <| sq ::= drop_oldest |>) with c1 in H1.
  pose proof (drop_oldest_count n (sq c) Hq Hc) as Ed.
  eapply wp_mono; [apply IH; [apply H1|apply H1|]|].
  - unfold c1. destruct c. cbn in *. lia.
  - intros _ s' (H2 & Hf & _). split; [by eapply progress_trans|]. split; [done|].
    intros (p & Hp & _). by rewrite He in Hp.
Qed.

(** ** Packets sent again *)

(** a socket that can send, with a packet at the front of its queue *)
Record can_send (n : Z) (s : St) : Prop := {
  cs_sys : sys_ok (this (me s)) (st_sys s);
  cs_sq : sq_ok n (sq (me s));
  cs_mt : mtu_ok (mt (me s));
  cs_front : front_ok (sq (me s));
}.

(** an acknowledgement handled, ready for the next stage *)
Definition handled A n' s s' : Prop := progress A n' s s' /\ can_send n' s'.

Lemma handled_trans A n1 n2 s1 s2 s3 :
  handled A n1 s1 s2 -> handled A n2 s2 s3 -> handled A n2 s1 s3.
Proof. intros [H1 _] [H2 H3]. split; [by eapply progress_trans|done]. Qed.

Lemma can_send_mono n n' s : n <= n' -> can_send n s -> can_send n' s.
Proof. intros Hn []. split; try done. by eapply sq_ok_mono. Qed.

Lemma handled_refl A n n' s : n <= n' -> can_send n s -> handled A n' s s.
Proof.
  intros Hn Hs. pose proof (can_send_mono n n' s Hn Hs) as [? ? ? ?].
  split; [|by split]. destruct s. by apply progress_refl.
Qed.

(** a stage that leaves the queue alone *)
Record steady (s s' : St) : Prop := {
  sy_this : this (me s') = this (me s);
  sy_rq : rq (me s') = rq (me s);
  sy_avg : avg (dl (me s')) = avg (dl (me s));
  sy_sq : sq (me s') = sq (me s);
  sy_state : state (me s') = CS_SYN_SENT -> state (me s) = CS_SYN_SENT;
  sy_mt : mtu_ok (mt (me s)) -> mtu_ok (mt (me s'));
  sy_sys : sys_next mute (st_sys s) (st_sys s');
  sy_ident : identity (me s') = identity (me s);
}.

Lemma steady_trans s1 s2 s3 : steady s1 s2 -> steady s2 s3 -> steady s1 s3.
Proof.
  intros [] []. split; auto; try congruence. by eapply sys_next_trans.
Qed.

Lemma steady_refl s : steady s s.
Proof. split; try done. apply sys_next_refl. Qed.

Lemma steady_handled A n s s' : steady s s' -> can_send n s -> handled A n s s'.
Proof.
  intros [Et Er Ed Es Hst Hm Hy Hi] [H1 H2 H3 H4]. split.
  - destruct s as [c y], s' as [c' y']. cbn [me st_sys] in *. apply progress_upd; auto.
  - split; rewrite ?Et, ?Es; auto. by eapply sys_next_ok.
Qed.

(** an update of fields of its own *)
Lemma steady_set c y c' :
  this c' = this c -> rq c' = rq c -> avg (dl c') = avg (dl c) ->
  sq c' = sq c -> mt c' = mt c -> (state c' = CS_SYN_SENT -> state c = CS_SYN_SENT) ->
  identity c' = identity c -> steady (mkSt c y) (mkSt c' y).
Proof.
  intros ? ? ? ? Em ? ?. split; cbn [me st_sys]; try done; [by rewrite Em|apply sys_next_refl].
Qed.

Lemma steady_call c y y' : sys_next mute y y' -> steady (mkSt c y) (mkSt c y').
Proof. by split. Qed.

Lemma wp_resend A n i j p c y :
  can_send n (mkSt c y) -> n + 1 < 2147483648 -> 0 <= j < cur_window_packets (sq c) ->
  same_place (outbuf (sq c)) i (seq_nr (sq c) - j - 1) -> slot (sq c) j = Some p ->
  wp F (send_packet i) (fun _ s' => handled A (n + 1) (mkSt c y) s' /\
     queue_kept (sq c) (sq (me s'))) (mkSt c y).
Proof.
  intros [Hok Hq Hm Hf] Hn Hj Hi Hp. cbn [me st_sys] in *.
  apply (send_sends F (n + 1) i j p n); try done; [lia| |].
  - intros p'. apply resent_ok. by eapply so_pkts.
  - intros s' Hs _ _ _. pose proof (sends_progress A _ _ _ Hs) as Hpr.
    pose proof (sd_kept _ _ _ Hs) as Hk. cbn [me] in Hk. split; [|done]. split; [done|].
    split; [by eapply (progress_sys _ _ _ _ Hpr)|apply Hpr|apply Hpr|by eapply kept_front].
Qed.

Lemma front_packet n q :
  front_ok q -> sq_ok n q -> 0 < cur_window_packets q ->
  exists p, slot q (cur_window_packets q - 1) = Some p.
Proof. intros Hf Hq Hc. specialize (Hf Hc). destruct (slot q _) as [p|]; [by exists p|done]. Qed.

Lemma wp_assert_front line n (Q : unit -> St -> Prop) c y :
  can_send n (mkSt c y) -> Q tt (mkSt c y) -> wp F (assert_front line) Q (mkSt c y).
Proof.
  intros [_ Hq _ Hf] H. cbn [me] in *. unfold assert_front. wp_steps.
  apply wp_assert; [by intros _|]. intros Hb%orb_false_iff. destruct Hb as [Hc%Z.eqb_neq Hb].
  pose proof (so_count _ _ Hq). destruct (front_packet n _ Hf Hq ltac:(lia)) as [p Hp].
  unfold Incoming.front in Hb. rewrite (front_slot _ n), Hp in Hb by done. done.
Qed.

Lemma wp_flush_nagle A n c y :
  can_send n (mkSt c y) -> n + 1 < 2147483648 ->
  wp F flush_nagle (fun _ s' => handled A (n + 1) (mkSt c y) s') (mkSt c y).
Proof.
  intros Hs Hn. pose proof Hs as [_ Hq _ Hf]. cbn [me] in *. unfold flush_nagle. wp_steps.
  apply wp_when; intros H1; [|by apply (handled_refl A n); [lia|]].
  apply Z.eqb_eq in H1. destruct (front_packet n _ Hf Hq ltac:(lia)) as [p Hp].
  rewrite H1 in Hp. unfold get_pkt. wp_steps.
  rewrite (ring_get_slot _ _ 0) by (unfold same_place; f_equal; lia). change (1 - 1) with 0 in Hp.
  rewrite Hp. wp_steps. apply wp_when; intros _; [|by apply (handled_refl A n); [lia|]].
  eapply wp_mono; [apply (wp_resend A n _ 0 p)|]; try done; [lia|unfold same_place; f_equal; lia|].
  by intros _ s' [H _].
Qed.

Lemma wp_fast_timeout_retry A n c y :
  can_send n (mkSt c y) -> n + 1 < 2147483648 ->
  wp F fast_timeout_retry (fun _ s' => handled A (n + 1) (mkSt c y) s') (mkSt c y).
Proof.
  intros Hs Hn. pose proof Hs as [_ Hq Hm Hf]. cbn [me] in *. unfold fast_timeout_retry. wp_steps.
  assert (Hupd : forall r, handled A n (mkSt c y) (mkSt (c <| rt := r |>) y))
    by (intros r; apply steady_handled; [apply steady_set; by destruct c|done]).
  apply wp_when; intros _; [|by apply (handled_refl A n); [lia|]].
  apply wp_if; intros _.
  { wp_steps. eapply handled_trans; [|apply (handled_refl A n); [lia|]]; apply Hupd. }
  unfold Incoming.front. rewrite (front_slot _ n) by done.
  destruct (slot (sq c) (cur_window_packets (sq c) - 1)) as [p|] eqn:Hp.
  2: { wp_steps. by apply (handled_refl A n); [lia|]. }
  apply wp_when; intros _; [|by apply (handled_refl A n); [lia|]]. wp_steps.
  set (c1 := c <| rt ::= _ |>).
  assert (H1 : handled A n (mkSt c y) (mkSt c1 y)) by (destruct c; apply Hupd).
  assert (Esq : sq c1 = sq c) by by destruct c.
  destruct (Z.le_gt_cases (cur_window_packets (sq c)) 0) as [H0|H0].
  { pose proof (so_count _ _ Hq). pose proof (so_empty _ _ Hq (Ring.mask (outbuf (sq c)))) as He.
    pose proof (ring_wf_mask _ (so_ring _ _ Hq)). exfalso. revert Hp. unfold slot.
    rewrite (ring_get_mod _ _ (seq_nr (sq c) - Ring.mask (outbuf (sq c)) - 1));
      [|apply Hq|].
    - unfold slot in He. rewrite He by lia. done.
    - replace (seq_nr (sq c) - (cur_window_packets (sq c) - 1) - 1) with
        (seq_nr (sq c) - Ring.mask (outbuf (sq c)) - 1 + 1 * (Ring.mask (outbuf (sq c)) + 1)) by lia.
      apply Z.mod_add. lia. }
  eapply wp_mono.
  - apply (wp_resend A n _ (cur_window_packets (sq c) - 1) p); rewrite ?Esq; try done;
      [apply H1|lia|unfold same_place; f_equal; lia].
  - intros _ s' [H2 _]. by eapply handled_trans.
Qed.

(** ** The stages of utp_process_incoming that handle an acknowledgement *)

Lemma wp_notify_steady name r s0 c y :
  steady s0 (mkSt c y) -> mute r /\ polite r ->
  wp F (notify name r) (fun _ s' => steady s0 s') (mkSt c y).
Proof.
  intros Hs Hr. apply (wp_notify F mute); [exact Hr|]. intros y1 H1.
  cbn [put_sys HasSys_St me st_sys] in *. eapply steady_trans; [exact Hs|]. by apply steady_call.
Qed.

Lemma wp_ack_transitions fl acks c y :
  wp F (ack_transitions fl acks) (fun _ s' => steady (mkSt c y) s') (mkSt c y).
Proof.
  unfold ack_transitions. wp_steps.
  assert (Hrest : forall c1 y1, steady (mkSt c y) (mkSt c1 y1) -> wp F
    (c ← my (fun c => c);
     if (fl =? ST_STATE) && is_state (state c) CS_SYN_SENT then
       set_state CS_CONNECTED ;;
       on_connect ← get_ctx (fun x => has_callback x UTP_ON_CONNECT);
       (if on_connect : bool then utp_call_on_connect (this c)
        else utp_call_on_state_change (this c) UTP_STATE_CONNECT)
     else
       when (fin_sent c && (cur_window_packets (sq c) =? acks)) (
         upd (fun c => c <| fin_sent_acked := true |>) ;;
         when (close_requested c) (set_state CS_DESTROY)))
    (fun _ s' => steady (mkSt c y) s') (mkSt c1 y1)).
  { intros c1 y1 H1. wp_steps. apply wp_if; intros _.
    - wp_steps. set (c2 := c1 <| state := _ |>).
      assert (H2 : steady (mkSt c y) (mkSt c2 y1))
        by (eapply steady_trans; [exact H1|]; apply steady_set; by destruct c1).
      apply wp_if; intros _; by apply wp_notify_steady.
    - apply wp_when; intros _; [|done]. wp_steps. set (c2 := c1 <| fin_sent_acked := _ |>).
      assert (H2 : steady (mkSt c y) (mkSt c2 y1))
        by (eapply steady_trans; [exact H1|]; apply steady_set; by destruct c1).
      apply wp_when; intros _; [|done]. wp_steps. eapply steady_trans; [exact H2|].
      apply steady_set; by destruct c1. }
  apply wp_when; intros _; [|by apply Hrest, steady_refl]. wp_steps. set (c1 := c <| state := _ |>).
  assert (H1 : steady (mkSt c y) (mkSt c1 y)) by (apply steady_set; by destruct c).
  eapply wp_mono; [by apply wp_notify_steady|]. intros _ [c2 y2] H2. by apply Hrest.
Qed.

(** the acknowledged packets leave, and the queue starts at a packet again *)
Lemma wp_ack_and_skip {X} A n acks c y (k : unit -> M St X) (Q : X -> St -> Prop) :
  can_send n (mkSt c y) -> 0 <= acks <= cur_window_packets (sq c) ->
  (forall j, acked_front (sq c) acks j -> A j) ->
  (forall c' y', handled A n (mkSt c y) (mkSt c' y') -> wp F (k tt) Q (mkSt c' y')) ->
  wp F (ack_loop (Z.to_nat acks)) (fun _ s1 =>
    wp F (q ← my sq; r ← skip_acked (Z.to_nat (cur_window_packets q)); k r) Q s1) (mkSt c y).
Proof.
  intros Hs Hacks Ha Hk. pose proof Hs as [Hok Hq Hm Hf]. cbn [me st_sys] in *.
  eapply wp_mono.
  { apply (wp_ack_loop A n (Z.to_nat acks) c y Hq Hm); [lia|]. by rewrite Z2Nat.id by lia. }
  intros _ [c1 y1] [H1 _]. wp_steps. pose proof (pg_sq _ _ _ _ H1) as Hq1.
  pose proof (so_count _ _ Hq1). cbn [me] in *. eapply wp_mono.
  { apply (wp_skip_acked A n); [done|apply H1|lia]. }
  intros [] [c2 y2] (H2 & Hf2 & _). apply Hk.
  pose proof (progress_trans _ _ _ _ _ _ H1 H2) as H12.
  split; [done|]. split; [|apply H12|apply H12|done]. by apply (progress_sys _ _ _ _ H12).
Qed.

Lemma wp_process_acks A n pf fl ack acks c y :
  can_send n (mkSt c y) -> 0 <= acks -> n + 2 < 2147483648 ->
  (forall j, acked_front (sq c) acks j -> A j) ->
  wp F (process_acks pf fl ack acks) (fun _ s' => handled A (n + 2) (mkSt c y) s') (mkSt c y).
Proof.
  intros Hs H0 Hn Ha. unfold process_acks, update_peer_window. wp_steps.
  apply wp_when; intros Hle; [apply Z.leb_le in Hle|by apply (handled_refl A n); [lia|]].
  wp_steps. set (c1 := c <| wn ::= _ |>).
  assert (H1 : steady (mkSt c y) (mkSt c1 y)) by (apply steady_set; by destruct c).
  eapply wp_mono; [apply wp_ack_transitions|]. intros _ [c2 y2] H2. wp_steps.
  set (c3 := c2 <| rt ::= _ |>).
  assert (H3 : steady (mkSt c y) (mkSt c3 y2)).
  { eapply steady_trans; [exact H1|]. eapply steady_trans; [exact H2|].
    apply steady_set; by destruct c2. }
  pose proof (steady_handled A n _ _ H3 Hs) as H3'. pose proof (sy_sq _ _ H3) as E3. cbn [me] in E3.
  apply (wp_ack_and_skip A n acks c3 y2 (fun _ => assert_front 2279 ;; flush_nagle ;; fast_timeout_retry));
    [apply H3'|by rewrite E3|by rewrite E3|].
  intros c4 y4 H4. pose proof (handled_trans _ _ _ _ _ _ H3' H4) as H34. cbn beta. wp_step.
  apply (wp_assert_front _ n); [apply H34|]. wp_step.
  eapply wp_mono; [apply (wp_flush_nagle A n); [apply H34|lia]|]. intros _ [c5 y5] H5.
  pose proof (handled_trans _ _ _ _ _ _ H34 H5) as H35.
  eapply wp_mono; [apply (wp_fast_timeout_retry A (n + 1)); [apply H35|lia]|]. intros x s' H6.
  replace (n + 2) with (n + 1 + 1) by lia. by eapply handled_trans.
Qed.

(** ** Selective acknowledgements *)

(** place [j] is named by a bit of a mask of [len] bytes *)
Definition sacked (q : SendQueue) (base : Z) (mask : list Z) (len j : Z) : Prop :=
  exists b, 0 <= b < len * 8 /\ mask_bit mask b = Some true /\ u16 (base + b) = u16 (seq_nr q - j - 1).

Lemma place_window n q v :
  sq_ok n q -> 0 < cur_window_packets q -> outside_window q v = false ->
  let j := u16 (seq_nr q - v - 1) in
  0 <= j < cur_window_packets q - 1 /\ u16 v = u16 (seq_nr q - j - 1) /\
  same_place (outbuf q) v (seq_nr q - j - 1).
Proof.
  intros Hq Hc Ho j. pose proof (so_count _ _ Hq). pose proof (so_seq _ _ Hq).
  unfold outside_window in Ho. apply Z.leb_gt in Ho. fold j in Ho.
  rewrite (u16_small (cur_window_packets q - 1)) in Ho by (unfold is_u16; lia).
  pose proof (u16_range (seq_nr q - v - 1)). fold j in H1. unfold is_u16 in H1.
  assert (u16 v = u16 (seq_nr q - j - 1)) as Hv by (subst j; word_lia).
  split; [lia|]. split; [done|]. by apply (place_u16 n).
Qed.

(** a packet found at any index is one of the queue's *)
Lemma place_some n q v p :
  sq_ok n q -> ring_get (outbuf q) v = Some p ->
  exists j, 0 <= j < cur_window_packets q /\ same_place (outbuf q) v (seq_nr q - j - 1) /\
            slot q j = Some p.
Proof.
  intros Hq Hp. pose proof (ring_wf_mask _ (so_ring _ _ Hq)) as Hm.
  pose proof (so_ring _ _ Hq) as Hr. set (m := Ring.mask (outbuf q)) in *.
  set (j := (seq_nr q - v - 1) mod (m + 1)).
  assert (Hj : 0 <= j < m + 1) by (apply Z.mod_pos_bound; lia).
  assert (Hpl : same_place (outbuf q) v (seq_nr q - j - 1)).
  { unfold same_place. rewrite !ring_index by done. fold m. subst j.
    pose proof (Z.div_mod (seq_nr q - v - 1) (m + 1) ltac:(lia)) as Hd.
    replace (seq_nr q - (seq_nr q - v - 1) mod (m + 1) - 1)
      with (v + (seq_nr q - v - 1) / (m + 1) * (m + 1)) by lia.
    by rewrite Z.mod_add by lia. }
  assert (Hs : slot q j = Some p) by by rewrite <- (ring_get_slot q v j).
  exists j. split; [|done]. destruct (Z.lt_ge_cases j (cur_window_packets q)); [lia|].
  rewrite (so_empty _ _ Hq) in Hs by (fold m; lia). done.
Qed.

Lemma place_distinct n q v j :
  sq_ok n q -> same_place (outbuf q) v (seq_nr q - j - 1) ->
  0 <= j < cur_window_packets q - 1 ->
  Z.land v (Ring.mask (outbuf q)) <>
  Z.land (seq_nr q - cur_window_packets q) (Ring.mask (outbuf q)).
Proof.
  intros Hq Hpl Hj. unfold same_place in Hpl. rewrite Hpl, !ring_index by apply Hq.
  pose proof (so_fits _ _ Hq). intros He%mod_near_eq; lia.
Qed.

Lemma remove_front n q j :
  sq_ok n q -> 0 <= j < cur_window_packets q - 1 -> front_ok q -> front_ok (remove_at q j).
Proof.
  intros Hq Hj Hf. unfold front_ok.
  replace (cur_window_packets (remove_at q j)) with (cur_window_packets q) by by destruct q.
  intros Hc. rewrite (remove_at_slot n), decide_False by (done || lia). by apply Hf.
Qed.

(** the loop of selective_ack tests the bits of the mask only *)
Lemma bits_down_below len : Forall (fun b => b < len * 8) (bits_down (len * 8 - 1)).
Proof.
  unfold bits_down. apply Forall_fmap, Forall_forall. intros k Hk%elem_of_zseq. cbn. lia.
Qed.

Lemma wp_sack_step A n base mask len acc bits s0 c y :
  F OutOfBounds -> handled A n s0 (mkSt c y) -> 0 < cur_window_packets (sq c) -> bits < len * 8 ->
  (forall j, sacked (sq (me s0)) base mask len j -> A j) ->
  wp F (sack_step base mask acc bits)
    (fun _ s' => handled A n s0 s' /\ cur_window_packets (sq (me s')) = cur_window_packets (sq c))
    (mkSt c y).
Proof.
  intros Hoob H0 Hc Hlen Ha. pose proof H0 as [Hp0 [Hok Hq Hm Hf]]. cbn [me st_sys] in *.
  unfold sack_step. destruct acc as [count resends]. wp_steps.
  destruct (outside_window (sq c) (u32 (base + bits))) eqn:Hout; [by wp_steps|].
  destruct (place_window n _ _ Hq Hc Hout) as (Hj & Hv & Hpl). cbn zeta in *.
  set (j := u16 (seq_nr (sq c) - u32 (base + bits) - 1)) in *.
  destruct (if bits <? 0 then Some false else bit_of mask bits) as [b|] eqn:Hb; [|exact Hoob].
  rewrite (ring_get_slot _ _ j) by done.
  destruct (slot (sq c) j) as [p|] eqn:Hp; [|by wp_steps].
  destruct (Z.eqb_spec (pk_transmissions p) 0) as [|Hn0]; [by wp_steps|].
  destruct b; [|cbv beta iota zeta; apply wp_if; intros _; by wp_steps]. wp_step. apply wp_assert; [intros _|].
  2: { intros He%negb_false_iff%Z.eqb_eq. by destruct (place_distinct n _ _ j Hq Hpl). }
  assert (Haj : A j).
  { apply Ha. destruct (Z.ltb_spec bits 0); [done|]. exists bits.
    rewrite <- (tm_seq _ _ _ (pg_trim _ _ _ _ Hp0)). cbn [me]. split; [done|]. split; [done|].
    rewrite <- Hv. clear. word_lia. }
  wp_steps. apply (wp_ack_packet n _ j); [done|lia|done| | |].
  - by rewrite Hp.
  - intros p1 [= <-]%(eq_trans (eq_sym Hp)). done.
  - intros p1 r y' _ _ Hy'. wp_steps. set (c1 := _ <| rt := r |>).
    assert (H1 : progress A n (mkSt c y) (mkSt c1 y'))
      by (apply remove_progress; (done || lia)).
    assert (E1 : sq c1 = remove_at (sq c) j) by by destruct c.
    split; [|cbn [me]; rewrite E1; by destruct (sq c)].
    split; [by eapply progress_trans|].
    split; [by apply (progress_sys _ _ _ _ H1)|apply H1|apply H1|].
    cbn [me]. rewrite E1. by apply (remove_front n).
Qed.

(** at most four of the packets taken for lost are sent again *)
Lemma wp_resend_loop A s0 : forall left resends n s,
  handled A n s0 s -> n + Z.of_nat left < 2147483648 ->
  wp F (resend_loop resends left)
    (fun _ s' => handled A (n + Z.of_nat left) s0 s') s.
Proof.
  assert (Hstop : forall n m s, 0 <= m -> handled A n s0 s -> handled A (n + m) s0 s).
  { intros n m s Hm [H1 H2]. pose proof (can_send_mono n (n + m) s ltac:(lia) H2) as H3.
    split; [|done]. destruct H1. split; try done. apply H3. }
  intros left resends. revert left. induction resends as [|v resends IH]; intros left n s Hs Hn.
  { cbn [resend_loop]. wp_steps. apply Hstop; [lia|done]. }
  destruct left as [|left].
  { cbn [resend_loop]. wp_steps. apply Hstop; [lia|done]. }
  destruct s as [c y]. pose proof Hs as [_ [_ Hq _ _]]. cbn [me] in *.
  change (resend_loop (v :: resends) (S left)) with
    (q ← my sq;
     match ring_get (outbuf q) v with
     | None => resend_loop resends (S left)
     | Some _ =>
         send_packet v ;;
         upd_rt (fun r => r <| fast_resend_seq_nr := u16 (v + 1) |>) ;;
         resend_loop resends left ;;
         mret true
     end). wp_steps.
  destruct (ring_get (outbuf (sq c)) v) as [p|] eqn:Hp; [|by apply IH].
  destruct (place_some n _ _ _ Hq Hp) as (j & Hj & Hpl & Hsl).
  wp_step. eapply wp_mono; [apply (wp_resend A n v j p); [apply Hs|lia|done..]|].
  intros _ [c1 y1] [H1 _]. wp_steps. set (c2 := c1 <| rt ::= _ |>).
  assert (H2 : steady (mkSt c1 y1) (mkSt c2 y1)) by (apply steady_set; by destruct c1).
  pose proof (steady_handled A (n + 1) _ _ H2 (proj2 H1)) as H2'.
  eapply wp_mono.
  { apply (IH left (n + 1)); [|lia].
    eapply handled_trans; [exact Hs|]. eapply handled_trans; [exact H1|exact H2']. }
  intros x s' H3. wp_steps. by replace (n + Z.of_nat (S left)) with (n + 1 + Z.of_nat left) by lia.
Qed.

Lemma wp_selective_ack A n base mask len c y :
  F OutOfBounds -> can_send n (mkSt c y) -> n + 4 < 2147483648 ->
  (forall j, sacked (sq c) base mask len j -> A j) ->
  wp F (selective_ack base mask len) (fun _ s' => handled A (n + 4) (mkSt c y) s') (mkSt c y).
Proof.
  intros Hoob Hs Hn Ha. unfold selective_ack. wp_steps.
  destruct (Z.eqb_spec (cur_window_packets (sq c)) 0) as [H0|H0].
  { wp_steps. by apply (handled_refl A n); [lia|]. }
  pose proof (so_count _ _ (cs_sq _ _ Hs)) as Hc. cbn [me] in Hc.
  wp_step. eapply wp_mono.
  { apply (wp_mfold F _ _ _ (fun l _ s' => handled A n (mkSt c y) s' /\
      cur_window_packets (sq (me s')) = cur_window_packets (sq c) /\ Forall (fun b => b < len * 8) l)).
    - split; [by apply (handled_refl A n)|]. split; [done|apply bits_down_below].
    - intros bits l acc [c1 y1] (H1 & E1 & [Hb Hl]%Forall_cons). cbn [me] in E1. eapply wp_mono.
      { apply (wp_sack_step A n base mask len acc bits (mkSt c y)); try done. lia. }
      intros x s' [H2 E2]. cbn [me] in E2. split; [done|]. by rewrite E2, E1. }
  intros [count resends] [c1 y1] (H1 & _ & _). wp_steps. eapply wp_mono.
  { apply (wp_resend_loop A (mkSt c y)); [exact H1|lia]. }
  intros back_off [c2 y2] H2. change (Z.of_nat 4) with 4 in H2. wp_steps.
  set (k := (_ : M St unit)).
  assert (Hend : forall c3, steady (mkSt c2 y2) (mkSt c3 y2) -> handled A (n + 4) (mkSt c y) (mkSt c3 y2)).
  { intros c3 H3. eapply handled_trans; [exact H2|]. apply steady_handled; [done|apply H2]. }
  apply wp_when; intros _; wp_steps; apply Hend, steady_set; by destruct c2.
Qed.
End Wp.
