(* ===== verification/AckStages.v ===== *)
(** * Measuring an acknowledgement

    The stages of utp_process_incoming (src/utp_internal.cpp) that count the
    acknowledged bytes, follow the MTU probes, measure delays and run the
    congestion controller.  They leave the queues alone; the faults they allow for
    are stated where they occur. *)
From S2P Require Import Prelude Wrap Packet Ring Delay DelayAvg Arrays SockAddr Context AckList.
From S2P Require Import Socket Frame MtuSearch Send SendQueue SendInv Flush Streams Ack Ccontrol Incoming AckQueue.

Section Wp.
Context {E : Env} {HA : GoodApp} (F : fault -> Prop).

(** ** MTU probes *)
Lemma wp_search_steady m c y s0 :
  steady s0 (mkSt c y) -> mtu_loose (m (mt c)) ->
  wp F (upd_mt m ;; mtu_search_update) (fun _ s' => steady s0 s') (mkSt c y).
Proof.
  intros H0 Hl. wp_steps. set (c1 := c <| mt ::= _ |>).
  assert (Em : mt c1 = m (mt c)) by by destruct c.
  apply wp_mtu_search_update; [by rewrite Em|]. intros t y' Hy' _.
  eapply steady_trans; [exact H0|]. split; cbn [me st_sys]; try by destruct c.
  - intros _. rewrite Em. destruct (mtu_search_ok _ Hl) as [Hok _].
    pose proof (set_discover_ok _ t Hok). by destruct c1.
  - eapply sys_next_mono, Hy'. apply silent_mute.
Qed.

Lemma probe_acked_loose m : mtu_ok m -> mtu_probe_seq m <> 0 -> mtu_loose (m <| mtu_floor := mtu_probe_size m |>).
Proof.
  intros [] Hp. specialize (mo_probe_pos Hp). destruct m. unfold mtu_loose. cbn in *. lia.
Qed.

Lemma probe_lost_loose m :
  mtu_ok m -> mtu_probe_seq m <> 0 -> mtu_loose (m <| mtu_ceiling := u32 (mtu_probe_size m - 1) |>).
Proof.
  intros [] Hp. specialize (mo_probe_pos Hp). destruct m. unfold mtu_loose. cbn in *. word_lia.
Qed.

Lemma clear_probe_ok m : mtu_ok m -> mtu_ok (clear_probe m).
Proof. intros []. destruct m. split; cbn in *; (done || lia). Qed.

(** ** Counting *)
Lemma wp_count_duplicate fl ack c y :
  mtu_ok (mt c) ->
  wp F (count_duplicate fl ack) (fun _ s' => steady (mkSt c y) s') (mkSt c y).
Proof.
  intros Hm. unfold count_duplicate. wp_steps. apply wp_when; intros _; [|apply steady_refl].
  apply wp_if; intros _.
  - wp_steps. set (c1 := c <| rt ::= _ |>).
    assert (H1 : steady (mkSt c y) (mkSt c1 y)) by (apply steady_set; by destruct c).
    apply wp_when; intros Hp; [|done]. apply andb_true_iff in Hp as [_ Hp%negb_true_iff%Z.eqb_neq].
    apply wp_if; intros _.
    + apply wp_search_steady; [done|]. replace (mt c1) with (mt c) by by destruct c.
      by apply probe_lost_loose.
    + wp_steps. eapply steady_trans; [exact H1|]. split; cbn [me st_sys]; try by destruct c.
      * intros _. pose proof (clear_probe_ok _ Hm). by destruct c.
      * apply sys_next_refl.
  - wp_steps. apply steady_set; by destruct c.
Qed.

Definition rtt_ok (r : Z) : Prop := 0 <= r <= INT64_MAX.

Lemma sample_rtt_ok now ts r :
  0 <= now < 9223372036854775808 -> 0 <= ts < 9223372036854775808 -> rtt_ok r ->
  rtt_ok (sample_rtt now ts r).
Proof.
  unfold rtt_ok, sample_rtt, INT64_MAX. intros Hn Ht Hr. destruct (Z.ltb_spec ts now).
  - rewrite i64_small by lia. rewrite tmin_min. lia.
  - rewrite tmin_min. lia.
Qed.

Lemma payload_int n p : pkt_ok n p -> 0 <= i32 (pk_payload p).
Proof. intros []. unfold max_payload in *. rewrite i32_small; [lia|]. unfold is_i32. lia. Qed.

Lemma wp_count_acked n s0 now acc i c y :
  steady s0 (mkSt c y) -> sq_ok n (sq c) -> mtu_ok (mt c) ->
  0 <= now < 9223372036854775808 -> 0 <= i < cur_window_packets (sq c) -> rtt_ok acc.2 ->
  wp F (count_acked now acc i) (fun r s' => steady s0 s' /\ rtt_ok r.2) (mkSt c y).
Proof.
  intros H0 Hq Hm Hnow Hi Hr. destruct acc as [bytes rtt]. cbn [snd] in Hr. unfold count_acked.
  wp_steps. pose proof (so_count _ _ Hq). pose proof (so_seq _ _ Hq).
  set (seq := u16 (seq_nr (sq c) - cur_window_packets (sq c) + i)).
  rewrite (ring_get_slot _ seq (cur_window_packets (sq c) - 1 - i))
    by (apply (place_u16 n); [done|subst seq; word_lia]).
  destruct (slot (sq c) _) as [p|] eqn:Hp; [|by wp_steps].
  apply wp_if; intros _; [by wp_steps|]. wp_step.
  assert (Hpk : pkt_ok n p) by (eapply (so_pkts _ _ Hq); [|exact Hp]; lia).
  apply wp_assert; [intros _|intros ?%Z.leb_gt; pose proof (payload_int n p Hpk); lia].
  assert (Hrtt : rtt_ok (sample_rtt now (pk_time_sent p) rtt))
    by (apply sample_rtt_ok; [done|apply Hpk|done]).
  wp_step. apply wp_when; intros Hpr; [|by wp_steps].
  apply andb_true_iff in Hpr as [Hpr%negb_true_iff%Z.eqb_neq _].
  eapply wp_mono; [apply wp_search_steady; [done|by apply probe_acked_loose]|].
  intros x s' Hs'. wp_steps. by split.
Qed.

(** the loop of selective_ack_bytes reads packets and bits only *)
Lemma wp_sack_bytes_step n base now mask acc bits c y :
  F OutOfBounds -> sq_ok n (sq c) -> 0 < cur_window_packets (sq c) ->
  0 <= now < 9223372036854775808 -> rtt_ok acc.2 ->
  wp F (sack_bytes_step (sq c) base now mask acc bits)
    (fun r s' => s' = mkSt c y /\ rtt_ok r.2) (mkSt c y).
Proof.
  intros Hoob Hq Hc Hnow Hr. destruct acc as [bytes rtt]. cbn [snd] in Hr. unfold sack_bytes_step.
  destruct (outside_window (sq c) (u32 (base + bits))) eqn:Hout; [by wp_steps|].
  destruct (place_window n _ _ Hq Hc Hout) as (Hj & _ & Hpl). cbn zeta in *.
  set (j := u16 (seq_nr (sq c) - u32 (base + bits) - 1)) in *.
  rewrite (ring_get_slot _ _ j) by done.
  destruct (slot (sq c) j) as [p|] eqn:Hp; [|by wp_steps].
  apply wp_if; intros _; [by wp_steps|].
  destruct (if bits <? 0 then Some false else bit_of mask bits) as [b|]; [|exact Hoob].
  destruct b; [|by wp_steps]. wp_step.
  assert (Hpk : pkt_ok n p) by (eapply (so_pkts _ _ Hq); [|exact Hp]; lia).
  apply wp_assert; [intros _|intros ?%Z.leb_gt; pose proof (payload_int n p Hpk); lia].
  wp_steps. split; [done|]. cbn [snd]. apply sample_rtt_ok; [done|apply Hpk|done].
Qed.

Lemma wp_selective_ack_bytes n base mask len rtt c y :
  F OutOfBounds -> sq_ok n (sq c) -> rtt_ok rtt ->
  wp F (selective_ack_bytes base mask len rtt)
    (fun r s' => steady (mkSt c y) s' /\ rtt_ok r.2) (mkSt c y).
Proof.
  intros Hoob Hq Hr. unfold selective_ack_bytes. wp_steps.
  destruct (Z.eqb_spec (cur_window_packets (sq c)) 0) as [|H0]; [wp_steps; split; [apply steady_refl|done]|].
  pose proof (so_count _ _ Hq). wp_steps. apply (wp_micros_R F mute silent_mute). intros now y' Hy' Hnow. wp_steps.
  eapply wp_mono.
  { apply (wp_mfold F _ _ _ (fun _ acc s' => s' = mkSt c y' /\ rtt_ok acc.2)); [by split|].
    intros bits l acc s1 [-> Ha]. apply (wp_sack_bytes_step n); try done. lia. }
  intros r s' [-> Hr']. split; [|done]. apply steady_call. by apply sys_next_mute.
Qed.

Lemma wp_count_acked_bytes n packet ack acks sp c y :
  F OutOfBounds -> sq_ok n (sq c) -> mtu_ok (mt c) -> acks <= cur_window_packets (sq c) ->
  wp F (count_acked_bytes packet ack acks sp)
    (fun r s' => steady (mkSt c y) s' /\ rtt_ok r.2) (mkSt c y).
Proof.
  intros Hoob Hq Hm Hacks. unfold count_acked_bytes. wp_steps. apply (wp_micros_R F mute silent_mute).
  intros now y1 Hy1 Hnow. wp_steps. eapply wp_mono.
  { apply (wp_mfold F _ _ _ (fun l acc s' => steady (mkSt c y) s' /\ rtt_ok acc.2 /\
      Forall (fun i => 0 <= i < cur_window_packets (sq c)) l)).
    - split; [by apply steady_call|]. split; [done|].
      apply Forall_forall. intros i Hi%elem_of_zseq. lia.
    - intros i l acc [c2 y2] (H2 & Hr & [Hi Hl]%Forall_cons). pose proof (sy_sq _ _ H2) as E2.
      pose proof (sy_mt _ _ H2 Hm) as M2. cbn [me] in *. eapply wp_mono.
      + apply (wp_count_acked n); rewrite ?E2; try done.
      + intros r s' [H3 Hr']. by split. }
  intros r [c2 y2] (H2 & Hr & _). destruct sp as [sp|]; [|by wp_steps].
  destruct (Packet.rd packet (sp - 1)) as [len|]; [|exact Hoob]. wp_steps.
  pose proof (sy_sq _ _ H2) as E2. cbn [me] in *. eapply wp_mono.
  { apply (wp_selective_ack_bytes n); [done|by rewrite E2|done]. }
  intros r2 s' [H3 Hr2]. wp_steps. split; [by eapply steady_trans|done].
Qed.
(** ** Delays and the congestion controller *)
Lemma update_average_next d t a :
  is_u32 d -> avg_ok a -> current_delay_samples a < INT_MAX ->
  exists a', update_average d t a = inr a' /\ avg_ok a' /\
             current_delay_samples a' <= current_delay_samples a + 1.
Proof.
  intros Hd Ha Hn. destruct (add_delay_sample_ok d a Hd Ha Hn) as (Hok & Hs & _).
  pose proof (ok_samples _ Ha). unfold update_average.
  destruct (close_slot_spec (add_delay_sample d a) Hok ltac:(lia)) as (Hok' & Hq & H0 & _).
  unfold MAX_AVERAGE_DELAY_SAMPLE, INT_MAX in *.
  destruct (_ <? t); [|by eexists; split_and!; [done|done|lia]].
  set (x := Z.quot _ _) in *. rewrite (proj2 (Z.ltb_lt x 2147483647)) by lia.
  rewrite (proj2 (Z.ltb_lt (- (2147483647)) x)) by lia. cbn [negb].
  eexists. split_and!; [done|done|lia].
Qed.

Lemma their_delay_avg tv time t d : avg (their_delay_update tv time t d) = avg d.
Proof. unfold their_delay_update. destruct d. repeat case_match; done. Qed.

Lemma cap_delay_avg m d : avg (cap_delay_by_rtt m d) = avg d.
Proof. unfold cap_delay_by_rtt. destruct d. by case_match. Qed.

Lemma actual_delay_u32 r : is_u32 r -> is_u32 (actual_delay_of r).
Proof. intros H. unfold actual_delay_of. case_match; [done|done]. Qed.

(** The assertions of the congestion controller that depend on the application's
    clock and on the rounding of doubles. *)
Definition ccontrol_fault (f : fault) : Prop :=
  f = AssertFailed 1647 \/ f = AssertFailed 1648 \/ f = AssertFailed 1704.

(** the window the controller leaves: within the send buffer, and nothing else of
    the socket changes *)
Lemma wp_apply_ccontrol_clamped bytes delay rtt (Q : unit -> St -> Prop) c y :
  1 <= bytes -> rtt_ok rtt ->
  0 <= our_delay_of (dl c) rtt < INT_MAX \/ (F (AssertFailed 1647) /\ F (AssertFailed 1648)) ->
  F (AssertFailed 1704) ->
  (forall w y', sys_next mute y y' -> opt_sndbuf w = opt_sndbuf (wn c) ->
     MIN_WINDOW_SIZE <= max_window w <= Z.max MIN_WINDOW_SIZE (opt_sndbuf w) ->
     Q tt (mkSt (c <| wn := w |>) y')) ->
  wp F (apply_ccontrol bytes delay rtt) Q (mkSt c y).
Proof.
  intros Hb Hr Hd HF H. unfold apply_ccontrol, rtt_ok in *. wp_step.
  apply wp_assert; [intros _|intros ?%Z.leb_gt; lia]. wp_steps.
  apply wp_assert; [intros _|intros Hf%negb_false_iff%Z.eqb_eq; destruct Hd as [|[? _]]; [lia|done]]. wp_steps.
  apply wp_assert; [intros _|intros Hf%Z.leb_gt; destruct Hd as [|[_ ?]]; [lia|done]]. wp_steps.
  apply (wp_notify F mute); [done|]. intros y1 H1. cbn [put_sys HasSys_St me st_sys] in *.
  wp_step. apply wp_assert; [intros _|intros ?%Z.ltb_ge; lia]. wp_step.
  apply wp_assert; [intros _|intros _; done]. wp_steps.
  match goal with |- context [grow_window c ?b ?t ?o ?l] =>
    assert (Eb : opt_sndbuf (grow_window c b t o l (wn c)) = opt_sndbuf (wn c))
      by (unfold grow_window; repeat case_match; by destruct (wn c)); set (w1 := grow_window c b t o l) in * end.
  set (c1 := (c <| wn ::= _ |>) <| wn ::= _ |>).
  assert (Ew : wn c1 = clamp_window (w1 (wn c))) by (unfold c1; by destruct c).
  apply (wp_call F mute); [done|]. intros v y2 H2 _. cbn [put_sys HasSys_St me st_sys] in *.
  wp_steps. specialize (H (wn c1) y2). unfold c1 in *. clear c1. rewrite Ew in H.
  pose proof (clamp_bounds (max_window (w1 (wn c))) MIN_WINDOW_SIZE (opt_sndbuf (w1 (wn c)))) as Hcl.
  clearbody w1. destruct c. apply H; [by eapply sys_next_trans|..]; cbn in *.
  - rewrite <- Eb. by destruct (w1 wn).
  - by destruct (w1 wn).
Qed.

Lemma wp_apply_ccontrol bytes delay rtt (Q : unit -> St -> Prop) c y :
  1 <= bytes -> rtt_ok rtt -> (forall f, ccontrol_fault f -> F f) ->
  (forall w y', sys_next mute y y' -> Q tt (mkSt (c <| wn := w |>) y')) ->
  wp F (apply_ccontrol bytes delay rtt) Q (mkSt c y).
Proof.
  intros Hb Hr HF H. apply wp_apply_ccontrol_clamped; [done|done| | |by auto].
  - right. split; apply HF; [by left|by right; left].
  - apply HF. by right; right.
Qed.

Lemma wp_measure_delays m pf time bytes rtt (Q : unit -> St -> Prop) c y :
  avg_ok (avg (dl c)) -> current_delay_samples (avg (dl c)) <= m -> m < INT_MAX ->
  is_u32 (pf_reply_micro pf) -> rtt_ok rtt ->
  (1 <= bytes -> forall f, ccontrol_fault f -> F f) ->
  (forall d w y', avg_ok (avg d) -> current_delay_samples (avg d) <= m + 1 ->
     sys_next mute y y' -> Q tt (mkSt ((c <| dl := d |>) <| wn := w |>) y')) ->
  wp F (measure_delays pf time bytes rtt) Q (mkSt c y).
Proof.
  intros Ha Hs Hm Hr Hrtt HF H. unfold measure_delays. wp_steps.
  set (c1 := c <| dl ::= _ |>).
  assert (E1 : avg (dl c1) = avg (dl c)) by (destruct c; apply their_delay_avg).
  assert (Hend : forall d, avg_ok (avg d) -> current_delay_samples (avg d) <= m + 1 ->
    wp F (assert_at 2160 (0 <=? rtt)) (fun _ s' => wp F (upd_dl (cap_delay_by_rtt rtt) ;;
          when (negb (actual_delay_of (pf_reply_micro pf) =? 0) && (1 <=? bytes))
            (apply_ccontrol bytes (actual_delay_of (pf_reply_micro pf)) rtt)) Q s')
      (mkSt (c <| dl := d |>) y)).
  { intros d Hd Hsd. apply wp_assert;
      [intros _|unfold rtt_ok in Hrtt; intros ?%Z.leb_gt; lia]. wp_steps.
    set (c2 := _ <| dl ::= _ |>).
    assert (E2 : c2 = c <| dl := cap_delay_by_rtt rtt d |>) by by destruct c. rewrite E2.
    pose proof (cap_delay_avg rtt d) as Ec.
    apply wp_when; intros Hb.
    - apply andb_true_iff in Hb as [_ Hb%Z.leb_le]. apply wp_apply_ccontrol; try done; [by apply HF|].
      intros w y' Hy'. by apply H; rewrite ?Ec.
    - specialize (H (cap_delay_by_rtt rtt d) (wn c) y). rewrite Ec in H.
      destruct c. apply H; try done. apply sys_next_refl. }
  unfold our_delay_update. wp_steps. apply wp_when; intros Hz.
  - wp_steps. destruct (update_average_next (actual_delay_of (pf_reply_micro pf))
      (current_ms (ctx y)) (avg (dl c))) as (a' & Ea & Hok & Hle);
      [by apply actual_delay_u32|done|lia|].
    set (c2 := c1 <| dl ::= _ |>).
    assert (E2 : avg (dl c2) = avg (dl c)) by (rewrite <- E1; by destruct c).
    rewrite E2, Ea. wp_steps.
    assert (E3 : c2 <| dl ::= fun d => d <| avg := a' |> |> = c <| dl := (dl c2) <| avg := a' |> |>)
      by by destruct c.
    rewrite E3. apply Hend; destruct (dl c2); cbn in *; [done|lia].
  - wp_steps. assert (E3 : c1 = c <| dl := dl c1 |>) by by destruct c.
    rewrite E3. apply Hend; rewrite E1; [done|lia].
Qed.

(** ** The socket becomes writable *)
Lemma wp_mark_writable_steady c y :
  wp F mark_writable (fun _ s' => steady (mkSt c y) s') (mkSt c y).
Proof.
  unfold mark_writable. wp_steps. apply wp_if; intros _; [|wp_steps; apply steady_refl].
  wp_steps. apply wp_is_full. intros w full Hw. cbn beta.
  assert (H1 : steady (mkSt c y) (mkSt (c <| wn := w |>) y)) by (apply steady_set; by destruct c).
  apply wp_when; intros _; [|done]. wp_steps. apply wp_notify_steady; [|done].
  eapply steady_trans; [exact H1|]. apply steady_set; by destruct c.
Qed.
End Wp.
