(* ===== verification/Timeouts.v ===== *)
(** * The timer of a socket

    UTPSocket::check_timeouts of src/utp_internal.cpp: flushing the queue, the
    zero-window timer, the retransmission timeout with its back-off and its limit
    on retries, the return to writability and the keep-alive. *)
From S2P Require Import Prelude Wrap Packet Ring Arrays SockAddr Context AckList Socket MtuSearch Send Ack Incoming.

Section Timeouts.
Context {E : Env}.

(** [(int)(a - b)] on two uint64 times *)
Definition time_diff (a b : Z) : Z := i32 (u64 (a - b)).

(** "Reset max window..." *)
Definition reopen_window (t : Z) (w : Windows) : Windows :=
  if (0 <=? time_diff t (zerowindow_time w)) && (max_window_user w =? 0)
  then w <| max_window_user := PACKET_SIZE |> else w.

(** the only packet in flight is a probe, which is then considered too big *)
Definition timeout_probe : M St bool :=
  c ← my (fun c => c);
  let q := sq c in
  let ignore_loss := (cur_window_packets q =? 1) &&
    (Z.land (seq_nr q - 1) ACK_NR_MASK =? mtu_probe_seq (mt c)) &&
    negb (mtu_probe_seq (mt c) =? 0) in
  when ignore_loss probe_lost ;;
  upd_mt clear_probe ;;
  mret ignore_loss.

Definition close_on_error (c : UTPSocket) : CONN_STATE :=
  if close_requested c then CS_DESTROY else CS_RESET.

(** giving up: [true] when the connection was killed *)
Definition abandon : M St bool :=
  c ← my (fun c => c);
  if is_state (state c) CS_SYN_RECV then
    set_state CS_DESTROY ;;
    utp_call_on_error (this c) UTP_ETIMEDOUT ;;
    mret true
  else if (4 <=? retransmit_count (rt c)) ||
          (is_state (state c) CS_SYN_SENT && (2 <=? retransmit_count (rt c))) then
    set_state (close_on_error c) ;;
    utp_call_on_error (this c) UTP_ETIMEDOUT ;;
    mret true
  else mret false.

(** the congestion window after a timeout *)
Definition timeout_window (c : UTPSocket) (w : Windows) : Windows :=
  let packet_size := i32 (get_packet_size c) in
  if (cur_window_packets (sq c) =? 0) && (packet_size <? i32 (max_window w))
  then w <| max_window := tmax (u64 (max_window w * 2) / 3) (u64 packet_size) |>
  else w <| max_window := u64 packet_size |> <| slow_start := true |>.

(** a packet in flight is considered lost *)
Definition mark_lost (i : Z) : M St unit :=
  q ← my sq;
  match ring_get (outbuf q) (seq_nr q - i - 1) with
  | None => mret tt
  | Some p =>
      when (in_flight p) (
        put_pkt (seq_nr q - i - 1) (p <| pk_need_resend := true |>) ;;
        assert_at 1243 (pk_payload p <=? cur_window q) ;;
        upd_sq (fun q => q <| cur_window ::= fun w => w - pk_payload p |>))
  end.

Definition resend_oldest : M St unit :=
  q ← my sq;
  when (0 <? cur_window_packets q) (
    upd_rt (fun r => r <| retransmit_count ::= fun n => u16 (n + 1) |>
                       <| fast_timeout := true |> <| timeout_seq_nr := seq_nr q |>) ;;
    assert_at 1259 (negb (bool_decide (front q = None))) ;;
    send_packet (seq_nr q - cur_window_packets q)).

(** the retransmission timeout fired; [true] when the connection was killed *)
Definition on_rto : M St bool :=
  ignore_loss ← timeout_probe;
  r ← my rt;
  let new_timeout := if ignore_loss : bool then retransmit_timeout r
                     else u32 (retransmit_timeout r * 2) in
  dead ← abandon;
  if dead : bool then mret true else
  t ← now_ms;
  upd_rt (fun r => r <| retransmit_timeout := new_timeout |>
                     <| rto_timeout := u64 (t + new_timeout) |>) ;;
  when (negb ignore_loss) (
    upd_rt (fun r => r <| duplicate_ack := 0 |>) ;;
    c ← my (fun c => c);
    upd_wn (timeout_window c)) ;;
  q ← my sq;
  mfor (zseq (Z.to_nat (cur_window_packets q))) mark_lost ;;
  resend_oldest ;;
  mret false.

Definition rto_expired (t : Z) (r : Retrans) : bool :=
  (0 <=? time_diff t (rto_timeout r)) && (0 <? rto_timeout r).

Definition keep_alive_check : M St unit :=
  c ← my (fun c => c);
  t ← now_ms;
  when ((4 <=? state_val (state c)) && negb (fin_sent c) &&
        (KEEPALIVE_INTERVAL <=? time_diff t (last_sent_packet c))) send_keep_alive.

Definition timer_active (s : CONN_STATE) : bool :=
  is_state s CS_SYN_SENT || is_state s CS_SYN_RECV ||
  is_state s CS_CONNECTED_FULL || is_state s CS_CONNECTED.

Definition check_timeouts : M St unit :=
  assert_front 1133 ;;
  s ← my state;
  when (negb (is_state s CS_DESTROY)) (flush_packets ;; mret tt) ;;
  when (timer_active s) (
    t ← now_ms;
    upd_wn (reopen_window t) ;;
    r ← my rt;
    dead ← (if rto_expired t r then on_rto else mret false);
    when (negb dead) (mark_writable ;; keep_alive_check)).
End Timeouts.
