(* ===== verification/Api.v ===== *)
(** * The public functions

    Opening, feeding and closing connections: utp_initialize_socket,
    utp_connect, utp_process_udp, the ICMP handlers, utp_writev,
    utp_read_drained, utp_issue_deferred_acks, utp_check_timeouts, utp_close,
    utp_shutdown and the destructor (src/utp_internal.cpp), over a [World] of
    socket objects. *)
From S2P Require Import Prelude Wrap Packet Ring Delay DelayAvg Arrays SockAddr Hash HashMap Context AckList Socket MtuSearch Send Ack Incoming Timeouts.

Section Api.
Context {E : Env}.

(** ** Opening *)

(** [do conn_seed = random & 0xffff; while (Lookup(psaddr, conn_seed))] *)
Fixpoint pick_seed (fuel : nat) (psaddr : PackedSockAddr) : M St Z :=
  match fuel with
  | O => fail OutOfFuel
  | S fuel =>
      p ← my this;
      r ← utp_call_get_random p;
      let conn_seed := Z.land r 65535 in
      t ← get_ctx utp_sockets;
      match socket_lookup t (mkKey psaddr conn_seed) with
      | None => mret conn_seed
      | Some _ => pick_seed fuel psaddr
      end
  end.

(** [Add(key)->socket = conn] *)
Definition register_socket (k : UTPSocketKey) (p : ptr) : M St unit :=
  t ← get_ctx utp_sockets;
  match socket_insert t k p with
  | None => fail NullDeref
  | Some t => mod_ctx (fun c => c <| utp_sockets := t |>)
  end.

Definition reset_times (t : Z) (c : UTPSocket) : UTPSocket :=
  c <| last_got_packet := t |> <| last_sent_packet := t |>
    <| dl ::= fun d => d <| last_measured_delay := u64 (t + 1879048192) |>
                         <| avg ::= fun a => a <| average_sample_time := u64 (t + 5000) |> |>
                         <| our_hist := DelayHist.clear t |>
                         <| their_hist := DelayHist.clear t |> |>
    <| wn ::= fun w => w <| last_rwin_decay := i64 (t - MAX_WINDOW_DECAY) |> |>
    <| rt ::= fun r => r <| rtt_hist := DelayHist.clear t |> |>.

(** [tries] bounds the search for an unused seed *)
Definition utp_initialize_socket (tries : nat) (sa : sockaddr) (need_seed_gen : bool)
    (conn_seed conn_id_recv conn_id_send : Z) : M St unit :=
  let psaddr := set_addr sa in
  seeds ← (if need_seed_gen then
             seed ← pick_seed tries psaddr;
             mret (seed, u32 (conn_id_recv + seed), u32 (conn_id_send + seed))
           else mret (conn_seed, conn_id_recv, conn_id_send));
  let '(conn_seed, conn_id_recv, conn_id_send) := seeds in
  upd (fun c => c <| state := CS_IDLE |> <| Socket.conn_seed := conn_seed |>
                  <| Socket.conn_id_recv := conn_id_recv |>
                  <| Socket.conn_id_send := conn_id_send |> <| addr := psaddr |>) ;;
  t ← utp_call_get_milliseconds NULL;
  mod_ctx (fun x => x <| current_ms := t |>) ;;
  upd (reset_times t) ;;
  mtu_reset ;;
  upd_mt (fun m => m <| mtu_last := mtu_ceiling m |>) ;;
  p ← my this;
  register_socket (mkKey psaddr conn_id_recv) p ;;
  c ← my (fun c => c);
  upd_wn (fun w => w <| max_window := get_packet_size c |>).

Definition syn_packet (c : UTPSocket) (win : Z) : OutgoingPacket := {|
  pk_length := get_header_size; pk_payload := 0; pk_time_sent := 0; pk_transmissions := 0;
  pk_need_resend := false; pk_body := [];
  pk_hdr := (set_type ST_SYN (set_version 1 zero_header))
    <| pf_connid := u16 (conn_id_recv c) |> <| pf_windowsize := u32 win |>
    <| pf_seq_nr := seq_nr (sq c) |> |}.

Definition utp_connect (tries : nat) (to : sockaddr) : M St Z :=
  s ← my state;
  assert_at 2772 (is_state s CS_UNINITIALIZED) ;;
  utp_initialize_socket tries to true 0 0 1 ;;
  q ← my sq;
  assert_at 2780 (cur_window_packets q =? 0) ;;
  assert_at 2781 (bool_decide (ring_get (outbuf q) (seq_nr q) = None)) ;;
  set_state CS_SYN_SENT ;;
  p ← my this;
  t ← utp_call_get_milliseconds p;
  mod_ctx (fun x => x <| current_ms := t |>) ;;
  upd_rt (fun r => r <| retransmit_timeout := 3000 |> <| rto_timeout := u64 (t + 3000) |>) ;;
  w ← get_rcv_window;
  upd_wn (fun n => n <| last_rcv_win := w |>) ;;
  r ← utp_call_get_random p;
  upd_sq (fun q => q <| seq_nr := u16 r |>) ;;
  c ← my (fun c => c);
  upd_sq (fun q => q <| outbuf ::= fun o =>
    ring_put (ensure_size o (seq_nr q) (cur_window_packets q)) (seq_nr q)
      (Some (syn_packet c w)) |>) ;;
  upd_sq (fun q => q <| seq_nr ::= fun n => u16 (n + 1) |>
                     <| cur_window_packets ::= fun n => u16 (n + 1) |>) ;;
  send_packet (seq_nr (sq c)) ;;
  mret 0.

(** ** Writing and reading *)

Definition UTP_IOV_MAX : nat := 1024.

Fixpoint writev_loop (fuel : nat) (packet_size bytes num_to_send sent : Z)
    (iov : list (list Z)) : M St (option Z * Z) :=
  full ← is_full (i32 num_to_send);
  if full : bool then mret (None, sent) else
  match fuel with
  | O => fail OutOfFuel
  | S fuel =>
      let bytes := bytes - num_to_send in
      let sent := sent + num_to_send in
      iov ← write_outgoing_packet num_to_send ST_DATA iov;
      let num_to_send := tmin bytes packet_size in
      if num_to_send =? 0 then mret (Some sent, sent)
      else writev_loop fuel packet_size bytes num_to_send sent iov
  end.

Definition utp_writev (iovec_input : list (list Z)) : M St Z :=
  assert_at 3199 (negb (bool_decide (iovec_input = []))) ;;
  let iovec := take UTP_IOV_MAX iovec_input in
  let bytes := sumZ ((fun v => Z.of_nat (length v)) <$> iovec) in
  c ← my (fun c => c);
  if negb (is_state (state c) CS_CONNECTED) then mret 0 else
  if fin_sent c then mret 0 else
  t ← utp_call_get_milliseconds (this c);
  mod_ctx (fun x => x <| current_ms := t |>) ;;
  let packet_size := get_packet_size c in
  r ← writev_loop (S (Z.to_nat bytes)) packet_size bytes (tmin bytes packet_size) 0 iovec;
  match r.1 with
  | Some sent => mret sent
  | None =>
      full ← is_full (-1);
      when full (set_state CS_CONNECTED_FULL) ;;
      mret r.2
  end.

(** [utp_write] of src/utp_api.cpp *)
Definition utp_write (buf : list Z) : M St Z := utp_writev [buf].

Definition utp_read_drained : M St unit :=
  c ← my (fun c => c);
  assert_at 3282 (negb (is_state (state c) CS_UNINITIALIZED)) ;;
  rcvwin ← get_rcv_window;
  when (last_rcv_win (wn c) <? rcvwin) (
    if last_rcv_win (wn c) =? 0 then send_ack false
    else
      t ← utp_call_get_milliseconds (this c);
      mod_ctx (fun x => x <| current_ms := t |>) ;;
      lift_sys (schedule_ack (this c))).

(** ** Closing *)

Definition closable (s : CONN_STATE) : bool :=
  negb (is_state s CS_UNINITIALIZED) && negb (is_state s CS_DESTROY).
Definition connected (s : CONN_STATE) : bool :=
  is_state s CS_CONNECTED || is_state s CS_CONNECTED_FULL.

Definition send_fin : M St unit :=
  upd (fun c => c <| fin_sent := true |>) ;;
  write_outgoing_packet 0 ST_FIN [] ;; mret tt.

Definition shorten_timeout : M St unit :=
  c ← my (fun c => c);
  t ← utp_call_get_milliseconds (this c);
  upd_rt (fun r => r <| rto_timeout := u64 (t + tmin (u32 (rto r * 2)) 60) |>).

Definition utp_close : M St unit :=
  c ← my (fun c => c);
  assert_at 3398 (closable (state c)) ;;
  if connected (state c) then
    upd_rq (fun q => q <| read_shutdown := true |>) ;;
    upd (fun c => c <| close_requested := true |>) ;;
    if negb (fin_sent c) then send_fin
    else when (fin_sent_acked c) (set_state CS_DESTROY)
  else
    when (is_state (state c) CS_SYN_SENT) shorten_timeout ;;
    set_state CS_DESTROY.

Definition SHUT_RD : Z := 0.
Definition SHUT_WR : Z := 1.

Definition utp_shutdown (how : Z) : M St unit :=
  c ← my (fun c => c);
  assert_at 3438 (closable (state c)) ;;
  when (negb (how =? SHUT_WR)) (upd_rq (fun q => q <| read_shutdown := true |>)) ;;
  when (negb (how =? SHUT_RD)) (
    if connected (state c) then when (negb (fin_sent c)) send_fin
    else when (is_state (state c) CS_SYN_SENT) shorten_timeout).

(** ** Packets from the network *)

(** [new UTPSocket]: an address not in use *)
Definition new_ptr (w : World) : ptr :=
  1 + map_fold (fun p _ m => Z.max p m) 0 (heap w).

Definition create_socket : M World ptr :=
  w ← get;
  let p := new_ptr w in
  modify (fun w => mkWorld (<[p := utp_create_socket (ctx (w_sys w)) p]> (heap w))
                           ((w_sys w) <| idas ::= <[p := -1]> |>)) ;;
  mret p.

Definition find_socket (k : UTPSocketKey) : M World (option ptr) :=
  t ← get_ctx utp_sockets; mret (socket_lookup t k).

Definition read_socket {A} (p : ptr) (f : UTPSocket -> A) : M World A := on_socket p (my f).

(** a socket whose receive id is next to [id] and whose send id is [id] *)
Definition find_by_send_id (a : PackedSockAddr) (recv_id id : Z) : M World (option ptr) :=
  o ← find_socket (mkKey a recv_id);
  match o with
  | None => mret None
  | Some p => s ← read_socket p conn_id_send; mret (if s =? id then Some p else None)
  end.

(** [id] is the receive id or the send id *)
Definition find_by_either_id (a : PackedSockAddr) (id : Z) : M World (option ptr) :=
  o ← find_socket (mkKey a id);
  match o with
  | Some p => mret (Some p)
  | None =>
      o ← find_by_send_id a (u32 (id + 1)) id;
      match o with
      | Some p => mret (Some p)
      | None => find_by_send_id a (u32 (id - 1)) id
      end
  end.

Definition incoming_overhead (bytes : Z) (type : bandwidth_type_t) : M St unit :=
  p ← my this;
  o ← get_udp_overhead;
  utp_call_on_overhead_statistics p false (u64 (bytes + o)) type.

Definition handle_reset (len : Z) : M St unit :=
  c ← my (fun c => c);
  set_state (close_on_error c) ;;
  incoming_overhead len close_overhead ;;
  s ← my state;
  utp_call_on_error (this c)
    (if is_state s CS_SYN_SENT then UTP_ECONNREFUSED else UTP_ECONNRESET).

(** the socket a packet belongs to: the last one used, or a lookup *)
Definition find_connection (a : PackedSockAddr) (id : Z) : M World (option ptr) :=
  last ← get_ctx last_utp_socket;
  hit ← (if last =? NULL then mret false
         else c ← read_socket last (fun c => c);
              mret (addr_eqb (addr c) a && (conn_id_recv c =? id)));
  if hit : bool then mret (Some last)
  else
    o ← find_socket (mkKey a id);
    match o with
    | None => mret None
    | Some p => mod_ctx (fun x => x <| last_utp_socket := p |>) ;; mret (Some p)
    end.

Definition process_connected (p : ptr) (buffer : list Z) : M World unit :=
  on_socket p (
    read ← utp_process_incoming buffer false;
    incoming_overhead (Z.of_nat (length buffer) - read) header_overhead).

Definition rst_matches (a : PackedSockAddr) (id seq_nr : Z) (r : RST_Info) : bool :=
  (ri_connid r =? id) && addr_eqb (ri_addr r) a && (ri_ack_nr r =? seq_nr).

(** the index of a stored entry, if any *)
Fixpoint rst_find (fuel : nat) (i : Z) (a : PackedSockAddr) (id seq_nr : Z)
    (arr : Array RST_Info) : option Z :=
  match fuel with
  | O => None
  | S fuel =>
      match arr_at arr i with
      | Some r => if rst_matches a id seq_nr r then Some i
                  else rst_find fuel (i + 1) a id seq_nr arr
      | None => None
      end
  end.

Definition mod_rst (f : Array RST_Info -> Array RST_Info) : M World unit :=
  mod_ctx (fun c => c <| rst_info ::= f |>).

(** "We have not found a matching utp_socket, and this isn't a SYN" *)
Definition reject_unknown (a : PackedSockAddr) (id seq_nr : Z) : M World unit :=
  t ← utp_call_get_milliseconds NULL;
  mod_ctx (fun x => x <| current_ms := t |>) ;;
  arr ← get_ctx rst_info;
  match rst_find (Z.to_nat (GetCount arr)) 0 a id seq_nr arr with
  | Some i =>
      mod_rst (fun arr => match arr_at arr i with
                          | Some r => arr_put i (r <| ri_timestamp := t |>) arr
                          | None => arr
                          end)
  | None =>
      when (negb (RST_INFO_LIMIT <? GetCount arr)) (
        mod_rst (fun arr => fst (Append (mkRst a id (u16 seq_nr) t) arr)) ;;
        r ← utp_call_get_random NULL;
        send_rst a id seq_nr (u16 r))
  end.

Definition accept_socket (p : ptr) (buffer : list Z) (to : sockaddr) (id seq_nr : Z) : M St unit :=
  utp_initialize_socket 0 to false id (id + 1) id ;;
  upd_rq (fun q => q <| ack_nr := u16 seq_nr |>) ;;
  r ← utp_call_get_random NULL;
  upd_sq (fun q => q <| Socket.seq_nr := u16 r |>) ;;
  upd_rt (fun x => x <| fast_resend_seq_nr := u16 r |>) ;;
  set_state CS_SYN_RECV ;;
  read ← utp_process_incoming buffer true;
  send_ack true ;;
  utp_call_on_accept p to ;;
  incoming_overhead (Z.of_nat (length buffer) - read) header_overhead ;;
  n ← get_overhead;
  utp_call_on_overhead_statistics p true n ack_overhead.

Definition accept_syn (p : ptr) (buffer : list Z) (to : sockaddr) (id seq_nr : Z) : M World unit :=
  on_socket p (accept_socket p buffer to id seq_nr).

Definition handle_syn (buffer : list Z) (to : sockaddr) (a : PackedSockAddr) (id seq_nr : Z) :
    M World unit :=
  accepts ← get_ctx (fun c => has_callback c UTP_ON_ACCEPT);
  when accepts (
    o ← find_socket (mkKey a (id + 1));
    match o with
    | Some _ => mret tt
    | None =>
        n ← get_ctx (fun c => count (utp_sockets c));
        when (negb (3000 <? n)) (
          blocked ← utp_call_on_firewall to;
          when (blocked =? 0) (
            p ← create_socket;
            accept_syn p buffer to id seq_nr))
    end).

(** 1 if the datagram is a uTP packet, 0 if not *)
Definition utp_process_udp (buffer : list Z) (to : sockaddr) : M World Z :=
  let a := set_addr to in
  if Z.of_nat (length buffer) <? sizeof_PacketFormatV1 then mret 0 else
  match decode_header buffer with
  | None => fail OutOfBounds
  | Some pf1 =>
      if negb (UTP_Version pf1 =? 1) then mret 0 else
      let id := pf_connid pf1 in
      let flags := pf_type pf1 in
      let seq_nr := pf_seq_nr pf1 in
      if flags =? ST_RESET then
        o ← find_by_either_id a id;
        match o with
        | Some p => on_socket p (handle_reset (Z.of_nat (length buffer)))
        | None => mret tt
        end ;;
        mret 1
      else if negb (flags =? ST_SYN) then
        o ← find_connection a id;
        match o with
        | Some p => process_connected p buffer
        | None => reject_unknown a id seq_nr
        end ;;
        mret 1
      else
        handle_syn buffer to a id seq_nr ;;
        mret 1
  end.

(** ** ICMP *)

Definition parse_icmp_payload (buffer : list Z) (to : sockaddr) : M World (option ptr) :=
  if Z.of_nat (length buffer) <? sizeof_PacketFormatV1 then mret None else
  match decode_header buffer with
  | None => fail OutOfBounds
  | Some pf =>
      if negb (UTP_Version pf =? 1) then mret None
      else find_by_either_id (set_addr to) (pf_connid pf)
  end.

Definition utp_process_icmp_fragmentation (buffer : list Z) (to : sockaddr) (next_hop_mtu : Z) :
    M World Z :=
  o ← parse_icmp_payload buffer to;
  match o with
  | None => mret 0
  | Some p => on_socket p (icmp_fragmentation next_hop_mtu) ;; mret 1
  end.

Definition icmp_error : M St unit :=
  c ← my (fun c => c);
  let err := if is_state (state c) CS_SYN_SENT then UTP_ECONNREFUSED else UTP_ECONNRESET in
  if is_state (state c) CS_IDLE then mret tt
  else set_state (close_on_error c) ;; utp_call_on_error (this c) err.

Definition utp_process_icmp_error (buffer : list Z) (to : sockaddr) : M World Z :=
  o ← parse_icmp_payload buffer to;
  match o with
  | None => mret 0
  | Some p => on_socket p icmp_error ;; mret 1
  end.

(** ** Timers *)

(** the loop index is decremented each time, so the first socket of the list
    is taken until the list is empty *)
Fixpoint deferred_acks_loop (fuel : nat) : M World unit :=
  n ← get_ctx (fun c => GetCount (ack_sockets c));
  if 0 <? n then
    match fuel with
    | O => fail OutOfFuel
    | S fuel =>
        p ← lift_sys (ack_at 0);
        on_socket p (send_ack false) ;;
        deferred_acks_loop fuel
    end
  else mret tt.

Definition utp_issue_deferred_acks : M World unit :=
  n ← get_ctx (fun c => GetCount (ack_sockets c));
  deferred_acks_loop (Z.to_nat n).

(** forgetting the resets sent long ago; [None] is a failed assertion of MoveUpLast, or
    a read of an uninitialised cell *)
Fixpoint sweep_rst (fuel : nat) (i now : Z) (arr : Array RST_Info) : option (Array RST_Info) :=
  match fuel with
  | O => Some arr
  | S fuel =>
      if i <? GetCount arr then
        r ← arr_at arr i;
        if RST_INFO_TIMEOUT <=? time_diff now (ri_timestamp r)
        then m ← MoveUpLast i arr; sweep_rst fuel i now m.1
        else sweep_rst fuel (i + 1) now arr
      else Some arr
  end.

Definition expire_rst (now : Z) (arr : Array RST_Info) : option (Array RST_Info) :=
  arr ← sweep_rst (Z.to_nat (GetCount arr)) 0 now arr;
  Some (if GetCount arr =? GetAlloc arr then arr else Compact arr).

(** [~UTPSocket] *)
Definition destroy_socket (p : ptr) : M World unit :=
  utp_call_on_state_change p UTP_STATE_DESTROYING ;;
  c ← read_socket p (fun c => c);
  mod_ctx (fun x => if last_utp_socket x =? p then x <| last_utp_socket := NULL |> else x) ;;
  let k := mkKey (addr c) (conn_id_recv c) in
  o ← find_socket k;
  assert_at 2533 (negb (bool_decide (o = None))) ;;
  mod_ctx (fun x => x <| utp_sockets ::= fun t => socket_delete t k |>) ;;
  lift_sys (removeSocketFromAckList p) ;;
  modify (fun w => mkWorld (delete p (heap w)) ((w_sys w) <| idas ::= delete p |>)).

(** the sweep over the hash table *)
Fixpoint timeouts_loop (fuel : nat) (it : Z * Z) : M World unit :=
  match fuel with
  | O => fail OutOfFuel
  | S fuel =>
      t ← get_ctx utp_sockets;
      match utp_hash_iterate t it with
      | None => mret tt
      | Some (it, i) =>
          match (e ← elem_at t i; e_val e) with
          | None => fail NullDeref
          | Some p =>
              on_socket p check_timeouts ;;
              s ← read_socket p state;
              when (is_state s CS_DESTROY) (destroy_socket p) ;;
              timeouts_loop fuel it
          end
      end
  end.

(** [UTP_FreeAll], run when the context is destroyed *)
Fixpoint free_all_loop (fuel : nat) (it : Z * Z) : M World unit :=
  match fuel with
  | O => fail OutOfFuel
  | S fuel =>
      t ← get_ctx utp_sockets;
      match utp_hash_iterate t it with
      | None => mret tt
      | Some (it, i) =>
          match (e ← elem_at t i; e_val e) with
          | None => fail NullDeref
          | Some p => destroy_socket p ;; free_all_loop fuel it
          end
      end
  end.

Definition UTP_FreeAll : M World unit :=
  n ← get_ctx (fun c => count (utp_sockets c));
  free_all_loop (S (Z.to_nat n)) iter_init.

Definition utp_check_timeouts : M World unit :=
  t ← utp_call_get_milliseconds NULL;
  mod_ctx (fun x => x <| current_ms := t |>) ;;
  last ← get_ctx last_check;
  when (negb (u64 (t - last) <? TIMEOUT_CHECK_INTERVAL)) (
    mod_ctx (fun x => x <| last_check := t |>) ;;
    arr ← get_ctx rst_info;
    match expire_rst t arr with
    | None => fail (AssertFailed 3326)
    | Some arr => mod_rst (fun _ => arr)
    end ;;
    n ← get_ctx (fun c => count (utp_sockets c));
    timeouts_loop (S (Z.to_nat n)) iter_init).
End Api.
