(* ===== verification/States.v ===== *)
(** * The state of a connection

    The state diagram of a socket, as a step relation on CONN_STATE, and the methods
    of UTPSocket (src/utp_internal.cpp) along it: which of them leave the state
    alone, and which may move it, and how.  Nothing is assumed of the socket, the
    packets or the application. *)
From stdpp Require Import relations.
From S2P Require Import Prelude Wrap Packet Ring Delay DelayAvg Arrays SockAddr Hash Context AckList Socket.
From S2P Require Import MtuSearch Send Ack Ccontrol Incoming Timeouts Api.

(** ** The diagram *)
Inductive st_step : CONN_STATE -> CONN_STATE -> Prop :=
| st_init : st_step CS_UNINITIALIZED CS_IDLE
| st_connect : st_step CS_IDLE CS_SYN_SENT
| st_accept : st_step CS_IDLE CS_SYN_RECV
| st_answered : st_step CS_SYN_SENT CS_CONNECTED
| st_used : st_step CS_SYN_RECV CS_CONNECTED
| st_full : st_step CS_CONNECTED CS_CONNECTED_FULL
| st_writable : st_step CS_CONNECTED_FULL CS_CONNECTED
| st_reset s : st_step s CS_RESET
| st_destroy s : st_step s CS_DESTROY.

Create HintDb states.
#[export] Hint Constructors st_step : states.

(** [t] can be reached from [s] *)
Abbreviation st_path := (rtc st_step).

(** the connection is over *)
Definition st_over (s : CONN_STATE) : bool := is_state s CS_RESET || is_state s CS_DESTROY.

(** there is no way back from the end *)
Lemma st_over_path s t : st_path s t -> st_over s = true -> st_over t = true.
Proof.
  induction 1 as [|s s' t Hs _ IH]; [done|]. intros Ho. apply IH.
  by destruct Hs.
Qed.

(** ... nor to the states before the handshake *)
Lemma st_path_back s t :
  st_path s t -> s <> CS_UNINITIALIZED -> s <> CS_IDLE -> t <> CS_UNINITIALIZED /\ t <> CS_IDLE.
Proof.
  induction 1 as [|s s' t Hs _ IH]; [done|]. intros H1 H2. apply IH; by destruct Hs.
Qed.

(** a connected socket has been through a handshake *)
Lemma st_path_handshake s t :
  st_path s t -> s = CS_UNINITIALIZED \/ s = CS_IDLE -> connected t = true ->
  exists r, (r = CS_SYN_SENT \/ r = CS_SYN_RECV) /\ st_path s r /\ st_path r t.
Proof.
  induction 1 as [s|s s' t Hs Hp IH]; [by intros [->| ->]|]. intros H0 Ht.
  assert (Hd : st_over s' = true -> False).
  { intros Ho. apply (st_over_path _ _ Hp) in Ho. by destruct t. }
  destruct Hs; try (by destruct H0); try (exfalso; by apply Hd).
  - destruct (IH ltac:(by right) Ht) as (r & Hr & Hr1 & Hr2). exists r.
    split; [done|]. split; [|done]. by eapply rtc_l; [apply st_init|].
  - exists CS_SYN_SENT. split; [by left|]. split; [by apply rtc_once, st_connect|done].
  - exists CS_SYN_RECV. split; [by right|]. split; [by apply rtc_once, st_accept|done].
Qed.

(** ** Computations that move the state within a relation *)
Class Within (R : CONN_STATE -> CONN_STATE -> Prop) {A} (m : M St A) : Prop :=
  within s : wp (fun _ => True) m (fun _ s' => R (state (me s)) (state (me s'))) s.

Section Rules.
Context (R : CONN_STATE -> CONN_STATE -> Prop) `{!PreOrder R}.

#[export] Instance within_ret {A} (a : A) : Within R (mret a).
Proof. intros s. apply wp_ret. reflexivity. Qed.

#[export] Instance within_fail {A} f : Within R (fail (A := A) f).
Proof. done. Qed.

Lemma within_bind {A B} (m : M St A) (k : A -> M St B) :
  Within R m -> (forall a, Within R (k a)) -> Within R (mbind k m).
Proof.
  intros Hm Hk s. apply wp_bind. eapply wp_mono; [apply Hm|]. intros a s1 H1.
  eapply wp_mono; [apply Hk|]. intros b s2 H2. etrans; [exact H1|exact H2].
Qed.

Lemma within_when b (m : M St unit) : (b = true -> Within R m) -> Within R (when b m).
Proof. intros H. destruct b; [by apply H|apply _]. Qed.

#[export] Instance within_gets {A} (f : St -> A) : Within R (gets f).
Proof. intros s. apply wp_gets. reflexivity. Qed.

#[export] Instance within_my {A} (f : UTPSocket -> A) : Within R (my f).
Proof. intros s. apply wp_gets. reflexivity. Qed.

Lemma within_upd f : (forall c, state (f c) = state c) -> Within R (upd f).
Proof. intros Hf [c y]. apply wp_modify. cbn [me]. by rewrite Hf. Qed.

#[export] Instance within_assert line b : Within R (assert_at line b).
Proof. intros s. apply wp_assert; [reflexivity|done]. Qed.

#[export] Instance within_lift {A} (m : M Sys A) : Within R (lift_sys m).
Proof.
  intros [c y]. apply wp_lift_sys. unfold wp. cbn [sys HasSys_St].
  destruct (m _); [reflexivity|done].
Qed.

#[export] Instance within_get_ctx {A} (f : utp_context -> A) : Within R (get_ctx f).
Proof. intros s. apply wp_gets. reflexivity. Qed.

#[export] Instance within_mod_ctx f : Within R (mod_ctx f).
Proof. intros s. apply wp_modify. reflexivity. Qed.

#[export] Instance within_call `{E : Env} name r : Within R (call name r).
Proof.
  intros s. unfold call. apply wp_bind, wp_get, wp_if; intros _; [|apply wp_ret; reflexivity].
  apply wp_bind, wp_modify, wp_ret. reflexivity.
Qed.

#[export] Instance within_mfor {C} (l : list C) (body : C -> M St unit) :
  (forall x, Within R (body x)) -> Within R (mfor l body).
Proof. intros H. induction l as [|x l IH]; cbn [mfor]; [apply _|]. by apply within_bind. Qed.

#[export] Instance within_mfold {C B} (l : list C) (f : B -> C -> M St B) b :
  (forall b x, Within R (f b x)) -> Within R (mfold f b l).
Proof.
  intros H. revert b. induction l as [|x l IH]; intros b; cbn [mfold]; [apply _|]. by apply within_bind.
Qed.
End Rules.

(** what is within [R] is within a larger relation *)
Lemma within_mono (R R' : CONN_STATE -> CONN_STATE -> Prop) {A} (m : M St A) :
  (forall s t, R s t -> R' s t) -> Within R m -> Within R' m.
Proof. intros H Hm s. eapply wp_mono; [apply Hm|]. auto. Qed.

Lemma within_set (t : CONN_STATE) f c y :
  st_step (state c) t -> state (f c) = t ->
  wp (fun _ => True) (upd f) (fun _ s' => st_path (state c) (state (me s'))) (mkSt c y).
Proof. intros H Hf. apply wp_modify. cbn [me]. rewrite Hf. by apply rtc_once. Qed.

Lemma within_at R {A} (m : M St A) s :
  Within R m -> wp (fun _ => True) m (fun _ s' => R (state (me s)) (state (me s'))) s.
Proof. intros H. apply H. Qed.

(** splits a computation into its parts *)
Ltac within :=
  repeat first
    [ progress intros
    | match goal with
      | |- Within _ (when _ _) => apply within_when
      | |- Within _ (if ?b then _ else _) => destruct b
      | |- Within _ (match ?x with _ => _ end) => destruct x
      | |- Within _ (let _ := _ in _) => cbv zeta
      | |- Within _ (upd _) => apply within_upd; [apply _|intros []; reflexivity]
      end
    | apply _
    | apply within_bind; [apply _| |] ].

(** ** Methods that leave the state alone *)
Section Alone.
Context {E : Env} (R : CONN_STATE -> CONN_STATE -> Prop) `{!PreOrder R}.

(** proves that a method built from methods that leave the state alone does, too *)
Ltac alone m := unfold m; within.

#[export] Instance within_notify name r : Within R (notify name r).
Proof. alone @notify. Qed.
#[export] Instance within_on_error p e : Within R (utp_call_on_error p e).
Proof. alone @utp_call_on_error. Qed.
#[export] Instance within_on_read p d : Within R (utp_call_on_read p d).
Proof. alone @utp_call_on_read. Qed.
#[export] Instance within_on_connect p : Within R (utp_call_on_connect p).
Proof. alone @utp_call_on_connect. Qed.
#[export] Instance within_on_accept p a : Within R (utp_call_on_accept p a).
Proof. alone @utp_call_on_accept. Qed.
#[export] Instance within_on_state_change p v : Within R (utp_call_on_state_change p v).
Proof. alone @utp_call_on_state_change. Qed.
#[export] Instance within_on_delay_sample p v : Within R (utp_call_on_delay_sample p v).
Proof. alone @utp_call_on_delay_sample. Qed.
#[export] Instance within_on_overhead p b n t : Within R (utp_call_on_overhead_statistics p b n t).
Proof. alone @utp_call_on_overhead_statistics. Qed.
#[export] Instance within_get_udp_mtu p a : Within R (utp_call_get_udp_mtu p a).
Proof. alone @utp_call_get_udp_mtu. Qed.
#[export] Instance within_call_udp_overhead p a : Within R (utp_call_get_udp_overhead p a).
Proof. alone @utp_call_get_udp_overhead. Qed.
#[export] Instance within_get_milliseconds p : Within R (utp_call_get_milliseconds p).
Proof. alone @utp_call_get_milliseconds. Qed.
#[export] Instance within_get_microseconds p : Within R (utp_call_get_microseconds p).
Proof. alone @utp_call_get_microseconds. Qed.
#[export] Instance within_get_random p : Within R (utp_call_get_random p).
Proof. alone @utp_call_get_random. Qed.
#[export] Instance within_read_buffer p : Within R (utp_call_get_read_buffer_size p).
Proof. alone @utp_call_get_read_buffer_size. Qed.
#[export] Instance within_now : Within R now_ms.
Proof. alone @now_ms. Qed.

#[export] Instance within_upd_sq f : Within R (upd_sq f).
Proof. alone @upd_sq. Qed.
#[export] Instance within_upd_rt f : Within R (upd_rt f).
Proof. alone @upd_rt. Qed.
#[export] Instance within_upd_wn f : Within R (upd_wn f).
Proof. alone @upd_wn. Qed.
#[export] Instance within_upd_rq f : Within R (upd_rq f).
Proof. alone @upd_rq. Qed.
#[export] Instance within_upd_mt f : Within R (upd_mt f).
Proof. alone @upd_mt. Qed.
#[export] Instance within_upd_dl f : Within R (upd_dl f).
Proof. alone @upd_dl. Qed.

#[export] Instance within_get_rcv_window : Within R get_rcv_window.
Proof. alone @get_rcv_window. Qed.
#[export] Instance within_get_udp_overhead : Within R get_udp_overhead.
Proof. alone @get_udp_overhead. Qed.
#[export] Instance within_get_overhead : Within R get_overhead.
Proof. alone @get_overhead. Qed.
#[export] Instance within_udp_mtu : Within R Socket.get_udp_mtu.
Proof. alone @Socket.get_udp_mtu. Qed.

(** path MTU discovery *)
#[export] Instance within_restart_discovery : Within R restart_discovery.
Proof. alone @restart_discovery. Qed.
#[export] Instance within_mtu_search_update : Within R mtu_search_update.
Proof. alone @mtu_search_update. Qed.
#[export] Instance within_mtu_reset : Within R mtu_reset.
Proof. alone @mtu_reset. Qed.
#[export] Instance within_probe_acked : Within R probe_acked.
Proof. alone @probe_acked. Qed.
#[export] Instance within_probe_lost : Within R probe_lost.
Proof. alone @probe_lost. Qed.
#[export] Instance within_icmp_fragmentation v : Within R (icmp_fragmentation v).
Proof. alone @icmp_fragmentation. Qed.

(** sending *)
#[export] Instance within_register_sent n : Within R (utp_register_sent_packet n).
Proof. alone @utp_register_sent_packet. Qed.
#[export] Instance within_sendto p d a fl : Within R (utp_call_sendto p d a fl).
Proof. alone @utp_call_sendto. Qed.
#[export] Instance within_send_to_addr p d a fl : Within R (send_to_addr p d a fl).
Proof. alone @send_to_addr. Qed.
#[export] Instance within_send_data h r n t fl : Within R (send_data h r n t fl).
Proof. alone @send_data. Qed.
#[export] Instance within_send_ack b : Within R (send_ack b).
Proof. alone @send_ack. Qed.
#[export] Instance within_send_keep_alive : Within R send_keep_alive.
Proof. alone @send_keep_alive. Qed.
#[export] Instance within_get_pkt i : Within R (get_pkt i).
Proof. alone @get_pkt. Qed.
#[export] Instance within_put_pkt i p : Within R (put_pkt i p).
Proof. alone @put_pkt. Qed.
#[export] Instance within_start_probe p : Within R (start_probe p).
Proof. alone @start_probe. Qed.
#[export] Instance within_stamp_packet i p t : Within R (stamp_packet i p t).
Proof. alone @stamp_packet. Qed.
#[export] Instance within_transmit_packet i b : Within R (transmit_packet i b).
Proof. alone @transmit_packet. Qed.
#[export] Instance within_send_packet i : Within R (send_packet i).
Proof. alone @send_packet. Qed.
#[export] Instance within_is_full b : Within R (is_full b).
Proof. alone @is_full. Qed.
#[export] Instance within_flush_loop fuel ps i : Within R (flush_loop fuel ps i).
Proof. revert i. induction fuel; intros i; cbn [flush_loop]; within. Qed.
#[export] Instance within_flush_packets : Within R flush_packets.
Proof. alone @flush_packets. Qed.
#[export] Instance within_append_packet p : Within R (append_packet p).
Proof. alone @append_packet. Qed.
#[export] Instance within_write_round ps n fl iov : Within R (write_round ps n fl iov).
Proof. alone @write_round. Qed.
#[export] Instance within_write_loop fuel ps n fl iov : Within R (write_loop fuel ps n fl iov).
Proof. revert n iov. induction fuel; intros n iov; cbn [write_loop]; within. Qed.
#[export] Instance within_start_timer : Within R start_timer.
Proof. alone @start_timer. Qed.
#[export] Instance within_write_outgoing n fl iov : Within R (write_outgoing_packet n fl iov).
Proof. alone @write_outgoing_packet. Qed.
#[export] Instance within_writev_loop fuel ps b n s iov : Within R (writev_loop fuel ps b n s iov).
Proof. revert b n s iov. induction fuel; intros b n s iov; cbn [writev_loop]; within. Qed.

(** acknowledgements and data *)
#[export] Instance within_ack_packet v : Within R (ack_packet v).
Proof. alone @ack_packet. Qed.
#[export] Instance within_sack_bytes_step q b n k acc i : Within R (sack_bytes_step q b n k acc i).
Proof. alone @sack_bytes_step. Qed.
#[export] Instance within_selective_ack_bytes b k n r : Within R (selective_ack_bytes b k n r).
Proof. alone @selective_ack_bytes. Qed.
#[export] Instance within_sack_step b k acc i : Within R (sack_step b k acc i).
Proof. alone @sack_step. Qed.
#[export] Instance within_resend_loop l n : Within R (resend_loop l n).
Proof. revert n. induction l; intros [|n]; cbn [resend_loop]; within. Qed.
#[export] Instance within_selective_ack b k n : Within R (selective_ack b k n).
Proof. alone @selective_ack. Qed.
#[export] Instance within_apply_ccontrol b d r : Within R (apply_ccontrol b d r).
Proof. alone @apply_ccontrol. Qed.
#[export] Instance within_register_recv n : Within R (utp_register_recv_packet n).
Proof. alone @utp_register_recv_packet. Qed.
#[export] Instance within_count_duplicate fl ack : Within R (count_duplicate fl ack).
Proof. alone @count_duplicate. Qed.
#[export] Instance within_count_acked n acc i : Within R (count_acked n acc i).
Proof. alone @count_acked. Qed.
#[export] Instance within_count_acked_bytes p ack acks o : Within R (count_acked_bytes p ack acks o).
Proof. alone @count_acked_bytes. Qed.
#[export] Instance within_our_delay_update d : Within R (our_delay_update d).
Proof. alone @our_delay_update. Qed.
#[export] Instance within_measure_delays pf t b r : Within R (measure_delays pf t b r).
Proof. alone @measure_delays. Qed.
#[export] Instance within_update_peer_window v : Within R (update_peer_window v).
Proof. alone @update_peer_window. Qed.
#[export] Instance within_ack_loop n : Within R (ack_loop n).
Proof. induction n; cbn [ack_loop]; within. Qed.
#[export] Instance within_skip_acked n : Within R (skip_acked n).
Proof. induction n; cbn [skip_acked]; within. Qed.
#[export] Instance within_assert_front line : Within R (assert_front line).
Proof. alone @assert_front. Qed.
#[export] Instance within_flush_nagle : Within R flush_nagle.
Proof. alone @flush_nagle. Qed.
#[export] Instance within_fast_timeout_retry : Within R fast_timeout_retry.
Proof. alone @fast_timeout_retry. Qed.
#[export] Instance within_process_selack p ack o : Within R (process_selack p ack o).
Proof. alone @process_selack. Qed.
#[export] Instance within_deliver d : Within R (deliver d).
Proof. alone @deliver. Qed.
#[export] Instance within_reach_eof : Within R reach_eof.
Proof. alone @reach_eof. Qed.
#[export] Instance within_drain n : Within R (drain n).
Proof. induction n; cbn [drain]; within. Qed.
#[export] Instance within_in_order d : Within R (in_order d).
Proof. alone @in_order. Qed.
#[export] Instance within_out_of_order s n d : Within R (out_of_order s n d).
Proof. alone @out_of_order. Qed.
#[export] Instance within_receive_data fl s n d : Within R (receive_data fl s n d).
Proof. alone @receive_data. Qed.

(** timers and the rest *)
#[export] Instance within_timeout_probe : Within R timeout_probe.
Proof. alone @timeout_probe. Qed.
#[export] Instance within_mark_lost i : Within R (mark_lost i).
Proof. alone @mark_lost. Qed.
#[export] Instance within_resend_oldest : Within R resend_oldest.
Proof. alone @resend_oldest. Qed.
#[export] Instance within_keep_alive_check : Within R keep_alive_check.
Proof. alone @keep_alive_check. Qed.
#[export] Instance within_pick_seed n a : Within R (pick_seed n a).
Proof. induction n; cbn [pick_seed]; within. Qed.
#[export] Instance within_register_socket k p : Within R (register_socket k p).
Proof. alone @register_socket. Qed.
#[export] Instance within_read_drained : Within R utp_read_drained.
Proof. alone @utp_read_drained. Qed.
#[export] Instance within_send_fin : Within R send_fin.
Proof. alone @send_fin. Qed.
#[export] Instance within_shorten_timeout : Within R shorten_timeout.
Proof. alone @shorten_timeout. Qed.
#[export] Instance within_shutdown how : Within R (utp_shutdown how).
Proof. alone @utp_shutdown. Qed.
#[export] Instance within_setsockopt opt val : Within R (utp_setsockopt opt val).
Proof. alone @utp_setsockopt. Qed.
#[export] Instance within_set_userdata v : Within R (upd (utp_set_userdata v)).
Proof. within. Qed.
#[export] Instance within_incoming_overhead n t : Within R (incoming_overhead n t).
Proof. alone @incoming_overhead. Qed.
End Alone.

(** ** Methods that move the state *)
Section Moving.
Context {E : Env}.

#[export] Instance st_path_preorder : PreOrder st_path.
Proof. apply _. Qed.

(** a test of the state, and the step it allows *)
Lemma within_guarded t f (m : M St unit) c y :
  st_step (state c) t -> (forall c, state (f c) = t) -> Within eq m ->
  wp (fun _ => True) (upd f ;; m) (fun _ s' => st_path (state c) (state (me s'))) (mkSt c y).
Proof.
  intros Hs Hf Hm. apply wp_bind. apply wp_modify. cbn [me].
  eapply wp_mono; [apply Hm|]. intros a s' H. cbn [me] in H. rewrite <- H, Hf. by apply rtc_once.
Qed.

Lemma within_set_any t : t = CS_RESET \/ t = CS_DESTROY -> Within st_path (set_state t).
Proof.
  intros Ht [c y]. apply within_set with t; [|by destruct c]. destruct Ht as [-> | ->]; auto with states.
Qed.

#[export] Instance within_set_error c : Within st_path (set_state (close_on_error c)).
Proof. apply within_set_any. unfold close_on_error. case_match; auto. Qed.
#[export] Instance within_set_destroy : Within st_path (set_state CS_DESTROY).
Proof. apply within_set_any. auto. Qed.

(** the state just read *)
Lemma within_read {A B} (f : UTPSocket -> B) (k : B -> M St A) :
  (forall c y, wp (fun _ => True) (k (f c)) (fun _ s' => st_path (state c) (state (me s'))) (mkSt c y)) ->
  Within st_path (mbind k (my f)).
Proof. intros H [c y]. apply wp_bind, wp_gets. apply H. Qed.

#[export] Instance within_mark_writable : Within st_path mark_writable.
Proof.
  unfold mark_writable. apply within_read. intros c y. apply wp_if; intros Hs; [|by apply wp_ret].
  apply bool_decide_eq_true in Hs. apply wp_bind. eapply wp_mono; [apply (within_is_full eq)|].
  intros full [c1 y1] E1. cbn [me] in E1. rewrite E1. apply wp_when; intros _; [|done].
  apply (within_guarded CS_CONNECTED); [|by intros []|apply _]. rewrite <- E1, Hs. auto with states.
Qed.

Lemma within_then {A B} (m : M St A) (k : A -> M St B) s :
  wp (fun _ => True) m (fun _ s' => st_path (state (me s)) (state (me s'))) s ->
  (forall a, Within st_path (k a)) ->
  wp (fun _ => True) (mbind k m) (fun _ s' => st_path (state (me s)) (state (me s'))) s.
Proof.
  intros Hm Hk. apply wp_bind. eapply wp_mono; [exact Hm|]. intros a s1 H1.
  eapply wp_mono; [apply Hk|]. intros b s2 H2. etrans; [exact H1|exact H2].
Qed.

#[export] Instance within_ack_transitions fl acks : Within st_path (ack_transitions fl acks).
Proof.
  unfold ack_transitions. apply within_read. intros c y. apply (within_then _ _ (mkSt c y)); [|intros []].
  - apply wp_when; intros H; [|done]. apply andb_true_iff in H as [_ Hs%bool_decide_eq_true].
    apply (within_guarded CS_CONNECTED); [|by intros []|apply _]. rewrite Hs. auto with states.
  - apply within_read. intros c1 y1. apply wp_if; intros H.
    + apply andb_true_iff in H as [_ Hs%bool_decide_eq_true].
      apply (within_guarded CS_CONNECTED); [|by intros []|within]. rewrite Hs. auto with states.
    + apply (within_at st_path _ (mkSt c1 y1)). within.
Qed.

#[export] Instance within_process_acks pf fl ack acks : Within st_path (process_acks pf fl ack acks).
Proof. unfold process_acks. within. Qed.
#[export] Instance within_process_valid p pf t s d o : Within st_path (process_valid p pf t s d o).
Proof. unfold process_valid. within. Qed.
#[export] Instance within_process_parsed p pf t syn d o : Within st_path (process_parsed p pf t syn d o).
Proof. unfold process_parsed. within. Qed.
#[export] Instance within_process_incoming p syn : Within st_path (utp_process_incoming p syn).
Proof. unfold utp_process_incoming. within. Qed.
#[export] Instance within_abandon : Within st_path abandon.
Proof. unfold abandon. within. Qed.
#[export] Instance within_on_rto : Within st_path on_rto.
Proof. unfold on_rto. within. Qed.
#[export] Instance within_check_timeouts : Within st_path check_timeouts.
Proof. unfold check_timeouts. within. Qed.
#[export] Instance within_utp_close : Within st_path utp_close.
Proof. unfold utp_close. within. Qed.
#[export] Instance within_handle_reset n : Within st_path (handle_reset n).
Proof. unfold handle_reset. within. Qed.
#[export] Instance within_icmp_error : Within st_path icmp_error.
Proof. unfold icmp_error. within. Qed.

(** past a computation that leaves the state alone *)
Lemma wp_past {A B} (m : M St A) (k : A -> M St B) s Q c y :
  state c = s -> Within eq m ->
  (forall a c' y', state c' = s -> wp (fun _ => True) (k a) Q (mkSt c' y')) ->
  wp (fun _ => True) (mbind k m) Q (mkSt c y).
Proof.
  intros <- Hm H. apply wp_bind. eapply wp_mono; [apply Hm|]. intros a [c' y'] E1. cbn [me] in E1. by apply H.
Qed.

(** a write fills the window of a connected socket *)
#[export] Instance within_utp_writev iov : Within st_path (utp_writev iov).
Proof.
  unfold utp_writev. apply within_bind; [apply _|apply _|intros _]. cbv zeta.
  apply within_read. intros c y. apply wp_if; intros Hc; [by apply wp_ret|].
  apply negb_false_iff, bool_decide_eq_true in Hc. apply wp_if; intros _; [by apply wp_ret|].
  rewrite Hc. apply (wp_past _ _ CS_CONNECTED); [done|apply _|]. intros t c1 y1 H1.
  apply (wp_past _ _ CS_CONNECTED); [done|apply _|]. intros _ c2 y2 H2.
  apply (wp_past _ _ CS_CONNECTED); [done|apply _|]. intros [[sent|] sent'] c3 y3 H3; cbn [fst snd].
  { apply wp_ret. by rewrite <- H3. }
  apply (wp_past _ _ CS_CONNECTED); [done|apply _|]. intros full c4 y4 H4.
  apply wp_bind, wp_when; intros _; [|apply wp_ret; by rewrite <- H4].
  apply wp_modify, wp_ret. cbn [me]. apply rtc_once. destruct c4. apply st_full.
Qed.

(** opening *)
Lemma wp_initialize_state tries sa b x y z s :
  wp (fun _ => True) (utp_initialize_socket tries sa b x y z) (fun _ s' => state (me s') = CS_IDLE) s.
Proof.
  unfold utp_initialize_socket. apply wp_bind. eapply wp_mono; [apply (within_at eq); within|].
  intros [[cs cr] ci] [c1 y1] _. apply wp_bind, wp_modify.
  eapply wp_mono; [apply (within_at eq); within|]. intros u s' H. by rewrite <- H.
Qed.

#[export] Instance within_utp_connect tries to : Within st_path (utp_connect tries to).
Proof.
  unfold utp_connect. apply within_read. intros c y. apply wp_bind, wp_assert; [intros Hs|done].
  apply bool_decide_eq_true in Hs. rewrite Hs.
  apply wp_bind. eapply wp_mono; [apply wp_initialize_state|]. intros _ [c1 y1] H1. cbn [me] in H1.
  apply (wp_past _ _ CS_IDLE); [done|apply _|]. intros q c2 y2 H2.
  apply (wp_past _ _ CS_IDLE); [done|apply _|]. intros _ c3 y3 H3.
  apply (wp_past _ _ CS_IDLE); [done|apply _|]. intros _ c4 y4 H4.
  apply wp_bind, wp_modify. eapply wp_mono; [apply (within_at eq); within|].
  intros v s' H. cbn [me] in H. rewrite <- H. eapply rtc_l; [apply st_init|]. destruct c4. by apply rtc_once, st_connect.
Qed.

(** a connection accepted *)
Lemma wp_accept_state p buffer to id seq_nr s :
  wp (fun _ => True) (accept_socket p buffer to id seq_nr)
    (fun _ s' => st_path CS_UNINITIALIZED (state (me s'))) s.
Proof.
  unfold accept_socket. apply wp_bind. eapply wp_mono; [apply wp_initialize_state|]. intros _ [c1 y1] H1. cbn [me] in H1.
  apply (wp_past _ _ CS_IDLE); [done|apply _|]. intros _ c2 y2 H2.
  apply (wp_past _ _ CS_IDLE); [done|apply _|]. intros r c3 y3 H3.
  apply (wp_past _ _ CS_IDLE); [done|apply _|]. intros _ c4 y4 H4.
  apply (wp_past _ _ CS_IDLE); [done|apply _|]. intros _ c5 y5 H5.
  apply wp_bind, wp_modify. eapply wp_mono; [apply (within_at st_path); within|].
  intros v s' H. cbn [me] in H. eapply rtc_l; [apply st_init|].
  eapply rtc_l; [apply st_accept|]. by destruct c5.
Qed.
End Moving.
