(* ===== verification/Receive.v ===== *)
(** * Receiving

    The data path of utp_process_incoming (src/utp_internal.cpp): delivery of the
    next packet, the loop over the reorder buffer, the end of the stream, and the
    storing of packets that arrive early, against the set view of Reorder.v.  The
    bytes handed to the application are read off the trace. *)
From S2P Require Import Prelude Wrap Packet Ring Arrays SockAddr Context AckList Socket Frame.
From S2P Require Import MtuSearch Send SendQueue SendInv Streams Reorder Ack Incoming.

(** ** The bytes delivered *)

(** everything handed to UTP_ON_READ for the socket [p], in order *)
Fixpoint reads (p : ptr) (tr : list request) : list Z :=
  match tr with
  | [] => []
  | OnRead q b :: tr => reads p tr ++ (if p =? q then b else [])
  | _ :: tr => reads p tr
  end.

Lemma reads_app p rs tr : Forall no_read rs -> reads p (rs ++ tr) = reads p tr.
Proof. induction 1 as [|r rs Hr _ IH]; [done|]. destruct r; cbn; done. Qed.

Lemma reads_next p R y y' :
  (forall r, R r -> no_read r) -> sys_next R y y' -> reads p (trace y') = reads p (trace y).
Proof.
  intros H [(rs & -> & Hr) _ _ _]. apply reads_app. eapply Forall_impl; [exact Hr|]. intros r []. auto.
Qed.

Definition any (r : request) : Prop := True.

(** The datagrams sent are of kind [ok]. *)
Definition replies (ok : list Z -> Prop) (r : request) : Prop :=
  match r with Sendto _ bs _ _ => ok bs | _ => True end.

(** the context moved on and [bs] was delivered to [p] *)
Definition delivered (ok : list Z -> Prop) (p : ptr) (bs : list Z) (y y' : Sys) : Prop :=
  sys_next (replies ok) y y' /\ reads p (trace y') = reads p (trace y) ++ bs.

Lemma delivered_refl ok p y : delivered ok p [] y y.
Proof. split; [apply sys_next_refl|]. by rewrite app_nil_r. Qed.

Lemma delivered_mono (ok ok' : list Z -> Prop) p bs y y' :
  (forall d, ok d -> ok' d) -> delivered ok p bs y y' -> delivered ok' p bs y y'.
Proof. intros H [Hy Hr]. split; [|done]. eapply sys_next_mono, Hy. intros []; cbn; auto. Qed.

Lemma delivered_trans ok p b1 b2 y1 y2 y3 :
  delivered ok p b1 y1 y2 -> delivered ok p b2 y2 y3 -> delivered ok p (b1 ++ b2) y1 y3.
Proof.
  intros [H1 E1] [H2 E2]. split; [by eapply sys_next_trans|]. by rewrite E2, E1, (assoc_L (++)).
Qed.

Lemma delivered_ok ok p q bs y y' : delivered ok p bs y y' -> sys_ok q y -> sys_ok q y'.
Proof. intros [H _]. by eapply sys_next_ok. Qed.
Lemma delivered_cb ok p bs y y' n :
  delivered ok p bs y y' -> has_callback (ctx y') n = has_callback (ctx y) n.
Proof. intros [H _]. unfold has_callback. by rewrite (sys_next_cb _ _ _ H). Qed.
Lemma delivered_ms ok p bs y y' :
  delivered ok p bs y y' -> current_ms (ctx y') = current_ms (ctx y).
Proof. intros [H _]. by eapply sys_next_ms. Qed.

(** what receiving changes of a socket besides the queue *)
Definition recv_sock (c : UTPSocket) (q : RecvQueue) (r : Retrans) (w : Windows) (t : Z) :
    UTPSocket :=
  c <| rq := q |> <| rt := r |> <| wn := w |> <| last_sent_packet := t |>.

(** ... as far as the other stages are concerned *)
Definition recv_only (c c' : UTPSocket) : Prop :=
  (exists q r w t, c' = recv_sock c q r w t) /\ retransmit_count (rt c') = retransmit_count (rt c).

Section Wp.
Context {E : Env} {HA : GoodApp} (F : fault -> Prop).

(** ** Sending an acknowledgement *)

(** an acknowledgement: everything up to ack_nr and, unless the reorder buffer is
    empty or the stream complete, the mask of what the buffer holds *)
Definition acknowledges (q : RecvQueue) (bs : list Z) : Prop :=
  exists h rest, bs = encode_header h ++ rest /\ header_ok h /\ pf_type h = ST_STATE /\
    pf_ack_nr h = ack_nr q /\
    (if negb (reorder_count q =? 0) && negb (got_fin_reached q)
     then pf_ext h = 1 /\ rest = [0; 4] ++ acks_bytes (eack_mask (inbuf q) (ack_nr q))
     else pf_ext h = 0 /\ rest = []).

Lemma acknowledges_wire q bs : acknowledges q bs -> wire bs.
Proof.
  intros (h & rest & Hb & Hv & _ & _ & He). exists h, rest. split; [done|].
  case_match; destruct He as [He Hr]; [right; eauto|by left].
Qed.

Lemma wp_send_ack_D synack (Q : unit -> St -> Prop) c y :
  sys_ok (this c) y ->
  (reorder_count (rq c) <> 0 -> got_fin_reached (rq c) = false ->
     synack = false /\ islot (rq c) 0 = None) ->
  (forall w y', sys_next (sends_only (acknowledges (rq c))) y y' ->
     emitted (this c) (acknowledges (rq c)) y y' -> idas y' !! this c = Some (-1) ->
     w <| last_rcv_win := last_rcv_win (wn c) |> = wn c ->
     Q tt (mkSt (c <| wn := w |> <| last_sent_packet := current_ms (ctx y) |>) y')) ->
  wp F (send_ack synack) Q (mkSt c y).
Proof.
  intros Hok Ha H. set (R := sends_only (acknowledges (rq c))) in *.
  unfold send_ack. wp_steps. apply (wp_get_rcv_window_R F R); [intros r; apply silent_sends|].
  intros w y1 H1. wp_steps. set (c1 := c <| wn ::= _ |>).
  assert (Hc1 : this c1 = this c /\ rq c1 = rq c) by by destruct c.
  destruct Hc1 as [Et Er].
  assert (Hfin : forall h rest len,
    (forall time, acknowledges (rq c) (take (Z.to_nat len) (encode_header (stamped c1 time h) ++ rest))) ->
    wp F (send_data h rest len ack_overhead 0)
    (fun _ s' => wp F (lift_sys (removeSocketFromAckList (this c1))) Q s') (mkSt c1 y1)).
  { intros h rest len Hd. apply (wp_send_data_D F (acknowledges (rq c))).
    { rewrite Et. by eapply sys_next_ok. }
    { intros time. cbn zeta. split; [apply Hd|apply (acknowledges_wire (rq c)), Hd]. }
    intros time y2 H2 He _ _. wp_steps. apply (wp_remove F R).
    { cbn [sys HasSys_St st_sys]. rewrite Et. eapply sys_next_ok; [exact H2|]. by eapply sys_next_ok. }
    intros y3 H3 Hi3. cbn [put_sys HasSys_St me st_sys] in *. rewrite Et in Hi3.
    rewrite (sys_next_ms _ _ _ H1).
    specialize (H ((wn c) <| last_rcv_win := w |>) y3). destruct c. cbn in *.
    apply H; [| |done|by destruct wn].
    - do 2 (eapply sys_next_trans; [eassumption|]). done.
    - eapply called_before; [exact H1|]. eapply called_after; [exact H3|exact He]. }
  rewrite Er. apply wp_if; intros Hb.
  - pose proof Hb as Hb'. apply andb_true_iff in Hb as [Hr%negb_true_iff%Z.eqb_neq Hg%negb_true_iff].
    destruct (Ha Hr Hg) as [-> Hs]. wp_step. apply wp_assert; [intros _|done].
    wp_step. apply wp_assert; [intros _|intros Hf%bool_decide_eq_false].
    + apply Hfin. intros time. eexists _, _. rewrite Hb'. split; [reflexivity|]. by rewrite <- Er.
    + destruct Hf. rewrite <- Hs. unfold islot. f_equal. lia.
  - apply Hfin. intros time. eexists _, []. rewrite Hb. split; [by rewrite app_nil_r|]. by rewrite <- Er.
Qed.

Lemma wp_send_ack synack (Q : unit -> St -> Prop) c y :
  sys_ok (this c) y ->
  (reorder_count (rq c) <> 0 -> got_fin_reached (rq c) = false ->
     synack = false /\ islot (rq c) 0 = None) ->
  (forall w y', sys_next quiet y y' -> idas y' !! this c = Some (-1) ->
     w <| last_rcv_win := last_rcv_win (wn c) |> = wn c ->
     Q tt (mkSt (c <| wn := w |> <| last_sent_packet := current_ms (ctx y) |>) y')) ->
  wp F (send_ack synack) Q (mkSt c y).
Proof.
  intros Hok Ha H. apply wp_send_ack_D; [done..|]. intros w y' Hy _. eapply H, sys_next_quiet, Hy.
Qed.

(** ** One packet handed on *)
Lemma delivered_push ok p bs y :
  delivered ok p bs y (y <| trace ::= cons (OnRead p bs) |>).
Proof.
  split; [by apply sys_next_push|]. destruct y as [x i tr]. cbn. by rewrite Z.eqb_refl.
Qed.

Lemma wp_deliver ok data (Q : unit -> St -> Prop) c y :
  read_shutdown (rq c) = false -> has_callback (ctx y) UTP_ON_READ = true ->
  (forall y', delivered ok (this c) data y y' ->
     Q tt (mkSt (c <| rq ::= fun q => q <| ack_nr ::= fun n => u16 (n + 1) |> |>) y')) ->
  wp F (deliver data) Q (mkSt c y).
Proof.
  intros Hr Hcb H. unfold deliver. wp_steps. apply wp_when; intros Hd.
  - unfold utp_call_on_read. apply wp_notify_yes; [done|]. wp_steps. apply H, delivered_push.
  - rewrite Hr, andb_true_r in Hd. apply negb_false_iff, bool_decide_eq_true in Hd as ->.
    wp_steps. apply H, delivered_refl.
Qed.
End Wp.

(** ** A stream of packets

    The peer sends packets with offsets 0, 1, 2, ... from the sequence number
    [isn]; the one at offset [o] carries the bytes [D o].  [fin] is the offset of
    the FIN, when it has been sent. *)
Section Stream.
Context {E : Env} {HA : GoodApp} (F : fault -> Prop).
Context (D : Z -> list Z) (isn : Z) (fin : option Z).

(** The receiving side holds the packets in [R] and has handed on those before
    [k]. *)
Record recv_queue (R : gset Z) (k : Z) (q : RecvQueue) : Prop := {
  rc_buf : buffered D isn R k q;
  rc_open : read_shutdown q = false;
  rc_fin : got_fin q = true -> exists N, fin = Some N /\ eof_pkt q = u16 (isn + N) /\ N < k + 1024;
  rc_reached : got_fin_reached q = true -> got_fin q = true /\ fin = Some (k - 1);
  rc_last : forall N, fin = Some N -> 0 <= N /\ forall o, o ∈ R -> o <= N;
  rc_noted : forall N, fin = Some N -> N ∈ R -> got_fin q = true;
}.

Record receiver (R : gset Z) (k : Z) (s : St) : Prop := {
  rc_sys : sys_ok (this (me s)) (st_sys s);
  rc_cb : has_callback (ctx (st_sys s)) UTP_ON_READ = true;
  rc_queue : recv_queue R k (rq (me s));
}.

(** the end of the stream was reported if it was reached *)
Definition eof_told (k : Z) (q : RecvQueue) : Prop :=
  got_fin q = true -> fin = Some (k - 1) -> got_fin_reached q = true.

(** the FIN is known only from its packet *)
Definition fin_in (R : gset Z) (q : RecvQueue) : Prop :=
  got_fin q = true -> exists N, fin = Some N /\ N ∈ R.

Lemma fin_in_mono R R' q q' : got_fin q' = got_fin q -> R ⊆ R' -> fin_in R q -> fin_in R' q'.
Proof. intros E1 HR Hf Hg. rewrite E1 in Hg. destruct (Hf Hg) as (N & HN & Hin). exists N. auto. Qed.

(** the acknowledgement of the whole stream, FIN included *)
Definition completes (bs : list Z) : Prop :=
  exists N h, fin = Some N /\ bs = encode_header h ++ [] /\ header_ok h /\ pf_type h = ST_STATE /\
    pf_ext h = 0 /\ pf_ack_nr h = u16 (isn + N).

(** it is the only datagram sent at once, when the end of the stream is reported *)
Definition concludes (q : RecvQueue) (bs : list Z) : Prop := got_fin_reached q = true /\ completes bs.

(** from one state to another: only the receiving side moved, and [bs] was
    delivered *)
Record receives (bs : list Z) (s s' : St) : Prop := {
  rv_me : recv_only (me s) (me s');
  rv_told : got_fin_reached (rq (me s)) = true -> got_fin_reached (rq (me s')) = true;
  rv_sys : delivered (concludes (rq (me s'))) (this (me s)) bs (st_sys s) (st_sys s');
}.

Lemma receives_trans b1 b2 s1 s2 s3 :
  receives b1 s1 s2 -> receives b2 s2 s3 -> receives (b1 ++ b2) s1 s3.
Proof.
  intros [[(q1 & r1 & w1 & t1 & E1) C1] T1 H1] [[(q2 & r2 & w2 & t2 & E2) C2] T2 H2]. split; [|by auto|].
  - split; [|congruence]. exists q2, r2, w2, t2. rewrite E2, E1. by destruct (me s1).
  - eapply delivered_trans; [eapply delivered_mono, H1; by intros d [? ?]; split; auto|].
    replace (this (me s1)) with (this (me s2)); [done|]. rewrite E1. by destruct (me s1).
Qed.

Lemma receives_this bs s s' : receives bs s s' -> this (me s') = this (me s).
Proof. intros [[(q & r & w & t & ->) _] _ _]. by destruct (me s). Qed.

Lemma receives_quiet c y c' y' :
  recv_only c c' ->
  (got_fin_reached (rq c) = true -> got_fin_reached (rq c') = true) ->
  sys_next (speaks (concludes (rq c'))) y y' -> receives [] (mkSt c y) (mkSt c' y').
Proof.
  intros Hc Ht Hy. split; [done|done|]. cbn. split.
  - eapply sys_next_mono, Hy. by intros [] [].
  - rewrite app_nil_r. eapply reads_next, Hy. by intros r [].
Qed.

Lemma receiver_move R k R' k' bs s s' :
  receiver R k s -> receives bs s s' -> recv_queue R' k' (rq (me s')) -> receiver R' k' s'.
Proof.
  intros [H1 H2 _] Hr Hq. pose proof (receives_this _ _ _ Hr) as Et. destruct Hr as [_ _ Hd].
  split; [|by rewrite (delivered_cb _ _ _ _ _ _ Hd)|done]. rewrite Et. by eapply delivered_ok.
Qed.

(** the FIN is the packet just delivered exactly when the sequence numbers say so *)
Lemma eof_here R k q N :
  recv_queue R k q -> fin = Some N -> N < k + 1024 -> eof_pkt q = u16 (isn + N) ->
  eof_pkt q = ack_nr q <-> k = N + 1.
Proof.
  intros [Hb _ _ _ Hl] HN Hlt He. destruct (Hl N HN) as [H0 HR].
  rewrite He, (bf_ack _ _ _ _ _ Hb). pose proof (bf_start _ _ _ _ _ Hb).
  assert (k - 1 <= N).
  { destruct (Z.eq_dec k 0); [lia|]. apply HR. apply (bf_got _ _ _ _ _ Hb). lia. }
  split; [|by intros ->; f_equal; lia]. intros Hu. revert Hu. word_lia.
Qed.

Lemma all_delivered R k q N :
  buffered D isn R k q -> (forall o, o ∈ R -> o <= N) -> k = N + 1 -> reorder_count q = 0.
Proof.
  intros Hb HR ->. rewrite (bf_count _ _ _ _ _ Hb). unfold held_count.
  rewrite (sum_upto_tail _ 0); [done|lia|]. intros j Hj.
  rewrite (bf_slots _ _ _ _ _ Hb) by (pose proof (buffered_mask _ _ _ _ _ Hb); lia).
  rewrite decide_False; [done|]. intros Ho%HR. lia.
Qed.

(** reporting the end of the stream *)
Lemma recv_queue_eof R k q :
  recv_queue R k q -> got_fin q = true -> eof_pkt q = ack_nr q ->
  recv_queue R k (q <| got_fin_reached := true |> <| reorder_count := 0 |>).
Proof.
  intros Hq Hg He. destruct (rc_fin _ _ _ Hq Hg) as (N & HN & HeN & Hlt).
  pose proof (proj1 (eof_here R k q N Hq HN Hlt HeN) He) as Hk.
  destruct Hq as [Hb Ho Hf Hr Hl Hn].
  pose proof (all_delivered R k _ N Hb (proj2 (Hl N HN)) Hk) as H0.
  destruct q. cbn in *. split; cbn; try done.
  - eapply buffered_same; [| | |exact Hb]; done.
  - intros _. split; [done|]. rewrite HN. f_equal. lia.
Qed.

Lemma acknowledged_end R k q bs :
  recv_queue R k q -> got_fin q = true -> eof_pkt q = ack_nr q ->
  acknowledges (q <| got_fin_reached := true |>) bs -> completes bs.
Proof.
  intros Hq Hg He (h & rest & -> & Hh & Ht & Ha & Hr). destruct (rc_fin _ _ _ Hq Hg) as (N & HN & HeN & _).
  replace (got_fin_reached (q <| got_fin_reached := true |>)) with true in Hr by by destruct q.
  rewrite andb_false_r in Hr. destruct Hr as [Hx ->]. exists N, h. split_and!; try done.
  rewrite Ha, <- HeN, He. by destruct q.
Qed.

Lemma wp_reach_eof R k (Q : unit -> St -> Prop) s :
  receiver R k s ->
  (forall s', receiver R k s' -> receives [] s s' -> eof_told k (rq (me s')) ->
     got_fin (rq (me s')) = got_fin (rq (me s)) ->
     reorder_count (rq (me s')) <= reorder_count (rq (me s)) -> Q tt s') ->
  wp F reach_eof Q s.
Proof.
  intros Hs H. pose proof Hs as [Hy Hcb Hq]. destruct s as [c y]. cbn [me st_sys] in *.
  unfold reach_eof. wp_steps. apply wp_when; intros Hc.
  - rewrite !andb_true_iff, negb_true_iff, Z.eqb_eq in Hc. destruct Hc as [[Hr Hg] He].
    pose proof (recv_queue_eof _ _ _ Hq Hg He) as Hq'.
    wp_steps. unfold utp_call_on_state_change. apply (wp_notify F mute); [done|].
    intros y1 H1. cbn [put_sys HasSys_St me st_sys]. wp_steps.
    set (c1 := (c <| rq ::= _ |>) <| rt ::= _ |>).
    assert (E1 : this c1 = this c /\ rq c1 = (rq c) <| got_fin_reached := true |>) by by destruct c.
    destruct E1 as [Et1 Eq1]. apply wp_send_ack_D.
    { rewrite Et1. by eapply sys_next_ok. }
    { rewrite Eq1. by destruct (rq c). }
    intros w y2 H2 _ _ _. wp_steps. set (c2 := _ <| rq ::= _ |>).
    assert (Eq2 : rq c2 = (rq c) <| got_fin_reached := true |> <| reorder_count := 0 |>)
      by by destruct c.
    assert (Hrv : receives [] (mkSt c y) (mkSt c2 y2)).
    { apply receives_quiet;
        [split; [exists (rq c2), (rt c2), (wn c2), (last_sent_packet c2)|]; by destruct c|by rewrite Eq2; destruct (rq c)|].
      eapply sys_next_trans; [apply sys_next_mute; exact H1|]. eapply sys_next_mono; [|exact H2].
      intros x Hx%sends_speaks. eapply speaks_mono, Hx. intros bs Hbs. rewrite Eq2.
      split; [by destruct (rq c)|]. rewrite Eq1 in Hbs. exact (acknowledged_end R k _ bs Hq Hg He Hbs). }
    apply H; [|done| | |].
    + eapply receiver_move; [exact Hs|exact Hrv|]. cbn [me]. by rewrite Eq2.
    + cbn [me]. rewrite Eq2. by destruct (rq c).
    + cbn [me]. rewrite Eq2. by destruct (rq c).
    + cbn [me]. rewrite Eq2. pose proof (bf_count _ _ _ _ _ (rc_buf _ _ _ Hq)) as Ec.
      pose proof (held_count_bounds _ (buffered_mask _ _ _ _ _ (rc_buf _ _ _ Hq))).
      destruct (rq c). cbn in *. lia.
  - apply H; [done| | |done|done].
    + apply receives_quiet; [|done|apply sys_next_refl].
      split; [exists (rq c), (rt c), (wn c), (last_sent_packet c)|]; by destruct c.
    + cbn [me]. intros Hg HN. rewrite Hg, andb_true_r in Hc.
      destruct (rc_fin _ _ _ Hq Hg) as (N & HN' & HeN & Hlt).
      assert (k = N + 1) as Hk by (rewrite HN in HN'; injection HN'; lia).
      rewrite (proj2 (eof_here R k _ N Hq HN' Hlt HeN) Hk), Z.eqb_refl, andb_true_r in Hc.
      by apply negb_false_iff in Hc.
Qed.

(** ** The loop over the reorder buffer *)

Lemma recv_queue_take R k q :
  recv_queue R k q -> k ∈ R ->
  islot q 0 = Some (D k) /\ 0 < reorder_count q /\
  recv_queue R (k + 1) (q <| inbuf ::= fun r => ring_put r (ack_nr q + 1) None |>
    <| ack_nr ::= fun n => u16 (n + 1) |> <| reorder_count ::= fun n => u16 (n - 1) |>).
Proof.
  intros [Hb Ho Hf Hr Hl Hn] Hk. set (q' := _ <| reorder_count ::= _ |>).
  destruct (buffered_take D isn R k q q' Hb Hk) as (H0 & Hc & Hb'); [by destruct q..|].
  split; [done|]. split; [done|]. clear H0 Hc. destruct q. split; [done|done| | |done|done].
  - intros Hg. destruct (Hf Hg) as (N & ? & ? & ?). exists N. split_and!; [done..|lia].
  - intros Hg. destruct (Hr Hg) as [_ HN]. destruct (Hl _ HN) as [_ HR].
    specialize (HR k Hk). lia.
Qed.

Lemma recv_queue_next R k q :
  recv_queue R k q -> k ∉ R -> (forall N, fin = Some N -> k <= N) -> (fin = Some k -> got_fin q = true) ->
  recv_queue ({[k]} ∪ R) (k + 1) (q <| ack_nr ::= fun n => u16 (n + 1) |>).
Proof.
  intros [Hb Ho Hf Hr Hl Hn] Hk Hle Hg. set (q' := q <| ack_nr ::= _ |>).
  pose proof (buffered_next D isn R k q q' Hb Hk) as Hb'.
  destruct q. split; [by apply Hb'|done| | | |].
  - intros Hgf. destruct (Hf Hgf) as (N & ? & ? & ?). exists N. split_and!; [done..|lia].
  - intros Hgf. destruct (Hr Hgf) as [_ HN]. specialize (Hle _ HN). lia.
  - intros N HN. destruct (Hl N HN) as [? HR]. split; [done|]. specialize (Hle _ HN).
    intros o. rewrite elem_of_union, elem_of_singleton. intros [->|?]; auto.
  - intros N HN. rewrite elem_of_union, elem_of_singleton. intros [->|?]; cbn in *; eauto.
Qed.

(** where delivery stops *)
Definition stopped (R : gset Z) (k k' : Z) (s s' : St) : Prop :=
  k <= k' /\ receiver R k' s' /\ (k' ∉ R) /\ eof_told k' (rq (me s')) /\ fin_in R (rq (me s')) /\
  receives (stream_data D k k') s s'.

Lemma wp_drain R : forall fuel k s,
  receiver R k s -> fin_in R (rq (me s)) -> reorder_count (rq (me s)) < Z.of_nat fuel ->
  wp F (drain fuel) (fun _ s' => exists k', stopped R k k' s s') s.
Proof.
  induction fuel as [|fuel IH]; intros k s Hs Hfi Hfuel.
  { pose proof (rc_buf _ _ _ (rc_queue _ _ _ Hs)) as Hb.
    pose proof (bf_count _ _ _ _ _ Hb). pose proof (buffered_mask _ _ _ _ _ Hb).
    pose proof (held_count_bounds (rq (me s))). lia. }
  cbn [drain]. wp_step. apply (wp_reach_eof R k); [done|]. intros s1 Hs1 Hrv1 He1 Hgf1 Hle1.
  pose proof (fin_in_mono R R _ _ Hgf1 ltac:(done) Hfi) as Hfi1.
  assert (Hstop : k ∉ R -> stopped R k k s s1).
  { intros Hk. split; [lia|]. split; [done|]. split; [done|]. split; [done|]. split; [done|].
    by rewrite stream_data_refl. }
  pose proof Hs1 as [Hy1 Hcb1 Hq1]. destruct s1 as [c y]. cbn [me st_sys] in *. wp_steps.
  destruct (Z.eqb_spec (reorder_count (rq c)) 0) as [H0|H0].
  { wp_steps. exists k. apply Hstop. by eapply buffered_empty; [exact (rc_buf _ _ _ Hq1)|]. }
  assert (Hslot : islot (rq c) 0 = ring_get (inbuf (rq c)) (ack_nr (rq c) + 1))
    by (unfold islot; f_equal; lia).
  rewrite <- Hslot. destruct (decide (k ∈ R)) as [Hk|Hk].
  2: { rewrite (bf_slots _ _ _ _ _ (rc_buf _ _ _ Hq1)), Z.add_0_r, decide_False
         by (done || (pose proof (buffered_mask _ _ _ _ _ (rc_buf _ _ _ Hq1)); lia)).
       wp_steps. exists k. by apply Hstop. }
  destruct (recv_queue_take R k _ Hq1 Hk) as (Hd & Hpos & Hq2). rewrite Hd. wp_steps.
  set (c1 := c <| rq ::= _ |>).
  assert (E1 : this c1 = this c /\ read_shutdown (rq c1) = read_shutdown (rq c))
    by by destruct c, rq.
  destruct E1 as [Et1 Er1]. apply (wp_deliver F (fun _ => False)); [rewrite Er1; apply Hq1|done|].
  intros y2 Hy2. wp_steps. set (c2 := c1 <| rq ::= _ |>).
  apply wp_assert; [intros _|intros Hf%Z.ltb_ge; lia]. wp_steps.
  set (c3 := c2 <| rq ::= _ |>). set (q3 := _ <| reorder_count ::= _ |>) in Hq2.
  assert (Eq3 : rq c3 = q3) by by destruct c, rq.
  assert (Hrv : receives (D k) (mkSt c y) (mkSt c3 y2)).
  { split; [|by cbn [me]; rewrite Eq3; destruct (rq c)|cbn [me st_sys]; rewrite <- Et1; by eapply delivered_mono, Hy2].
    split; [exists q3, (rt c), (wn c), (last_sent_packet c)|]; cbn [me]; by destruct c, rq. }
  pose proof (receives_trans _ _ _ _ _ Hrv1 Hrv) as Hrv'. cbn [app] in Hrv'.
  assert (Ec3 : reorder_count q3 = reorder_count (rq c) - 1).
  { unfold q3. pose proof (bf_count _ _ _ _ _ (rc_buf _ _ _ Hq1)) as Ec.
    pose proof (held_count_bounds _ (buffered_mask _ _ _ _ _ (rc_buf _ _ _ Hq1))).
    destruct (rq c). cbn in *. apply u16_small. unfold is_u16. lia. }
  eapply wp_mono.
  - apply (IH (k + 1)).
    + eapply receiver_move; [exact Hs1|exact Hrv|]. cbn [me]. by rewrite Eq3.
    + cbn [me]. rewrite Eq3. apply (fin_in_mono R R (rq c)); [by destruct (rq c)|done..].
    + cbn [me]. rewrite Eq3. lia.
  - intros _ s' (k' & Hle & Hs' & Hk' & He' & Hfi' & Hrv2). exists k'. split; [lia|].
    split_and!; try done. rewrite stream_data_cons by lia. by eapply receives_trans.
Qed.

(** ** A packet of the stream arrives *)

(** the next packet *)
Lemma wp_in_order R k s :
  receiver R k s -> k ∉ R -> (forall N, fin = Some N -> k <= N) ->
  (fin = Some k -> got_fin (rq (me s)) = true) -> fin_in ({[k]} ∪ R) (rq (me s)) ->
  wp F (in_order (D k))
    (fun _ s' => exists k', stopped ({[k]} ∪ R) k k' s s' /\ k < k') s.
Proof.
  intros Hs Hk Hle Hg Hfi. pose proof Hs as [Hy Hcb Hq]. destruct s as [c y]. cbn [me st_sys] in *.
  unfold in_order. wp_steps. apply (wp_deliver F (fun _ => False)); [apply Hq|done|]. intros y1 Hy1. wp_steps.
  pose proof (recv_queue_next R k _ Hq Hk Hle Hg) as Hq1.
  set (c1 := c <| rq ::= _ |>). set (q1 := _ <| ack_nr ::= _ |>) in Hq1.
  assert (Eq1 : rq c1 = q1) by by destruct c.
  assert (Hrv : receives (D k) (mkSt c y) (mkSt c1 y1)).
  { split; [|by cbn [me]; rewrite Eq1; destruct (rq c)|by eapply delivered_mono, Hy1].
    split; [exists q1, (rt c), (wn c), (last_sent_packet c)|]; cbn [me]; by destruct c. }
  assert (Hs1 : receiver ({[k]} ∪ R) (k + 1) (mkSt c1 y1)).
  { eapply receiver_move; [exact Hs|exact Hrv|]. cbn [me]. by rewrite Eq1. }
  eapply wp_mono.
  { apply (wp_drain ({[k]} ∪ R) _ (k + 1)); [done| |cbn [me]; lia].
    cbn [me]. rewrite Eq1. eapply fin_in_mono, Hfi; [by unfold q1; destruct (rq c)|done]. }
  intros _ s2 (k' & Hle' & Hs2 & Hk' & He' & Hfi' & Hrv2). destruct s2 as [c2 y2]. cbn [me] in *.
  wp_steps. pose proof Hs2 as [Hy2 Hcb2 Hq2]. cbn [me st_sys] in *.
  apply (wp_schedule F mute); [done|]. intros y3 i Hy3 _ _. cbn [put_sys HasSys_St me st_sys].
  assert (Hrv3 : receives [] (mkSt c2 y2) (mkSt c2 y3)).
  { apply receives_quiet; [|done|by apply sys_next_mute]. split; [exists (rq c2), (rt c2), (wn c2), (last_sent_packet c2)|];
    by destruct c2. }
  exists k'. split; [|lia]. split; [lia|]. split; [by eapply receiver_move|].
  split; [done|]. split; [done|]. split; [done|]. rewrite stream_data_cons by lia.
  eapply receives_trans; [exact Hrv|]. rewrite <- (app_nil_r (stream_data D _ _)).
  by eapply receives_trans.
Qed.
(** an earlier fact about the queue survives changes of the buffer *)
Lemma recv_queue_same R R' k q q' :
  recv_queue R k q -> buffered D isn R' k q' -> (forall N o, fin = Some N -> o ∈ R' -> o <= N) ->
  (forall N, fin = Some N -> N ∈ R' -> got_fin q = true) ->
  read_shutdown q' = read_shutdown q -> got_fin q' = got_fin q ->
  got_fin_reached q' = got_fin_reached q -> eof_pkt q' = eof_pkt q -> recv_queue R' k q'.
Proof.
  intros [Hb Ho Hf Hr Hl Hn] Hb' Hl' Hn' E1 E2 E3 E4.
  split; rewrite ?E1, ?E2, ?E3, ?E4; try done.
  intros N HN. split; [by destruct (Hl N HN)|]. intros o. by apply Hl'.
Qed.

(** a packet that is past a known FIN, by the comparison of the code *)
Definition past_eof (q : RecvQueue) (pk_seq_nr : Z) : bool :=
  got_fin q && (eof_pkt q <? pk_seq_nr).

Lemma stopped_quiet R R' k c y c' y' :
  receiver R k (mkSt c y) ->
  recv_only c c' ->
  (got_fin_reached (rq c) = true -> got_fin_reached (rq c') = true) -> sys_next mute y y' ->
  recv_queue R' k (rq c') -> k ∉ R' -> eof_told k (rq c') -> fin_in R' (rq c') ->
  stopped R' k k (mkSt c y) (mkSt c' y').
Proof.
  intros Hs Hc Ht Hy Hq Hk He Hfi. pose proof (receives_quiet c y c' y' Hc Ht (sys_next_mute _ _ _ Hy)) as Hrv.
  split; [lia|]. split; [by eapply receiver_move|]. rewrite stream_data_refl. done.
Qed.

(** storing a packet that arrives early *)
Lemma recv_queue_store R k q q' d s :
  recv_queue R k q -> 1 <= d -> d + 1 <= Ring.mask (inbuf q) -> k + d ∉ R ->
  (forall N, fin = Some N -> k + d <= N) -> (fin = Some (k + d) -> got_fin q = true) ->
  u16 s = u16 (isn + (k + d)) ->
  q' = q <| inbuf ::= fun r => ring_put r s (Some (D (k + d))) |>
         <| reorder_count ::= fun n => u16 (n + 1) |> ->
  recv_queue ({[k + d]} ∪ R) k q'.
Proof.
  intros Hq Hd Hm Hn Hle Hg Es ->. pose proof (rc_buf _ _ _ Hq) as Hb.
  eapply recv_queue_same; [exact Hq| | | |by destruct q..].
  - eapply (buffered_store D isn R k q _ d s); try done; [|by destruct q..].
    rewrite (bf_ack _ _ _ _ _ Hb), Es. word_lia.
  - intros N x HN. rewrite elem_of_union, elem_of_singleton.
    intros [->|Hx]; [by apply Hle|]. by apply (rc_last _ _ _ Hq N HN).
  - intros N HN. rewrite elem_of_union, elem_of_singleton.
    intros [->|Hx]; [by apply Hg|]. by apply (rc_noted _ _ _ Hq N HN).
Qed.

(** making room for it *)
Lemma recv_queue_room R k q q' d s :
  recv_queue R k q -> 1 <= d <= 1023 -> u16 s = u16 (isn + (k + d)) ->
  q' = q <| inbuf ::= fun r => ensure_size r (s + 1) (d + 1) |> ->
  recv_queue R k q' /\ d + 1 <= Ring.mask (inbuf q').
Proof.
  intros Hq Hd Es ->. pose proof (rc_buf _ _ _ Hq) as Hb.
  edestruct (buffered_room D isn R k q (q <| inbuf ::= fun r => ensure_size r (s + 1) (d + 1) |>)
    d s) as [Hb' Hm]; [done|done| |by destruct q..|].
  { rewrite (bf_ack _ _ _ _ _ Hb). revert Es. word_lia. }
  split; [|done]. eapply recv_queue_same; [exact Hq|done| |apply (rc_noted _ _ _ Hq)|by destruct q..].
  intros N x HN Hx. by apply (rc_last _ _ _ Hq N HN).
Qed.

(** the place of a packet in the window *)
Lemma early_slot R k q d s :
  recv_queue R k q -> 1 <= d -> d + 1 <= Ring.mask (inbuf q) -> u16 s = u16 (isn + (k + d)) ->
  ring_get (inbuf q) s = (if decide (k + d ∈ R) then Some (D (k + d)) else None) /\
  Z.land s (Ring.mask (inbuf q)) <> Z.land (ack_nr q + 1) (Ring.mask (inbuf q)).
Proof.
  intros Hq Hd Hm Es. pose proof (rc_buf _ _ _ Hq) as Hb.
  pose proof (bf_mask _ _ _ _ _ Hb) as Hmax. pose proof (bf_ring _ _ _ _ _ Hb) as Hr.
  pose proof (bf_ack _ _ _ _ _ Hb) as Ea. split.
  - rewrite <- (bf_slots _ _ _ _ _ Hb) by lia. unfold islot. apply ring_get_cong; [done|lia|].
    rewrite Ea, Es. word_lia.
  - rewrite <- (ring_index_u16 _ s), <- (ring_index_u16 _ (ack_nr q + 1)) by (done || lia).
    replace (u16 (ack_nr q + 1)) with (u16 (isn + k)) by (rewrite Ea; word_lia).
    rewrite Es, !ring_index_u16, !ring_index by (done || lia).
    intros He%mod_near_eq; lia.
Qed.

(** a packet that arrives early *)
Lemma wp_out_of_order R k o s :
  receiver R k s -> k ∉ R -> eof_told k (rq (me s)) -> k < o < k + 1024 ->
  (forall N, fin = Some N -> o <= N) -> (fin = Some o -> got_fin (rq (me s)) = true) ->
  fin_in (if past_eof (rq (me s)) (u16 (isn + o)) then R else {[o]} ∪ R) (rq (me s)) ->
  wp F (out_of_order (u16 (isn + o)) (o - k) (D o))
    (fun kept s' =>
       stopped (if past_eof (rq (me s)) (u16 (isn + o)) then R else {[o]} ∪ R) k k s s' /\
       (kept = true -> o ∉ R)) s.
Proof.
  intros Hs Hk He Ho Hle Hg Hfi. pose proof Hs as [Hy Hcb Hq]. destruct s as [c y]. cbn [me st_sys] in *.
  unfold out_of_order, past_eof in *. wp_steps.
  assert (Hid : recv_only c c).
  { split; [exists (rq c), (rt c), (wn c), (last_sent_packet c)|]; by destruct c. }
  apply wp_if; intros Hpast; rewrite Hpast in *.
  { wp_steps. split; [|done]. apply (stopped_quiet R); try done. apply sys_next_refl. }
  destruct (Z.ltb_spec 1023 (o - k)); [lia|]. wp_steps.
  set (c1 := c <| rq ::= _ |>).
  set (q1 := (rq c) <| inbuf ::= fun r => ensure_size r (u16 (isn + o) + 1) (o - k + 1) |>).
  assert (Eq1 : rq c1 = q1 /\ this c1 = this c /\ eof_told k q1 /\ fin_in ({[o]} ∪ R) q1)
    by by (unfold q1; destruct c, rq).
  destruct Eq1 as (Eq1 & Et1 & He1 & Hfi1). rewrite Eq1.
  assert (Eo : u16 (u16 (isn + o)) = u16 (isn + (k + (o - k)))) by word_lia.
  destruct (recv_queue_room R k (rq c) q1 (o - k) (u16 (isn + o)) Hq) as [Hq1 Hm1]; [lia|done..|].
  destruct (early_slot R k q1 (o - k) (u16 (isn + o)) Hq1) as [Hslot Hne]; [lia|done..|].
  replace (k + (o - k)) with o in Hslot by lia. rewrite Hslot.
  assert (Hid1 : recv_only c c1).
  { split; [exists q1, (rt c), (wn c), (last_sent_packet c)|]; by destruct c. }
  case_decide as HR.
  - wp_steps. split; [|done].
    replace ({[o]} ∪ R : gset Z) with R in * by (by apply held_again).
    apply (stopped_quiet R); try done; [apply sys_next_refl|by rewrite Eq1..].
  - wp_step. apply wp_assert; [intros _|intros Hf%negb_false_iff%Z.eqb_eq; done].
    wp_steps. set (c2 := c1 <| rq ::= _ |>).
    set (q2 := q1 <| inbuf ::= fun r => ring_put r (u16 (isn + o)) (Some (D o)) |>
                  <| reorder_count ::= fun n => u16 (n + 1) |>).
    assert (Eq2 : rq c2 = q2 /\ this c2 = this c /\ eof_told k q2 /\ fin_in ({[o]} ∪ R) q2)
      by by (unfold q2, q1 in *; destruct c, rq).
    destruct Eq2 as (Eq2 & Et2 & He2 & Hfi2).
    apply (wp_schedule F mute); [by rewrite Et2|]. intros y3 i Hy3 _ _. wp_steps.
    cbn [put_sys HasSys_St me st_sys] in *. split; [|done].
    apply (stopped_quiet R); rewrite ?Eq2; try done.
    + split; [exists q2, (rt c), (wn c), (last_sent_packet c)|]; by destruct c.
    + replace o with (k + (o - k)) by lia.
      eapply (recv_queue_store R k q1 _ (o - k) (u16 (isn + o))); try done; try lia.
      * by replace (k + (o - k)) with o by lia.
      * intros N HN. specialize (Hle N HN). lia.
      * replace (k + (o - k)) with o by lia. intros HN. specialize (Hg HN). by destruct c, rq.
      * by replace (k + (o - k)) with o by lia.
    + rewrite elem_of_union, elem_of_singleton. intros [?|?]; [lia|done].
Qed.

(** ** The two paths together *)

(** what the peer puts into the flags of the packet at offset [o] *)
Definition stream_flags (o fl : Z) : Prop := fl <> ST_STATE /\ (fl = ST_FIN <-> fin = Some o).

(** the packet at [o] is thrown away because a FIN was seen and the sequence
    numbers wrapped around between the two *)
Definition dropped (k o : Z) (q : RecvQueue) : bool :=
  negb (o =? k) && past_eof q (u16 (isn + o)).

Definition established (s : St) : Prop :=
  is_state (state (me s)) CS_CONNECTED || is_state (state (me s)) CS_CONNECTED_FULL = true.

Lemma past_eof_note fl x q : past_eof (note_fin fl x q) x = past_eof q x.
Proof.
  unfold past_eof, note_fin. destruct (fl =? ST_FIN), (got_fin q) eqn:Hg; cbn [andb negb];
    rewrite ?Hg; try done. destruct q. cbn. lia.
Qed.

Lemma note_fin_noted o fl x q : stream_flags o fl -> fin = Some o -> got_fin (note_fin fl x q) = true.
Proof.
  intros [_ Hfl] ->%Hfl. unfold note_fin. rewrite Z.eqb_refl. destruct (got_fin q) eqn:Hg; [done|]. by destruct q.
Qed.

(** the FIN just noted is the packet itself, which is not dropped *)
Lemma fin_in_note R o fl q :
  stream_flags o fl -> fin_in R q ->
  let q' := note_fin fl (u16 (isn + o)) q in
  fin_in ({[o]} ∪ R) q' /\ fin_in (if past_eof q' (u16 (isn + o)) then R else {[o]} ∪ R) q'.
Proof.
  intros [_ Hfl] Hf. cbn zeta. rewrite past_eof_note. unfold note_fin.
  assert (Hb : fin_in ({[o]} ∪ R) q /\ fin_in (if past_eof q (u16 (isn + o)) then R else {[o]} ∪ R) q).
  { split; [|case_match; [done|]]; (eapply fin_in_mono, Hf; [done|set_solver]). }
  destruct (Z.eqb_spec fl ST_FIN) as [Hn|]; [|done]. destruct (got_fin q) eqn:Hg; [done|]. cbn [andb negb].
  unfold past_eof. rewrite Hg. cbn [andb]. apply Hfl in Hn.
  split; intros _; exists o; (split; [done|set_solver]).
Qed.

Lemma recv_queue_note R k o fl q :
  recv_queue R k q -> eof_told k q -> stream_flags o fl -> k <= o < k + 1024 ->
  recv_queue R k (note_fin fl (u16 (isn + o)) q) /\
  eof_told k (note_fin fl (u16 (isn + o)) q).
Proof.
  intros Hq He [_ Hfl] Ho. unfold note_fin.
  destruct (Z.eqb_spec fl ST_FIN) as [Hf|]; [|done]. destruct (got_fin q) eqn:Hg; [done|].
  apply Hfl in Hf. cbn [andb negb]. set (q' := q <| got_fin := true |> <| eof_pkt := _ |>).
  destruct Hq as [Hb Hop Hfn Hr Hl Hn]. split.
  - split; [|by destruct q| | |done|by destruct q].
    + eapply buffered_same; [..|exact Hb]; by destruct q.
    + intros _. exists o. split_and!; [done|by destruct q|lia].
    + intros Hg'. destruct q. cbn in *. by destruct (Hr Hg').
  - intros _ Hk. rewrite Hf in Hk. injection Hk. lia.
Qed.

Lemma wp_receive_data R k o fl s :
  receiver R k s -> k ∉ R -> eof_told k (rq (me s)) -> fin_in R (rq (me s)) -> established s ->
  k <= o < k + 1024 -> (forall N, fin = Some N -> o <= N) -> stream_flags o fl ->
  wp F (receive_data fl (u16 (isn + o)) (o - k) (D o))
    (fun _ s' => exists k',
       stopped (if dropped k o (rq (me s)) then R else {[o]} ∪ R) k k' s s' /\
       (o = k -> k < k')) s.
Proof.
  intros Hs Hk He Hfi Hc Ho Hle Hfl. unfold receive_data. wp_steps.
  destruct (Z.eqb_spec fl ST_STATE) as [Hst|_]; [by destruct (proj1 Hfl)|].
  rewrite <- negb_orb. unfold established in Hc. rewrite Hc. cbn [negb]. wp_steps.
  destruct s as [c y]. cbn [me st_sys] in *. pose proof Hs as [Hy Hcb Hq]. cbn [me st_sys] in *.
  destruct (recv_queue_note R k o fl _ Hq He Hfl Ho) as [Hq1 He1].
  set (q1 := note_fin fl (u16 (isn + o)) (rq c)) in *. set (c1 := c <| rq ::= _ |>).
  pose proof (note_fin_noted o fl (u16 (isn + o)) (rq c) Hfl) as Hg1.
  destruct (fin_in_note R o fl (rq c) Hfl Hfi) as [Hfi1 Hfi2]. fold q1 in Hg1, Hfi1, Hfi2.
  assert (Eq1 : rq c1 = q1) by by destruct c.
  assert (Hrv1 : receives [] (mkSt c y) (mkSt c1 y)).
  { apply receives_quiet; [|rewrite Eq1; unfold q1, note_fin; destruct (_ && _); by destruct (rq c)|apply sys_next_refl].
    split; [exists q1, (rt c), (wn c), (last_sent_packet c)|]; by destruct c. }
  assert (Hs1 : receiver R k (mkSt c1 y))
    by (eapply receiver_move; [exact Hs|exact Hrv1|by cbn [me]; rewrite Eq1]).
  assert (Hend : forall R' k' s', stopped R' k k' (mkSt c1 y) s' -> stopped R' k k' (mkSt c y) s').
  { intros R' k' s' (? & ? & ? & ? & ? & ?). split_and!; try done.
    by apply (receives_trans [] _ _ _ _ Hrv1). }
  unfold dropped. destruct (Z.eqb_spec (o - k) 0) as [E0|E0].
  - replace o with k by lia. rewrite Z.eqb_refl. cbn [negb andb]. wp_step.
    eapply wp_mono; [apply (wp_in_order R k); [done|done| | |]|].
    { intros N HN. specialize (Hle N HN). lia. }
    { cbn [me]. rewrite Eq1. by replace k with o by lia. }
    { cbn [me]. rewrite Eq1. by replace k with o by lia. }
    intros _ s' (k' & Hst & Hlt). wp_steps. exists k'. split; [by apply Hend|done].
  - rewrite (proj2 (Z.eqb_neq o k)) by lia. cbn [negb andb]. wp_step.
    eapply wp_mono; [apply (wp_out_of_order R k); [done|done|by cbn [me]; rewrite Eq1|lia|done|by cbn [me]; rewrite Eq1..]|].
    intros b s' [Hst _]. cbn [me] in Hst. rewrite Eq1 in Hst. unfold q1 in Hst.
    rewrite past_eof_note in Hst. wp_steps. exists k. split; [by apply Hend|lia].
Qed.

(** what the arrival of [o] adds to the set *)
Definition arrived (R : gset Z) (k o : Z) (q : RecvQueue) : gset Z :=
  if (k <=? o) && (o <? k + 1024) && negb (dropped k o q) then {[o]} ∪ R else R.

(** a packet outside the window is at most acknowledged again *)
Lemma far_not_arrived R k o q :
  k - 64512 <= o < k + 64512 -> REORDER_BUFFER_MAX_SIZE <= u16 (o - k) ->
  o <> k /\ arrived R k o q = R.
Proof.
  intros Ho Hout. unfold arrived. revert Hout. unfold REORDER_BUFFER_MAX_SIZE. intros Hout.
  assert (o < k \/ k + 1024 <= o) as Hc by (revert Hout; word_lia).
  split; [lia|]. destruct Hc.
  - by rewrite (proj2 (Z.leb_gt k o)) by lia.
  - by rewrite (proj2 (Z.ltb_ge o (k + 1024))), andb_false_r by lia.
Qed.

Lemma near_arrived R k o q :
  k - 64512 <= o < k + 64512 -> u16 (o - k) < REORDER_BUFFER_MAX_SIZE ->
  k <= o < k + 1024 /\ u16 (o - k) = o - k /\
  arrived R k o q = if dropped k o q then R else {[o]} ∪ R.
Proof.
  intros Ho Hin. assert (Hw : k <= o < k + 1024)
    by (revert Hin; unfold REORDER_BUFFER_MAX_SIZE; word_lia).
  split; [done|]. split; [apply u16_small; unfold is_u16; lia|]. unfold arrived.
  rewrite (proj2 (Z.leb_le k o)), (proj2 (Z.ltb_lt o (k + 1024))) by lia.
  by destruct (dropped _ _ _).
Qed.
End Stream.
