(* ===== verification/TimerInv.v ===== *)
(** * The timer keeps the send queue

    check_timeouts (src/utp_internal.cpp) against the invariant of the send
    queue: whatever the clock says, no assertion fails, and no packet is lost:
    packets are marked, sent again or left alone, and the byte stream that waits
    to be acknowledged is what it was. *)
From S2P Require Import Prelude Wrap Packet Ring Arrays SockAddr Context AckList Socket Frame.
From S2P Require Import MtuSearch Send SendQueue SendInv Flush Streams WriteQueue Ack Incoming Timeouts.
From S2P Require Import AckQueue AckStages Receive.

(** the socket after a stage of the timer *)
Record resumed (n : Z) (s s' : St) : Prop := {
  re_this : this (me s') = this (me s);
  re_rq : rq (me s') = rq (me s);
  re_avg : avg (dl (me s')) = avg (dl (me s));
  re_ident : identity (me s') = identity (me s);
  re_state : state (me s') = CS_SYN_SENT -> state (me s) = CS_SYN_SENT;
  re_can : can_send n s';
  re_unmoved : unmoved (sq (me s)) (sq (me s'));
  re_sys : sys_next (speaks (ferries (sq (me s)) (sq (me s')) (ack_nr (rq (me s))))) (st_sys s) (st_sys s');
}.

Lemma re_count n s s' : resumed n s s' -> cur_window_packets (sq (me s')) = cur_window_packets (sq (me s)).
Proof. intros H. apply (re_unmoved _ _ _ H). Qed.

Lemma re_content n s s' : resumed n s s' -> content (sq (me s')) = content (sq (me s)).
Proof. intros H. apply content_unmoved, (re_unmoved _ _ _ H). Qed.

Lemma resumed_trans n1 n2 s1 s2 s3 : resumed n1 s1 s2 -> resumed n2 s2 s3 -> resumed n2 s1 s3.
Proof.
  intros [T1 R1 D1 I1 S1 _ K1 Y1] [T2 R2 D2 I2 S2 C2 K2 Y2]. split; try congruence; auto.
  - by eapply unmoved_trans.
  - rewrite R1 in Y2. eapply sys_next_trans; (eapply sys_next_speaks; [|eassumption]); intros bs.
    + eapply ferries_before, K2.
    + eapply ferries_after, K1.
Qed.

Lemma steady_resumed n s s' : steady s s' -> can_send n s -> resumed n s s'.
Proof.
  intros Hs Hc. pose proof (steady_handled (fun _ => False) n _ _ Hs Hc) as [_ Hc'].
  destruct Hs as [? ? ? Eq]. split; try done; rewrite Eq; [apply unmoved_refl|by apply sys_next_mute].
Qed.

Lemma resumed_refl n n' s : n <= n' -> can_send n s -> resumed n' s s.
Proof. intros Hn Hs. apply steady_resumed; [apply steady_refl|by eapply can_send_mono]. Qed.

Lemma sends_resumed n n' s s' : sends n' s s' -> can_send n s -> resumed n' s s'.
Proof.
  intros Hs [H1 H2 H3 H4]. pose proof (sends_progress (fun _ => False) _ _ _ Hs) as Hp.
  pose proof (sd_kept _ _ _ Hs) as Hk. split; try apply Hp; [|by apply kept_unmoved].
  split; [by eapply progress_sys|apply Hp|apply Hp|by eapply kept_front].
Qed.

Lemma handled_resumed A n s s' :
  handled A n s s' -> queue_kept (sq (me s)) (sq (me s')) -> resumed n s s'.
Proof. intros [Hp Hc] Hk. split; try apply Hp; [done|by apply kept_unmoved]. Qed.

(** ** Packets taken for lost *)

(** packets in flight were sent at most [n] times *)
Definition flight_bound (n : Z) (q : SendQueue) : Prop :=
  forall j p, 0 <= j < cur_window_packets q -> slot q j = Some p -> in_flight p = true ->
    pk_transmissions p <= n.

Lemma sq_ok_flight n q : sq_ok n q -> flight_bound n q.
Proof. intros Hq j p Hj Hp _. eapply pkt_trans_le, so_pkts; eauto. Qed.

(** the queue after the packet [i] places before its end was marked *)
Definition marked_queue (q : SendQueue) (i : Z) (p : OutgoingPacket) : SendQueue :=
  set_slot q i (Some (p <| pk_need_resend := true |>)) (cur_window q - pk_payload p).

(** what becomes of a packet that is taken for lost *)
Definition lost (p : OutgoingPacket) : OutgoingPacket :=
  if in_flight p then p <| pk_need_resend := true |> else p.

Lemma lost_idle p : in_flight (lost p) = false.
Proof.
  unfold lost. destruct (in_flight p) eqn:E; [|done]. unfold in_flight. destruct p. cbn.
  by rewrite andb_false_r.
Qed.

Lemma lost_lost p : lost (lost p) = lost p.
Proof. unfold lost at 1. by rewrite lost_idle. Qed.

(** the packets outside [l] were taken for lost, and nothing else has happened *)
Record marked (l : list Z) (s s' : St) : Prop := {
  mk_sys : st_sys s' = st_sys s;
  mk_me : me s' = (me s) <| sq := sq (me s') |>;
  mk_slots : forall k, 0 <= k < cur_window_packets (sq (me s)) ->
    slot (sq (me s')) k = lost <$> slot (sq (me s)) k \/
    (k ∈ l /\ slot (sq (me s')) k = slot (sq (me s)) k);
}.

Lemma unmoved_set q i p p' w :
  ring_wf (outbuf q) -> 0 <= i < cur_window_packets q ->
  cur_window_packets q <= Ring.mask (outbuf q) + 1 -> slot q i = Some p -> outlasts p p' ->
  unmoved q (set_slot q i (Some p') w).
Proof.
  intros Hr Hi Hc Hp Hol.
  assert (Ec : cur_window_packets (set_slot q i (Some p') w) = cur_window_packets q) by by destruct q.
  split; [split; [by destruct q|lia|]|done|].
  - intros j x Hj. rewrite slot_set by (done || lia). case_decide; [|by eauto using outlasts_refl].
    subst j. intros [= <-]. eauto.
  - intros j x Hj Hx. rewrite slot_set by (done || lia). case_decide; eauto.
Qed.

Lemma marked_queue_ok n q i p :
  sq_ok (n + 1) q -> flight_bound n q -> 0 <= i < cur_window_packets q -> slot q i = Some p ->
  in_flight p = true ->
  sq_ok (n + 1) (marked_queue q i p) /\ flight_bound n (marked_queue q i p) /\
  unmoved q (marked_queue q i p) /\ (front_ok q -> front_ok (marked_queue q i p)).
Proof.
  intros Hq Hb Hi Hp Hf. pose proof (so_fits _ _ Hq). pose proof (Hb i p Hi Hp Hf) as Ht.
  set (p' := p <| pk_need_resend := true |>).
  assert (Hp' : pkt_ok (n + 1) p' /\ slot_bytes (Some p') = 0 /\ outlasts p p').
  { destruct (so_pkts _ _ Hq i p Hi Hp). unfold in_flight in Hf.
    apply andb_true_iff in Hf as [H0%negb_true_iff%Z.eqb_neq _]. destruct p. cbn in *.
    split_and!; [split; cbn; (done || lia)| |by split]. unfold in_flight. cbn. by rewrite andb_false_r. }
  destruct Hp' as (Hok & H0 & Hol). split_and!.
  - pose proof (set_slot_ok (n + 1) q i (Some p') Hq Hi) as Hs. rewrite Hp, H0 in Hs.
    cbn [slot_bytes] in Hs. rewrite Hf, Z.add_0_r in Hs. apply Hs. by intros x [= <-].
  - intros j x Hj. replace (cur_window_packets (marked_queue q i p)) with (cur_window_packets q) in Hj
      by by destruct q.
    unfold marked_queue. rewrite slot_set by (apply Hq || lia). case_decide; [|by apply Hb].
    intros [= <-]. unfold in_flight. by destruct p; cbn; rewrite andb_false_r.
  - unfold marked_queue. by apply (unmoved_set _ _ p); [apply Hq|..].
  - by apply (set_slot_front (n + 1)).
Qed.

Section Wp.
Context {E : Env} {HA : GoodApp} (F : fault -> Prop).

Lemma wp_mark_lost n i s0 c y :
  resumed (n + 1) s0 (mkSt c y) -> flight_bound n (sq c) -> 0 <= i < cur_window_packets (sq c) ->
  wp F (mark_lost i) (fun _ s' => resumed (n + 1) s0 s' /\ flight_bound n (sq (me s')) /\
    st_sys s' = y /\ me s' = c <| sq := sq (me s') |> /\
    forall k, 0 <= k < cur_window_packets (sq c) ->
      slot (sq (me s')) k = if decide (k = i) then lost <$> slot (sq c) k else slot (sq c) k) (mkSt c y).
Proof.
  intros H0 Hb Hi. assert (Ec0 : c = c <| sq := sq c |>) by by destruct c. pose proof (re_can _ _ _ H0) as [Hy Hq Hm Hf]. cbn [me st_sys] in *.
  unfold mark_lost. wp_steps. fold (slot (sq c) i).
  destruct (slot (sq c) i) as [p|] eqn:Hp.
  2: { wp_steps. split_and!; try done. intros k _. case_decide; [by subst; rewrite Hp|done]. }
  apply wp_when; intros Hfl.
  2: { split_and!; try done. intros k _. case_decide; [|done]. subst. rewrite Hp. cbn. unfold lost. by rewrite Hfl. } unfold put_pkt. wp_steps.
  pose proof (slot_le_window _ _ i Hq Hi) as Hle. rewrite Hp in Hle. cbn [slot_bytes] in Hle.
  rewrite Hfl in Hle. set (c1 := c <| sq ::= _ |>).
  apply wp_assert; [intros _|].
  2: { replace (cur_window (sq c1)) with (cur_window (sq c)) by by destruct c, sq.
       intros ?%Z.leb_gt. lia. }
  wp_steps. destruct (marked_queue_ok n (sq c) i p Hq Hb Hi Hp Hfl) as (Q1 & Q2 & Q3 & Q4).
  assert (Ec : c1 <| sq ::= fun q => q <| cur_window ::= fun w => w - pk_payload p |> |>
    = c <| sq := marked_queue (sq c) i p |>) by (unfold marked_queue, set_slot; by destruct c, sq).
  rewrite Ec. clear Ec c1. set (q1 := marked_queue (sq c) i p) in *.
  assert (E1 : sq (c <| sq := q1 |>) = q1) by by destruct c.
  split; [|split; [by cbn [me]; rewrite E1|]].
  2: { cbn [me st_sys]. rewrite E1. split_and!; [done|done|]. intros k Hk. unfold q1, marked_queue.
    rewrite slot_set by (apply Hq || pose proof (so_fits _ _ Hq); lia). case_decide; [|done].
    subst k. rewrite Hp. cbn. unfold lost. by rewrite Hfl. }
  eapply resumed_trans; [exact H0|].
  split; cbn [me st_sys]; rewrite ?E1; try (by destruct c); [|apply sys_next_refl].
  split; cbn [me st_sys]; rewrite ?E1; try done; by apply Q4.
Qed.

Lemma marked_step i l s c y s' :
  marked (i :: l) s (mkSt c y) -> cur_window_packets (sq c) = cur_window_packets (sq (me s)) ->
  st_sys s' = y /\ me s' = c <| sq := sq (me s') |> /\
  (forall k, 0 <= k < cur_window_packets (sq c) ->
     slot (sq (me s')) k = if decide (k = i) then lost <$> slot (sq c) k else slot (sq c) k) ->
  marked l s s'.
Proof.
  intros [M1 M2 M3] Ec (H1 & H2 & H3). cbn [me st_sys] in *. split; [congruence| |].
  - etrans; [exact H2|]. rewrite M2. by destruct (me s).
  - intros k Hk. rewrite H3 by lia. destruct (M3 k Hk) as [E1|[Hin E1]]; rewrite E1; case_decide as Hd.
    + left. destruct (slot (sq (me s)) k) as [p|]; [|done]. apply (f_equal Some), (lost_lost p).
    + by left.
    + by left.
    + right. split; [|done]. by apply elem_of_cons in Hin as [|].
Qed.

Lemma wp_mark_all n s0 c y :
  resumed n s0 (mkSt c y) ->
  wp F (mfor (zseq (Z.to_nat (cur_window_packets (sq c)))) mark_lost)
    (fun _ s' => resumed (n + 1) s0 s' /\ marked [] (mkSt c y) s') (mkSt c y).
Proof.
  intros H0. pose proof (cs_sq _ _ (re_can _ _ _ H0)) as Hq. cbn [me] in Hq.
  pose proof (so_count _ _ Hq) as Hc.
  assert (H1 : resumed (n + 1) s0 (mkSt c y)).
  { eapply resumed_trans; [exact H0|]. apply (resumed_refl n); [lia|apply H0]. }
  eapply wp_mono.
  - apply (wp_mfor F _ _ (fun l s' => resumed (n + 1) s0 s' /\ flight_bound n (sq (me s')) /\
      marked l (mkSt c y) s' /\ cur_window_packets (sq (me s')) = cur_window_packets (sq c) /\
      Forall (fun i => 0 <= i < cur_window_packets (sq c)) l)).
    + split_and!; [done|by apply sq_ok_flight| |done|].
      { split; cbn [me st_sys]; [done|by destruct c|]. intros k Hk. right. split; [|done].
        apply elem_of_zseq. lia. }
      apply Forall_forall.
      intros i Hi%elem_of_zseq. lia.
    + intros i l [c1 y1] (R1 & B1 & M1 & C1 & [Hi Hl]%Forall_cons). cbn [me] in *. rewrite <- C1 in Hi.
      eapply wp_mono; [by apply (wp_mark_lost n)|]. intros _ s' (R2 & B2 & M2). split_and!; try done.
      * rewrite <- C1 in *. by apply (marked_step i l (mkSt c y) c1 y1).
      * rewrite (re_count _ _ _ R2), <- (re_count _ _ _ R1). exact C1.
  - by intros _ s' (H2 & _ & M & _).
Qed.

Lemma wp_resend_oldest n c y :
  can_send n (mkSt c y) -> n + 1 < 2147483648 ->
  wp F resend_oldest (fun _ s' => resumed (n + 1) (mkSt c y) s') (mkSt c y).
Proof.
  intros Hs Hn. pose proof Hs as [_ Hq _ Hf]. cbn [me] in *. unfold resend_oldest. wp_steps.
  apply wp_when; intros Hc; [|by apply (resumed_refl n); [lia|]]. apply Z.ltb_lt in Hc. wp_steps.
  destruct (front_packet n _ Hf Hq Hc) as [p Hp].
  apply wp_assert; [intros _|].
  2: { unfold Incoming.front. rewrite (front_slot _ n), Hp by done. done. }
  wp_steps. set (c1 := c <| rt ::= _ |>).
  assert (S1 : steady (mkSt c y) (mkSt c1 y)) by (apply steady_set; by destruct c).
  pose proof (steady_resumed n _ _ S1 Hs) as R1. pose proof (sy_sq _ _ S1) as E1. cbn [me] in E1.
  eapply wp_mono.
  - apply (wp_resend F (fun _ => False) n _ (cur_window_packets (sq c) - 1) p); rewrite ?E1; try done;
      [apply R1|lia|unfold same_place; f_equal; lia].
  - intros _ s' [H2 K2]. eapply resumed_trans; [exact R1|]. eapply handled_resumed; [exact H2|].
    cbn [me]. by rewrite E1.
Qed.

(** ** The stages of check_timeouts *)
Lemma wp_timeout_probe c y :
  mtu_ok (mt c) -> wp F timeout_probe (fun _ s' => steady (mkSt c y) s') (mkSt c y).
Proof.
  intros Hm. unfold timeout_probe. wp_steps.
  assert (Hend : forall c1 y1, steady (mkSt c y) (mkSt c1 y1) ->
    steady (mkSt c y) (mkSt (c1 <| mt ::= clear_probe |>) y1)).
  { intros c1 y1 H1. eapply steady_trans; [exact H1|]. split; cbn [me st_sys]; try by destruct c1.
    - intros Hm1. pose proof (clear_probe_ok _ Hm1). by destruct c1.
    - apply sys_next_refl. }
  apply wp_when; intros Hp.
  - apply andb_true_iff in Hp as [_ Hp%negb_true_iff%Z.eqb_neq]. eapply wp_mono.
    + apply wp_search_steady; [apply steady_refl|]. by apply probe_lost_loose.
    + intros _ [c1 y1] H1. wp_steps. by apply Hend.
  - wp_steps. apply Hend, steady_refl.
Qed.

Lemma wp_abandon c y : wp F abandon (fun _ s' => steady (mkSt c y) s') (mkSt c y).
Proof.
  unfold abandon. wp_steps.
  assert (Hdie : forall st, st <> CS_SYN_SENT ->
    wp F (utp_call_on_error (this c) UTP_ETIMEDOUT) (fun _ s1 =>
      wp F (mret true) (fun _ s' => steady (mkSt c y) s') s1) (mkSt (c <| state := st |>) y)).
  { intros st Hst. eapply wp_mono; [apply (wp_notify_steady F _ _ (mkSt c y)); [|done]|].
    - apply steady_set; by destruct c.
    - intros x s1 H1. by wp_steps. }
  apply wp_if; intros _; [by wp_steps; apply Hdie|]. apply wp_if; intros _.
  - wp_steps. apply Hdie. unfold close_on_error. by case_match.
  - wp_steps. apply steady_refl.
Qed.

Lemma wp_on_rto n c y :
  can_send n (mkSt c y) -> n + 2 < 2147483648 ->
  wp F on_rto (fun _ s' => resumed (n + 2) (mkSt c y) s') (mkSt c y).
Proof.
  intros Hs Hn. unfold on_rto. wp_step.
  eapply wp_mono; [apply wp_timeout_probe; apply Hs|]. intros ign [c1 y1] S1. wp_steps.
  eapply wp_mono; [apply wp_abandon|]. intros dead [c2 y2] S2. wp_steps.
  pose proof (steady_trans _ _ _ S1 S2) as S12. apply wp_if; intros _.
  { wp_steps. eapply resumed_trans; [by apply (steady_resumed n)|].
    apply (resumed_refl n); [lia|]. by eapply steady_resumed. }
  wp_steps. set (c3 := c2 <| rt ::= _ |>).
  assert (S3 : steady (mkSt c2 y2) (mkSt c3 y2)) by (apply steady_set; by destruct c2).
  (* the window *)
  assert (Hrest : forall c4, steady (mkSt c3 y2) (mkSt c4 y2) -> wp F
    (q ← my sq;
     mfor (zseq (Z.to_nat (cur_window_packets q))) mark_lost ;; resend_oldest ;; mret false)
    (fun _ s' => resumed (n + 2) (mkSt c y) s') (mkSt c4 y2)).
  { intros c4 S4. wp_steps.
    assert (R4 : resumed n (mkSt c y) (mkSt c4 y2)).
    { apply steady_resumed; [|done]. eapply steady_trans; [exact S12|].
      by eapply steady_trans. }
    eapply wp_mono; [by apply (wp_mark_all n)|]. intros x [c5 y5] [R5 _]. wp_steps.
    eapply wp_mono; [apply (wp_resend_oldest (n + 1)); [apply R5|lia]|]. intros z s' R6.
    wp_steps. replace (n + 2) with (n + 1 + 1) by lia. by eapply resumed_trans. }
  apply wp_when; intros _.
  - do 5 wp_step. clearbody c3. apply Hrest, steady_set; by destruct c3.
  - apply Hrest, steady_refl.
Qed.
End Wp.
