(* ===== verification/RecvInv.v ===== *)
(** * Receiving from any peer

    The data path of utp_process_incoming (src/utp_internal.cpp) for packets that
    need not belong to one stream: the invariant of the reorder buffer on which
    the assertions of send_ack and of the delivery loop rest is kept whatever
    arrives.  The contents of the buffer are described by the set view of
    Reorder.v, with a stream chosen to fit what has arrived. *)
From S2P Require Import Prelude Wrap Packet Ring Arrays SockAddr Context AckList Socket Frame.
From S2P Require Import MtuSearch Send SendQueue SendInv Reorder Ack Incoming Receive.

(** the buffer holds exactly reorder_count packets, all ahead of ack_nr *)
Definition counted (q : RecvQueue) : Prop := exists D isn R k, buffered D isn R k q.

(** ... and the next one is not among them *)
Definition waiting (q : RecvQueue) : Prop := exists D isn R k, buffered D isn R k q /\ k ∉ R.

(** While the end of the stream has not been reached, the buffer is as
    send_ack expects it. *)
Record rq_safe (q : RecvQueue) : Prop := {
  rs_ring : ring_wf (inbuf q);
  rs_mask : Ring.mask (inbuf q) < 2048;
  rs_ack : is_u16 (ack_nr q);
  rs_count : is_u16 (reorder_count q);
  rs_wait : got_fin_reached q = false -> waiting q;
}.

(** the same in the middle of the delivery loop *)
Record rq_mid (q : RecvQueue) : Prop := {
  rm_ring : ring_wf (inbuf q);
  rm_mask : Ring.mask (inbuf q) < 2048;
  rm_ack : is_u16 (ack_nr q);
  rm_count : is_u16 (reorder_count q);
  rm_counted : got_fin_reached q = false -> counted q;
}.

Lemma rq_safe_mid q : rq_safe q -> rq_mid q.
Proof. intros [? ? ? ? Hw]. split; try done. intros Hr. destruct (Hw Hr) as (D & i & R & k & Hb & _).
  by exists D, i, R, k. Qed.

(** what send_ack asserts *)
Lemma rq_safe_next q : rq_safe q -> got_fin_reached q = false -> islot q 0 = None.
Proof.
  intros Hs Hr. destruct (rs_wait _ Hs Hr) as (D & isn & R & k & Hb & Hk).
  apply (buffered_rq_ok _ _ _ _ _ Hb Hk).
Qed.

Lemma buffered_data D D' isn R k q :
  (forall o, o ∈ R -> D' o = D o) -> buffered D isn R k q -> buffered D' isn R k q.
Proof.
  intros HD [H1 H2 H3 H4 H5 H6 H7 H8]. split; try done. intros j Hj. rewrite H5 by done.
  case_decide; [by rewrite HD|done].
Qed.

Lemma counted_waiting q : counted q -> islot q 0 = None -> waiting q.
Proof.
  intros (D & isn & R & k & Hb) H0. exists D, isn, R, k. split; [done|]. intros Hk.
  rewrite (bf_slots _ _ _ _ _ Hb), Z.add_0_r, decide_True in H0 by
    (done || (pose proof (buffered_mask _ _ _ _ _ Hb); lia)). done.
Qed.

Lemma counted_empty q : counted q -> reorder_count q = 0 -> islot q 0 = None.
Proof.
  intros (D & isn & R & k & Hb) H0. pose proof (buffered_mask _ _ _ _ _ Hb).
  rewrite (bf_count _ _ _ _ _ Hb) in H0. apply (held_count_zero q 0); [lia|done].
Qed.

(** the next packet is handed on *)
Lemma rq_next q :
  rq_safe q -> rq_mid (q <| ack_nr ::= fun n => u16 (n + 1) |>).
Proof.
  intros [H1 H2 H3 H4 Hw]. split; try (by destruct q); [destruct q; apply u16_range|].
  intros Hr. destruct (Hw ltac:(by destruct q)) as (D & isn & R & k & Hb & Hk).
  exists D, isn, ({[k]} ∪ R), (k + 1). by apply (buffered_next D isn R k q); destruct q.
Qed.

(** a buffered packet is handed on *)
Lemma rq_take q d :
  rq_mid q -> islot q 0 = Some d -> 0 < reorder_count q ->
  rq_mid (q <| inbuf ::= fun r => ring_put r (ack_nr q + 1) None |>
            <| ack_nr ::= fun n => u16 (n + 1) |> <| reorder_count ::= fun n => u16 (n - 1) |>).
Proof.
  intros [H1 H2 H3 H4 Hc] Hs Hn. set (q' := _ <| reorder_count ::= _ |>).
  split; try (by destruct q); try (destruct q; apply u16_range).
  - destruct q. by apply ring_put_wf.
  - intros Hr. destruct (Hc ltac:(by destruct q)) as (D & isn & R & k & Hb).
    assert (Hk : k ∈ R).
    { destruct (decide (k ∈ R)) as [|Hk]; [done|].
      rewrite (bf_slots _ _ _ _ _ Hb), Z.add_0_r, decide_False in Hs
        by (done || (pose proof (buffered_mask _ _ _ _ _ Hb); lia)). done. }
    exists D, isn, R, (k + 1). by apply (buffered_take D isn R k q q'); destruct q.
Qed.

(** the end of the stream *)
Lemma rq_eof q :
  rq_mid q -> rq_safe (q <| got_fin_reached := true |> <| reorder_count := 0 |>).
Proof. intros [H1 H2 H3 H4 _]. destruct q. by split. Qed.

(** room is made, and the packet [d] places ahead is stored *)
Lemma rq_room q d s :
  rq_safe q -> 1 <= d <= 1023 -> u16 s = u16 (ack_nr q + 1 + d) ->
  let q' := q <| inbuf ::= fun r => ensure_size r (s + 1) (d + 1) |> in
  rq_safe q' /\ d + 1 <= Ring.mask (inbuf q').
Proof.
  intros [H1 H2 H3 H4 Hw] Hd Es q'.
  assert (Hsize : ring_wf (inbuf q') /\ Ring.mask (inbuf q') < 2048 /\ d + 1 <= Ring.mask (inbuf q')).
  { destruct q as [a r]. cbn in *. unfold ensure_size.
    destruct (Z.ltb_spec (Ring.mask r) (d + 1)); [|done].
    destruct (ring_grow_spec r (s + 1) (d + 1) H1) as (Hr' & G1 & _ & _); [lia|].
    destruct (grow_size_wf r (d + 1) H1) as (kk & _ & Ek & _ & _ & Hmax); [lia|].
    cbn zeta in *. split; [done|]. split; [|lia]. unfold ring_grow. cbn [Ring.mask]. rewrite Ek.
    destruct Hmax; lia. }
  destruct Hsize as (Hr & Hm & Hle). split; [|done]. split; try (by destruct q); try done.
  intros Hg. destruct (Hw ltac:(by destruct q)) as (D & isn & R & k & Hb & Hk).
  exists D, isn, R, k. split; [|done].
  apply (buffered_room D isn R k q q' d s); try done; try (by destruct q). revert Es. word_lia.
Qed.

Lemma rq_store q d s data :
  rq_safe q -> 1 <= d -> d + 1 <= Ring.mask (inbuf q) -> u16 s = u16 (ack_nr q + 1 + d) ->
  ring_get (inbuf q) s = None ->
  rq_safe (q <| inbuf ::= fun r => ring_put r s (Some data) |>
             <| reorder_count ::= fun n => u16 (n + 1) |>).
Proof.
  intros [H1 H2 H3 H4 Hw] Hd Hm Es H0. set (q' := _ <| reorder_count ::= _ |>).
  split; try (by destruct q); try (destruct q; (by apply ring_put_wf) || apply u16_range).
  intros Hg. destruct (Hw ltac:(by destruct q)) as (D & isn & R & k & Hb & Hk).
  assert (Hn : k + d ∉ R).
  { rewrite (ring_get_cong _ s (ack_nr q + 1 + d)) in H0 by (done || lia).
    apply (buffered_slot D isn R k q d); [done|lia|exact H0]. }
  set (D' := fun o => if decide (o = k + d) then data else D o).
  assert (HD : D' (k + d) = data) by (unfold D'; by rewrite decide_True).
  assert (Hb' : buffered D' isn R k q).
  { apply (buffered_data D); [|done]. intros o Ho. unfold D'. rewrite decide_False; [done|].
    intros ->. done. }
  exists D', isn, ({[k + d]} ∪ R), k. split.
  - apply (buffered_store D' isn R k q q' d s Hb' Hd Hm Hn Es); [rewrite HD|..]; by destruct q.
  - rewrite elem_of_union, elem_of_singleton. intros [?|?]; [lia|done].
Qed.

(** ** What receiving may change *)
Record took (s s' : St) : Prop := {
  tk_me : exists q r w t, me s' = recv_sock (me s) q r w t;
  tk_exts : extensions (rq (me s')) = extensions (rq (me s));
  tk_sys : sys_next any (st_sys s) (st_sys s');
}.

Lemma took_trans s1 s2 s3 : took s1 s2 -> took s2 s3 -> took s1 s3.
Proof.
  intros [(q1 & r1 & w1 & t1 & E1) X1 H1] [(q2 & r2 & w2 & t2 & E2) X2 H2]. split.
  - exists q2, r2, w2, t2. rewrite E2, E1. by destruct (me s1).
  - congruence.
  - by eapply sys_next_trans.
Qed.

Lemma took_refl s : took s s.
Proof.
  split; [|done|apply sys_next_refl]. destruct s as [c y].
  exists (rq c), (rt c), (wn c), (last_sent_packet c). by destruct c.
Qed.

Lemma took_rq c y f y' :
  sys_next any y y' -> extensions (f (rq c)) = extensions (rq c) ->
  took (mkSt c y) (mkSt (c <| rq ::= f |>) y').
Proof.
  intros Hy Hx. split; [|by destruct c|done]. exists (f (rq c)), (rt c), (wn c), (last_sent_packet c). by destruct c.
Qed.

Lemma took_sys s s' :
  took s s' -> sys_ok (this (me s)) (st_sys s) -> sys_ok (this (me s')) (st_sys s').
Proof.
  intros [(q & r & w & t & E1) _ Hy] H. eapply sys_next_ok; [exact Hy|].
  rewrite E1. by destruct (me s).
Qed.

Lemma any_next R y y' : sys_next R y y' -> sys_next any y y'.
Proof. by apply sys_next_mono. Qed.

Section Wp.
Context {E : Env} {HA : GoodApp} (F : fault -> Prop).

Lemma wp_deliver_any data (Q : unit -> St -> Prop) c y :
  (forall y', sys_next any y y' ->
     Q tt (mkSt (c <| rq ::= fun q => q <| ack_nr ::= fun n => u16 (n + 1) |> |>) y')) ->
  wp F (deliver data) Q (mkSt c y).
Proof.
  intros H. unfold deliver. wp_steps. apply wp_when; intros _.
  - unfold utp_call_on_read. apply (wp_notify F any); [done|]. intros y' Hy'. wp_steps. by apply H.
  - wp_steps. apply H, sys_next_refl.
Qed.

Lemma wp_reach_eof_any (Q : unit -> St -> Prop) c y :
  sys_ok (this c) y -> rq_mid (rq c) ->
  (forall s', took (mkSt c y) s' -> rq_mid (rq (me s')) ->
     reorder_count (rq (me s')) <= reorder_count (rq c) -> Q tt s') ->
  wp F reach_eof Q (mkSt c y).
Proof.
  intros Hok Hq H. unfold reach_eof. wp_steps. apply wp_when; intros _.
  2: { apply H; [apply took_refl|done|done]. }
  wp_steps. unfold utp_call_on_state_change. apply (wp_notify F any); [done|]. intros y1 H1.
  cbn [put_sys HasSys_St me st_sys] in *. wp_steps.
  set (c1 := (c <| rq ::= _ |>) <| rt ::= _ |>).
  assert (E1 : this c1 = this c /\ rq c1 = (rq c) <| got_fin_reached := true |>) by by destruct c.
  destruct E1 as [Et1 Eq1]. apply wp_send_ack.
  { rewrite Et1. by eapply sys_next_ok. }
  { rewrite Eq1. by destruct (rq c). }
  intros w y2 H2 _ _. wp_steps. set (c2 := _ <| rq ::= _ |>).
  assert (Eq2 : rq c2 = (rq c) <| got_fin_reached := true |> <| reorder_count := 0 |>)
    by by destruct c.
  apply H; cbn [me]; rewrite ?Eq2.
  - split; [exists (rq c2), (rt c2), (wn c2), (last_sent_packet c2); by destruct c| |].
    { cbn [me]. rewrite Eq2. by destruct (rq c). }
    eapply sys_next_trans; [exact H1|]. by eapply any_next.
  - apply rq_safe_mid. by apply rq_eof.
  - pose proof (rm_count _ Hq) as Hc. unfold is_u16 in Hc. destruct (rq c). cbn in *. lia.
Qed.

Lemma wp_drain_any : forall fuel c y,
  sys_ok (this c) y -> rq_mid (rq c) -> reorder_count (rq c) < Z.of_nat fuel ->
  wp F (drain fuel) (fun _ s' => took (mkSt c y) s' /\ rq_safe (rq (me s'))) (mkSt c y).
Proof.
  induction fuel as [|fuel IH]; intros c y Hok Hq Hfuel.
  { pose proof (rm_count _ Hq) as Hc. unfold is_u16 in Hc. lia. }
  cbn [drain]. wp_step. apply wp_reach_eof_any; [done..|]. intros [c1 y1] T1 Q1 L1.
  pose proof (took_sys _ _ T1 Hok) as O1. cbn [me st_sys] in *. wp_steps.
  assert (Hstop : islot (rq c1) 0 = None ->
    took (mkSt c y) (mkSt c1 y1) /\ rq_safe (rq c1)).
  { intros H0. split; [done|]. destruct Q1 as [? ? ? ? Hc]. split; try done.
    intros Hr. by apply counted_waiting; [apply Hc|]. }
  destruct (Z.eqb_spec (reorder_count (rq c1)) 0) as [H0|H0].
  { wp_steps. split; [done|]. destruct Q1 as [? ? ? ? Hc]. split; try done.
    intros Hr. apply counted_waiting; [by apply Hc|]. by apply counted_empty; [apply Hc|]. }
  assert (Hslot : islot (rq c1) 0 = ring_get (inbuf (rq c1)) (ack_nr (rq c1) + 1))
    by (unfold islot; f_equal; lia).
  rewrite <- Hslot. destruct (islot (rq c1) 0) as [d|] eqn:Hd; [|wp_steps; by apply Hstop].
  pose proof (rm_count _ Q1) as Hc1. unfold is_u16 in Hc1.
  pose proof (rq_take _ d Q1 Hd ltac:(lia)) as Q2.
  wp_steps. set (c2 := c1 <| rq ::= _ |>). apply wp_deliver_any. intros y2 H2. wp_steps.
  apply wp_assert; [intros _|intros ?%Z.ltb_ge; lia]. wp_steps.
  set (c3 := (c2 <| rq ::= _ |>) <| rq ::= _ |>). set (q3 := _ <| reorder_count ::= _ |>) in Q2.
  assert (E3 : rq c3 = q3 /\ this c3 = this c1) by (unfold q3; by destruct c1, rq).
  destruct E3 as [Eq3 Et3].
  assert (T3 : took (mkSt c1 y1) (mkSt c3 y2)).
  { split; [|cbn [me]; rewrite Eq3; unfold q3; by destruct (rq c1)|done].
    exists q3, (rt c1), (wn c1), (last_sent_packet c1). by destruct c1. }
  assert (C3 : reorder_count q3 = reorder_count (rq c1) - 1).
  { unfold q3. destruct (rq c1). cbn in *. apply u16_small. unfold is_u16. lia. }
  eapply wp_mono.
  - apply IH; [rewrite Et3; by eapply sys_next_ok|by rewrite Eq3|rewrite Eq3; lia].
  - intros _ s' [T4 S4]. split; [|done]. eapply took_trans; [exact T1|]. by eapply took_trans.
Qed.

(** ** A packet arrives *)
Lemma wp_in_order_any data c y :
  sys_ok (this c) y -> rq_safe (rq c) ->
  wp F (in_order data) (fun _ s' => took (mkSt c y) s' /\ rq_safe (rq (me s'))) (mkSt c y).
Proof.
  intros Hok Hq. unfold in_order. wp_step. apply wp_deliver_any. intros y1 H1. wp_steps.
  set (c1 := c <| rq ::= _ |>). pose proof (rq_next _ Hq) as Q1. set (q1 := _ <| ack_nr ::= _ |>) in Q1.
  assert (E1 : rq c1 = q1 /\ this c1 = this c) by by destruct c. destruct E1 as [Eq1 Et1].
  pose proof (rm_count _ Q1) as Hc. unfold is_u16 in Hc.
  assert (T1 : took (mkSt c y) (mkSt c1 y1)) by (apply took_rq; [done|by destruct (rq c)]).
  eapply wp_mono.
  { apply wp_drain_any; [rewrite Et1; by eapply sys_next_ok|by rewrite Eq1|rewrite Eq1; lia]. }
  intros x [c2 y2] [T2 S2]. cbn [me] in *. pose proof (took_trans _ _ _ T1 T2) as T12. wp_steps.
  apply (wp_schedule F any); [by apply (took_sys _ _ T12)|]. intros y3 i H3 _ _.
  cbn [put_sys HasSys_St me st_sys] in *. split; [|done].
  eapply took_trans; [exact T12|]. split; [|done|done]. apply (tk_me _ _ (took_refl (mkSt c2 y2))).
Qed.

Lemma wp_out_of_order_any seq d data c y :
  sys_ok (this c) y -> rq_safe (rq c) -> 1 <= d -> u16 seq = u16 (ack_nr (rq c) + 1 + d) ->
  wp F (out_of_order seq d data)
    (fun _ s' => took (mkSt c y) s' /\ rq_safe (rq (me s'))) (mkSt c y).
Proof.
  intros Hok Hq Hd Es. unfold out_of_order. wp_steps.
  apply wp_if; intros _; [wp_steps; split; [apply took_refl|done]|].
  destruct (Z.ltb_spec 1023 d); [wp_steps; split; [apply took_refl|done]|]. wp_steps.
  set (c1 := c <| rq ::= _ |>).
  destruct (rq_room (rq c) d seq Hq ltac:(lia) Es) as [Q1 M1]. cbn zeta in *.
  set (q1 := _ <| inbuf ::= _ |>) in Q1, M1.
  assert (E1 : rq c1 = q1 /\ this c1 = this c) by by destruct c. destruct E1 as [Eq1 Et1].
  assert (Es1 : u16 seq = u16 (ack_nr q1 + 1 + d)) by (unfold q1; by destruct (rq c)).
  assert (T1 : took (mkSt c y) (mkSt c1 y))
    by (apply took_rq; [apply sys_next_refl|by destruct (rq c)]).
  rewrite Eq1. destruct (ring_get (inbuf q1) seq) as [p|] eqn:Hp.
  { wp_steps. split; [done|]. cbn [me]. by rewrite Eq1. }
  wp_step. apply wp_assert; [intros _|intros Hf%negb_false_iff%Z.eqb_eq].
  - wp_steps. set (c2 := c1 <| rq ::= _ |>). pose proof (rq_store q1 d seq data Q1 Hd M1 Es1 Hp) as Q2.
    set (q2 := _ <| reorder_count ::= _ |>) in Q2.
    assert (E2 : rq c2 = q2 /\ this c2 = this c) by (unfold q2; destruct c; by rewrite <- Eq1).
    destruct E2 as [Eq2 Et2].
    apply (wp_schedule F any); [by rewrite Et2|]. intros y3 i H3 _ _. wp_steps.
    cbn [put_sys HasSys_St me st_sys] in *. split; [|by rewrite Eq2].
    eapply took_trans; [exact T1|]. apply took_rq; [done|by destruct (rq c1)].
  - exfalso. pose proof (rs_ring _ Q1) as Hr. pose proof (rs_mask _ Q1) as Hm.
    rewrite <- (ring_index_u16 _ seq), Es1, (ring_index_u16 _ (_ + d)), !ring_index in Hf by (done || lia).
    apply mod_near_eq in Hf; lia.
Qed.

Lemma wp_receive_data_any fl seq d data c y :
  sys_ok (this c) y -> rq_safe (rq c) -> 0 <= d -> u16 seq = u16 (ack_nr (rq c) + 1 + d) ->
  wp F (receive_data fl seq d data)
    (fun _ s' => took (mkSt c y) s' /\
       (rq_safe (rq (me s')) /\
        (is_state (state c) CS_CONNECTED || is_state (state c) CS_CONNECTED_FULL = true \/
         rq (me s') = rq c))) (mkSt c y).
Proof.
  intros Hok Hq Hd Es. unfold receive_data. wp_steps.
  apply wp_if; intros _; [wp_steps; split; [apply took_refl|split; [done|by right]]|].
  rewrite <- negb_orb. destruct (_ || _) eqn:Hst; cbn [negb].
  2: { wp_steps. split; [apply took_refl|split; [done|by right]]. }
  wp_steps. set (c1 := c <| rq ::= _ |>).
  assert (E1 : rq c1 = note_fin fl seq (rq c) /\ this c1 = this c) by by destruct c.
  destruct E1 as [Eq1 Et1].
  assert (Q1 : rq_safe (rq c1)).
  { rewrite Eq1. unfold note_fin. destruct (_ && _); [|done].
    destruct Hq as [? ? ? ? Hw]. destruct (rq c). split; try done.
    intros Hg. destruct (Hw Hg) as (D & isn & R & k & Hb & Hk). exists D, isn, R, k. split; [|done].
    eapply buffered_same; [| | |exact Hb]; done. }
  assert (Es1 : u16 seq = u16 (ack_nr (rq c1) + 1 + d)).
  { rewrite Eq1. unfold note_fin. destruct (_ && _); [by destruct (rq c)|done]. }
  assert (T1 : took (mkSt c y) (mkSt c1 y)).
  { apply took_rq; [apply sys_next_refl|]. unfold note_fin. by destruct (_ && _), (rq c). }
  destruct (Z.eqb_spec d 0).
  - wp_step. eapply wp_mono; [apply wp_in_order_any; [by rewrite Et1|done]|].
    intros x s' [T2 S2]. wp_steps. split; [by eapply took_trans|]. split; [done|by left].
  - wp_step. eapply wp_mono; [apply wp_out_of_order_any; [by rewrite Et1|done|lia|done]|].
    intros b s' [T2 S2]. wp_steps. split; [by eapply took_trans|]. split; [done|by left].
Qed.
End Wp.
