(* ===== verification/IncomingSafe.v ===== *)
(** * Any packet from any peer

    utp_process_incoming (src/utp_internal.cpp) as a whole, on an arbitrary packet:
    the invariant of a socket is kept, only packets that were acknowledged leave
    the send queue, and the only faults are those of [incoming_fault]. *)
From S2P Require Import Prelude Wrap Packet Ring Delay DelayAvg Arrays SockAddr Context AckList.
From S2P Require Import Socket Frame MtuSearch Send SendQueue SendInv Flush Streams Reorder Ack Ccontrol Incoming.
From S2P Require Import AckQueue AckStages Receive RecvInv.

(** ** The invariant of a socket *)

(** no data has arrived yet *)
Record rq_fresh (q : RecvQueue) : Prop := {
  rf_slots : forall i, ring_get (inbuf q) i = None;
  rf_count : reorder_count q = 0;
}.

(** [n] bounds the transmissions of each packet, [m] the delay samples of the
    current five seconds.  Until the FIN is queued there is room for it. *)
Record sock_ok (n m : Z) (s : St) : Prop := {
  sk_send : can_send n s;
  sk_recv : rq_safe (rq (me s));
  sk_exts : length (extensions (rq (me s))) = 8%nat;
  sk_syn : state (me s) = CS_SYN_SENT -> rq_fresh (rq (me s));
  sk_avg : avg_ok (avg (dl (me s)));
  sk_samples : current_delay_samples (avg (dl (me s))) <= m;
  sk_room : fin_sent (me s) = false -> cur_window_packets (sq (me s)) <= 1023;
}.

(** The faults a packet can lead to: a selective acknowledgement read one byte past
    its end, and the assertions of the congestion controller. *)
Definition incoming_fault (f : fault) : Prop := f = OutOfBounds \/ ccontrol_fault f.

(** a place of the send queue a packet acknowledges, with a selective
    acknowledgement at [sp], if any, whose length is in the byte before it *)
Definition acked_at (q : SendQueue) (packet : list Z) (pf : PacketFormatV1) (sp : option Z) (j : Z) : Prop :=
  acked_front q (acks_of q (pf_ack_nr pf)) j \/
  exists p len, sp = Some p /\ Packet.rd packet (p - 1) = Some len /\
    sacked q (pf_ack_nr pf + 2) (drop (Z.to_nat p) packet) len j.

(** ... wherever the chain of its extensions leads; [exts] is what the chain is read over *)
Definition acked_by (q : SendQueue) (exts packet : list Z) (pf : PacketFormatV1) (j : Z) : Prop :=
  acked_at q packet pf match skip_extensions packet pf exts with ExtOk _ sp _ => sp | _ => None end j.

Lemma held_zero q : (forall i, ring_get (inbuf q) i = None) -> held_count q = 0.
Proof.
  intros H. unfold held_count. generalize (Z.to_nat (Ring.mask (inbuf q) + 1)) as n.
  induction n as [|n IH]; [done|]. rewrite sum_upto_S, IH. unfold islot. by rewrite H.
Qed.

(** a buffer nothing was stored in fits any sequence number *)
Lemma fresh_safe q a :
  ring_wf (inbuf q) -> Ring.mask (inbuf q) < 2048 -> rq_fresh q -> is_u16 a ->
  rq_safe (q <| ack_nr := a |>).
Proof.
  intros Hr Hm [Hs Hc] Ha. pose proof (ring_wf_mask _ Hr).
  split; try (by destruct q); [destruct q; cbn in *; by rewrite Hc|]. intros _.
  exists (fun _ => []), (a + 1), ∅, 0. split; [|set_solver].
  split; try (by destruct q); try lia.
  - destruct q. cbn. rewrite u16_small; [lia|]. unfold is_u16 in *. replace (a + 1 + 0 - 1) with a by lia. done.
  - intros j Hj. rewrite decide_False by set_solver. unfold islot. destruct q. apply Hs.
  - rewrite held_zero; [by destruct q|]. by destruct q.
Qed.

Section Wp.
Context {E : Env} {HA : GoodApp} (F : fault -> Prop).
Context (HF : forall f, incoming_fault f -> F f).

Lemma oob : F OutOfBounds.
Proof. apply HF. by left. Qed.

(** *** The acknowledgement number *)
Lemma acks_of_bounds n q a : sq_ok n q -> 0 <= acks_of q a <= cur_window_packets q.
Proof.
  intros Hq. pose proof (so_count _ _ Hq). unfold acks_of.
  set (x := u16 _). pose proof (u16_range (a - (seq_nr q - 1 - cur_window_packets q))) as Hx.
  fold x in Hx. unfold is_u16 in Hx. destruct (Z.ltb_spec (cur_window_packets q) x); lia.
Qed.

Lemma steady_ok n m s s' : steady s s' -> sock_ok n m s -> sock_ok n m s'.
Proof.
  intros Hst [H1 H2 H3 H4 H5 H6 H7]. pose proof (steady_handled (fun _ => False) n _ _ Hst H1) as [_ H1'].
  destruct Hst as [_ Er Ed Eq Es _ _ [= _ _ Ef]]. split; rewrite ?Er, ?Ed, ?Eq, ?Ef; auto.
Qed.

Lemma handled_ok A n n' m s s' : handled A n' s s' -> sock_ok n m s -> sock_ok n' m s'.
Proof.
  intros [[_ Er Ed Es _ _ Ht _ [= _ _ Ef]] H1'] [H1 H2 H3 H4 H5 H6 H7].
  split; rewrite ?Er, ?Ed, ?Ef; auto. intros Hf. specialize (H7 Hf). destruct Ht. lia.
Qed.

Lemma took_ok n m s s' :
  took s s' -> sock_ok n m s -> rq_safe (rq (me s')) ->
  (state (me s) = CS_SYN_SENT -> rq (me s') = rq (me s)) -> sock_ok n m s'.
Proof.
  intros Ht [[H1 H1b H1c H1d] H2 H3 H4 H5 H6 H7] Hq Hst.
  pose proof (took_sys _ _ Ht H1) as H1'. destruct Ht as [(q & r & w & t & Em) He _].
  rewrite <- He in H3.
  assert (Es : sq (me s') = sq (me s) /\ mt (me s') = mt (me s) /\
    state (me s') = state (me s) /\ dl (me s') = dl (me s) /\ fin_sent (me s') = fin_sent (me s))
    by (rewrite Em; by destruct (me s)).
  destruct Es as (E1 & E2 & E3 & E4 & E5).
  split; rewrite ?E1, ?E4, ?E5; try done; [split; rewrite ?E1, ?E2; done|].
  rewrite E3. intros Hs. rewrite Hst by done. auto.
Qed.

(** *** The packet's acknowledgement and data *)
Record processed (A : Z -> Prop) (n m : Z) (s s' : St) : Prop := {
  pr_ok : sock_ok n m s';
  pr_this : this (me s') = this (me s);
  pr_trim : trimmed A (sq (me s)) (sq (me s'));
  pr_ident : identity (me s') = identity (me s);
  pr_sys : sys_kept (st_sys s) (st_sys s');
}.

Lemma processed_step A n1 m1 n2 m2 s1 s2 s3 :
  processed A n1 m1 s1 s2 -> processed A n2 m2 s2 s3 -> processed A n2 m2 s1 s3.
Proof.
  intros [_ E1 T1 I1 Y1] [K E2 T2 I2 Y2].
  split; [done|congruence|by eapply trimmed_trans|congruence|by eapply sys_kept_trans].
Qed.

(** A pure acknowledgement: only the queue was served, and only its packets were sent. *)
Record answered (s s' : St) : Prop := {
  an_rq : exists e, rq (me s') = (rq (me s)) <| extensions := e |>;
  an_left : descends (sq (me s)) (sq (me s'));
  an_sent : traced (speaks (ferries (sq (me s)) (sq (me s')) (ack_nr (rq (me s))))) (st_sys s) (st_sys s');
}.

Lemma speaks_traced_mono (D D' : list Z -> Prop) y y' :
  (forall bs, D bs -> D' bs) -> traced (speaks D) y y' -> traced (speaks D') y y'.
Proof.
  intros H (rs & E' & Hrs). exists rs. split; [done|]. eapply Forall_impl; [exact Hrs|].
  intros r. by apply speaks_mono.
Qed.

Lemma answered_trans s1 s2 s3 : answered s1 s2 -> answered s2 s3 -> answered s1 s3.
Proof.
  intros [[e1 R1] L1 Y1] [[e2 R2] L2 Y2]. split.
  - exists e2. rewrite R2, R1. by destruct (rq (me s1)).
  - by eapply descends_trans.
  - replace (ack_nr (rq (me s2))) with (ack_nr (rq (me s1))) in Y2 by (rewrite R1; by destruct (rq (me s1))).
    eapply traced_trans; (eapply speaks_traced_mono; [|eassumption]); intros bs.
    + by apply ferries_before.
    + by apply ferries_after.
Qed.

(** nothing was sent *)
Lemma answered_mute s s' :
  (exists e, rq (me s') = (rq (me s)) <| extensions := e |>) -> sq (me s') = sq (me s) ->
  traced mute (st_sys s) (st_sys s') -> answered s s'.
Proof.
  intros Hr Eq Hy. split; [done|rewrite Eq; apply descends_refl|]. by eapply speaks_traced_mono; [|exact Hy].
Qed.

Lemma rq_same (q : RecvQueue) : exists e, q = q <| extensions := e |>.
Proof. exists (extensions q). by destruct q. Qed.

(** a packet of type [fl] was processed *)
Definition heeded A n m (fl : Z) (s s' : St) : Prop :=
  processed A n m s s' /\ (fl = ST_STATE -> answered s s').

Lemma heeded_step A n1 m1 n2 m2 fl s1 s2 s3 :
  heeded A n1 m1 fl s1 s2 -> heeded A n2 m2 fl s2 s3 -> heeded A n2 m2 fl s1 s3.
Proof.
  intros [P1 H1] [P2 H2]. split; [by eapply processed_step|]. intros Hf. by eapply answered_trans; auto.
Qed.

Lemma steady_processed A n m s s' : steady s s' -> sock_ok n m s -> processed A n m s s'.
Proof.
  intros Hst Hs. split; [by eapply steady_ok|apply Hst| |apply Hst|].
  - rewrite (sy_sq _ _ Hst). apply trimmed_refl.
  - eapply sys_next_kept, Hst.
Qed.

Lemma steady_heeded A n m fl s s' : steady s s' -> sock_ok n m s -> heeded A n m fl s s'.
Proof.
  intros Hst Hs. split; [by apply steady_processed|]. intros _. apply answered_mute.
  - rewrite (sy_rq _ _ Hst). apply rq_same.
  - apply Hst.
  - apply traced_next, Hst.
Qed.

Lemma handled_processed A n n' m s s' :
  handled A n' s s' -> sock_ok n m s -> processed A n' m s s'.
Proof.
  intros H Hs. split; [by eapply handled_ok|apply H..|]. eapply sys_next_kept, H.
Qed.

Lemma handled_heeded A n n' m fl s s' : handled A n' s s' -> sock_ok n m s -> heeded A n' m fl s s'.
Proof.
  intros H Hs. split; [by eapply handled_processed|]. destruct H as [P _]. intros _. split.
  - rewrite (pg_rq _ _ _ _ P). apply rq_same.
  - eapply trimmed_descends, P.
  - apply traced_next, P.
Qed.

Lemma measured_heeded A n m fl c y d w y' :
  sock_ok n m (mkSt c y) -> avg_ok (avg d) -> current_delay_samples (avg d) <= m + 1 ->
  sys_next mute y y' ->
  heeded A n (m + 1) fl (mkSt c y) (mkSt ((c <| dl := d |>) <| wn := w |>) y').
Proof.
  intros [[H1 H1b H1c H1d] H2 H3 H4 H5 H6 H7] Ha Hs Hy. cbn [me st_sys] in *. split.
  2: { intros _. apply answered_mute; cbn [me st_sys]; [|by destruct c|by apply traced_next].
    exists (extensions (rq c)). by destruct c, rq. }
  split.
  - split; cbn [me st_sys]; try (by destruct c).
    split; cbn [me st_sys]; try (by destruct c). eapply sys_next_ok; [exact Hy|]. by destruct c.
  - by destruct c.
  - destruct c. apply trimmed_refl.
  - by destruct c.
  - by eapply sys_next_kept.
Qed.

Lemma sacked_seq q q' base mask len j :
  seq_nr q' = seq_nr q -> sacked q' base mask len j -> sacked q base mask len j.
Proof. intros E1 (b & Hb & Hm & Hs). exists b. rewrite E1 in Hs. done. Qed.

Lemma wp_process_selack A n packet ack sp c y :
  can_send n (mkSt c y) -> n + 4 < 2147483648 ->
  (forall p len j, sp = Some p -> Packet.rd packet (p - 1) = Some len ->
     sacked (sq c) (ack + 2) (drop (Z.to_nat p) packet) len j -> A j) ->
  wp F (process_selack packet ack sp) (fun _ s' => handled A (n + 4) (mkSt c y) s') (mkSt c y).
Proof.
  intros Hs Hn Ha. unfold process_selack.
  destruct sp as [sp|]; [|wp_steps; by apply (handled_refl A n); [lia|]].
  destruct (Packet.rd packet (sp - 1)) as [len|] eqn:Hlen; [|exact oob].
  apply wp_selective_ack; try done; [exact oob|]. intros j. by apply Ha.
Qed.

(** the last stages: the socket becomes writable again, and takes the data *)
Lemma took_processed A n m s s' :
  sock_ok n m s -> took s s' -> rq_safe (rq (me s')) ->
  is_state (state (me s)) CS_CONNECTED || is_state (state (me s)) CS_CONNECTED_FULL = true \/ rq (me s') = rq (me s) ->
  processed A n m s s'.
Proof.
  intros Hs Ht Hq Hst. destruct s as [c y]. cbn [me] in *. split.
  - eapply took_ok; [exact Ht|done|done|]. cbn [me]. intros Hsyn.
    destruct Hst as [Hc|]; [|done]. by rewrite Hsyn in Hc.
  - destruct Ht as [(q & rt' & w' & t & ->) _ _]. by destruct c.
  - destruct Ht as [(q & rt' & w' & t & ->) _ _]. cbn [me].
    replace (sq (recv_sock _ _ _ _ _)) with (sq c) by by destruct c. apply trimmed_refl.
  - destruct Ht as [(q & rt' & w' & t & ->) _ _]. by destruct c.
  - eapply sys_next_kept, Ht.
Qed.

Lemma wp_take_data A n m fl seq d data c y :
  sock_ok n m (mkSt c y) -> 0 <= d -> u16 seq = u16 (ack_nr (rq c) + 1 + d) ->
  wp F (assert_front 2328 ;; mark_writable ;; receive_data fl seq d data)
    (fun _ s' => heeded A n m fl (mkSt c y) s') (mkSt c y).
Proof.
  intros Hs Hd Es. wp_step. apply (wp_assert_front F _ n); [apply Hs|]. wp_steps.
  eapply wp_mono; [apply wp_mark_writable_steady|]. intros _ [c1 y1] S1. wp_steps.
  pose proof (steady_heeded A n m fl _ _ S1 Hs) as P1. pose proof (pr_ok _ _ _ _ _ (proj1 P1)) as K1.
  pose proof (sy_rq _ _ S1) as R1. cbn [me] in R1. destruct (Z.eq_dec fl ST_STATE) as [->|Hfl].
  { unfold receive_data. by wp_steps. }
  eapply wp_mono.
  { apply wp_receive_data_any; [apply K1|apply K1|done|by rewrite R1]. }
  intros z s' (T & Q & St). split; [|done]. eapply processed_step; [apply P1|]. by apply took_processed.
Qed.

(** the stages up to the data *)
Lemma wp_process_valid_any A n m packet pf time seqnr data sp c y :
  sock_ok n m (mkSt c y) -> n + 6 < 2147483648 -> m < INT_MAX -> is_u32 (pf_reply_micro pf) ->
  0 <= seqnr -> u16 (pf_seq_nr pf) = u16 (ack_nr (rq c) + 1 + seqnr) ->
  (forall j, acked_at (sq c) packet pf sp j -> A j) ->
  wp F (process_valid packet pf time seqnr data sp)
    (fun _ s' => heeded A (n + 6) (m + 1) (pf_type pf) (mkSt c y) s') (mkSt c y).
Proof.
  intros Hs Hn Hm Hr Hseq Es Ha. unfold process_valid. wp_steps.
  pose proof (sk_send _ _ _ Hs) as [_ Hq Hmt _]. cbn [me] in *.
  pose proof (acks_of_bounds n (sq c) (pf_ack_nr pf) Hq) as Hacks.
  set (acks := acks_of (sq c) (pf_ack_nr pf)) in *.
  eapply wp_mono; [by apply wp_count_duplicate|]. intros _ [c1 y1] S1. wp_steps.
  pose proof (sy_sq _ _ S1) as E1. pose proof (sy_mt _ _ S1 Hmt) as M1. cbn [me] in E1, M1.
  eapply wp_mono; [apply (wp_count_acked_bytes F n); rewrite ?E1; try done; [exact oob|lia]|].
  intros r [c2 y2] [S2 Hrtt]. wp_steps. pose proof (steady_trans _ _ _ S1 S2) as S12.
  pose proof (steady_heeded A n m (pf_type pf) _ _ S12 Hs) as P2. pose proof (pr_ok _ _ _ _ _ (proj1 P2)) as K2.
  pose proof (sy_sq _ _ S12) as E2. pose proof (sy_rq _ _ S12) as R2. cbn [me] in E2, R2.
  apply (wp_measure_delays F m); try done; [apply K2|apply K2| |].
  { intros _ f Hf. apply HF. by right. }
  intros d w y3 Hd1 Hd2 Hy3. set (c3 := (c2 <| dl := d |>) <| wn := w |>).
  pose proof (measured_heeded A n m (pf_type pf) c2 y2 d w y3 K2 Hd1 Hd2 Hy3) as P3'.
  pose proof (heeded_step _ _ _ _ _ _ _ _ _ P2 P3') as P3. fold c3 in P3, P3'.
  assert (E3 : sq c3 = sq c /\ rq c3 = rq c) by (rewrite <- E2, <- R2; by destruct c2).
  destruct E3 as [E3 R3]. clear P3'. wp_steps.
  eapply wp_mono.
  { apply (wp_process_acks F A n); [apply P3|lia|lia|]. rewrite E3. intros j Hj. apply Ha. by left. }
  intros _ [c4 y4] H4. wp_steps.
  pose proof (heeded_step _ _ _ _ _ _ _ _ _ P3 (handled_heeded _ _ _ _ (pf_type pf) _ _ H4 (pr_ok _ _ _ _ _ (proj1 P3))))
    as P4.
  pose proof (pg_rq _ _ _ _ (proj1 H4)) as R4. cbn [me] in R4. rewrite R3 in R4.
  eapply wp_mono.
  { apply (wp_process_selack A (n + 2)); [apply P4|lia|]. intros p len j Hsp Hrd Hj. apply Ha. right.
    exists p, len. split_and!; [done..|]. eapply sacked_seq; [|exact Hj]. apply (tm_seq _ _ _ (pr_trim _ _ _ _ _ (proj1 P4))). }
  intros x [c5 y5] H5.
  pose proof (heeded_step _ _ _ _ _ _ _ _ _ P4 (handled_heeded _ _ _ _ (pf_type pf) _ _ H5 (pr_ok _ _ _ _ _ (proj1 P4))))
    as P5. replace (n + 2 + 4) with (n + 6) in * by lia.
  pose proof (pg_rq _ _ _ _ (proj1 H5)) as R5. cbn [me] in R5. rewrite R4 in R5.
  eapply wp_mono; [apply (wp_take_data A (n + 6) (m + 1)); [apply P5|done|by rewrite R5]|].
  intros z s' P6. by eapply heeded_step.
Qed.

Lemma sock_ok_mono n n' m m' s : n <= n' -> m <= m' -> sock_ok n m s -> sock_ok n' m' s.
Proof.
  intros Hn Hm [H1 H2 H3 H4 H5 H6 H7]. split; try done; [by eapply can_send_mono|lia].
Qed.

(** nothing happened to the queues *)
Lemma processed_done A n m n' m' s s' :
  n <= n' -> m <= m' -> sock_ok n m s' -> this (me s') = this (me s) -> sq (me s') = sq (me s) ->
  identity (me s') = identity (me s) -> sys_kept (st_sys s) (st_sys s') -> processed A n' m' s s'.
Proof.
  intros Hn Hm Hs Et Es Ei Hy. split; [by eapply sock_ok_mono|done| |done|done]. rewrite Es. apply trimmed_refl.
Qed.

Lemma sock_ok_sys n m c y y' :
  sys_ok (this c) y' -> sock_ok n m (mkSt c y) -> sock_ok n m (mkSt c y').
Proof. intros Hy [[_ ? ? ?] ? ? ? ? ? ?]. by split; [split|..]. Qed.

(** fields of the socket outside its queues and timers *)
Lemma sock_ok_upd n m c y c' :
  this c' = this c -> sq c' = sq c -> rq c' = rq c -> mt c' = mt c -> dl c' = dl c ->
  (state c' = CS_SYN_SENT -> state c = CS_SYN_SENT) ->
  (fin_sent c' = false -> fin_sent c = false) ->
  sock_ok n m (mkSt c y) -> sock_ok n m (mkSt c' y).
Proof.
  intros E1 E2 E3 E4 E5 Hst Hfin [[H1 H1b H1c H1d] H2 H3 H4 H5 H6 H7]. cbn [me st_sys] in *.
  split; cbn [me st_sys]; rewrite ?E2, ?E3, ?E5; auto. split; cbn [me st_sys]; by rewrite ?E1, ?E2, ?E4.
Qed.

Lemma can_send_upd n c y c' :
  this c' = this c -> sq c' = sq c -> mt c' = mt c ->
  can_send n (mkSt c y) -> can_send n (mkSt c' y).
Proof.
  intros E1 E2 E3 [H1 H2 H3 H4]. cbn [me st_sys] in *. split; cbn [me st_sys]; by rewrite ?E1, ?E2, ?E3.
Qed.

Lemma sock_ok_exts n m c y exts :
  length exts = 8%nat -> sock_ok n m (mkSt c y) ->
  sock_ok n m (mkSt (c <| rq ::= fun q => q <| extensions := exts |> |>) y).
Proof.
  intros He [H1 [R1 R2 R3 R4 R5] H3 H4 H5 H6 H7]. cbn [me st_sys] in *.
  split; cbn [me st_sys]; try (by destruct c).
  - by apply (can_send_upd n c); [destruct c..|].
  - destruct c, rq. split; try done. intros Hg. destruct (R5 Hg) as (D & isn & R & k & Hb & Hk).
    exists D, isn, R, k. split; [|done]. eapply buffered_same; [| | |exact Hb]; done.
  - destruct c. intros Hst. destruct (H4 Hst). by destruct rq.
Qed.

(** a socket that is connecting takes over the peer's sequence number *)
Lemma sock_ok_syn n m c y a :
  is_u16 a -> state c = CS_SYN_SENT -> sock_ok n m (mkSt c y) ->
  sock_ok n m (mkSt (c <| rq ::= fun q => q <| ack_nr := a |> |>) y).
Proof.
  intros Ha Hst [H1 [R1 R2 R3 R4 R5] H3 H4 H5 H6 H7]. cbn [me st_sys] in *.
  pose proof (fresh_safe (rq c) a R1 R2 (H4 Hst) Ha) as Hf.
  split; cbn [me st_sys]; try (by destruct c); [by apply (can_send_upd n c); [destruct c..|]|].
  intros _. destruct (H4 Hst). by destruct c, rq.
Qed.

(** a packet of type [fl] was processed, by a socket that may be connecting *)
Definition parsed A n m (fl : Z) (s s' : St) : Prop :=
  processed A n m s s' /\ (fl = ST_STATE -> state (me s) <> CS_SYN_SENT -> answered s s').

(** ... without any of the socket's fields but stamps and the packet number being touched *)
Lemma parsed_quiet A n m n' m' fl c y c1 y1 :
  n <= n' -> m <= m' -> sock_ok n m (mkSt c1 y1) -> this c1 = this c -> sq c1 = sq c ->
  identity c1 = identity c -> (state c <> CS_SYN_SENT -> rq c1 = rq c) ->
  sys_kept y y1 -> (fl = ST_STATE -> traced mute y y1) -> parsed A n' m' fl (mkSt c y) (mkSt c1 y1).
Proof.
  intros Hn Hm Hs Et Es Ei Er Hy Ht. split; [by apply (processed_done A n m)|].
  intros Hf Hst. apply answered_mute; cbn [me st_sys] in *; [|done|auto].
  rewrite (Er Hst). apply rq_same.
Qed.

(** the stamp of the last packet *)
Lemma stamped_same n m c c1 y t :
  sock_ok n m (mkSt c1 y) -> this c1 = this c -> sq c1 = sq c -> identity c1 = identity c ->
  (state c <> CS_SYN_SENT -> rq c1 = rq c) -> let c2 := c1 <| last_got_packet := t |> in
  sock_ok n m (mkSt c2 y) /\ this c2 = this c /\ sq c2 = sq c /\ identity c2 = identity c /\
    (state c <> CS_SYN_SENT -> rq c2 = rq c).
Proof.
  intros H1 <- <- <- Er. split; [apply (sock_ok_upd n m c1); try by destruct c1|].
  split_and!; [by destruct c1..|]. intros Hst. rewrite <- (Er Hst). by destruct c1.
Qed.

Lemma wp_process_parsed_any A n m packet pf time syn data sp c y :
  sock_ok n m (mkSt c y) -> n + 6 < 2147483648 -> m < INT_MAX -> header_wf pf ->
  (forall j, acked_at (sq c) packet pf sp j -> A j) ->
  wp F (process_parsed packet pf time syn data sp)
    (fun _ s' => parsed A (n + 6) (m + 1) (pf_type pf) (mkSt c y) s') (mkSt c y).
Proof.
  intros Hs Hn Hm Hwf Ha. unfold process_parsed. wp_steps.
  assert (Hrest : forall c1, sock_ok n m (mkSt c1 y) -> this c1 = this c -> sq c1 = sq c ->
    identity c1 = identity c -> (state c <> CS_SYN_SENT -> rq c1 = rq c) ->
    wp F (upd (fun c => c <| last_got_packet := current_ms (ctx y) |>) ;;
      if syn then mret 0 else
      q ← my rq;
      let seqnr := u16 (pf_seq_nr pf - ack_nr q - 1) in
      if REORDER_BUFFER_MAX_SIZE <=? seqnr then
        when ((SEQ_NR_MASK + 1 - REORDER_BUFFER_MAX_SIZE <=? seqnr) &&
              negb (pf_type pf =? ST_STATE))
          (lift_sys (schedule_ack (this c))) ;;
        mret 0
      else process_valid packet pf time seqnr data sp)
    (fun _ s' => parsed A (n + 6) (m + 1) (pf_type pf) (mkSt c y) s') (mkSt c1 y)).
  { intros c1 H1 Et1 Es1 Ei1 Er1. wp_steps.
    destruct (stamped_same n m c c1 y (current_ms (ctx y)) H1 Et1 Es1 Ei1 Er1) as (H2 & Et2 & Es2 & Ei2 & Er2).
    set (c2 := c1 <| last_got_packet := _ |>) in *. clearbody c2.
    assert (Hq : forall y1, sock_ok n m (mkSt c2 y1) -> sys_kept y y1 ->
      (pf_type pf = ST_STATE -> traced mute y y1) ->
      parsed A (n + 6) (m + 1) (pf_type pf) (mkSt c y) (mkSt c2 y1))
      by (intros; apply (parsed_quiet A n m); (done || lia)).
    apply wp_if; intros _; [wp_steps; apply Hq; [done|done|intros _; apply traced_refl]|]. wp_steps.
    apply wp_if; intros _.
    - wp_step. apply wp_when; intros Hsch.
      + apply (wp_schedule F any); [rewrite <- Et2; apply H2|]. intros y3 i Hy3 _ _.
        cbn [put_sys HasSys_St me st_sys] in *. wp_steps. apply Hq; [|by eapply sys_next_kept|].
        * eapply sock_ok_sys; [|exact H2]. eapply sys_next_ok; [exact Hy3|]. apply H2.
        * intros Hf. rewrite Hf, andb_false_r in Hsch. done.
      + wp_steps. apply Hq; [done|done|intros _; apply traced_refl].
    - eapply wp_mono.
      { apply (wp_process_valid_any A n m); try done; [apply Hwf|apply u16_range| |by rewrite Es2].
        pose proof (rs_ack _ (sk_recv _ _ _ H2)) as Hu. cbn [me] in Hu. revert Hu. clear. word_lia. }
      intros z s' [P Hans]. destruct (Hq y H2 (sys_kept_refl y) (fun _ => traced_refl _ y)) as [P0 Hans0].
      split; [by eapply processed_step|]. intros Hf Hst. eapply answered_trans; [by apply Hans0|by apply Hans]. }
  apply wp_when; intros Hst.
  - wp_step. unfold is_state in Hst. apply bool_decide_eq_true in Hst.
    apply Hrest; [by apply sock_ok_syn; [apply u16_range|..]|by destruct c..|done].
  - by apply Hrest.
Qed.

(** the context moved on without a word *)
Definition hushed (y y' : Sys) : Prop := sys_kept y y' /\ traced mute y y'.

Lemma hushed_next y y' : sys_next mute y y' -> hushed y y'.
Proof. intros H. split; [by eapply sys_next_kept|by apply traced_next]. Qed.

Lemma hushed_trans y1 y2 y3 : hushed y1 y2 -> hushed y2 y3 -> hushed y1 y3.
Proof. intros [] []. split; [by eapply sys_kept_trans|by eapply traced_trans]. Qed.

Lemma hushed_ctx y f :
  (forall c, (f c) <| current_ms := current_ms c |> <| nraw_recv := nraw_recv c |> = c) ->
  hushed y (y <| ctx ::= f |>).
Proof. intros Hf. split; [by apply sys_kept_ctx|]. exists []. by destruct y. Qed.

(** the whole function *)
Lemma wp_incoming_any n m packet syn c y :
  sock_ok n m (mkSt c y) -> n + 6 < 2147483648 -> m < INT_MAX ->
  Forall is_u8 packet -> sizeof_PacketFormatV1 <= Z.of_nat (length packet) < 2147483648 ->
  (forall pf, decode_header packet = Some pf -> pf_type pf <> ST_RESET) ->
  wp F (utp_process_incoming packet syn)
    (fun _ s' => exists pf, decode_header packet = Some pf /\
       parsed (acked_by (sq c) (extensions (rq c)) packet pf) (n + 6) (m + 1) (pf_type pf) (mkSt c y) s')
    (mkSt c y).
Proof.
  intros Hs Hn Hm Hb Hlen Hreset. unfold utp_process_incoming, utp_register_recv_packet. wp_steps.
  apply (wp_call F mute); [done|]. intros t y2 Hy2 _. cbn [put_sys HasSys_St me st_sys] in *.
  wp_steps. set (y3 := y2 <| ctx ::= _ |>).
  assert (K3 : hushed y y3).
  { eapply hushed_trans; [|eapply hushed_trans; [by apply hushed_next|]]; apply hushed_ctx; by intros []. }
  destruct (decode_header packet) as [pf|] eqn:Hd; [|exact oob].
  destruct (decode_wf packet pf Hb Hd) as [Hwf _].
  assert (Hext : forall A c' y', sock_ok n m (mkSt c' y') -> this c' = this c -> sq c' = sq c ->
    identity c' = identity c -> (exists e, rq c' = (rq c) <| extensions := e |>) -> hushed y y' ->
    parsed A (n + 6) (m + 1) (pf_type pf) (mkSt c y) (mkSt c' y')).
  { intros A c' y' Hs' Et Es Ei Er [Hk Ht]. split; [apply (processed_done A n m); (done || lia)|].
    intros _ _. by apply answered_mute. }
  assert (Hdone : forall y', hushed y y' -> exists pf0, Some pf = Some pf0 /\
      parsed (acked_by (sq c) (extensions (rq c)) packet pf0) (n + 6) (m + 1) (pf_type pf0) (mkSt c y) (mkSt c y')).
  { intros y' Hy'. exists pf. split; [done|]. apply Hext; try done; [|apply rq_same].
    eapply sock_ok_sys; [|exact Hs]. eapply sys_kept_ok; [apply Hy'|apply Hs]. }
  apply wp_if; intros _; [wp_steps; by apply Hdone|]. wp_steps.
  apply (wp_call F mute); [done|]. intros time y4 Hy4 _. cbn [put_sys HasSys_St me st_sys] in *.
  assert (K4 : hushed y y4) by (eapply hushed_trans; [exact K3|by apply hushed_next]).
  assert (O4 : sys_ok (this c) y4) by (eapply sys_kept_ok; [apply K4|apply Hs]).
  wp_steps. apply wp_if; intros _; [wp_steps; by apply Hdone|]. wp_step.
  apply wp_assert; [intros _|intros Hf%negb_false_iff%Z.eqb_eq; by destruct (Hreset pf eq_refl)].
  pose proof (sock_ok_sys n m c y y4 O4 Hs) as H4. wp_steps.
  pose proof (skip_extensions_ok packet pf (extensions (rq c)) Hb Hlen (sk_exts _ _ _ Hs)) as Hx.
  destruct (skip_extensions packet pf (extensions (rq c))) as [data sp exts|exts| |] eqn:Hsk; [| |done|done].
  - destruct Hx as (_ & _ & Hx). wp_steps. set (c5 := c <| rq ::= _ |>).
    assert (E5 : sq c5 = sq c /\ this c5 = this c /\ state c5 = state c /\ identity c5 = identity c /\
      rq c5 = (rq c) <| extensions := exts |>) by by destruct c.
    destruct E5 as (Es5 & Et5 & Est5 & Ei5 & Er5). set (A := acked_by (sq c) (extensions (rq c)) packet pf).
    pose proof (sock_ok_exts n m c y4 exts Hx H4 : sock_ok n m (mkSt c5 y4)) as H5. clearbody c5.
    assert (P5 : parsed A (n + 6) (m + 1) (pf_type pf) (mkSt c y) (mkSt c5 y4))
      by (apply Hext; [done..|by exists exts|done]).
    eapply wp_mono.
    { apply (wp_process_parsed_any A n m); try done. unfold A, acked_by. by rewrite Hsk, Es5. }
    intros z s' [P6 H6]. exists pf. split; [done|]. split; [by eapply processed_step; [apply P5|]|].
    intros Hf Hst. eapply answered_trans; [by apply P5|]. apply H6; [done|]. cbn [me]. by rewrite Est5.
  - cbn [ext_safe] in Hx. wp_steps. exists pf. split; [done|]. set (c5 := c <| rq ::= _ |>).
    apply Hext; [by apply sock_ok_exts|by destruct c..| |done]. exists exts. by destruct c.
Qed.
End Wp.
