(* ===== verification/OneWay.v ===== *)
(** * A connection that only receives

    utp_process_incoming (src/utp_internal.cpp) for a established socket with
    nothing in flight: the stages for acknowledgements, delays and congestion
    leave the receiving side alone, so that a packet of the peer's stream does
    what Receive.v says of its data. *)
From S2P Require Import Prelude Wrap Packet Ring Delay DelayAvg Arrays SockAddr Context AckList.
From S2P Require Import Socket Frame MtuSearch Send SendQueue SendInv Flush Streams Reorder Ack Ccontrol Incoming.
From S2P Require Import AckQueue AckStages Receive.

(** nothing is in flight, and fewer than [n] delay samples were taken *)
Record passive (n : Z) (c : UTPSocket) : Prop := {
  pv_window : cur_window_packets (sq c) = 0;
  pv_seq : is_u16 (seq_nr (sq c));
  pv_front : front (sq c) = None;
  pv_open : fin_sent c = false;
  pv_conn : is_state (state c) CS_CONNECTED || is_state (state c) CS_CONNECTED_FULL = true;
  pv_avg : avg_ok (avg (dl c));
  pv_samples : current_delay_samples (avg (dl c)) <= n;
  pv_tries : retransmit_count (rt c) < 4;
}.

(** the same fields give the same facts *)
Lemma passive_same n c c' :
  sq c' = sq c -> fin_sent c' = fin_sent c -> state c' = state c -> avg (dl c') = avg (dl c) ->
  (retransmit_count (rt c) < 4 -> retransmit_count (rt c') < 4) -> passive n c -> passive n c'.
Proof. intros E1 E2 E3 E4 E5 []. split; rewrite ?E1, ?E2, ?E3, ?E4; auto. Qed.

(** what the stages before the data may change *)
Record sideways (n : Z) (c : UTPSocket) (y : Sys) (c' : UTPSocket) (y' : Sys) : Prop := {
  sw_this : this c' = this c;
  sw_rq : rq c' = rq c;
  sw_sq : sq c' = sq c;
  sw_passive : passive n c';
  sw_sys : sys_next mute y y';
}.

Lemma sideways_same n c y c' y' :
  passive n c -> this c' = this c -> rq c' = rq c -> sq c' = sq c -> fin_sent c' = fin_sent c ->
  state c' = state c -> avg (dl c') = avg (dl c) ->
  (retransmit_count (rt c) < 4 -> retransmit_count (rt c') < 4) -> sys_next mute y y' ->
  sideways n c y c' y'.
Proof. intros Hp ? ? ? ? ? ? ? ?. split; try done. by eapply passive_same. Qed.

(** on the same context *)
Lemma sideways_upd n c y c' :
  passive n c -> this c' = this c -> rq c' = rq c -> sq c' = sq c -> fin_sent c' = fin_sent c ->
  state c' = state c -> avg (dl c') = avg (dl c) ->
  (retransmit_count (rt c) < 4 -> retransmit_count (rt c') < 4) -> sideways n c y c' y.
Proof. intros. apply sideways_same; try done. apply sys_next_refl. Qed.

Lemma sideways_trans n1 n2 c1 y1 c2 y2 c3 y3 :
  sideways n1 c1 y1 c2 y2 -> sideways n2 c2 y2 c3 y3 -> sideways n2 c1 y1 c3 y3.
Proof.
  intros [E1 E2 Q1 _ H1] [E3 E4 Q2 Hp H2]. split; [congruence..|done|].
  by eapply sys_next_trans.
Qed.

Section Wp.
Context {E : Env} {HA : GoodApp} (F : fault -> Prop).

(** ** The stages before the data *)

(** with nothing acknowledged, the congestion controller is not run *)
Lemma wp_measure_nothing n pf time (Q : unit -> St -> Prop) c y :
  passive n c -> n < INT_MAX -> is_u32 (pf_reply_micro pf) ->
  (forall c' y', sideways (n + 1) c y c' y' -> Q tt (mkSt c' y')) ->
  wp F (measure_delays pf time 0 INT64_MAX) Q (mkSt c y).
Proof.
  intros Hp Hn Hr H. apply (wp_measure_delays F n); try done; try apply Hp.
  intros d w y' Hd Hs Hy'. apply H. destruct Hp. destruct c. by split.
Qed.

(** ** The acknowledgement stages *)
Lemma passive_state n c st :
  passive n c -> st <> CS_CONNECTED -> st <> CS_CONNECTED_FULL -> is_state (state c) st = false.
Proof.
  intros [_ _ _ _ Hc _ _] H1 H2. unfold is_state in *. apply bool_decide_eq_false. intros E'.
  rewrite E' in Hc. rewrite !bool_decide_eq_false_2 in Hc by done. done.
Qed.

Lemma passive_mono n n' c : n <= n' -> passive n c -> passive n' c.
Proof. intros Hn []. split; try done. lia. Qed.

(** an acknowledgement of nothing: only the peer's window and the timers move *)
Lemma wp_process_no_acks n pf fl ack (Q : unit -> St -> Prop) c y :
  passive n c ->
  (forall c', sideways n c y c' y -> Q tt (mkSt c' y)) ->
  wp F (process_acks pf fl ack 0) Q (mkSt c y).
Proof.
  intros Hp H. pose proof Hp as [Hw _ Hf Ho _ _ _]. unfold process_acks. wp_steps.
  apply wp_when; intros _. 2: by apply H, sideways_upd.
  unfold update_peer_window. wp_steps. set (c1 := c <| wn ::= _ |>).
  assert (S1 : sideways n c y c1 y)
    by (apply sideways_upd; [done|by destruct c..]).
  pose proof (sw_passive _ _ _ _ _ S1) as Hp1. unfold ack_transitions. wp_steps.
  rewrite (passive_state n c1 CS_SYN_RECV Hp1), andb_false_r by done. cbn [when]. wp_steps.
  rewrite (passive_state n c1 CS_SYN_SENT Hp1), andb_false_r by done.
  rewrite (pv_open _ _ Hp1). cbn [andb when]. wp_steps.
  set (c2 := c1 <| rt ::= _ |>).
  assert (S2 : sideways n c y c2 y).
  { eapply sideways_trans; [exact S1|]. apply sideways_upd; [done|by destruct c1..|destruct c1; cbn; unfold advance_fast_resend; by case_match; destruct rt]. }
  pose proof (sw_passive _ _ _ _ _ S2) as Hp2. pose proof Hp2 as [Hw2 _ Hf2 _ _ _ _].
  change (Z.to_nat 0) with 0%nat. cbn [ack_loop]. wp_steps. rewrite Hw2.
  change (Z.to_nat 0) with 0%nat. cbn [skip_acked]. wp_steps.
  rewrite Hw2. cbn [Z.ltb Z.compare andb]. wp_steps.
  unfold assert_front. wp_steps. rewrite Hw2. apply wp_assert; [intros _|done].
  unfold flush_nagle. wp_steps. rewrite Hw2. cbn [Z.eqb when]. wp_steps.
  unfold fast_timeout_retry. wp_steps. rewrite Hf2. apply wp_when; intros _; [|by apply H].
  apply wp_if; intros _; wp_steps; [|by apply H]. apply H.
  eapply sideways_trans; [exact S2|]. apply sideways_upd; [done|by destruct c2..].
Qed.

(** "Mark the socket as writable" *)
Lemma wp_mark_writable n (Q : unit -> St -> Prop) c y :
  passive n c -> (forall c' y', sideways n c y c' y' -> Q tt (mkSt c' y')) ->
  wp F mark_writable Q (mkSt c y).
Proof.
  intros Hp H. unfold mark_writable. wp_steps. apply wp_if; intros Hst.
  - wp_steps. apply wp_is_full. intros w full Hw. cbn beta. apply wp_when; intros _.
    + wp_steps. set (c1 := _ <| state := _ |>). unfold utp_call_on_state_change.
      apply (wp_notify F mute); [done|]. intros y1 H1. cbn [put_sys HasSys_St me st_sys].
      apply H. destruct Hp. destruct c. by split.
    + apply H, sideways_upd; [done|by destruct c..].
  - by apply wp_ret, H, sideways_upd.
Qed.

(** *** The acknowledgement number *)
(** the peer acknowledges what was sent last, or a keep-alive the one before *)
Lemma passive_ack_valid n c fl d :
  passive n c -> fl <> ST_SYN -> 0 <= d <= 1 ->
  ack_nr_invalid c fl (u16 (seq_nr (sq c) - 1 - d)) = false.
Proof.
  intros [Hw Hs _ _ _ _ _] Hf Hd. unfold ack_nr_invalid. rewrite Hw.
  rewrite !(wrapping_compare_less_spec ACK_NR_MASK 65536) by constructor.
  unfold ACK_NR_ALLOWED_WINDOW. rewrite tmax_max.
  rewrite (proj2 (Z.eqb_neq fl ST_SYN)) by done. cbn [negb orb andb].
  rewrite !bool_decide_eq_false_2; [done| |]; clear Hw; revert Hs Hd; word_lia.
Qed.

Lemma passive_acks n c d : passive n c -> 0 <= d <= 1 -> acks_of (sq c) (u16 (seq_nr (sq c) - 1 - d)) = 0.
Proof.
  intros [Hw Hs _ _ _ _ _] Hd. unfold acks_of. rewrite Hw.
  assert (u16 (u16 (seq_nr (sq c) - 1 - d) - (seq_nr (sq c) - 1 - 0)) = 0 \/
    0 < u16 (u16 (seq_nr (sq c) - 1 - d) - (seq_nr (sq c) - 1 - 0))) as [->|H0]
    by (clear Hw; revert Hs Hd; word_lia); [done|].
  by rewrite (proj2 (Z.ltb_lt _ _) H0).
Qed.

(** a valid packet without extension reaches its data *)
Lemma wp_process_valid n packet pf time seqnr data (Q : Z -> St -> Prop) c y :
  passive n c -> n < INT_MAX -> is_u32 (pf_reply_micro pf) -> acks_of (sq c) (pf_ack_nr pf) = 0 ->
  (forall c' y', sideways (n + 1) c y c' y' ->
     wp F (receive_data (pf_type pf) (pf_seq_nr pf) seqnr (drop (Z.to_nat data) packet)) Q
       (mkSt c' y')) ->
  wp F (process_valid packet pf time seqnr data None) Q (mkSt c y).
Proof.
  intros Hp Hn Hr Hack H. unfold process_valid. wp_steps.
  rewrite Hack. unfold count_duplicate. wp_steps.
  rewrite (pv_window _ _ Hp). cbn [Z.ltb Z.compare when]. wp_steps.
  unfold count_acked_bytes. wp_steps. unfold utp_call_get_microseconds.
  apply (wp_call F mute); [done|]. intros v y1 Hy1 _. cbn [put_sys HasSys_St me st_sys].
  change (Z.to_nat 0) with 0%nat. cbn [zseq seq fmap list_fmap mfold]. wp_steps. cbn [fst snd].
  assert (S1 : sideways n c y c y1) by by apply sideways_same.
  apply (wp_measure_nothing n); [done..|]. intros c2 y2 S2. wp_steps.
  apply (wp_process_no_acks (n + 1)); [apply S2|]. intros c3 S3. wp_steps.
  pose proof (sw_passive _ _ _ _ _ S3) as Hp3. unfold process_selack. wp_steps.
  unfold assert_front. wp_steps. rewrite (pv_window _ _ Hp3). apply wp_assert; [intros _|done].
  wp_steps. apply (wp_mark_writable (n + 1)); [done|]. intros c4 y4 S4. wp_steps. apply H.
  eapply sideways_trans; [exact S1|]. eapply sideways_trans; [exact S2|].
  eapply sideways_trans; [exact S3|]. exact S4.
Qed.

(** ** A packet of the stream *)
Section Stream.
Context (D : Z -> list Z) (isn : Z) (fin : option Z).

(** the datagram the peer sends for offset [o], acknowledging [ack] *)
Record peer_header (ack o : Z) (h : PacketFormatV1) : Prop := {
  ph_wf : header_wf h;
  ph_type : pf_type h = if decide (fin = Some o) then ST_FIN else ST_DATA;
  ph_ext : pf_ext h = 0;
  ph_seq : pf_seq_nr h = u16 (isn + o);
  ph_ack : pf_ack_nr h = ack;
}.

Lemma peer_flags ack o h : peer_header ack o h -> stream_flags fin o (pf_type h).
Proof. intros [_ -> _ _ _]. unfold stream_flags. by case_decide. Qed.

(** between two packets: [n] bounds the delay samples taken so far *)
Record listening (n : Z) (R : gset Z) (k : Z) (s : St) : Prop := {
  ls_recv : receiver D isn fin R k s;
  ls_next : k ∉ R;
  ls_eof : eof_told fin k (rq (me s));
  ls_fin : fin_in fin R (rq (me s));
  ls_passive : passive n (me s);
}.

(** from one such moment to another: [bs] was delivered *)
Record listened (bs : list Z) (s s' : St) : Prop := {
  ld_sent : traced (replies (concludes isn fin (rq (me s')))) (st_sys s) (st_sys s');
  ld_told : got_fin_reached (rq (me s)) = true -> got_fin_reached (rq (me s')) = true;
  ld_this : this (me s') = this (me s);
  ld_seq : seq_nr (sq (me s')) = seq_nr (sq (me s));
  ld_reads : reads (this (me s)) (trace (st_sys s')) = reads (this (me s)) (trace (st_sys s)) ++ bs;
}.

Lemma listened_trans b1 b2 s1 s2 s3 :
  listened b1 s1 s2 -> listened b2 s2 s3 -> listened (b1 ++ b2) s1 s3.
Proof.
  intros [Y1 T1 E1 E2 E3] [Y2 T2 E4 E5 E6]. split; [|by auto|congruence|congruence|].
  - eapply traced_trans; [|exact Y2]. destruct Y1 as (rs & Et & Hrs). exists rs. split; [done|].
    eapply Forall_impl; [exact Hrs|]. intros []; cbn; try done. intros [? ?]. by split; auto.
  - rewrite E1 in E6. by rewrite E6, E3, (assoc_L (++)).
Qed.

(** receiving changes nothing [passive] speaks of *)
Lemma receives_passive n bs s s' :
  receives isn fin bs s s' -> passive n (me s) -> passive n (me s') /\ listened bs s s'.
Proof.
  intros [[(q & r & w & t & Em) Hc] Ht [Hy Hd]] Hp. split.
  - apply (passive_same n (me s)); try (rewrite Em; by destruct (me s)); [by rewrite Hc|done].
  - split; [by apply traced_next|done|rewrite Em; by destruct (me s)..|done].
Qed.

(** nor do the other stages change what the receiving side is *)
Lemma sideways_receiver n R k c y c' y' :
  sideways n c y c' y' -> receiver D isn fin R k (mkSt c y) -> receiver D isn fin R k (mkSt c' y').
Proof.
  intros [E1 E2 _ _ Hy] [H1 H2 H3]. cbn [me st_sys] in *. split; cbn [me st_sys].
  - rewrite E1. by eapply sys_next_ok.
  - unfold has_callback in *. by rewrite (sys_next_cb _ _ _ Hy).
  - by rewrite E2.
Qed.

Lemma mute_replies ok y y' : sys_next mute y y' -> traced (replies ok) y y'.
Proof.
  intros (rs & Et & Hrs)%traced_next. exists rs. split; [done|]. eapply Forall_impl; [exact Hrs|].
  by intros [] [].
Qed.

Lemma sideways_listened n c y c' y' :
  sideways n c y c' y' -> listened [] (mkSt c y) (mkSt c' y').
Proof.
  intros [E1 E2 E3 _ Hy]. split; cbn [me st_sys]; [by apply mute_replies|by rewrite E2|done|by rewrite E3|].
  rewrite app_nil_r. eapply reads_next, Hy. by intros r [].
Qed.

(** what one datagram does *)
Definition heard n R k o s (s' : St) : Prop :=
  exists k', listening (n + 1) (arrived isn R k o (rq (me s))) k' s' /\ k <= k' /\
    (o = k -> k < k') /\ listened (stream_data D k k') s s'.

Lemma heard_step n R k k' o s s1 s' :
  listened [] s s1 -> rq (me s1) = rq (me s) -> passive (n + 1) (me s1) ->
  stopped D isn fin (arrived isn R k o (rq (me s1))) k k' s1 s' -> (o = k -> k < k') ->
  heard n R k o s s'.
Proof.
  intros H1 Eq Hp (Hle & Hr & Hk & He & Hfi & Hrv) Hlt. exists k'. rewrite Eq in Hr, Hk, Hfi.
  destruct (receives_passive _ _ _ _ Hrv Hp) as [Hp' Hl].
  split; [by split|]. split; [done|]. split; [done|].
  exact (listened_trans [] _ _ _ _ H1 Hl).
Qed.

(** the stages between the header and the data *)
Lemma wp_process_parsed n R k h o time s :
  listening n R k s -> n < INT_MAX -> peer_header (u16 (seq_nr (sq (me s)) - 1)) o h ->
  k - 64512 <= o < k + 64512 -> (forall N, fin = Some N -> o <= N) ->
  wp F (process_parsed (encode_header h ++ D o) h time false sizeof_PacketFormatV1 None)
    (fun _ s' => heard n R k o s s') s.
Proof.
  intros [Hs Hk He Hfi Hp] Hn Hh Ho Hle. pose proof (peer_flags _ _ _ Hh) as Hfl.
  destruct s as [c y]. cbn [me st_sys] in *. unfold process_parsed. wp_steps.
  rewrite (passive_state n c CS_SYN_SENT Hp) by done. cbn [when]. wp_steps.
  set (c1 := c <| last_got_packet := _ |>).
  assert (S1 : sideways n c y c1 y) by (apply sideways_upd; [done|by destruct c..]).
  pose proof (sideways_receiver _ _ _ _ _ _ _ S1 Hs) as Hs1.
  rewrite (sw_rq _ _ _ _ _ S1), (ph_seq _ _ _ Hh).
  pose proof (bf_ack _ _ _ _ _ (rc_buf _ _ _ _ _ _ (rc_queue _ _ _ _ _ _ Hs))) as Ha.
  cbn [me] in Ha.
  replace (u16 (u16 (isn + o) - ack_nr (rq c) - 1)) with (u16 (o - k))
    by (rewrite Ha; word_lia).
  destruct (Z.leb_spec REORDER_BUFFER_MAX_SIZE (u16 (o - k))) as [Hout|Hin].
  - destruct (far_not_arrived D isn R k o (rq c1) Ho Hout) as [Hne Harr].
    assert (Hend : forall y1, sys_next mute y y1 -> heard n R k o (mkSt c y) (mkSt c1 y1)).
    { intros y1 Hy1. eapply (heard_step n R k k o _ (mkSt c1 y) _ (sideways_listened _ _ _ _ _ S1));
        [apply S1|apply (passive_mono n); [lia|apply S1]| |done].
      cbn [me]. rewrite Harr. apply (stopped_quiet D isn fin R R k c1 y c1 y1); try done; [|apply Hs1].
      split; [exists (rq c1), (rt c1), (wn c1), (last_sent_packet c1)|]; by destruct c. }
    wp_step. apply wp_when; intros _; [|wp_steps; apply Hend, sys_next_refl].
    apply (wp_schedule F mute); [apply Hs|]. intros y1 i Hy1 _ _.
    cbn [put_sys HasSys_St me st_sys]. wp_steps. by apply Hend.
  - destruct (near_arrived D isn R k o (rq c1) Ho Hin) as (Hw & Eo & Harr).
    apply (wp_process_valid n); try done; [apply S1|apply Hh| |].
    { rewrite (ph_ack _ _ _ Hh), (sw_sq _ _ _ _ _ S1).
      replace (seq_nr (sq c) - 1) with (seq_nr (sq c) - 1 - 0) by lia. by apply (passive_acks n). }
    intros c2 y2 S2. pose proof (sideways_trans _ _ _ _ _ _ _ _ S1 S2) as S12.
    change (drop _ (encode_header h ++ D o)) with (D o).
    rewrite (ph_seq _ _ _ Hh), Eo.
    pose proof (sideways_receiver _ _ _ _ _ _ _ S12 Hs) as Hs2.
    eapply wp_mono.
    { apply (wp_receive_data F D isn fin R k o _ (mkSt c2 y2)); try done.
      - cbn [me]. by rewrite (sw_rq _ _ _ _ _ S12).
      - cbn [me]. by rewrite (sw_rq _ _ _ _ _ S12).
      - apply (sw_passive _ _ _ _ _ S12). }
    intros r s' (k' & Hst & Hlt).
    apply (heard_step n R k k' o _ (mkSt c2 y2) _ (sideways_listened _ _ _ _ _ S12));
      [apply S12|apply S12| |done].
    cbn [me] in *. rewrite (sw_rq _ _ _ _ _ S12) in *. rewrite (sw_rq _ _ _ _ _ S1) in Harr.
    by rewrite Harr.
Qed.

Lemma sys_keeps n R k c y y' :
  sys_ok (this c) y' -> callbacks (ctx y') = callbacks (ctx y) ->
  traced mute y y' ->
  listening n R k (mkSt c y) ->
  listening n R k (mkSt c y') /\ listened [] (mkSt c y) (mkSt c y').
Proof.
  intros Hok Hcb (rs & Ht & Hrs) [[_ Hc Hq] H2 H3 H4 H5]. cbn [me st_sys] in *. split.
  - split; try done. split; cbn [me st_sys]; [done| |done]. unfold has_callback in *. by rewrite Hcb.
  - split; cbn [me st_sys]; [exists rs; split; [done|]|done|done|done|].
    + eapply Forall_impl; [exact Hrs|]. by intros [] [].
    + rewrite app_nil_r, Ht. apply reads_app. eapply Forall_impl; [exact Hrs|]. by intros r [].
Qed.

(** the context's counters and clock are no concern of the receiver's *)
Lemma listening_ctx n R k c y f :
  (forall x, ack_sockets (f x) = ack_sockets x /\ callbacks (f x) = callbacks x) ->
  listening n R k (mkSt c y) ->
  listening n R k (mkSt c (y <| ctx ::= f |>)) /\
  listened [] (mkSt c y) (mkSt c (y <| ctx ::= f |>)).
Proof.
  intros Hf Hl. pose proof Hl as [[Hok _ _] _ _ _ _]. cbn [me st_sys] in Hok.
  apply sys_keeps; [by apply sys_ok_ctx| | |done].
  - destruct y. apply Hf.
  - exists []. by destruct y.
Qed.

Lemma listening_next n R k c y y' :
  sys_next mute y y' -> listening n R k (mkSt c y) ->
  listening n R k (mkSt c y') /\ listened [] (mkSt c y) (mkSt c y').
Proof.
  intros Hy Hl. pose proof Hl as [[Hok _ _] _ _ _ _]. cbn [me st_sys] in Hok.
  apply sys_keeps; [by eapply sys_next_ok|by eapply sys_next_cb|by apply traced_next|done].
Qed.

Lemma peer_type ack o h :
  peer_header ack o h -> (ST_NUM_STATES <=? pf_type h) = false /\ pf_type h <> ST_RESET /\
  pf_type h <> ST_SYN.
Proof. intros [_ -> _ _ _]. by case_decide. Qed.

Lemma heard_after n R k o c y c' y' s' :
  rq c' = rq c -> listened [] (mkSt c y) (mkSt c' y') ->
  heard n R k o (mkSt c' y') s' -> heard n R k o (mkSt c y) s'.
Proof.
  intros Eq H1 (k' & Hl & Hle & Hlt & H2). cbn [me] in *. rewrite Eq in Hl.
  exists k'. split; [done|]. split; [done|]. split; [done|]. exact (listened_trans [] _ _ _ _ H1 H2).
Qed.

(** the stages before the sequence number is looked at *)
Lemma wp_incoming_header n R k h bs (Q : Z -> St -> Prop) s :
  listening n R k s -> header_wf h -> pf_ext h = 0 ->
  (ST_NUM_STATES <=? pf_type h) = false -> pf_type h <> ST_RESET -> pf_type h <> ST_SYN ->
  (exists d, 0 <= d <= 1 /\ pf_ack_nr h = u16 (seq_nr (sq (me s)) - 1 - d)) ->
  (forall time y', listening n R k (mkSt (me s) y') -> listened [] s (mkSt (me s) y') ->
     wp F (process_parsed (encode_header h ++ bs) h time false sizeof_PacketFormatV1 None) Q (mkSt (me s) y')) ->
  wp F (utp_process_incoming (encode_header h ++ bs) false) Q s.
Proof.
  intros Hl Hwf Hext Hnum Hres Hsyn (dd & Hdd & Hack) H. destruct s as [c y]. cbn [me] in *.
  unfold utp_process_incoming, utp_register_recv_packet. wp_steps.
  destruct (listening_ctx n R k c y (fun x => x <| nraw_recv ::=
    (count_packet (Z.of_nat (length (encode_header h ++ bs)))) |>)) as [Hl1 L1]; [by intros []|done|].
  unfold utp_call_get_milliseconds. apply (wp_call F mute); [done|]. intros t y2 Hy2 _.
  cbn [put_sys HasSys_St me st_sys] in *. destruct (listening_next _ _ _ _ _ _ Hy2 Hl1) as [Hl2 L2].
  wp_steps. destruct (listening_ctx n R k c y2 (fun x => x <| current_ms := t |>)) as [Hl3 L3];
    [by intros []|done|].
  rewrite (decode_encode h bs Hwf), Hnum. wp_steps.
  unfold utp_call_get_microseconds. apply (wp_call F mute); [done|]. intros time y4 Hy4 _.
  cbn [put_sys HasSys_St me st_sys] in *. destruct (listening_next _ _ _ _ _ _ Hy4 Hl3) as [Hl4 L4].
  wp_steps. rewrite Hack, (passive_ack_valid n c _ dd (ls_passive _ _ _ _ Hl4) Hsyn Hdd).
  wp_step. apply wp_assert; [intros _|by intros Hf%negb_false_iff%Z.eqb_eq].
  wp_steps. unfold skip_extensions. rewrite Hext. cbn [Z.eqb]. wp_steps.
  set (c5 := c <| rq ::= _ |>). assert (E5 : c5 = c) by (by destruct c, rq). rewrite E5.
  apply H; [done|]. exact (listened_trans _ _ _ _ _ L1 (listened_trans _ _ _ _ _ L2
    (listened_trans _ _ _ _ _ L3 L4))).
Qed.

(** the whole function *)
Lemma wp_incoming n R k h o s :
  listening n R k s -> n < INT_MAX -> peer_header (u16 (seq_nr (sq (me s)) - 1)) o h ->
  k - 64512 <= o < k + 64512 -> (forall N, fin = Some N -> o <= N) ->
  wp F (utp_process_incoming (encode_header h ++ D o) false)
    (fun _ s' => heard n R k o s s') s.
Proof.
  intros Hl Hn Hh Ho Hle. destruct (peer_type _ _ _ Hh) as (Hnum & Hres & Hsyn).
  apply (wp_incoming_header n R k); try done; [apply Hh|apply Hh| |].
  { exists 0. split; [lia|]. rewrite (ph_ack _ _ _ Hh). f_equal. lia. }
  intros time y' Hl' L. destruct s as [c y]. cbn [me] in *.
  eapply wp_mono; [by apply (wp_process_parsed n R k h o)|].
  intros r s' Hh'. by apply (heard_after n R k o c y c y').
Qed.

(** a keep-alive, or another acknowledgement of nothing new *)
Lemma wp_incoming_state n R k h s :
  listening n R k s -> n < INT_MAX -> header_wf h -> pf_ext h = 0 -> pf_type h = ST_STATE ->
  (exists d, 0 <= d <= 1 /\ pf_ack_nr h = u16 (seq_nr (sq (me s)) - 1 - d)) ->
  wp F (utp_process_incoming (encode_header h ++ []) false)
    (fun _ s' => listening (n + 1) R k s' /\ listened [] s s') s.
Proof.
  intros Hl Hn Hwf Hext Hty Hack. pose proof Hack as (d & Hd & Ea).
  apply (wp_incoming_header n R k); try done; try by rewrite Hty.
  intros time y0 Hl0 L0. destruct s as [c y]. cbn [me] in *. unfold process_parsed. wp_steps.
  pose proof (ls_passive _ _ _ _ Hl0) as Hp. cbn [me] in Hp.
  rewrite (passive_state n c CS_SYN_SENT Hp) by done. cbn [when]. wp_steps.
  set (c1 := c <| last_got_packet := _ |>).
  assert (S1 : sideways n c y0 c1 y0) by (apply sideways_upd; [done|by destruct c..]).
  assert (Hend : forall c2 y2, sideways (n + 1) c y0 c2 y2 ->
    listening (n + 1) R k (mkSt c2 y2) /\ listened [] (mkSt c y) (mkSt c2 y2)).
  { intros c2 y2 S2. destruct Hl0 as [Hr Hk He Hfi _]. split.
    - split; [by eapply sideways_receiver|done| | |apply S2]; cbn [me] in *; by rewrite (sw_rq _ _ _ _ _ S2).
    - eapply (listened_trans [] []); [exact L0|by eapply sideways_listened]. }
  rewrite Hty. change (negb (ST_STATE =? ST_STATE)) with false. rewrite andb_false_r. cbn [when].
  apply wp_if; intros _; wp_steps.
  { apply Hend. destruct S1 as [? ? ? Hp1 ?]. split; try done. by apply (passive_mono n); [lia|]. }
  apply (wp_process_valid n); try done; [apply S1|apply Hwf| |].
  { rewrite Ea, (sw_sq _ _ _ _ _ S1). by apply (passive_acks n). }
  intros c2 y2 S2. rewrite Hty. unfold receive_data. wp_steps. apply Hend. by eapply sideways_trans.
Qed.
End Stream.
End Wp.
