(* ===== verification/Writev.v ===== *)
(** * Writing

    utp_writev of src/utp_internal.cpp: the bytes it reports as written are a
    prefix of the iovecs, they are appended to the byte stream of the send queue,
    and when it stops early the socket is left in CS_CONNECTED_FULL.  The theorems
    about queueing and flushing are stated here too. *)
From S2P Require Import Prelude Wrap Packet Ring Arrays SockAddr Context AckList Socket Frame MtuSearch Send SendQueue SendInv Flush Streams WriteQueue Ack Incoming AckQueue Timeouts Api.

(** A socket that can send, each of its packets sent at most [n] times. *)
Record sender_ok (n : Z) (s : St) : Prop := {
  sn_sys : sys_ok (this (me s)) (st_sys s);
  sn_queue : sq_ok n (sq (me s));
  sn_mtu : mtu_ok (mt (me s));
  sn_count : 1 <= n < 2147483647;
}.

Section Wp.
Context {E : Env} {HA : GoodApp} (F : fault -> Prop).

Lemma wrote_sender n fl bs s s' :
  sender_ok n s -> wrote n fl bs s s' -> sender_ok n s' /\ this (me s') = this (me s) /\
    state (me s') = state (me s).
Proof.
  intros [H1 H2 H3 H4] [(q & r & w & m & t & Ew) _ _ Hq Hm _ _ Hy _ _ _ _ _].
  assert (this (me s') = this (me s) /\ state (me s') = state (me s)) as [Et Es]
    by (rewrite Ew; by destruct (me s)).
  split_and!; try done. split; try done. rewrite Et. by eapply sys_next_ok.
Qed.

(** a window too full for less than a packet is too full for a packet *)
Lemma window_full_mono n c b :
  sq_ok n (sq c) -> mtu_ok (mt c) -> window_full c b = true -> window_full c (-1) = true.
Proof.
  intros Hq Hm. pose proof (packet_size_range c Hm) as Hp.
  pose proof (cur_window_bounds _ _ Hq) as Hw. unfold max_payload in Hw.
  unfold window_full, full_bytes. rewrite (i32_small (get_packet_size c)) by (unfold is_i32; lia).
  rewrite !orb_true_iff, !Z.ltb_lt. intros [?|H]; [by left|right]. change (-1 <? 0) with true.
  cbn iota. destruct (Z.ltb_spec b 0); [done|].
  destruct (Z.ltb_spec (get_packet_size c) b); [done|].
  rewrite u64_small in H |- * by (unfold is_u64; lia). lia.
Qed.

Lemma maxed_window c w :
  w <| last_maxed_out_window := last_maxed_out_window (wn c) |> = wn c ->
  let c' := c <| wn := w |> in
  sq c' = sq c /\ mt c' = mt c /\ this c' = this c /\ state c' = state c /\
  (forall b, window_full c' b = window_full c b).
Proof.
  intros Hw. destruct c, w, wn. cbn in *. injection Hw. intros. by subst.
Qed.

(** What writing leaves alone, and the room it leaves for a FIN. *)
Record write_frame (s s' : St) : Prop := {
  wf_this : this (me s') = this (me s);
  wf_rq : rq (me s') = rq (me s);
  wf_dl : dl (me s') = dl (me s);
  wf_ident : identity (me s') = identity (me s);
  wf_front : front_ok (sq (me s)) -> front_ok (sq (me s'));
  wf_room : cur_window_packets (sq (me s')) <= Z.max (cur_window_packets (sq (me s))) 1023;
  wf_sys : sys_kept (st_sys s) (st_sys s');
  wf_sent : traced (sends_only (carries (sq (me s')) (ack_nr (rq (me s))))) (st_sys s) (st_sys s');
  wf_label : labelled ST_DATA (sq (me s)) -> labelled ST_DATA (sq (me s'));
  wf_carried : forall ack d, carries (sq (me s)) ack d -> carries (sq (me s')) ack d;
  wf_seq : cur_window_packets (sq (me s)) <= cur_window_packets (sq (me s')) /\
    first_seq (sq (me s')) = first_seq (sq (me s));
  wf_paced : forall M, get_packet_size (me s) <= M -> paced M (me s) (me s');
}.

Lemma write_frame_trans s1 s2 s3 : write_frame s1 s2 -> write_frame s2 s3 -> write_frame s1 s3.
Proof.
  intros [T1 R1 D1 I1 F1 W1 Y1 S1 L1 C1 [N1 Q1] P1] [T2 R2 D2 I2 F2 W2 Y2 S2 L2 C2 [N2 Q2] P2].
  split; try congruence; auto; [lia|by eapply sys_kept_trans| |split; [lia|congruence]|].
  2: { intros M HM. pose proof (P1 M HM) as HP. eapply paced_trans; [exact HP|]. apply P2.
       by rewrite (pc_size _ _ _ HP). }
  rewrite R1 in S2. eapply traced_trans; [|exact S2]. eapply traced_carry; [|exact S1]. auto.
Qed.

(** no packet was queued or sent *)
Lemma write_frame_upd c y c' y' :
  this c' = this c -> rq c' = rq c -> dl c' = dl c -> identity c' = identity c -> sq c' = sq c ->
  sys_kept y y' -> traced (sends_only (carries (sq c') (ack_nr (rq c)))) y y' ->
  get_packet_size c' = get_packet_size c -> max_send c' = max_send c ->
  write_frame (mkSt c y) (mkSt c' y').
Proof.
  intros ? ? ? ? Eq ? ? Ep El. split; cbn [me st_sys]; rewrite ?Eq in *; try done; [lia|].
  intros M _. split; [done..|]. rewrite Eq. intros Hf. split; [done|lia].
Qed.

Lemma write_frame_wn c y w :
  w <| last_maxed_out_window := last_maxed_out_window (wn c) |> = wn c ->
  write_frame (mkSt c y) (mkSt (c <| wn := w |>) y).
Proof.
  intros Hw. apply write_frame_upd; try (by destruct c); [apply traced_refl|].
  by apply max_send_maxed; destruct c.
Qed.

Lemma wrote_frame n bs s s' :
  wrote n ST_DATA bs s s' -> cur_window_packets (sq (me s)) <= 1022 ->
  Z.of_nat (length bs) <= get_packet_size (me s) -> write_frame s s'.
Proof.
  intros [(q & r & w & m & t & Ew) _ _ Hq Hm _ Hc Hy Hf Hsn Hl Hd Hfs Hpc] Hr Hb.
  split; try done; try (rewrite Ew; by destruct (me s)); [lia|by eapply sys_next_kept|by apply traced_next| |].
  - split; [lia|done].
  - intros M HM. apply Hpc; lia.
Qed.

(** The loop: it ends, and [k] more bytes are queued when it does. *)
Record written (n : Z) (bs : list Z) (s s' : St) : Prop := {
  wt_ok : sender_ok n s';
  wt_content : content (sq (me s')) = content (sq (me s)) ++ bs;
  wt_stream : streams bs (sq (me s)) (sq (me s'));
  wt_frame : write_frame s s';
  wt_state : state (me s') = state (me s);
}.

Lemma wp_writev_loop n ps : forall fuel bytes nts sent iov s,
  sender_ok n s -> 1 <= ps <= 65536 -> ps <= get_packet_size (me s) -> 0 <= bytes < Z.of_nat fuel -> nts = Z.min bytes ps ->
  bytes <= Z.of_nat (length (concat iov)) ->
  wp F (writev_loop fuel ps bytes nts sent iov)
    (fun r s' => exists k, 0 <= k <= bytes /\ r.2 = sent + k /\
       written n (take (Z.to_nat k) (concat iov)) s s' /\
       (if decide (r.1 = None) then window_full (me s') (-1) = true
        else k = bytes /\ r.1 = Some (sent + k))) s.
Proof.
  induction fuel as [|fuel IH]; intros bytes nts sent iov s Hs Hps Hpsz Hb -> Hiov; [lia|].
  destruct s as [c y]. pose proof Hs as [Hy Hq Hm Hn]. cbn [me st_sys] in *.
  cbn [writev_loop]. wp_steps. apply wp_is_full. intros w full Hw.
  destruct (maxed_window c w Hw) as (Esq & Emt & Eth & Est & Ewf).
  pose proof (write_frame_wn c y w Hw) as F1. set (c1 := c <| wn := w |>) in *. clearbody c1.
  assert (Hs1 : sender_ok n (mkSt c1 y))
    by (split; cbn [me st_sys]; rewrite ?Esq, ?Emt, ?Eth; done).
  destruct full eqn:Hfull; wp_steps.
  - exists 0. split; [lia|]. split; [cbn; lia|]. split.
    + split; cbn [me]; rewrite ?take_0, ?app_nil_r, ?Esq; try done. apply streams_refl.
    + cbn [fst]. rewrite decide_True by done. rewrite Ewf.
      by eapply window_full_mono.
  - assert (Hroom : cur_window_packets (sq c) <= 1022).
    { apply orb_false_iff in Hfull as [Hf%Z.leb_gt _]. unfold OUTGOING_BUFFER_MAX_SIZE in Hf. lia. }
    eapply wp_mono.
    { apply (wp_write_outgoing_packet F n); rewrite ?Esq, ?Emt, ?Eth; try done; try lia. }
    intros iov' s2 [Hio Hwr].
    assert (Hfit1 : Z.of_nat (length (take (Z.to_nat (Z.min bytes ps)) (concat iov))) <= get_packet_size c1).
    { rewrite length_take. replace (get_packet_size c1) with (get_packet_size c); [lia|].
      unfold get_packet_size. by rewrite Emt. }
    pose proof (write_frame_trans _ _ _ F1 (wrote_frame n _ _ _ Hwr ltac:(by cbn [me]; rewrite Esq) Hfit1)) as F2.
    pose proof (pc_size _ _ _ (wf_paced _ _ F2 _ (Z.le_refl _))) as Eps. destruct (wrote_sender n _ _ _ _ Hs1 Hwr) as (Hs2 & Et2 & Est2).
    pose proof (wr_content _ _ _ _ _ Hwr) as Hc2. pose proof (wr_stream _ _ _ _ _ Hwr) as Hss2.
    cbn [me] in *. rewrite Esq in Hc2, Hss2. wp_steps.
    rewrite tmin_min. destruct (Z.eqb_spec (Z.min (bytes - Z.min bytes ps) ps) 0) as [H0|H0].
    + wp_steps. exists bytes. replace (Z.min bytes ps) with bytes in * by lia.
      split_and!; [lia..| | |]; try done.
      split; cbn [me]; try done; congruence.
    + eapply wp_mono; [apply IH; try done; try lia|].
      { rewrite Hio, length_drop. lia. }
      intros r s3 (k & Hk & Hr & [W1 W2 W5 W3 W4] & Hend).
      exists (Z.min bytes ps + k). split; [lia|]. split; [lia|]. split.
      * assert (Et : take (Z.to_nat (Z.min bytes ps)) (concat iov) ++ take (Z.to_nat k) (concat iov') =
          take (Z.to_nat (Z.min bytes ps + k)) (concat iov))
          by (rewrite Hio, take_take_drop; f_equal; lia).
        split; [done| | |by eapply write_frame_trans|cbn [me]; congruence]; rewrite <- Et.
        -- by rewrite W2, Hc2, <- (assoc_L (++)).
        -- by eapply streams_trans.
      * case_decide; [done|]. destruct Hend as [-> ->]. split; [lia|]. f_equal. lia.
Qed.
End Wp.

(** ** The whole call *)
Section Call.
Context {E : Env} {HA : GoodApp} (F : fault -> Prop).

Definition iov_data (iovs : list (list Z)) : list Z := concat (take UTP_IOV_MAX iovs).

Lemma sumZ_lengths (l : list (list Z)) :
  sumZ ((fun v => Z.of_nat (length v)) <$> l) = Z.of_nat (length (concat l)).
Proof. induction l as [|v l IH]; [done|]. cbn. rewrite IH, length_app. lia. Qed.

(** reading the clock at the start of a call *)
Lemma sender_clock n c y y' t :
  sender_ok n (mkSt c y) -> sys_next quiet y y' ->
  sender_ok n (mkSt c (y' <| ctx ::= fun x => x <| current_ms := t |> |>)).
Proof.
  intros [H1 H2 H3 H4] Hy. split; cbn [me st_sys]; try done.
  apply sys_ok_ctx; [by intros []|]. by eapply sys_next_ok.
Qed.

Lemma wp_utp_writev n iovs s :
  sender_ok n s -> iovs <> [] ->
  state (me s) = CS_CONNECTED -> fin_sent (me s) = false ->
  wp F (utp_writev iovs)
    (fun k s' => 0 <= k <= Z.of_nat (length (iov_data iovs)) /\ sender_ok n s' /\
       content (sq (me s')) = content (sq (me s)) ++ take (Z.to_nat k) (iov_data iovs) /\
       streams (take (Z.to_nat k) (iov_data iovs)) (sq (me s)) (sq (me s')) /\
       state (me s') = (if decide (k = Z.of_nat (length (iov_data iovs)))
                        then state (me s') else CS_CONNECTED_FULL) /\
       write_frame s s' /\ state (me s') <> CS_SYN_SENT) s.
Proof.
  intros Hs Hne Hst Hfin. destruct s as [c y]. cbn [me] in *. unfold utp_writev.
  rewrite (bool_decide_false (iovs = [])) by done. wp_step. apply wp_assert; [intros _|done].
  wp_step. wp_step. rewrite Hst, Hfin. change (is_state CS_CONNECTED CS_CONNECTED) with true.
  cbn [negb]. unfold utp_call_get_milliseconds. wp_steps.
  apply (wp_call F silent); [done|]. intros t y1 H0 _. wp_steps.
  assert (H1 : sys_next quiet y y1) by (eapply sys_next_mono, H0; apply silent_quiet).
  pose proof (sender_clock n c y y1 t Hs H1) as Hs1.
  assert (F1 : write_frame (mkSt c y) (mkSt c (y1 <| ctx ::= fun x => x <| current_ms := t |> |>))).
  { apply write_frame_upd; try done.
    - eapply sys_kept_trans; [by eapply sys_next_kept|]. apply sys_kept_ctx. by intros [].
    - assert (Et : trace (y1 <| ctx ::= fun x => x <| current_ms := t |> |>) = trace y1) by by destruct y1.
      unfold traced. rewrite Et. by apply traced_next, sys_next_sends. }
  pose proof (packet_size_range c (sn_mtu _ _ Hs1)) as Hps.
  rewrite sumZ_lengths. fold (iov_data iovs). set (len := Z.of_nat (length (iov_data iovs))).
  eapply wp_mono.
  { apply (wp_writev_loop F n (get_packet_size c)); try done; try lia.
    unfold tmin. destruct (Z.ltb_spec len (get_packet_size c)); lia. }
  intros [r sent] s2 (k & Hk & Hr & [W1 W2 W5 W3 W4] & Hend). cbn [fst snd me] in *.
  destruct r as [r|].
  - rewrite decide_False in Hend by done. destruct Hend as [-> [= ->]]. wp_steps.
    split; [lia|]. split; [done|]. split; [done|]. split; [done|]. rewrite decide_True by lia.
    split_and!; [done|by eapply write_frame_trans|by rewrite W4, Hst].
  - rewrite decide_True in Hend by done. destruct s2 as [c2 y2]. cbn [me] in *.
    wp_steps. apply wp_is_full. intros w full Hw.
    destruct (maxed_window c2 w Hw) as (Esq & Emt & Eth & Est & Ewf).
    pose proof (write_frame_wn c2 y2 w Hw) as F2. set (c3 := c2 <| wn := w |>) in *. clearbody c3.
    subst full. rewrite Hend. wp_steps. subst sent.
    assert (F3 : write_frame (mkSt c3 y2) (mkSt (c3 <| state := CS_CONNECTED_FULL |>) y2))
      by (apply write_frame_upd; try (by destruct c3); apply traced_refl).
    destruct W1 as [S1 S2 S3 S4]. cbn [me st_sys] in *.
    split; [lia|]. split; [|split_and!].
    + destruct c3. cbn in *. subst. by split.
    + rewrite Z.add_0_l. unfold iov_data. rewrite <- W2, <- Esq. by destruct c3.
    + rewrite Z.add_0_l. unfold iov_data. rewrite <- Esq in W5. by destruct c3.
    + case_decide; [done|by destruct c3].
    + do 3 (eapply write_frame_trans; [eassumption|]). done.
    + by destruct c3.
Qed.
End Call.
