(* ===== verification/SockOps.v ===== *)
(** * The operations of a socket keep its invariant

    The invariant [sock_ok] of IncomingSafe.v against every other operation on a
    socket: the timer, writing, the notice that data was read, acknowledgements
    that were due, closing, ICMP messages and resets (src/utp_internal.cpp). *)
From S2P Require Import Prelude Wrap Packet Ring Delay DelayAvg Arrays SockAddr Context AckList.
From S2P Require Import Socket Frame MtuSearch Send SendQueue SendInv Flush Streams WriteQueue Reorder Ack Incoming.
From S2P Require Import Timeouts Api AckQueue AckStages Receive TimerInv RecvInv IncomingSafe Writev.

(** It is the same connection in a possibly later state, and the context has
    changed in no way another socket depends on. *)
Record survives (n m : Z) (s s' : St) : Prop := {
  su_ok : sock_ok n m s';
  su_this : this (me s') = this (me s);
  su_addr : addr (me s') = addr (me s);
  su_id : conn_id_recv (me s') = conn_id_recv (me s);
  su_sys : sys_kept (st_sys s) (st_sys s');
}.

Lemma survives_trans n1 m1 n2 m2 s1 s2 s3 :
  survives n1 m1 s1 s2 -> survives n2 m2 s2 s3 -> survives n2 m2 s1 s3.
Proof. intros [] []. split; try congruence. by eapply sys_kept_trans. Qed.

Lemma survives_mono n m n' m' s s' :
  n <= n' -> m <= m' -> survives n m s s' -> survives n' m' s s'.
Proof. intros Hn Hm []. split; try done. by eapply sock_ok_mono. Qed.

Lemma survives_refl n m s : sock_ok n m s -> survives n m s s.
Proof. by split. Qed.

Lemma processed_survives A n m s s' : processed A n m s s' -> survives n m s s'.
Proof. intros [H1 H2 _ [= ? ? _] H4]. by split. Qed.

Lemma steady_survives n m s s' : steady s s' -> sock_ok n m s -> survives n m s s'.
Proof. intros H Hs. by apply (processed_survives (fun _ => False)), (steady_processed _ n m). Qed.

Lemma resumed_survives n n' m s s' : resumed n' s s' -> sock_ok n m s -> survives n' m s s'.
Proof.
  intros HR [H1 H2 H3 H4 H5 H6 H7]. pose proof (re_count _ _ _ HR) as Ec.
  destruct HR as [E1 E2 E3 Ei Es Hc _ Hy]. injection Ei as ? ? Ef.
  split; try done; [|by eapply sys_next_kept].
  split; rewrite ?E2, ?E3, ?Ef, ?Ec; auto.
Qed.

(** what a keep-alive acknowledges: all but the last packet that arrived *)
Definition last_heard (q : RecvQueue) : RecvQueue := q <| ack_nr := u16 (ack_nr q - 1) |>.

(** nothing but keep-alives was sent *)
Record alive (s s' : St) : Prop := {
  al_sq : sq (me s') = sq (me s);
  al_rt : rt (me s') = rt (me s);
  al_rq : rq (me s') = rq (me s);
  al_ident : identity (me s') = identity (me s);
  al_sys : sys_next (sends_only (acknowledges (last_heard (rq (me s))))) (st_sys s) (st_sys s');
}.

(** the timer: packets of the queue and keep-alives were sent, and the queue stays *)
Record ticked (s s' : St) : Prop := {
  tk_rq : rq (me s') = rq (me s);
  tk_ident : identity (me s') = identity (me s);
  tk_unmoved : unmoved (sq (me s)) (sq (me s'));
  tk_sys : sys_next (speaks (fun bs => ferries (sq (me s)) (sq (me s')) (ack_nr (rq (me s))) bs \/
    acknowledges (last_heard (rq (me s))) bs)) (st_sys s) (st_sys s');
}.

Lemma resumed_ticked n s s' : resumed n s s' -> ticked s s'.
Proof.
  intros [_ R _ I _ _ K Y]. split; try done. eapply sys_next_speaks; [|exact Y]. by left.
Qed.

Lemma alive_ticked n s s1 s' : resumed n s s1 -> alive s1 s' -> ticked s s'.
Proof.
  intros R [A1 _ A3 A4 A5]. pose proof (resumed_ticked _ _ _ R) as [T1 T2 T3 T4].
  split; rewrite ?A1; try congruence. eapply sys_next_trans; [exact T4|]. rewrite T1 in A5.
  eapply sys_next_mono, A5. intros r Hr%sends_speaks. eapply speaks_mono; [|exact Hr]. by right.
Qed.

(** fields of the socket's own *)
Lemma survives_upd n m c y c' y' :
  this c' = this c -> sq c' = sq c -> rq c' = rq c -> mt c' = mt c -> dl c' = dl c ->
  (state c' = CS_SYN_SENT -> state c = CS_SYN_SENT) ->
  (fin_sent c' = false -> fin_sent c = false) ->
  addr c' = addr c -> conn_id_recv c' = conn_id_recv c -> sys_kept y y' ->
  sock_ok n m (mkSt c y) -> survives n m (mkSt c y) (mkSt c' y').
Proof.
  intros. split; cbn [me st_sys]; try done. eapply sock_ok_upd; try done.
  eapply sock_ok_sys; [|done]. eapply sys_kept_ok; [done|]. by apply (sk_send _ _ _ H9).
Qed.

Lemma sys_kept_ms R y y' t : sys_next R y y' -> sys_kept y (y' <| ctx ::= fun x => x <| current_ms := t |> |>).
Proof.
  intros H. eapply sys_kept_trans; [by eapply sys_next_kept|]. apply sys_kept_ctx. by intros [].
Qed.

(** the fields an acknowledgement stamps *)
Lemma survives_acked n m c y w t y' :
  sock_ok n m (mkSt c y) -> sys_next quiet y y' ->
  survives n m (mkSt c y) (mkSt (c <| wn := w |> <| last_sent_packet := t |>) y').
Proof. intros Hs Hy. apply survives_upd; try (by destruct c); by eapply sys_next_kept. Qed.

Lemma write_frame_survives n m s s' :
  write_frame s s' -> sender_ok n s' -> state (me s') <> CS_SYN_SENT -> sock_ok n m s ->
  survives n m s s'.
Proof.
  intros [Et Er Ed [= Ea Ei Ef] Hf Hr Hy] [S1 S2 S3 S4] Hst [[C1 C2 C3 C4] H2 H3 H4 H5 H6 H7].
  split; try done. split; rewrite ?Er, ?Ed, ?Ef; try done.
  - split; auto.
  - intros Hfin. specialize (H7 Hfin). lia.
Qed.

Lemma sock_ok_sender n m s : sock_ok n m s -> 1 <= n < 2147483647 -> sender_ok n s.
Proof. intros [[]] Hn. by split. Qed.

(** a new state, other than CS_SYN_SENT *)
Lemma survives_state n m c y st :
  st <> CS_SYN_SENT -> sock_ok n m (mkSt c y) ->
  survives n m (mkSt c y) (mkSt (c <| state := st |>) y).
Proof.
  intros Hst Hs. apply survives_upd; by destruct c.
Qed.

Section Wp.
Context {E : Env} {HA : GoodApp} (F : fault -> Prop).

Lemma wp_notify_ok name r n m s0 c y :
  polite r -> survives n m s0 (mkSt c y) ->
  wp F (notify name r) (fun _ s' => survives n m s0 s') (mkSt c y).
Proof.
  intros Hr H0. apply (wp_notify F any); [done|]. intros y1 H1. cbn [put_sys HasSys_St me st_sys] in *.
  eapply survives_trans; [exact H0|]. apply survives_upd; try done; [by eapply sys_next_kept|].
  apply H0.
Qed.

(** ** Acknowledgements *)
Lemma wp_send_ack_ok n m c y :
  sock_ok n m (mkSt c y) ->
  wp F (send_ack false) (fun _ s' => survives n m (mkSt c y) s') (mkSt c y).
Proof.
  intros Hs. apply wp_send_ack; [apply Hs| |].
  - intros _ Hr. split; [done|]. apply rq_safe_next; [apply (sk_recv _ _ _ Hs)|done].
  - intros w y' Hy _ _. by apply survives_acked.
Qed.

(** a keep-alive acknowledges the packet before the last one: its place is free *)
Lemma rq_safe_last q :
  rq_safe q -> got_fin_reached q = false ->
  islot (q <| ack_nr := u16 (ack_nr q - 1) |>) 0 = None.
Proof.
  intros Hs Hr. destruct (rs_wait _ Hs Hr) as (D & isn & R & k & Hb & Hk).
  pose proof (ri_last _ (buffered_rq_ok _ _ _ _ _ Hb Hk)) as Hl.
  pose proof (rs_ring _ Hs) as Hw. pose proof (rs_mask _ Hs) as Hm. rewrite <- Hl. unfold islot.
  replace (inbuf (q <| ack_nr := _ |>)) with (inbuf q) by by destruct q.
  replace (ack_nr (q <| ack_nr := u16 (ack_nr q - 1) |>)) with (u16 (ack_nr q - 1)) by by destruct q.
  rewrite (ring_get_cong _ _ (ack_nr q)) by (done || lia || word_lia).
  apply ring_get_mod; [done|].
  replace (ack_nr q + 1 + Ring.mask (inbuf q))
    with (ack_nr q + 1 * (Ring.mask (inbuf q) + 1)) by lia.
  rewrite Z.mod_add by (pose proof (ring_wf_mask _ Hw); lia). done.
Qed.

Lemma wp_send_keep_alive_ok n m c y :
  sock_ok n m (mkSt c y) ->
  wp F send_keep_alive (fun _ s' => survives n m (mkSt c y) s' /\ alive (mkSt c y) s') (mkSt c y).
Proof.
  intros Hs. unfold send_keep_alive. wp_steps. set (c1 := c <| rq ::= _ |>).
  assert (E1 : this c1 = this c /\ rq c1 = last_heard (rq c)) by by destruct c. destruct E1 as [Et Er].
  apply wp_send_ack_D; [rewrite Et; apply Hs| |].
  - intros _ Hr. split; [done|]. rewrite Er. apply rq_safe_last; [apply (sk_recv _ _ _ Hs)|].
    rewrite Er in Hr. by destruct (rq c).
  - intros w y' Hy _ _ _. wp_steps. rewrite Er in Hy. pose proof (rs_ack _ (sk_recv _ _ _ Hs)) as Ha. cbn [me] in Ha.
    pose proof (survives_acked n m c y w (current_ms (ctx y)) y' Hs (sys_next_quiet _ _ _ Hy)) as H.
    match goal with |- survives _ _ _ (mkSt ?c2 _) /\ _ => match type of H with survives _ _ _ (mkSt ?c3 _) =>
      replace c2 with c3; [split; [exact H|split; cbn [me st_sys]; [destruct c; done..|exact Hy]]|] end end.
    assert (Ea : u16 (u16 (ack_nr (rq c) - 1) + 1) = ack_nr (rq c)) by (revert Ha; word_lia).
    clear H. subst c1. destruct c, rq. cbn in *. by rewrite Ea.
Qed.

(** ** The timer *)
Lemma wp_keep_alive_check_ok n m c y :
  sock_ok n m (mkSt c y) ->
  wp F keep_alive_check (fun _ s' => survives n m (mkSt c y) s' /\ alive (mkSt c y) s') (mkSt c y).
Proof.
  intros Hs. unfold keep_alive_check. wp_steps.
  apply wp_when; intros _; [by apply wp_send_keep_alive_ok|].
  split; [by apply survives_refl|split; try done; apply sys_next_refl].
Qed.

Lemma wp_check_timeouts_ok n m c y :
  sock_ok n m (mkSt c y) -> 1 <= n -> n + 2 < 2147483648 ->
  wp F check_timeouts (fun _ s' => survives (n + 2) m (mkSt c y) s' /\ ticked (mkSt c y) s') (mkSt c y).
Proof.
  intros Hs Hn1 Hn. unfold check_timeouts. wp_step.
  apply (wp_assert_front F _ n); [apply Hs|]. wp_steps.
  set (P := fun s' => resumed n (mkSt c y) s').
  assert (Hrest : forall c1 y1, P (mkSt c1 y1) ->
    wp F (when (timer_active (state c)) (
        t ← now_ms;
        upd_wn (reopen_window t) ;;
        r ← my rt;
        dead ← (if rto_expired t r then on_rto else mret false);
        when (negb dead) (mark_writable ;; keep_alive_check)))
      (fun _ s' => survives (n + 2) m (mkSt c y) s' /\ ticked (mkSt c y) s') (mkSt c1 y1)).
  { intros c1 y1 R1. apply wp_when; intros _.
    2: { split; [|by eapply resumed_ticked]. apply (survives_mono n m); [lia..|]. by eapply resumed_survives. }
    wp_steps. set (c2 := c1 <| wn ::= _ |>).
    assert (S2 : steady (mkSt c1 y1) (mkSt c2 y1)) by (apply steady_set; by destruct c1).
    pose proof (resumed_trans _ _ _ _ _ R1 (steady_resumed n _ _ S2 (re_can _ _ _ R1))) as R2.
    assert (Hend : forall dead c3 y3, resumed (n + 2) (mkSt c y) (mkSt c3 y3) -> wp F
      (when (negb dead) (mark_writable ;; keep_alive_check))
      (fun _ s' => survives (n + 2) m (mkSt c y) s' /\ ticked (mkSt c y) s') (mkSt c3 y3)).
    { intros dead c3 y3 R3. pose proof (resumed_survives _ _ _ _ _ R3 Hs) as V3.
      apply wp_when; intros _; [|split; [done|by eapply resumed_ticked]]. wp_step.
      eapply wp_mono; [apply wp_mark_writable_steady|]. intros _ [c4 y4] S4.
      pose proof (resumed_trans _ _ _ _ _ R3 (steady_resumed (n + 2) _ _ S4 (re_can _ _ _ R3))) as R4.
      pose proof (resumed_survives _ _ _ _ _ R4 Hs) as V4.
      eapply wp_mono; [apply (wp_keep_alive_check_ok (n + 2) m), V4|]. intros _ s' [V5 A5].
      split; [by eapply survives_trans|by eapply alive_ticked]. }
    apply wp_if; intros _.
    - eapply wp_mono; [apply (wp_on_rto F n); [apply R2|done]|]. intros dead [c3 y3] R3. apply Hend.
      by eapply resumed_trans.
    - wp_steps. apply Hend. eapply resumed_trans; [exact R2|].
      apply (resumed_refl n); [lia|apply R2]. }
  apply wp_when; intros _.
  - wp_step. eapply wp_mono; [apply (wp_flush_packets F c y n); try done; apply Hs || lia|].
    intros full [c1 y1] [S1 _]. wp_steps. apply Hrest. apply (sends_resumed n); [done|apply Hs].
  - apply Hrest. apply (resumed_refl n); [lia|apply Hs].
Qed.
(** ** The application's calls *)
Lemma wp_utp_writev_ok n m iovs c y :
  sock_ok n m (mkSt c y) -> 1 <= n < 2147483647 -> iovs <> [] ->
  wp F (utp_writev iovs) (fun _ s' => survives n m (mkSt c y) s') (mkSt c y).
Proof.
  intros Hs Hn Hne. pose proof (sock_ok_sender n m _ Hs Hn) as Hsn.
  assert (Hno : state c <> CS_CONNECTED \/ fin_sent c = true ->
    wp F (utp_writev iovs) (fun _ s' => survives n m (mkSt c y) s') (mkSt c y)).
  { intros Hno. unfold utp_writev. rewrite (bool_decide_false (iovs = [])) by done.
    wp_step. apply wp_assert; [intros _|done]. wp_step. wp_step. apply wp_if; intros Hst.
    { wp_steps. by apply survives_refl. }
    apply wp_if; intros Hf; [wp_steps; by apply survives_refl|]. exfalso.
    apply negb_false_iff, bool_decide_eq_true in Hst. destruct Hno; congruence. }
  destruct (decide (state c = CS_CONNECTED)) as [Hst|]; [|by apply Hno; left].
  destruct (fin_sent c) eqn:Hf; [by apply Hno; right|].
  eapply wp_mono; [by apply (wp_utp_writev F n)|].
  intros k s' (_ & Hsn' & _ & _ & _ & Hfr & Hst'). by apply write_frame_survives.
Qed.

Lemma wp_utp_read_drained_ok n m c y :
  sock_ok n m (mkSt c y) -> state c <> CS_UNINITIALIZED ->
  wp F utp_read_drained (fun _ s' => survives n m (mkSt c y) s') (mkSt c y).
Proof.
  intros Hs Hst. unfold utp_read_drained. wp_steps.
  apply wp_assert; [intros _|intros Hf%negb_false_iff%bool_decide_eq_true; done]. wp_steps.
  apply wp_get_rcv_window. intros w y1 H1. wp_steps.
  assert (V1 : survives n m (mkSt c y) (mkSt c y1))
    by (apply survives_upd; try done; by eapply sys_next_kept).
  apply wp_when; intros _; [|done]. apply wp_if; intros _.
  - eapply wp_mono; [apply (wp_send_ack_ok n m), V1|]. intros x s' V2. by eapply survives_trans.
  - wp_steps. unfold utp_call_get_milliseconds. apply (wp_call F quiet); [done|].
    intros t y2 H2 _. cbn [put_sys HasSys_St me st_sys] in *. wp_steps.
    set (y3 := y2 <| ctx ::= _ |>). pose proof (sys_kept_ms _ _ _ t H2) as K3. fold y3 in K3.
    assert (V3 : survives n m (mkSt c y1) (mkSt c y3)) by (apply survives_upd; try done; apply V1).
    apply (wp_schedule F any); [apply (su_ok _ _ _ _ V3)|]. intros y4 i H4 _ _.
    cbn [put_sys HasSys_St me st_sys] in *. do 2 (eapply survives_trans; [eassumption|]).
    apply survives_upd; try done; [by eapply sys_next_kept|apply V3].
Qed.

(** the FIN is queued once; there is room for it *)
Lemma wp_send_fin_ok n m c y :
  sock_ok n m (mkSt c y) -> 1 <= n < 2147483647 -> state c <> CS_SYN_SENT -> fin_sent c = false ->
  wp F send_fin (fun _ s' => survives n m (mkSt c y) s') (mkSt c y).
Proof.
  intros Hs Hn Hst Hf. unfold send_fin. wp_steps. set (c1 := c <| fin_sent := true |>).
  pose proof (sk_room _ _ _ Hs Hf) as Hr. cbn [me] in Hr.
  assert (V1 : survives n m (mkSt c y) (mkSt c1 y))
    by (apply survives_upd; by destruct c).
  pose proof (su_ok _ _ _ _ V1) as [[C1 C2 C3 C4] Q2 Q3 Q4 Q5 Q6 Q7]. cbn [me st_sys] in *.
  eapply wp_mono.
  - apply (wp_write_outgoing_packet F n); try done; try lia; try by right.
    replace (sq c1) with (sq c) by by destruct c. lia.
  - intros iov' s' [_ Hwr]. wp_steps. eapply survives_trans; [exact V1|].
    destruct Hwr as [(q & r & w & mm & t & Ew) _ _ Wq Wm _ Wc Wy Wf _ _ _ _]. cbn [me st_sys] in *.
    assert (Es : this (me s') = this c1 /\ addr (me s') = addr c1 /\
      conn_id_recv (me s') = conn_id_recv c1 /\ rq (me s') = rq c1 /\ dl (me s') = dl c1 /\
      state (me s') = state c1 /\ fin_sent (me s') = true) by (rewrite Ew; by destruct c).
    destruct Es as (E1 & E2 & E3 & E4 & E5 & E6 & E7).
    split; cbn [me st_sys]; try done; [|by eapply sys_next_kept].
    split; rewrite ?E4, ?E5, ?E6, ?E7; try done.
    split; rewrite ?E1; auto. by eapply sys_next_ok.
Qed.

Lemma connected_not_syn s : connected s = true -> s <> CS_SYN_SENT.
Proof. by intros H ->. Qed.

Lemma wp_shorten_timeout_ok n m c y :
  sock_ok n m (mkSt c y) ->
  wp F shorten_timeout (fun _ s' => survives n m (mkSt c y) s' /\ state (me s') = state c) (mkSt c y).
Proof.
  intros Hs. unfold shorten_timeout, utp_call_get_milliseconds. wp_steps.
  apply (wp_call F quiet); [done|]. intros t y1 H1 _. cbn [put_sys HasSys_St me st_sys] in *. wp_steps.
  split; [|by destruct c]. apply survives_upd; try (by destruct c). by eapply sys_next_kept.
Qed.

Lemma survives_shutdown n m c y :
  sock_ok n m (mkSt c y) ->
  survives n m (mkSt c y) (mkSt (c <| rq ::= fun q => q <| read_shutdown := true |> |>) y).
Proof.
  intros [[C1 C2 C3 C4] [R1 R2 R3 R4 R5] Q3 Q4 Q5 Q6 Q7]. cbn [me st_sys] in *.
  split; try (by destruct c). destruct c, rq. cbn in *. split; cbn; try done.
  - split; try done. intros Hg. destruct (R5 Hg) as (D & i & R & k & Hb & Hk).
    exists D, i, R, k. split; [|done]. by eapply buffered_same; [..|exact Hb].
  - intros Hst. by destruct (Q4 Hst).
Qed.

Lemma wp_utp_close_ok n m c y :
  sock_ok n m (mkSt c y) -> 1 <= n < 2147483647 -> closable (state c) = true ->
  wp F utp_close (fun _ s' => survives n m (mkSt c y) s') (mkSt c y).
Proof.
  intros Hs Hn Hc. unfold utp_close. wp_steps. apply wp_assert; [intros _|congruence].
  apply wp_if; intros Hcon.
  - wp_steps. set (c1 := _ <| close_requested := true |>).
    assert (V1 : survives n m (mkSt c y) (mkSt c1 y)).
    { pose proof (survives_shutdown n m c y Hs) as V0. eapply survives_trans; [exact V0|].
      apply survives_upd; try (by destruct c). apply V0. }
    assert (Ef : fin_sent c1 = fin_sent c /\ state c1 = state c) by by destruct c.
    destruct Ef as [Ef Est]. apply wp_if; intros Hf.
    + eapply wp_mono.
      * apply (wp_send_fin_ok n m); [apply V1|done|rewrite Est; by apply connected_not_syn|].
        rewrite Ef. by apply negb_true_iff.
      * intros x s' V2. by eapply survives_trans.
    + apply wp_when; intros _; [|done]. wp_steps. eapply survives_trans; [exact V1|].
      apply survives_state; [done|apply V1].
  - assert (Hend : forall c1 y1, survives n m (mkSt c y) (mkSt c1 y1) ->
      survives n m (mkSt c y) (mkSt (c1 <| state := CS_DESTROY |>) y1)).
    { intros c1 y1 V1. eapply survives_trans; [exact V1|]. apply survives_state; [done|apply V1]. }
    wp_step. apply wp_when; intros _.
    + eapply wp_mono; [by apply (wp_shorten_timeout_ok n m)|]. intros x [c1 y1] [V1 _]. wp_steps.
      by apply Hend.
    + wp_steps. by apply Hend, survives_refl.
Qed.

Lemma wp_utp_shutdown_ok n m how c y :
  sock_ok n m (mkSt c y) -> 1 <= n < 2147483647 -> closable (state c) = true ->
  wp F (utp_shutdown how) (fun _ s' => survives n m (mkSt c y) s') (mkSt c y).
Proof.
  intros Hs Hn Hc. unfold utp_shutdown. wp_steps. apply wp_assert; [intros _|congruence]. wp_step.
  assert (Hrest : forall c1, survives n m (mkSt c y) (mkSt c1 y) -> fin_sent c1 = fin_sent c ->
    state c1 = state c -> wp F (when (negb (how =? SHUT_RD)) (
      if connected (state c) then when (negb (fin_sent c)) send_fin
      else when (is_state (state c) CS_SYN_SENT) shorten_timeout))
      (fun _ s' => survives n m (mkSt c y) s') (mkSt c1 y)).
  { intros c1 V1 Ef Est. apply wp_when; intros _; [|done]. apply wp_if; intros Hcon.
    - apply wp_when; intros Hf; [|done]. eapply wp_mono.
      + apply (wp_send_fin_ok n m); [apply V1|done|rewrite Est; by apply connected_not_syn|].
        rewrite Ef. by apply negb_true_iff.
      + intros x s' V2. by eapply survives_trans.
    - apply wp_when; intros _; [|done].
      eapply wp_mono; [apply (wp_shorten_timeout_ok n m), V1|]. intros x s' [V2 _].
      by eapply survives_trans. }
  apply wp_when; intros _.
  - wp_step. apply Hrest; [by apply survives_shutdown|by destruct c..].
  - by apply Hrest; [apply survives_refl|..].
Qed.

(** ** Packets that end a connection, ICMP *)
Lemma close_on_error_not_syn c : close_on_error c <> CS_SYN_SENT.
Proof. unfold close_on_error. by case_match. Qed.

Lemma wp_incoming_overhead_ok n m bytes type s0 c y :
  survives n m s0 (mkSt c y) ->
  wp F (incoming_overhead bytes type) (fun _ s' => survives n m s0 s') (mkSt c y).
Proof.
  intros H0. unfold incoming_overhead. wp_steps. apply wp_get_udp_overhead. intros v y1 H1 _. wp_steps.
  apply wp_notify_ok; [done|]. eapply survives_trans; [exact H0|].
  apply survives_upd; try done; [by eapply sys_next_kept|apply H0].
Qed.

Lemma wp_handle_reset_ok n m len c y :
  sock_ok n m (mkSt c y) ->
  wp F (handle_reset len) (fun _ s' => survives n m (mkSt c y) s') (mkSt c y).
Proof.
  intros Hs. unfold handle_reset. wp_steps.
  pose proof (survives_state n m c y _ (close_on_error_not_syn c) Hs) as V1.
  eapply wp_mono; [by apply wp_incoming_overhead_ok|]. intros x [c2 y2] V2. wp_steps.
  by apply wp_notify_ok.
Qed.

Lemma wp_icmp_error_ok n m c y :
  sock_ok n m (mkSt c y) ->
  wp F icmp_error (fun _ s' => survives n m (mkSt c y) s') (mkSt c y).
Proof.
  intros Hs. unfold icmp_error. wp_steps. apply wp_if; intros _; [wp_steps; by apply survives_refl|].
  wp_steps. apply wp_notify_ok; [done|]. by apply survives_state, Hs; apply close_on_error_not_syn.
Qed.

Lemma icmp_loose mtu m :
  mtu_ok m -> 576 <= mtu -> mtu_loose (m <| mtu_ceiling := Z.min mtu (mtu_ceiling m) |>) /\
  mtu_loose (m <| mtu_ceiling := u32 (mtu_floor m + mtu_ceiling m) / 2 |>).
Proof. intros [] Hm. destruct m. unfold mtu_loose. cbn in *. word_lia. Qed.

Lemma wp_icmp_fragmentation_ok n m mtu c y :
  sock_ok n m (mkSt c y) ->
  wp F (icmp_fragmentation mtu) (fun _ s' => survives n m (mkSt c y) s') (mkSt c y).
Proof.
  intros Hs. pose proof (cs_mt _ _ (sk_send _ _ _ Hs)) as Hm. cbn [me] in Hm.
  unfold icmp_fragmentation. apply wp_if; intros Hb.
  - apply andb_true_iff in Hb as [Hb%Z.leb_le _]. do 3 wp_step. eapply wp_mono.
    { exact (wp_search_steady F _ c y _ (steady_refl _) (proj1 (icmp_loose mtu _ Hm Hb))). }
    intros x [c1 y1] S1. wp_steps. pose proof (steady_survives n m _ _ S1 Hs) as V1.
    eapply survives_trans; [exact V1|]. apply (steady_survives n m); [|apply V1].
    split; cbn [me st_sys]; try by destruct c1.
    + intros []. destruct c1, mt. cbn in *. split; cbn; (done || lia).
    + apply sys_next_refl.
  - do 2 wp_step. eapply wp_mono.
    { exact (wp_search_steady F _ c y _ (steady_refl _) (proj2 (icmp_loose 576 _ Hm ltac:(done)))). }
    intros x s' S1. by apply (steady_survives n m).
Qed.
End Wp.
