(* ===== verification/World.v ===== *)
(** * The invariant of the whole program

    What holds of the context, its table of sockets and all the socket objects
    between two calls of the library (src/utp_internal.cpp): every registered
    socket satisfies the invariant of IncomingSafe.v, the table holds exactly the
    registered sockets, each under its address and receive id, the list of due
    acknowledgements names live objects only, and the pointer to the last socket
    used does not dangle. *)
From S2P Require Import Prelude Wrap Packet Ring Delay DelayAvg Arrays SockAddr Hash HashMap Context AckList.
From S2P Require Import Socket Frame MtuSearch Send SendQueue Reorder Ack Incoming Timeouts Api.
From S2P Require Import AckQueue Receive RecvInv IncomingSafe SockOps.

(** the key a socket is registered under *)
Definition sock_key (c : UTPSocket) : UTPSocketKey := mkKey (addr c) (conn_id_recv c).

(** a socket that was created and not yet opened *)
Record blank (c : UTPSocket) : Prop := {
  bk_state : state c = CS_UNINITIALIZED;
  bk_sq : sq_ok 1 (sq c);
  bk_count : cur_window_packets (sq c) = 0;
  bk_rq : rq_safe (rq c);
  bk_fresh : rq_fresh (rq c);
  bk_exts : length (extensions (rq c)) = 8%nat;
  bk_avg : avg_ok (avg (dl c));
  bk_samples : current_delay_samples (avg (dl c)) = 0;
  bk_fin : fin_sent c = false;
  bk_probe : mtu_probe_seq (mt c) = 0 /\ mtu_probe_size (mt c) = 0;
}.

(** the context's own part *)
Record sys_good (y : Sys) : Prop := {
  sg_acks : exists l, ack_ok l y;
  sg_size : Z.of_nat (size (idas y)) + 1 < INT_MAX;
  sg_mtu : has_callback (ctx y) UTP_GET_UDP_MTU = true;
  sg_wire : Forall polite (trace y);
}.

Lemma sys_good_ok p y : sys_good y -> is_Some (idas y !! p) -> sys_ok p y.
Proof. by intros []. Qed.

Lemma traced_polite y y' : traced polite y y' -> Forall polite (trace y) -> Forall polite (trace y').
Proof. intros (rs & -> & Hrs) Hw. by apply Forall_app. Qed.

Lemma sys_kept_good y y' : sys_kept y y' -> sys_good y -> sys_good y'.
Proof.
  intros [W D T C _ _ K] [Hl Hs Hm Hw]. split; [by apply K| | |by eapply traced_polite].
  - rewrite <- size_dom, D, size_dom. done.
  - unfold has_callback. by rewrite C.
Qed.

(** [R] is the set of registered sockets; [n] bounds the transmissions of a
    packet, socket by socket, and [m] the delay samples. *)
Record world_inv (n : ptr -> Z) (m : Z) (R : gset ptr) (w : World) : Prop := {
  wi_sys : sys_good (w_sys w);
  wi_dom : dom (heap w) = dom (idas (w_sys w));
  wi_this : forall p c, heap w !! p = Some c -> this c = p;
  wi_reg : forall p c, heap w !! p = Some c -> p ∈ R -> sock_ok (n p) m (mkSt c (w_sys w));
  wi_blank : forall p c, heap w !! p = Some c -> p ∉ R -> blank c;
  wi_live : R ⊆ dom (heap w);
  wi_table : table_full key_hash (utp_sockets (ctx (w_sys w)));
  wi_buckets : N (utp_sockets (ctx (w_sys w))) < LIBUTP_HASH_UNUSED;
  wi_get : forall k p, socket_lookup (utp_sockets (ctx (w_sys w))) k = Some p <->
    p ∈ R /\ exists c, heap w !! p = Some c /\ sock_key c = k;
  wi_count : count (utp_sockets (ctx (w_sys w))) = Z.of_nat (size R);
  wi_last : last_utp_socket (ctx (w_sys w)) = NULL \/ last_utp_socket (ctx (w_sys w)) ∈ R;
  wi_rst : exists l, arr_rep (rst_info (ctx (w_sys w))) l /\ Z.of_nat (length l) <= RST_INFO_LIMIT + 1;
}.

(** ** Consequences *)
Section Facts.
Context {n : ptr -> Z} {m : Z} {R : gset ptr} {w : World} (Hw : world_inv n m R w).

Lemma reg_sock p : p ∈ R -> exists c, heap w !! p = Some c /\ this c = p /\ sock_ok (n p) m (mkSt c (w_sys w)).
Proof.
  intros Hp. pose proof (wi_live _ _ _ _ Hw p Hp) as [c Hc]%elem_of_dom. exists c.
  split; [done|]. split; [by apply (wi_this _ _ _ _ Hw)|by apply (wi_reg _ _ _ _ Hw)].
Qed.

Lemma lookup_reg k p : socket_lookup (utp_sockets (ctx (w_sys w))) k = Some p -> p ∈ R.
Proof. by intros [? _]%(wi_get _ _ _ _ Hw). Qed.

Lemma reg_lookup p c :
  p ∈ R -> heap w !! p = Some c ->
  socket_lookup (utp_sockets (ctx (w_sys w))) (sock_key c) = Some p.
Proof. intros Hp Hc. apply (wi_get _ _ _ _ Hw). eauto. Qed.

Lemma live_sys p : is_Some (heap w !! p) -> sys_ok p (w_sys w).
Proof.
  intros Hp. apply sys_good_ok; [apply Hw|]. apply elem_of_dom. rewrite <- (wi_dom _ _ _ _ Hw).
  by apply elem_of_dom.
Qed.

(** there are no more registered sockets than an int can count *)
Lemma reg_size : Z.of_nat (size R) + 1 < INT_MAX.
Proof.
  pose proof (sg_size _ (wi_sys _ _ _ _ Hw)).
  pose proof (subseteq_size _ _ (wi_live _ _ _ _ Hw)) as Hs.
  rewrite (wi_dom _ _ _ _ Hw), size_dom in Hs. lia.
Qed.

(** more may be allowed for *)
Lemma world_inv_mono (n' : ptr -> Z) m' :
  (forall p, p ∈ R -> n p <= n' p) -> m <= m' -> world_inv n' m' R w.
Proof.
  intros Hn Hm. destruct Hw. split; try done. intros p c Hc Hp.
  eapply sock_ok_mono; [by apply Hn|done|]. by apply wi_reg0.
Qed.

(** the context changed in no way the sockets depend on *)
Lemma world_inv_sys y' : sys_kept (w_sys w) y' -> world_inv n m R (mkWorld (heap w) y').
Proof.
  intros Hk. pose proof Hk as [_ D T C L S K]. destruct Hw.
  split; cbn [heap w_sys] in *; rewrite ?D, ?T, ?L, ?S; try done; [by eapply sys_kept_good|].
  intros p c Hc Hp. pose proof (wi_reg0 p c Hc Hp) as Hs.
  eapply sock_ok_sys; [|exact Hs]. eapply sys_kept_ok; [exact Hk|]. apply (sk_send _ _ _ Hs).
Qed.

(** a registered socket ran *)
Lemma world_inv_ran p c s' k m' :
  heap w !! p = Some c -> p ∈ R -> survives k m' (mkSt c (w_sys w)) s' -> m <= m' ->
  world_inv (fun q => if decide (q = p) then k else n q) m' R
    (mkWorld (<[p := me s']> (heap w)) (st_sys s')).
Proof.
  intros Hc Hp [Hs Ht Ha Hi Hy] Hm. cbn [me st_sys] in *.
  destruct (world_inv_sys (st_sys s') Hy) as [V1 V2 V3 V4 V5 V6 V7 V8 V9 V10 V11 V12].
  cbn [heap w_sys] in *.
  assert (Ek : sock_key (me s') = sock_key c) by (unfold sock_key; by rewrite Ha, Hi).
  split; cbn [heap w_sys]; try done.
  - rewrite dom_insert_L, <- V2. apply subseteq_union_1_L, singleton_subseteq_l.
    by apply elem_of_dom_2 in Hc.
  - intros q x. rewrite lookup_insert_Some. intros [[<- <-]|[_ Hx]]; [|by apply V3].
    rewrite Ht. by apply V3.
  - intros q x. rewrite lookup_insert_Some. intros [[<- <-]|[Hq Hx]] Hr.
    + rewrite decide_True by done. by destruct s'.
    + rewrite decide_False by done. eapply sock_ok_mono; [done|exact Hm|]. by apply V4.
  - intros q x. rewrite lookup_insert_Some. intros [[<- <-]|[_ Hx]] Hr; [done|by apply (V5 q)].
  - rewrite dom_insert_L. by apply union_subseteq_r'.
  - intros key q. rewrite V9. split; intros [Hq (x & Hx & Hkey)]; (split; [done|]).
    + destruct (decide (q = p)) as [->|Hne].
      * exists (me s'). rewrite lookup_insert_eq. rewrite Ek. by simplify_eq.
      * exists x. by rewrite lookup_insert_ne.
    + destruct (decide (q = p)) as [->|Hne].
      * rewrite lookup_insert_eq in Hx. injection Hx as <-. exists c. by rewrite <- Ek.
      * rewrite lookup_insert_ne in Hx by done. by exists x.
Qed.

(** a socket that is not registered changed, and is still blank *)
Lemma world_inv_blank p c c' :
  heap w !! p = Some c -> p ∉ R -> this c' = this c -> blank c' ->
  world_inv n m R (mkWorld (<[p := c']> (heap w)) (w_sys w)).
Proof.
  intros Hc Hp Ht Hb. destruct Hw as [V1 V2 V3 V4 V5 V6 V7 V8 V9 V10 V11 V12].
  split; cbn [heap w_sys]; try done.
  - rewrite dom_insert_L, <- V2. apply subseteq_union_1_L, singleton_subseteq_l. by apply elem_of_dom_2 in Hc.
  - intros q x. rewrite lookup_insert_Some. intros [[<- <-]|[_ Hx]]; [|by apply V3].
    rewrite Ht. by apply V3.
  - intros q x. rewrite lookup_insert_Some. intros [[<- <-]|[_ Hx]] Hr; [done|by apply V4].
  - intros q x. rewrite lookup_insert_Some. intros [[<- <-]|[_ Hx]] Hr; [done|by apply (V5 q)].
  - rewrite dom_insert_L. by apply union_subseteq_r'.
  - intros key q. rewrite V9. split; intros [Hq (x & Hx & Hkey)]; (split; [done|]); exists x.
    + rewrite lookup_insert_ne; [done|]. by intros ->.
    + rewrite lookup_insert_ne in Hx; [done|]. by intros ->.
Qed.
End Facts.

(** ** Running a method *)
Section Wp.
Context {E : Env} (F : fault -> Prop).

Lemma wp_on_socket {A} p c (mm : M St A) (Q : A -> World -> Prop) w :
  heap w !! p = Some c ->
  wp F mm (fun a s' => Q a (mkWorld (<[p := me s']> (heap w)) (st_sys s'))) (mkSt c (w_sys w)) ->
  wp F (on_socket p mm) Q w.
Proof. intros Hc H. unfold wp, on_socket in *. rewrite Hc. by destruct (mm _). Qed.

Lemma wp_read_socket {A} p c (f : UTPSocket -> A) (Q : A -> World -> Prop) w :
  heap w !! p = Some c -> Q (f c) w -> wp F (read_socket p f) Q w.
Proof.
  intros Hc H. apply (wp_on_socket p c); [done|]. apply wp_gets. cbn [me st_sys].
  rewrite insert_id by done. by destruct w.
Qed.

(** a call of the application *)
Lemma wp_world_call n m R name r (Q : Z -> World -> Prop) w :
  polite r -> world_inv n m R w ->
  (forall v y', world_inv n m R (mkWorld (heap w) y') -> is_u64 v -> sys_kept (w_sys w) y' ->
     Q v (mkWorld (heap w) y')) ->
  wp F (call name r) Q w.
Proof.
  intros Hr Hw H. apply (wp_call F any); [done|]. intros v y' Hy Hv. cbn [put_sys HasSys_World].
  apply sys_next_kept in Hy. apply H; [|done|done]. by eapply world_inv_sys.
Qed.

(** the socket a method is run on survives *)
Lemma wp_run n m R {A} p (mm : M St A) k m' (Q : A -> World -> Prop) w :
  world_inv n m R w -> p ∈ R -> m <= m' ->
  (forall c, heap w !! p = Some c -> sock_ok (n p) m (mkSt c (w_sys w)) ->
     wp F mm (fun a s' => survives k m' (mkSt c (w_sys w)) s' /\
       (world_inv (fun q => if decide (q = p) then k else n q) m' R
          (mkWorld (<[p := me s']> (heap w)) (st_sys s')) ->
        Q a (mkWorld (<[p := me s']> (heap w)) (st_sys s')))) (mkSt c (w_sys w))) ->
  wp F (on_socket p mm) Q w.
Proof.
  intros Hw Hp Hm H. destruct (reg_sock Hw p Hp) as (c & Hc & _ & Hs).
  apply (wp_on_socket p c); [done|]. eapply wp_mono; [by apply H|].
  intros a s' [Hv HQ]. apply HQ. by eapply world_inv_ran.
Qed.
End Wp.
