(* ===== verification/WorldOps.v ===== *)
(** * The public functions keep the program's invariant

    Each entry point of src/utp_internal.cpp from a state in which [world_inv]
    holds: none of its assertions fails but those named by [incoming_fault], it
    touches live objects only, and the invariant holds when it returns. *)
From S2P Require Import Prelude Wrap Packet Ring Delay DelayAvg Arrays SockAddr Hash HashMap Context AckList.
From S2P Require Import Socket Frame MtuSearch Send SendQueue SendInv Reorder Ack Incoming Timeouts Api.
From S2P Require Import AckQueue Receive RecvInv IncomingSafe SockOps World.

(** A call starts with no packet sent more than [max_sent] times and no more
    than [max_samples] delay samples in the current five seconds, and ends with
    at most [slack] more. *)
Definition slack : Z := 8.
Definition max_sent : Z := 2147483647 - 2 * slack.
Definition max_samples : Z := INT_MAX - slack.

Definition before (R : gset ptr) (w : World) : Prop := world_inv (fun _ => max_sent) max_samples R w.
Definition after (R : gset ptr) (w : World) : Prop :=
  world_inv (fun _ => max_sent + slack) (max_samples + slack) R w.

Lemma before_after R w : before R w -> after R w.
Proof. intros Hw. eapply world_inv_mono; [exact Hw|..]; unfold slack; intros; lia. Qed.

(** changes of the context that concern the resets sent and the last socket *)
Lemma world_inv_ctx n m R w f :
  world_inv n m R w ->
  (forall c, ack_sockets (f c) = ack_sockets c /\ callbacks (f c) = callbacks c /\
             utp_sockets (f c) = utp_sockets c) ->
  (let x := f (ctx (w_sys w)) in
   (last_utp_socket x = NULL \/ last_utp_socket x ∈ R) /\
   exists l, arr_rep (rst_info x) l /\ Z.of_nat (length l) <= RST_INFO_LIMIT + 1) ->
  world_inv n m R (mkWorld (heap w) ((w_sys w) <| ctx ::= f |>)).
Proof.
  intros Hw Hf [Hlast Hrst]. pose proof Hw as [V1 V2 V3 V4 V5 V6 V7 V8 V9 V10 V11 V12].
  destruct (Hf (ctx (w_sys w))) as (Ea & Ec & Et).
  assert (Eids : idas ((w_sys w) <| ctx ::= f |>) = idas (w_sys w)) by by destruct (w_sys w).
  assert (Ectx : ctx ((w_sys w) <| ctx ::= f |>) = f (ctx (w_sys w))) by by destruct (w_sys w).
  assert (Hok : forall p, sys_ok p (w_sys w) -> sys_ok p ((w_sys w) <| ctx ::= f |>)).
  { intros p. apply sys_ok_ctx. intros c. destruct (Hf c) as (? & ? & _). done. }
  split; cbn [heap w_sys]; rewrite ?Eids, ?Ectx, ?Et; try done.
  - destruct V1 as [[l Hl] Hs Hm Hwt]. split; [|by rewrite Eids| |by destruct (w_sys w)].
    + exists l. destruct (w_sys w) as [c ids tr]. exact (ack_ok_other l (mkSys c ids tr) (f c) tr Ea Hl).
    + rewrite Ectx. unfold has_callback. by rewrite Ec.
  - intros p c Hc Hp. pose proof (V4 p c Hc Hp) as Hs. eapply sock_ok_sys; [|exact Hs].
    apply Hok, (sk_send _ _ _ Hs).
Qed.

Section Wp.
Context {E : Env} {HA : GoodApp} (F : fault -> Prop).
Context (HF : forall f, incoming_fault f -> F f).

(** ** Methods of registered sockets *)
Lemma wp_method R p {A} (mm : M St A) w :
  before R w -> p ∈ R ->
  (forall c y, heap w !! p = Some c -> sock_ok max_sent max_samples (mkSt c y) ->
     wp F mm (fun _ s' => survives (max_sent + slack) (max_samples + slack) (mkSt c y) s') (mkSt c y)) ->
  wp F (on_socket p mm) (fun _ w' => after R w') w.
Proof.
  intros Hw Hp H. eapply (wp_run F _ _ R p mm (max_sent + slack) (max_samples + slack)); [exact Hw|exact Hp|done|]. intros c Hc Hs.
  eapply wp_mono; [by apply H|]. intros a s' Hv. split; [exact Hv|]. intros Hi.
  eapply world_inv_mono; [exact Hi| |done]. intros q _. cbn beta. unfold slack.
  case_decide; lia.
Qed.

Lemma survives_less n m s s' :
  n <= max_sent + slack -> m <= max_samples + slack -> survives n m s s' ->
  survives (max_sent + slack) (max_samples + slack) s s'.
Proof. intros. by eapply survives_mono. Qed.

Lemma max_sent_range : 1 <= max_sent /\ max_sent + slack < 2147483647.
Proof. done. Qed.

(** a packet for a known socket *)
Lemma wp_process_connected_ok R p buffer w :
  before R w -> p ∈ R -> Forall is_u8 buffer ->
  sizeof_PacketFormatV1 <= Z.of_nat (length buffer) < 2147483648 ->
  (forall pf, decode_header buffer = Some pf -> pf_type pf <> ST_RESET) ->
  wp F (process_connected p buffer) (fun _ w' => after R w') w.
Proof.
  intros Hw Hp Hb Hl Hr. unfold process_connected. apply (wp_method R); [done..|].
  intros c y _ Hs. wp_step. eapply wp_mono.
  { apply (wp_incoming_any F HF max_sent max_samples); done. }
  intros r [c1 y1] (pf & _ & Hpr & _). apply processed_survives in Hpr.
  eapply wp_mono; [by apply (wp_incoming_overhead_ok F)|]. intros x s' Hv.
  eapply survives_less; [| |exact Hv]; done.
Qed.

(** ** Finding the socket of a packet *)
Lemma wp_find_socket n m R k (Q : option ptr -> World -> Prop) w :
  world_inv n m R w ->
  (socket_lookup (utp_sockets (ctx (w_sys w))) k = None -> Q None w) -> (forall p c, p ∈ R -> heap w !! p = Some c -> sock_key c = k -> Q (Some p) w) ->
  wp F (find_socket k) Q w.
Proof.
  intros Hw H0 H1. unfold find_socket. apply wp_bind, wp_gets, wp_ret. cbn [sys HasSys_World].
  destruct (socket_lookup _ k) as [p|] eqn:Ep; [|by apply H0].
  apply (wi_get _ _ _ _ Hw) in Ep as (Hp & c & Hc & Hk). by eapply H1.
Qed.

Lemma wp_find_by_send_id n m R a rid id (Q : option ptr -> World -> Prop) w :
  world_inv n m R w -> Q None w ->
  (forall p c, p ∈ R -> heap w !! p = Some c -> Q (Some p) w) ->
  wp F (find_by_send_id a rid id) Q w.
Proof.
  intros Hw H0 H1. unfold find_by_send_id. apply wp_bind, (wp_find_socket n m R); [done|intros _; by apply wp_ret|].
  intros p c Hp Hc _. apply wp_bind, (wp_read_socket F p c); [done|]. apply wp_ret.
  destruct (_ =? id); [by eapply H1|done].
Qed.

Lemma wp_find_by_either_id n m R a id (Q : option ptr -> World -> Prop) w :
  world_inv n m R w -> Q None w ->
  (forall p c, p ∈ R -> heap w !! p = Some c -> Q (Some p) w) ->
  wp F (find_by_either_id a id) Q w.
Proof.
  intros Hw H0 H1. unfold find_by_either_id. apply wp_bind, (wp_find_socket n m R); [done|intros _|].
  - apply wp_bind, (wp_find_by_send_id n m R); [done| |].
    + by apply (wp_find_by_send_id n m R).
    + intros p c Hp Hc. apply wp_ret. by eapply H1.
  - intros p c Hp Hc _. apply wp_ret. by eapply H1.
Qed.

(** the socket used last is reused; a socket looked up becomes that one *)
Lemma wp_find_connection n m R a id (Q : option ptr -> World -> Prop) w :
  world_inv n m R w -> Q None w ->
  (forall p w', world_inv n m R w' -> heap w' = heap w -> p ∈ R -> Q (Some p) w') ->
  wp F (find_connection a id) Q w.
Proof.
  intros Hw H0 H1. unfold find_connection. apply wp_bind, wp_gets. cbn [sys HasSys_World].
  set (last := last_utp_socket (ctx (w_sys w))).
  assert (Hrest : wp F (o ← find_socket (mkKey a id);
    match o with
    | None => mret None
    | Some p => mod_ctx (fun x => x <| last_utp_socket := p |>) ;; mret (Some p)
    end) Q w).
  { apply wp_bind, (wp_find_socket n m R); [done|intros _; by apply wp_ret|]. intros p c Hp Hc _.
    apply wp_bind, wp_modify, wp_ret. cbn [sys put_sys HasSys_World]. apply H1; [|done|done].
    apply (world_inv_ctx n m R w); [done|by intros []|]. cbn zeta. split.
    - right. by destruct (ctx (w_sys w)).
    - destruct (wi_rst _ _ _ _ Hw) as (l & Hl & Hle). exists l. split; [|done].
      by destruct (ctx (w_sys w)). }
  apply wp_bind. destruct (Z.eqb_spec last NULL) as [|Hne]; [apply wp_ret, Hrest|].
  destruct (wi_last _ _ _ _ Hw) as [Hn|Hp]; [done|]. fold last in Hp.
  destruct (reg_sock Hw last Hp) as (c & Hc & _ & _).
  apply wp_bind, (wp_read_socket F last c); [done|]. apply wp_ret. apply wp_if; intros _; [|done].
  apply wp_ret. by apply H1.
Qed.

(** ** Packets for nobody *)
Lemma rst_find_bound fuel i a id seq arr k :
  0 <= i -> rst_find fuel i a id seq arr = Some k -> i <= k < i + Z.of_nat fuel.
Proof.
  revert i. induction fuel as [|fuel IH]; intros i Hi; [done|]. cbn [rst_find].
  destruct (arr_at arr i); [|done]. case_match; [by intros [= <-]; lia|]. intros Hk%IH; lia.
Qed.

Lemma wp_reject_unknown_ok n m R a id seq w :
  world_inv n m R w ->
  wp F (reject_unknown a id seq) (fun _ w' => world_inv n m R w') w.
Proof.
  intros Hw. unfold reject_unknown, utp_call_get_milliseconds. apply wp_bind.
  apply (wp_world_call F n m R); [done|done|]. intros t y1 Hw1 _ _. apply wp_bind, wp_modify.
  cbn [sys put_sys HasSys_World]. set (w2 := mkWorld _ _).
  assert (Hw2 : world_inv n m R w2).
  { eapply (world_inv_sys Hw1), sys_kept_ctx. by intros []. }
  clearbody w2. clear Hw1 Hw y1 w. apply wp_bind, wp_gets. cbn [sys HasSys_World].
  destruct (wi_rst _ _ _ _ Hw2) as (l & Hl & Hle).
  pose proof (arr_rep_count _ _ Hl) as Hcnt.
  assert (Hmod : forall f l', arr_rep (f (rst_info (ctx (w_sys w2)))) l' ->
    Z.of_nat (length l') <= RST_INFO_LIMIT + 1 -> forall (Q : unit -> World -> Prop),
    (forall w', world_inv n m R w' -> Q tt w') -> wp F (mod_rst f) Q w2).
  { intros f l' Hl' Hle' Q HQ. apply wp_modify, HQ. cbn [sys put_sys HasSys_World].
    apply (world_inv_ctx n m R w2); [done|by intros []|]. cbn zeta. split.
    - pose proof (wi_last _ _ _ _ Hw2). by destruct (ctx (w_sys w2)).
    - exists l'. split; [|done]. by destruct (ctx (w_sys w2)). }
  destruct (rst_find _ _ _ _ _ _) as [k|] eqn:Ek.
  - apply rst_find_bound in Ek; [|done]. unfold GetCount in Ek. rewrite Hcnt in Ek.
    destruct (lookup_lt_is_Some_2 l (Z.to_nat k)) as [r Hr]; [lia|].
    pose proof (arr_rep_at _ _ k r Hl ltac:(lia) Hr) as Hat.
    eapply (Hmod _ (<[Z.to_nat k := r <| ri_timestamp := t |>]> l)); [|by rewrite length_insert|done].
    rewrite Hat. apply arr_rep_put; [done|lia].
  - apply wp_when; intros Hc; [|done]. apply negb_true_iff, Z.ltb_ge in Hc.
    unfold GetCount in Hc. rewrite Hcnt in Hc. apply wp_bind.
    eapply Hmod; [apply Append_rep, Hl|rewrite length_app; cbn; lia|]. intros w3 Hw3.
    unfold utp_call_get_random. apply wp_bind, wp_bind, (wp_world_call F n m R); [done|done|].
    intros v y4 Hw4 _ _. apply wp_ret. unfold send_rst. apply wp_send_anywhere; [apply rst_wire|]. intros y5 Hy5.
    cbn [sys put_sys HasSys_World] in *. eapply (world_inv_sys Hw4). by eapply sys_next_kept.
Qed.
End Wp.
