(* ===== verification/WorldOpen.v ===== *)
(** * Opening sockets

    utp_create_socket, utp_initialize_socket, utp_connect and the acceptance of a
    SYN (src/utp_internal.cpp): a socket is registered under a key that was free,
    and satisfies the invariant of sockets from then on. *)
From S2P Require Import Prelude Wrap Packet Ring Delay DelayAvg Arrays SockAddr Hash HashMap Context AckList.
From S2P Require Import Socket Frame MtuSearch Send SendQueue SendInv Reorder Ack Incoming Timeouts Api.
From S2P Require Import AckQueue AckStages Receive RecvInv IncomingSafe SockOps World WorldOps.

(** the context after [p] was registered under [k] *)
Record sys_opened (k : UTPSocketKey) (p : ptr) (y y' : Sys) : Prop := {
  op_dom : dom (idas y') = dom (idas y);
  op_cb : callbacks (ctx y') = callbacks (ctx y);
  op_last : last_utp_socket (ctx y') = last_utp_socket (ctx y);
  op_rst : rst_info (ctx y') = rst_info (ctx y);
  op_ack : (exists l, ack_ok l y) -> exists l, ack_ok l y';
  op_free : socket_lookup (utp_sockets (ctx y)) k = None;
  op_table : table_full key_hash (utp_sockets (ctx y'));
  op_buckets : N (utp_sockets (ctx y')) = N (utp_sockets (ctx y));
  op_count : count (utp_sockets (ctx y')) = count (utp_sockets (ctx y)) + 1;
  op_get : forall k', socket_lookup (utp_sockets (ctx y')) k'
    = if decide (k' = k) then Some p else socket_lookup (utp_sockets (ctx y)) k';
  op_trace : traced polite y y';
}.

Lemma kept_opened k p y1 y2 y3 : sys_kept y1 y2 -> sys_opened k p y2 y3 -> sys_opened k p y1 y3.
Proof.
  intros [W D T C L S K] [O1 O2 O3 O4 O5 O6 O7 O8 O9 O10 O11]. rewrite T in *.
  split; try done; try congruence; [auto|by eapply traced_trans].
Qed.

Lemma opened_kept k p y1 y2 y3 : sys_opened k p y1 y2 -> sys_kept y2 y3 -> sys_opened k p y1 y3.
Proof.
  intros [O1 O2 O3 O4 O5 O6 O7 O8 O9 O10 O11] [W D T C L S K]. rewrite <- T in *.
  split; try done; try congruence; [auto|by eapply traced_trans].
Qed.

Lemma opened_good k p y y' : sys_opened k p y y' -> sys_good y -> sys_good y'.
Proof.
  intros [O1 O2 _ _ O5 _ _ _ _ _ O11] [Hl Hs Hm Hw]. split; [by apply O5| | |by eapply traced_polite].
  - rewrite <- size_dom, O1, size_dom. done.
  - unfold has_callback. by rewrite O2.
Qed.

(** ** New objects *)
Lemma fresh_ptr w : heap w !! new_ptr w = None /\ 0 < new_ptr w.
Proof.
  unfold new_ptr. set (mx := map_fold _ _ _).
  assert (Hmx : 0 <= mx /\ forall p, is_Some (heap w !! p) -> p <= mx).
  { subst mx. apply (map_fold_weak_ind (fun r h => 0 <= r /\ forall p, is_Some (h !! p) -> p <= r)).
    - split; [done|]. by intros p [x ?].
    - intros p c h r Hn [H0 IH]. split; [lia|]. intros q Hq.
      destruct (decide (q = p)) as [->|Hne]; [lia|]. rewrite lookup_insert_ne in Hq by done.
      specialize (IH q Hq). lia. }
  destruct Hmx as [H0 Hle]. split; [|lia].
  destruct (heap w !! (1 + mx)) eqn:Hp; [|done].
  specialize (Hle (1 + mx) (mk_is_Some _ _ Hp)). lia.
Qed.

Lemma ring_init_fresh {A} i : ring_get (A := A) ring_init i = None.
Proof. apply ring_get_init. Qed.

Lemma create_blank x p : blank (utp_create_socket x p).
Proof.
  split; try done.
  - by apply empty_queue_ok.
  - set (c := utp_create_socket x p).
    assert (Hr : ring_wf (inbuf (rq c))) by apply ring_init_wf.
    assert (Hf : rq_fresh (rq c)) by (split; [intros i; apply ring_init_fresh|done]).
    exact (fresh_safe (rq c) 0 Hr eq_refl Hf ltac:(done)).
  - split; [intros i; apply ring_init_fresh|done].
Qed.

(** the state after utp_create_socket *)
Definition created (w : World) : World :=
  mkWorld (<[new_ptr w := utp_create_socket (ctx (w_sys w)) (new_ptr w)]> (heap w))
          ((w_sys w) <| idas ::= <[new_ptr w := -1]> |>).

Lemma create_inv n m R w :
  world_inv n m R w -> Z.of_nat (size (idas (w_sys w))) + 2 < INT_MAX ->
  world_inv n m R (created w) /\ (new_ptr w ∉ R) /\ heap (created w) !! new_ptr w
    = Some (utp_create_socket (ctx (w_sys w)) (new_ptr w)).
Proof.
  intros Hw Hsz. destruct (fresh_ptr w) as [Hn Hpos]. set (p := new_ptr w) in *.
  pose proof Hw as [V1 V2 V3 V4 V5 V6 V7 V8 V9 V10 V11 V12].
  assert (Hid : idas (w_sys w) !! p = None)
    by (apply not_elem_of_dom; rewrite <- V2; by apply not_elem_of_dom).
  assert (Hp : p ∉ R) by (intros Hp%V6%elem_of_dom; by destruct Hp as [x Hx]; rewrite Hn in Hx).
  split; [|split; [done|apply lookup_insert_eq]].
  set (y' := (w_sys w) <| idas ::= <[p := -1]> |>).
  assert (Ei : idas y' = <[p := -1]> (idas (w_sys w)) /\ ctx y' = ctx (w_sys w))
    by by destruct (w_sys w). destruct Ei as [Ei Ec].
  assert (G : sys_good y').
  { destruct V1 as [[l Hl] Hs Hm Hwt].
    split; [|rewrite Ei, map_size_insert_None; [lia|done]|by rewrite Ec|by destruct (w_sys w)].
    exists l. pose proof Hl as [A1 A2 A3 A4 A5]. split; rewrite ?Ei, ?Ec; try done.
    - intros q i. rewrite lookup_insert_Some. intros [[<- <-]|[_ Hq]]; [|by apply A3].
      cbn. intros Hin%A4. by rewrite Hid in Hin; destruct Hin.
    - intros q Hq. apply lookup_insert_is_Some'. right. by apply A4. }
  unfold created. fold p. fold y'. split; cbn [heap w_sys]; rewrite ?Ec; try done.
  - by rewrite Ei, !dom_insert_L, V2.
  - intros q x. rewrite lookup_insert_Some. intros [[<- <-]|[_ Hx]]; [done|by apply V3].
  - intros q x. rewrite lookup_insert_Some. intros [[<- <-]|[_ Hx]] Hq; [done|].
    pose proof (V4 q x Hx Hq) as Hs. eapply sock_ok_sys; [|exact Hs]. apply sys_good_ok; [done|].
    rewrite Ei. apply lookup_insert_is_Some'. right. apply (sk_send _ _ _ Hs).
  - intros q x. rewrite lookup_insert_Some. intros [[<- <-]|[_ Hx]] Hq; [apply create_blank|by apply (V5 q)].
  - rewrite dom_insert_L. by apply union_subseteq_r'.
  - intros k q. rewrite V9. split; intros [Hq (x & Hx & Hk)]; (split; [done|]).
    + exists x. split; [|done]. rewrite lookup_insert_ne; [done|]. by intros ->.
    + rewrite lookup_insert_ne in Hx; [by exists x|]. by intros ->.
Qed.

(** ** A socket that was opened joins the others *)
Lemma world_inv_open n m R w p c s' k :
  world_inv n m R w -> heap w !! p = Some c -> p ∉ R -> this (me s') = p ->
  sock_ok k m s' -> sys_opened (sock_key (me s')) p (w_sys w) (st_sys s') ->
  world_inv (fun q => if decide (q = p) then k else n q) m ({[p]} ∪ R)
    (mkWorld (<[p := me s']> (heap w)) (st_sys s')).
Proof.
  intros Hw Hc Hp Ht Hs Ho. pose proof Hw as [V1 V2 V3 V4 V5 V6 V7 V8 V9 V10 V11 V12].
  pose proof Ho as [O1 O2 O3 O4 O5 O6 O7 O8 O9 O10 _]. pose proof (opened_good _ _ _ _ Ho V1) as G.
  assert (Hne : forall q x, q ∈ R -> heap w !! q = Some x -> q <> p) by (intros q x Hq _ ->; done).
  split; cbn [heap w_sys]; rewrite ?O3, ?O4, ?O8; try done.
  - rewrite dom_insert_L, O1, <- V2. apply subseteq_union_1_L, singleton_subseteq_l.
    by apply elem_of_dom_2 in Hc.
  - intros q x. rewrite lookup_insert_Some. intros [[<- <-]|[_ Hx]]; [done|by apply V3].
  - intros q x. rewrite lookup_insert_Some, elem_of_union, elem_of_singleton.
    intros [[<- <-]|[Hq Hx]] Hr; [rewrite decide_True by done; by destruct s'|].
    destruct Hr as [->|Hr]; [done|]. rewrite decide_False by done.
    pose proof (V4 q x Hx Hr) as Hsq. eapply sock_ok_sys; [|exact Hsq]. apply sys_good_ok; [done|].
    apply elem_of_dom. rewrite O1. apply elem_of_dom. apply (sk_send _ _ _ Hsq).
  - intros q x. rewrite lookup_insert_Some, elem_of_union, elem_of_singleton.
    intros [[<- <-]|[_ Hx]] Hr; [by destruct Hr; left|]. apply (V5 q); [done|]. auto.
  - rewrite dom_insert_L. by apply union_mono_l.
  - intros key q. rewrite O10, elem_of_union, elem_of_singleton. case_decide as Hk.
    + subst key. split.
      * intros [= <-]. split; [by left|]. exists (me s'). by rewrite lookup_insert_eq.
      * intros [[->|Hq] (x & Hx & Hkey)]; [done|]. exfalso. rewrite lookup_insert_ne in Hx
          by (intros <-; done). assert (socket_lookup (utp_sockets (ctx (w_sys w)))
          (sock_key (me s')) = Some q) as E by (apply V9; eauto). congruence.
    + rewrite V9. split; intros [Hq (x & Hx & Hkey)].
      * split; [by right|]. exists x. rewrite lookup_insert_ne; [done|]. intros <-. done.
      * destruct Hq as [->|Hq].
        -- rewrite lookup_insert_eq in Hx. injection Hx as <-. congruence.
        -- split; [done|]. exists x. rewrite lookup_insert_ne in Hx; [done|]. intros <-. done.
  - rewrite O9, V10, size_union, size_singleton by (by apply disjoint_singleton_l). lia.
  - destruct V11 as [->|Hl]; [by left|right]. by apply elem_of_union_r.
Qed.

(** ** utp_initialize_socket *)
Section Wp.
Context {E : Env} {HA : GoodApp} (F : fault -> Prop).

(** a blank socket, once it is opened and before it has a state of its own *)
Record opened (c c' : UTPSocket) (k : UTPSocketKey) : Prop := {
  od_this : this c' = this c;
  od_key : sock_key c' = k;
  od_state : state c' = CS_IDLE;
  od_sq : sq c' = sq c;
  od_rq : rq c' = rq c;
  od_mt : mtu_ok (mt c');
  od_avg : avg_ok (avg (dl c'));
  od_samples : current_delay_samples (avg (dl c')) = 0;
  od_fin : fin_sent c' = false;
}.

Lemma opened_upd c c1 c2 k :
  opened c c1 k -> this c2 = this c1 -> sock_key c2 = sock_key c1 -> state c2 = state c1 ->
  sq c2 = sq c1 -> rq c2 = rq c1 -> mt c2 = mt c1 -> avg (dl c2) = avg (dl c1) ->
  fin_sent c2 = fin_sent c1 -> opened c c2 k.
Proof. intros [] ? ? ? ? ? Em Ea ?. split; rewrite ?Em, ?Ea; congruence. Qed.

(** a blank socket with its first sequence numbers *)
Lemma start_ok n m c c2 y sn a :
  blank c -> 1 <= n -> 0 <= m -> sys_ok (this c2) y -> is_u16 sn -> is_u16 a ->
  sq c2 = (sq c) <| seq_nr := sn |> -> rq c2 = (rq c) <| ack_nr := a |> ->
  mtu_ok (mt c2) -> avg_ok (avg (dl c2)) -> current_delay_samples (avg (dl c2)) = 0 ->
  sock_ok n m (mkSt c2 y).
Proof.
  intros [B1 B2 B3 B4 B5 B6 B7 B8 B9 B10] Hn Hm Hy Hsn Ha Es Er Hmt Hav Hsa.
  pose proof (empty_seq 1 _ sn B2 B3 Hsn) as Hq. rewrite <- Es in Hq.
  pose proof (fresh_safe (rq c) a (rs_ring _ B4) (rs_mask _ B4) B5 Ha) as Hr. rewrite <- Er in Hr.
  assert (Ec : cur_window_packets (sq c2) = 0) by (rewrite Es, <- B3; by destruct (sq c)).
  split; cbn [me st_sys]; try done; try lia.
  - split; cbn [me st_sys]; try done; [by eapply sq_ok_mono|]. intros Hc. lia.
  - rewrite Er. by destruct (rq c).
  - intros _. rewrite Er. destruct B5. by destruct (rq c).
Qed.

(** looking for a free seed *)
Lemma wp_pick_seed a (Q : Z -> St -> Prop) : F OutOfFuel ->
  forall fuel c y,
  (forall seed y', sys_next quiet y y' -> is_u16 seed ->
     socket_lookup (utp_sockets (ctx y)) (mkKey a seed) = None -> Q seed (mkSt c y')) ->
  wp F (pick_seed fuel a) Q (mkSt c y).
Proof.
  intros Hfuel. induction fuel as [|fuel IH]; intros c y H; [exact Hfuel|]. cbn [pick_seed].
  unfold utp_call_get_random. wp_steps. apply (wp_call F quiet); [done|]. intros v y1 H1 _.
  cbn [sys put_sys HasSys_St me st_sys] in *. wp_steps. rewrite (sys_next_table _ _ _ H1).
  set (seed := Z.land (u32 v) 65535).
  assert (Hs : is_u16 seed).
  { unfold seed. change 65535 with (Z.ones 16). rewrite Z.land_ones by lia. apply Z.mod_pos_bound. lia. }
  destruct (socket_lookup _ _) eqn:Hl.
  - apply IH. intros seed' y' H' Hs' Hl'. apply H; [by eapply sys_next_trans|done|].
    by rewrite <- (sys_next_table _ _ _ H1).
  - wp_steps. by apply H.
Qed.

(** the key is stored *)
Lemma wp_register k p (Q : unit -> St -> Prop) c y :
  table_full key_hash (utp_sockets (ctx y)) -> count (utp_sockets (ctx y)) < LIBUTP_HASH_UNUSED ->
  socket_lookup (utp_sockets (ctx y)) k = None ->
  (forall y', sys_opened k p y y' -> Q tt (mkSt c y')) ->
  wp F (register_socket k p) Q (mkSt c y).
Proof.
  intros Ht Hc Hn H. unfold register_socket. wp_steps. unfold socket_insert.
  destruct (table_insert_total key_hash (utp_sockets (ctx y)) k p Ht Hc) as [t' Ei]. rewrite Ei.
  destruct (table_insert_spec key_hash key_eqb key_eqb_eq _ _ k p Ht Hn Ei) as (T1 & T2 & T3).
  pose proof (table_insert_N _ _ _ _ _ Ei) as T4. wp_steps. apply H.
  destruct y as [[] ids tr]. cbn in *. split; cbn; try done; [|by exists []].
  intros [l Hl]. exists l. by refine (ack_ok_other l _ _ tr _ Hl).
Qed.

Lemma reset_mtu_ok u m t :
  mtu_probe_seq m = 0 /\ mtu_probe_size m = 0 -> is_u16 u -> 21 <= u ->
  let m' := (reset_range u m) <| mtu_discover_time := t |> in
  mtu_ok (m' <| mtu_last := mtu_ceiling m' |>).
Proof.
  intros [H1 H2] Hu Hmin. unfold reset_range, MTU_FLOOR_MIN, is_u16 in *. destruct m. cbn in *.
  destruct (Z.ltb_spec u 576); split; cbn; lia.
Qed.

Lemma wp_initialize tries sa (gen : bool) seed rid sid (Q : unit -> St -> Prop) c y :
  blank c -> sys_good y -> is_Some (idas y !! this c) ->
  table_full key_hash (utp_sockets (ctx y)) -> count (utp_sockets (ctx y)) < LIBUTP_HASH_UNUSED ->
  (if gen then F OutOfFuel /\ rid = 0
   else socket_lookup (utp_sockets (ctx y)) (mkKey (set_addr sa) rid) = None) ->
  (forall c' y' k, opened c c' k -> sys_opened k (this c) y y' -> key_addr k = set_addr sa ->
     (gen = false -> recv_id k = rid) -> Q tt (mkSt c' y')) ->
  wp F (utp_initialize_socket tries sa gen seed rid sid) Q (mkSt c y).
Proof.
  intros Hb Hg Hp Ht Hcnt Hgen H. unfold utp_initialize_socket. wp_step.
  assert (Hrest : forall s1 rid1 sid1 y1, sys_next quiet y y1 ->
    socket_lookup (utp_sockets (ctx y)) (mkKey (set_addr sa) rid1) = None ->
    (gen = false -> rid1 = rid) -> wp F (
      upd (fun c => c <| state := CS_IDLE |> <| Socket.conn_seed := s1 |>
                  <| Socket.conn_id_recv := rid1 |>
                  <| Socket.conn_id_send := sid1 |> <| addr := set_addr sa |>) ;;
      t ← utp_call_get_milliseconds NULL;
      mod_ctx (fun x => x <| current_ms := t |>) ;;
      upd (reset_times t) ;;
      mtu_reset ;;
      upd_mt (fun m => m <| mtu_last := mtu_ceiling m |>) ;;
      p ← my this;
      register_socket (mkKey (set_addr sa) rid1) p ;;
      c ← my (fun c => c);
      upd_wn (fun w => w <| max_window := get_packet_size c |>)) Q (mkSt c y1)).
  { intros s1 rid1 sid1 y1 Hy1 Hfree Hrid. wp_steps. unfold utp_call_get_milliseconds.
    apply (wp_call F quiet); [done|]. intros t y2 Hy2 _. cbn [put_sys HasSys_St me st_sys] in *. wp_steps.
    set (y3 := y2 <| ctx ::= _ |>). set (c3 := reset_times t _).
    assert (K3 : sys_kept y y3).
    { eapply sys_kept_trans; [by eapply sys_next_kept|]. by eapply sys_kept_ms. }
    apply (wp_mtu_reset F).
    { unfold has_callback. rewrite (kp_cb _ _ K3). apply (sg_mtu _ Hg). }
    intros u t4 y4 Hy4 Hu Hmin _. wp_steps. set (c4 := c3 <| mt := _ |>). set (c5 := c4 <| mt ::= _ |>).
    assert (K4 : sys_kept y y4) by (eapply sys_kept_trans; [exact K3|by eapply sys_next_kept]).
    assert (Eth : this c5 = this c) by by destruct c. rewrite Eth.
    assert (Eavg : avg (dl c5) = (avg (dl c)) <| average_sample_time := u64 (t + 5000) |>)
      by by destruct c as [? ? ? ? ? ? ? ? ? ? ? ? ? ? ? ? ? []].
    assert (O5 : opened c c5 (mkKey (set_addr sa) rid1)).
    { pose proof (reset_mtu_ok u (mt c) t4 (bk_probe _ Hb) Hu Hmin) as Hmt. destruct Hb.
      split; try by destruct c.
      rewrite Eavg. by destruct (avg (dl c)), bk_avg. }
    apply wp_register; rewrite ?(kp_table _ _ K4); try done.
    intros y6 O6. wp_steps. clearbody c5. eapply (H _ _ (mkKey (set_addr sa) rid1)); [|by eapply kept_opened|done|done].
    apply (opened_upd c c5); by destruct c5. }
  destruct gen.
  - destruct Hgen as [Hfuel ->]. wp_step. apply wp_pick_seed; [done|]. intros sd y1 Hy1 Hsd Hfree.
    wp_step. rewrite Z.add_0_l. rewrite (u32_small sd) by (unfold is_u16, is_u32 in *; lia).
    by apply Hrest.
  - wp_step. apply Hrest; [apply sys_next_refl|done|done].
Qed.
(** ** Accepting *)

(** a SYN carries no data for the socket: nothing is buffered *)
Lemma wp_incoming_syn packet c y :
  wp (fun _ => True) (utp_process_incoming packet true)
    (fun _ s' => reorder_count (rq (me s')) = reorder_count (rq c)) (mkSt c y).
Proof.
  unfold utp_process_incoming, utp_register_recv_packet. wp_steps.
  apply (wp_call _ any); [done|]. intros t y2 _ _. cbn [put_sys HasSys_St me st_sys]. wp_steps.
  destruct (decode_header packet) as [pf|]; [|done]. apply wp_if; intros _; [by wp_steps|]. wp_steps.
  apply (wp_call _ any); [done|]. intros time y4 _ _. cbn [put_sys HasSys_St me st_sys]. wp_steps.
  apply wp_if; intros _; [by wp_steps|]. wp_step. apply wp_assert; [intros _|done]. wp_steps.
  assert (Ex : forall x, reorder_count (rq (c <| rq ::= fun q => q <| extensions := x |> |>))
    = reorder_count (rq c)) by (intros; by destruct c, rq).
  destruct (skip_extensions packet pf (extensions (rq c))) as [data sp x|x| |];
    [|wp_steps; apply Ex|done|done].
  wp_steps. unfold process_parsed. wp_steps.
  apply wp_when; intros _; wp_steps; by destruct c, rq.
Qed.

(** the SYN's first answer: the socket may be told to acknowledge it *)
Lemma wp_send_synack n m c y :
  sock_ok n m (mkSt c y) -> reorder_count (rq c) = 0 ->
  wp F (send_ack true) (fun _ s' => survives n m (mkSt c y) s') (mkSt c y).
Proof.
  intros Hs H0. apply wp_send_ack; [apply Hs|by rewrite H0|].
  intros w y' Hy _ _. by apply survives_acked.
Qed.

(** the socket has been opened and is one of the program's sockets *)
Definition joined (c : UTPSocket) (y : Sys) (s' : St) : Prop :=
  sock_ok (max_sent + slack) (max_samples + slack) s' /\ this (me s') = this c /\
  sys_opened (sock_key (me s')) (this c) y (st_sys s').

Lemma survives_joined c c1 y y1 k s' :
  sys_opened k (this c) y y1 -> sock_key c1 = k -> this c1 = this c ->
  survives (max_sent + slack) (max_samples + slack) (mkSt c1 y1) s' -> joined c y s'.
Proof.
  intros Ho Hk Ht [S1 S2 S3 S4 S5]. cbn [me st_sys] in *. split; [done|]. split; [congruence|].
  replace (sock_key (me s')) with k by (unfold sock_key in *; by rewrite S3, S4).
  by eapply opened_kept.
Qed.

Lemma opened_sys k p q y y' : sys_opened k p y y' -> sys_good y -> is_Some (idas y !! q) -> sys_ok q y'.
Proof.
  intros Ho Hg Hq. apply sys_good_ok; [by eapply opened_good|].
  apply elem_of_dom. rewrite (op_dom _ _ _ _ Ho). by apply elem_of_dom.
Qed.
End Wp.

Section Accept.
Context {E : Env} {HA : GoodApp} (F : fault -> Prop).
Context (HF : forall f, incoming_fault f -> F f).

Lemma wp_accept p buffer to id seq c y :
  blank c -> this c = p -> sys_good y -> is_Some (idas y !! p) ->
  table_full key_hash (utp_sockets (ctx y)) -> count (utp_sockets (ctx y)) < LIBUTP_HASH_UNUSED ->
  socket_lookup (utp_sockets (ctx y)) (mkKey (set_addr to) (id + 1)) = None ->
  Forall is_u8 buffer -> sizeof_PacketFormatV1 <= Z.of_nat (length buffer) < 2147483648 ->
  (forall pf, decode_header buffer = Some pf -> pf_type pf <> ST_RESET) ->
  wp F (
    utp_initialize_socket 0 to false id (id + 1) id ;;
    upd_rq (fun q => q <| ack_nr := u16 seq |>) ;;
    r ← utp_call_get_random NULL;
    upd_sq (fun q => q <| Socket.seq_nr := u16 r |>) ;;
    upd_rt (fun x => x <| fast_resend_seq_nr := u16 r |>) ;;
    set_state CS_SYN_RECV ;;
    read ← utp_process_incoming buffer true;
    send_ack true ;;
    utp_call_on_accept p to ;;
    incoming_overhead (Z.of_nat (length buffer) - read) header_overhead ;;
    n ← get_overhead;
    utp_call_on_overhead_statistics p true n ack_overhead)
    (fun _ s' => joined c y s') (mkSt c y).
Proof.
  intros Hb Ht Hg Hp Htab Hcnt Hfree Hu Hl Hr. wp_step.
  apply wp_initialize; try done; [by rewrite Ht|]. intros c1 y1 k O1 S1 _ _. wp_steps.
  unfold utp_call_get_random. wp_steps. apply (wp_call F quiet); [done|]. intros v y2 H2 _.
  cbn [sys put_sys HasSys_St me st_sys] in *. wp_steps. set (c2 := _ <| state := CS_SYN_RECV |>).
  assert (S2 : sys_opened k (this c) y y2) by (eapply opened_kept; [exact S1|by eapply sys_next_kept]).
  assert (K2 : sock_key c2 = k /\ this c2 = this c)
    by (rewrite <- (od_key _ _ _ O1), <- (od_this _ _ _ O1); by destruct c1).
  destruct K2 as [K2 T2].
  assert (B2 : sock_ok max_sent max_samples (mkSt c2 y2)).
  { pose proof O1 as [E1 E2 E3 E4 E5 E6 E7 E8 E9].
    apply (start_ok _ _ c c2 y2 (u16 (u32 v)) (u16 seq)); try done; try apply u16_range;
      try by (rewrite <- ?E4, <- ?E5; destruct c1).
    rewrite T2. eapply opened_sys; [exact S2|done|by rewrite Ht]. }
  assert (R2 : reorder_count (rq c2) = 0).
  { rewrite <- (rf_count _ (bk_fresh _ Hb)), <- (od_rq _ _ _ O1). by destruct c1, rq. }
  clearbody c2. eapply wp_mono.
  { apply wp_strengthen; [|apply wp_incoming_syn].
    apply (wp_incoming_any F HF max_sent max_samples); done. }
  intros read [c3 y3] [(pf & _ & P3%proj1%processed_survives) R3]. cbn [me] in R3. rewrite R2 in R3. wp_step.
  eapply wp_mono; [apply (wp_send_synack F (max_sent + 6) (max_samples + 1)); [apply P3|done]|].
  intros x [c4 y4] P4. wp_step. eapply wp_mono.
  { apply (wp_notify_ok F); [done|]. exact (survives_trans _ _ _ _ _ _ _ P3 P4). }
  intros x5 [c5 y5] P5. wp_step. eapply wp_mono; [exact (wp_incoming_overhead_ok F _ _ _ _ _ _ _ P5)|].
  intros x6 [c6 y6] P6. unfold get_overhead. wp_steps. apply wp_get_udp_overhead. intros o y7 H7 _. wp_steps.
  eapply wp_mono.
  { apply (wp_notify_ok F); [done|]. eapply survives_trans; [exact P6|].
    apply survives_upd; try done; [by eapply sys_next_kept|apply P6]. }
  intros x8 s' P8. eapply (survives_joined c c2); [exact S2|done|done|].
  eapply survives_less; [..|exact P8]; done.
Qed.
(** *** Connecting *)
Lemma sock_ok_push n m c p y :
  sock_ok n m (mkSt c y) -> cur_window_packets (sq c) <= 1022 -> pkt_ok n p ->
  slot_bytes (Some p) = 0 -> sock_ok n m (mkSt (c <| sq := push_slot (sq c) p |>) y).
Proof.
  intros [[C1 C2 C3 C4] H2 H3 H4 H5 H6 H7] Hc Hp H0. cbn [me st_sys] in *.
  pose proof (push_slot_ok n _ p C2 ltac:(lia) Hp H0) as Q2.
  pose proof (push_slot_front n _ p C2 ltac:(lia) C4) as Q4.
  destruct (push_slot_slots n _ p C2 ltac:(lia)) as (_ & _ & Ec & _).
  assert (Es : sq (c <| sq := push_slot (sq c) p |>) = push_slot (sq c) p) by by destruct c.
  split; cbn [me st_sys]; rewrite ?Es, ?Ec; try (by destruct c). intros _. lia.
Qed.

(** the SYN is queued, and sent as the oldest packet *)
Lemma wp_send_first n m p c y :
  sock_ok n m (mkSt c y) -> cur_window_packets (sq c) = 0 -> pkt_ok n p ->
  slot_bytes (Some p) = 0 -> 1 <= n -> n + 1 < 2147483648 ->
  wp F (send_packet (seq_nr (sq c))) (fun _ s' => sock_ok (n + 1) m s' /\ this (me s') = this c /\
      sock_key (me s') = sock_key c /\ sys_kept y (st_sys s'))
    (mkSt (c <| sq := push_slot (sq c) p |>) y).
Proof.
  intros Hs Hc Hp H0 Hn Hn1. pose proof (cs_sq _ _ (sk_send _ _ _ Hs)) as Hq. cbn [me] in Hq.
  pose proof (sock_ok_push n m c p y Hs ltac:(lia) Hp H0) as Hs1.
  destruct (push_slot_slots n _ p Hq ltac:(lia)) as (_ & _ & Ec & _ & E0 & _).
  set (c1 := c <| sq := push_slot (sq c) p |>) in *.
  assert (Es : sq c1 = push_slot (sq c) p) by by destruct c.
  eapply wp_mono.
  - apply (wp_resend F (fun _ => True) n _ 0 p c1 y); rewrite ?Es; try done; [apply Hs1|lia|].
    apply (place_u16 n); [by apply push_slot_ok; [|lia|..]|].
    destruct (sq c). cbn. word_lia.
  - intros x s' [H _]. split; [by eapply handled_ok|]. destruct H as [[Et _ _ Hst _ _ _ Hy [= Ea Ei _]] _].
    cbn [me st_sys] in *. split; [rewrite Et; by destruct c|].
    split; [unfold sock_key; rewrite Ea, Ei; by destruct c|by eapply sys_next_kept].
Qed.

Lemma wp_connect tries to c y :
  F OutOfFuel -> blank c -> sys_good y -> is_Some (idas y !! this c) ->
  table_full key_hash (utp_sockets (ctx y)) -> count (utp_sockets (ctx y)) < LIBUTP_HASH_UNUSED ->
  wp F (utp_connect tries to) (fun _ s' => joined c y s') (mkSt c y).
Proof.
  intros Hfuel Hb Hg Hp Htab Hcnt. unfold utp_connect. wp_steps.
  apply wp_assert; [intros _|by rewrite (bk_state _ Hb)]. wp_step.
  apply wp_initialize; try done. intros c1 y1 k O1 S1 _ _. wp_steps.
  pose proof (od_sq _ _ _ O1) as E4. pose proof (od_rq _ _ _ O1) as E5.
  apply wp_assert; [intros _|by rewrite E4, (bk_count _ Hb)]. wp_step.
  apply wp_assert; [intros _|by rewrite E4, (empty_slots 1) by apply Hb]. wp_steps.
  unfold utp_call_get_milliseconds. apply (wp_call F quiet); [done|]. intros t y2 H2 _.
  cbn [sys put_sys HasSys_St me st_sys] in *. wp_steps. set (y3 := y2 <| ctx ::= _ |>).
  pose proof (sys_kept_ms _ _ _ t H2) as K3. fold y3 in K3.
  apply wp_get_rcv_window. intros w y4 H4. wp_steps. unfold utp_call_get_random. wp_steps.
  apply (wp_call F quiet); [done|]. intros v y5 H5 _.
  cbn [sys put_sys HasSys_St me st_sys] in *. wp_steps.
  assert (S5 : sys_opened k (this c) y y5).
  { eapply opened_kept; [exact S1|]. eapply sys_kept_trans; [exact K3|].
    eapply sys_kept_trans; by eapply sys_next_kept. }
  set (c2 := _ <| sq ::= fun q => q <| seq_nr := u16 (u32 v) |> |>).
  assert (K2 : sock_key c2 = k /\ this c2 = this c /\ sq c2 = (sq c) <| seq_nr := u16 (u32 v) |>)
    by (rewrite <- (od_key _ _ _ O1), <- (od_this _ _ _ O1), <- E4; by destruct c1).
  destruct K2 as (K2 & T2 & Q2).
  assert (B2 : sock_ok 1 max_samples (mkSt c2 y5)).
  { destruct O1 as [E1 E2 E3 _ _ E6 E7 E8 E9].
    apply (start_ok _ _ c c2 y5 (u16 (u32 v)) (ack_nr (rq c))); try done; try apply u16_range;
      try (by destruct c1); [|apply (bk_rq _ Hb)|].
    - rewrite T2. by eapply opened_sys.
    - rewrite <- E5. destruct c1, rq. done. }
  clearbody c2. assert (C2 : cur_window_packets (sq c2) = 0)
    by (rewrite Q2, <- (bk_count _ Hb); by destruct (sq c)).
  match goal with |- wp _ _ _ (mkSt ?c3 _) =>
    replace c3 with (c2 <| sq := push_slot (sq c2) (syn_packet c2 w) |>)
      by (unfold push_slot; by destruct c2 as [? ? ? ? ? ? ? ? ? ? ? ? []]) end.
  eapply wp_mono.
  { apply (wp_send_first 1 max_samples (syn_packet c2 w)); (done || by split). }
  intros x s' (Hs' & T' & K' & Y'). wp_steps. split; [by eapply sock_ok_mono; [..|exact Hs']|].
  split; [congruence|]. rewrite K', K2. by eapply opened_kept.
Qed.
End Accept.
