(* ===== verification/WorldCalls.v ===== *)
(** * Datagrams, connections and ICMP messages keep the program's invariant

    utp_process_udp with everything it dispatches to, utp_create_socket,
    utp_connect and the ICMP entry points (src/utp_internal.cpp), on the state of
    the whole program. *)
From S2P Require Import Prelude Wrap Packet Ring Delay DelayAvg Arrays SockAddr Hash HashMap Context AckList.
From S2P Require Import Socket Frame MtuSearch Send SendQueue SendInv Reorder Ack Incoming Timeouts Api.
From S2P Require Import AckQueue AckStages Receive RecvInv IncomingSafe SockOps World WorldOps WorldOpen.

(** room for one more socket *)
Definition room (w : World) : Prop := Z.of_nat (size (heap w)) + 2 < INT_MAX.

(** what every call leaves behind *)
Definition well (w : World) : Prop := exists R, after R w.

Lemma heap_size n m R w : world_inv n m R w -> size (idas (w_sys w)) = size (heap w).
Proof. intros Hw. by rewrite <- !size_dom, (wi_dom _ _ _ _ Hw). Qed.

Lemma reg_count n m R w : world_inv n m R w -> count (utp_sockets (ctx (w_sys w))) < LIBUTP_HASH_UNUSED.
Proof.
  intros Hw. rewrite (wi_count _ _ _ _ Hw). pose proof (reg_size Hw).
  unfold INT_MAX, LIBUTP_HASH_UNUSED in *. lia.
Qed.

Lemma max_bounds : 0 <= max_samples /\ max_samples <= max_samples + slack /\
  max_sent <= max_sent + slack /\ max_samples < INT_MAX.
Proof. done. Qed.

(** a blank socket that joined the others *)
Lemma joined_after R w p c s' :
  before R w -> heap w !! p = Some c -> p ∉ R -> joined c (w_sys w) s' ->
  after ({[p]} ∪ R) (mkWorld (<[p := me s']> (heap w)) (st_sys s')).
Proof.
  intros Hw Hc Hp (Hs & Ht & Ho). pose proof (wi_this _ _ _ _ Hw p c Hc) as Hpc. rewrite Hpc in *.
  pose proof (world_inv_open _ _ R w p c s' (max_sent + slack) (before_after R w Hw) Hc Hp Ht Hs Ho) as H.
  eapply world_inv_mono; [exact H| |done]. intros q _. cbn beta. by case_decide.
Qed.

Section Wp.
Context {E : Env} {HA : GoodApp} (F : fault -> Prop).

Lemma wp_create n m R (Q : ptr -> World -> Prop) w :
  world_inv n m R w -> room w ->
  (forall p w', world_inv n m R w' -> p ∉ R -> (exists c, heap w' !! p = Some c /\ blank c) ->
     utp_sockets (ctx (w_sys w')) = utp_sockets (ctx (w_sys w)) -> Q p w') ->
  wp F create_socket Q w.
Proof.
  intros Hw Hroom H. destruct (create_inv n m R w Hw) as (Hi & Hp & Hh).
  { rewrite (heap_size n m R) by done. exact Hroom. }
  unfold create_socket. apply wp_bind, wp_get, wp_bind, wp_modify, wp_ret.
  change (Q (new_ptr w) (created w)). apply H; try done.
  eexists. split; [exact Hh|]. apply create_blank.
Qed.

(** utp_connect on a socket that was only created *)
Lemma wp_connect_ok R p tries to w :
  F OutOfFuel -> before R w -> p ∉ R -> is_Some (heap w !! p) ->
  wp F (on_socket p (utp_connect tries to)) (fun _ w' => well w') w.
Proof.
  intros Hfuel Hw Hp [c Hc]. apply (wp_on_socket F p c); [done|].
  pose proof (wi_this _ _ _ _ Hw p c Hc) as Ht. eapply wp_mono.
  - apply (wp_connect F); [done|by eapply wi_blank|apply Hw| |apply Hw|by eapply reg_count].
    rewrite Ht. apply elem_of_dom. rewrite <- (wi_dom _ _ _ _ Hw). by apply elem_of_dom_2 in Hc.
  - intros a s' Hj. exists ({[p]} ∪ R). by eapply joined_after.
Qed.

Section Packets.
Context (HF : forall f, incoming_fault f -> F f).

(** ** A SYN *)
Lemma wp_accept_syn R p buffer to id seq w :
  before R w -> p ∉ R -> (exists c, heap w !! p = Some c /\ blank c) ->
  socket_lookup (utp_sockets (ctx (w_sys w))) (mkKey (set_addr to) (id + 1)) = None ->
  Forall is_u8 buffer -> sizeof_PacketFormatV1 <= Z.of_nat (length buffer) < 2147483648 ->
  (forall pf, decode_header buffer = Some pf -> pf_type pf <> ST_RESET) ->
  wp F (accept_syn p buffer to id seq) (fun _ w' => well w') w.
Proof.
  intros Hw Hp (c & Hc & Hb) Hfree Hu Hl Hr. unfold accept_syn, accept_socket. apply (wp_on_socket F p c); [done|].
  pose proof (wi_this _ _ _ _ Hw p c Hc) as Ht. eapply wp_mono.
  - apply (wp_accept F HF p buffer to id seq c (w_sys w)); try done; try apply Hw; [|by eapply reg_count].
    apply elem_of_dom. rewrite <- (wi_dom _ _ _ _ Hw). by apply elem_of_dom_2 in Hc.
  - intros a s' Hj. exists ({[p]} ∪ R). by eapply joined_after.
Qed.

Lemma wp_handle_syn R buffer to id seq w :
  before R w -> room w -> Forall is_u8 buffer ->
  sizeof_PacketFormatV1 <= Z.of_nat (length buffer) < 2147483648 ->
  (forall pf, decode_header buffer = Some pf -> pf_type pf <> ST_RESET) ->
  wp F (handle_syn buffer to (set_addr to) id seq) (fun _ w' => well w') w.
Proof.
  intros Hw Hroom Hu Hl Hr. unfold handle_syn. apply wp_bind, wp_gets.
  assert (Hdone : forall w', before R w' -> well w') by (intros w' H; exists R; by apply before_after).
  apply wp_when; intros _; [|by apply Hdone].
  apply wp_bind, (wp_find_socket F (fun _ => max_sent) max_samples R); [exact Hw| |intros p c _ _ _; by apply wp_ret, Hdone].
  intros Hfree. apply wp_bind, wp_gets, wp_when; intros _; [|by apply Hdone].
  unfold utp_call_on_firewall. apply wp_bind, wp_bind, (wp_world_call F (fun _ => max_sent) max_samples R); [done|exact Hw|].
  intros v y1 Hw1 _ K1. apply wp_ret, wp_when; intros _; [|by apply Hdone].
  apply wp_bind, (wp_create (fun _ => max_sent) max_samples R); [exact Hw1|exact Hroom|].
  intros p w2 Hw2 Hp Hb Et. apply (wp_accept_syn R); try done.
  rewrite Et. cbn [w_sys]. by rewrite (kp_table _ _ K1).
Qed.

(** ** Any datagram *)
Lemma wp_process_udp_ok R buffer to w :
  before R w -> room w -> Forall is_u8 buffer -> Z.of_nat (length buffer) < 2147483648 ->
  wp F (utp_process_udp buffer to) (fun _ w' => well w') w.
Proof.
  intros Hw Hroom Hu Hl. unfold utp_process_udp.
  assert (Hdone : forall w', before R w' -> well w') by (intros w' H; exists R; by apply before_after).
  destruct (Z.ltb_spec (Z.of_nat (length buffer)) sizeof_PacketFormatV1) as [|Hlen];
    [by apply wp_ret, Hdone|].
  destruct (decode_header buffer) as [pf|] eqn:Hd; [|apply HF; by left].
  apply wp_if; intros _; [by apply wp_ret, Hdone|]. destruct (Z.eqb_spec (pf_type pf) ST_RESET) as [|Hne].
  - apply wp_bind, (wp_find_by_either_id F (fun _ => max_sent) max_samples R); [exact Hw| |].
    + apply wp_bind, wp_ret, wp_ret. by apply Hdone.
    + intros p c Hp _. apply wp_bind. eapply wp_mono.
      * apply (wp_method F R p); [done|done|]. intros c' y _ Hs. eapply wp_mono.
        -- apply (wp_handle_reset_ok F); exact Hs.
        -- intros a s' Hv. eapply survives_less; [..|exact Hv]; done.
      * intros a w' Hw'. apply wp_ret. by exists R.
  - assert (Hr : forall pf', Some pf = Some pf' -> pf_type pf' <> ST_RESET) by (by intros ? [= <-]).
    rewrite <- Hd in Hr. apply wp_if; intros _.
    + apply wp_bind, (wp_find_connection F (fun _ => max_sent) max_samples R); [exact Hw| |].
      * apply wp_bind. eapply wp_mono; [by apply (wp_reject_unknown_ok F (fun _ => max_sent) max_samples R)|].
        intros x w' Hw'. by apply wp_ret, Hdone.
      * intros p w' Hw' _ Hp. apply wp_bind. eapply wp_mono.
        -- by apply (wp_process_connected_ok F HF R).
        -- intros x w2 Hw2. apply wp_ret. by exists R.
    + apply wp_bind. eapply wp_mono; [by apply (wp_handle_syn R)|]. intros x w' Hw'. by apply wp_ret.
Qed.

(** ** ICMP *)
Lemma wp_parse_icmp n m R buffer to (Q : option ptr -> World -> Prop) w :
  world_inv n m R w -> Q None w -> (forall p, p ∈ R -> Q (Some p) w) ->
  wp F (parse_icmp_payload buffer to) Q w.
Proof.
  intros Hw H0 H1. unfold parse_icmp_payload. apply wp_if; intros _; [by apply wp_ret|].
  destruct (decode_header buffer) as [pf|]; [|apply HF; by left].
  apply wp_if; intros _; [by apply wp_ret|]. apply (wp_find_by_either_id F n m R); [done|done|].
  intros p c Hp _. by apply H1.
Qed.

Lemma wp_process_icmp_error_ok R buffer to w :
  before R w -> wp F (utp_process_icmp_error buffer to) (fun _ w' => well w') w.
Proof.
  intros Hw. unfold utp_process_icmp_error. apply wp_bind, (wp_parse_icmp (fun _ => max_sent) max_samples R); [exact Hw| |].
  - apply wp_ret. exists R. by apply before_after.
  - intros p Hp. apply wp_bind. eapply wp_mono.
    + apply (wp_method F R p); [done|done|]. intros c y _ Hs.
      eapply wp_mono; [apply (wp_icmp_error_ok F); exact Hs|].
      intros a s' Hv. eapply survives_less; [..|exact Hv]; done.
    + intros a w' Hw'. apply wp_ret. by exists R.
Qed.

Lemma wp_process_icmp_fragmentation_ok R buffer to mtu w :
  before R w -> wp F (utp_process_icmp_fragmentation buffer to mtu) (fun _ w' => well w') w.
Proof.
  intros Hw. unfold utp_process_icmp_fragmentation. apply wp_bind, (wp_parse_icmp (fun _ => max_sent) max_samples R); [exact Hw| |].
  - apply wp_ret. exists R. by apply before_after.
  - intros p Hp. apply wp_bind. eapply wp_mono.
    + apply (wp_method F R p); [done|done|]. intros c y _ Hs.
      eapply wp_mono; [apply (wp_icmp_fragmentation_ok F); exact Hs|].
      intros a s' Hv. eapply survives_less; [..|exact Hv]; done.
    + intros a w' Hw'. apply wp_ret. by exists R.
Qed.
End Packets.
End Wp.
