(* ===== verification/WorldTune.v ===== *)
(** * Options, callbacks and user data

    utp_setsockopt, utp_set_userdata, utp_context_set_option
    (src/utp_internal.cpp) and utp_set_callback (src/utp_api.cpp): what an
    application may change at any time, and that the invariant of the program
    does not depend on it. *)
From S2P Require Import Prelude Wrap Packet Ring Delay DelayAvg Arrays SockAddr Hash HashMap Context AckList.
From S2P Require Import Socket Frame MtuSearch Send SendQueue SendInv Reorder Ack Incoming Timeouts Api.
From S2P Require Import AckQueue AckStages Receive RecvInv IncomingSafe SockOps World WorldOps.

(** the application's own fields of a socket *)
Definition tuned (c c' : UTPSocket) : Prop :=
  exists w u, c' = c <| wn := w |> <| userdata := u |>.

Lemma tuned_refl c : tuned c c.
Proof. exists (wn c), (userdata c). by destruct c. Qed.

Lemma survives_tuned n m c c' y : tuned c c' -> sock_ok n m (mkSt c y) -> survives n m (mkSt c y) (mkSt c' y).
Proof. intros (w & u & ->) Hs. apply survives_upd; try done; by destruct c. Qed.

Lemma blank_tuned c c' : tuned c c' -> blank c -> blank c'.
Proof. intros (w & u & ->) []. by destruct c; split. Qed.

(** ... and of the context *)
Record ctx_tuned (x x' : utp_context) : Prop := {
  ct_acks : ack_sockets x' = ack_sockets x;
  ct_table : utp_sockets x' = utp_sockets x;
  ct_last : last_utp_socket x' = last_utp_socket x;
  ct_rst : rst_info x' = rst_info x;
  ct_mtu : has_callback x UTP_GET_UDP_MTU = true -> has_callback x' UTP_GET_UDP_MTU = true;
}.

Lemma set_callback_tuned name set x :
  0 <= name < UTP_ARRAY_SIZE -> (name = UTP_GET_UDP_MTU -> set = true) ->
  exists x', utp_set_callback name set x = Some x' /\ ctx_tuned x x'.
Proof.
  intros Hn Hs. unfold utp_set_callback. rewrite (proj2 (Z.leb_le _ _)), (proj2 (Z.ltb_lt _ _)) by lia.
  eexists. split; [done|]. destruct x. split; cbn; try done. unfold has_callback. cbn.
  rewrite !bool_decide_eq_true. intros Hin.
  destruct (decide (name = UTP_GET_UDP_MTU)) as [->|Hne]; [rewrite Hs by done; by left|].
  destruct set; [right|]; apply list_elem_of_filter; auto.
Qed.

Section Tune.
Context {E : Env} (F : fault -> Prop).

Lemma sys_good_tuned y x :
  ctx_tuned (ctx y) x -> sys_good y -> sys_good (y <| ctx := x |>).
Proof.
  intros [H1 _ _ _ H5] [[l Hl] Hs Hm Hw]. destruct y as [c ids tr]. cbn in *. split; cbn; auto.
  exists l. exact (ack_ok_other l (mkSys c ids tr) x tr H1 Hl).
Qed.

Lemma world_inv_tuned n m R w x :
  ctx_tuned (ctx (w_sys w)) x -> world_inv n m R w -> world_inv n m R (mkWorld (heap w) ((w_sys w) <| ctx := x |>)).
Proof.
  intros Hx Hw. pose proof Hw as [V1 V2 V3 V4 V5 V6 V7 V8 V9 V10 V11 V12].
  pose proof (sys_good_tuned _ _ Hx V1) as G. destruct Hx as [_ H2 H3 H4 _].
  assert (Ei : idas ((w_sys w) <| ctx := x |>) = idas (w_sys w) /\ ctx ((w_sys w) <| ctx := x |>) = x)
    by by destruct (w_sys w).
  destruct Ei as [Ei Ec]. split; cbn [heap w_sys]; rewrite ?Ei, ?Ec, ?H2, ?H3, ?H4; try done.
  intros p c Hc Hp. pose proof (V4 p c Hc Hp) as Hs. eapply sock_ok_sys; [|exact Hs].
  apply sys_good_ok; [exact G|]. rewrite Ei. apply (sk_send _ _ _ Hs).
Qed.

(** a change of the context *)
Lemma wp_tune_ctx n m R f (Q : unit -> World -> Prop) w :
  world_inv n m R w -> ctx_tuned (ctx (w_sys w)) (f (ctx (w_sys w))) ->
  (forall w', world_inv n m R w' -> Q tt w') -> wp F (mod_ctx f) Q w.
Proof.
  intros Hw Hf H. apply wp_modify. cbn [sys put_sys HasSys_World]. apply H.
  pose proof (world_inv_tuned n m R w _ Hf Hw) as H1. by destruct (w_sys w).
Qed.

Lemma wp_context_set_option n m R opt val w :
  world_inv n m R w -> (opt = UTP_SNDBUF \/ opt = UTP_RCVBUF -> 1 <= val) ->
  wp F (utp_context_set_option opt val) (fun _ w' => world_inv n m R w') w.
Proof.
  intros Hw Hv. unfold utp_context_set_option.
  assert (Hm : forall f : utp_context -> utp_context,
    (forall x, ctx_tuned x (f x)) -> wp F (mod_ctx f ;; mret 0) (fun _ w' => world_inv n m R w') w).
  { intros f Hf. apply wp_bind, (wp_tune_ctx n m R); [done|apply Hf|]. intros w' Hw'. by apply wp_ret. }
  repeat (apply wp_if; intros ?); try (apply Hm; by intros []; split); [..|by apply wp_ret];
    apply wp_bind, wp_assert; intros Ha; try (apply Hm; by intros []; split);
    exfalso; apply Z.leb_gt in Ha; rewrite !Z.eqb_eq in *; lia.
Qed.

(** a change of a socket, registered or not *)
Lemma wp_tune_socket {A} R p (mm : M St A) w :
  before R w -> is_Some (heap w !! p) ->
  (forall c y, wp F mm (fun _ s' => tuned c (me s') /\ st_sys s' = y) (mkSt c y)) ->
  wp F (on_socket p mm) (fun _ w' => after R w') w.
Proof.
  intros Hw [c Hc] H. destruct (decide (p ∈ R)) as [Hp|Hp].
  - apply (wp_method F R p); [done|done|]. intros c' y Hc' Hs. eapply wp_mono; [apply H|].
    intros a [c2 y2] [Ht Ey]. cbn [me st_sys] in *. subst y2.
    eapply survives_less; [..|by apply (survives_tuned max_sent max_samples)]; done.
  - apply (wp_on_socket F p c); [done|]. eapply wp_mono; [apply H|]. intros a [c2 y2] [Ht Ey].
    cbn [me st_sys] in *. subst y2. apply before_after, (world_inv_blank Hw p c); [done|done| |].
    + destruct Ht as (v & u & ->). by destruct c.
    + apply (blank_tuned c); [done|]. by apply (wi_blank _ _ _ _ Hw p).
Qed.

Lemma wp_setsockopt_tuned opt val c y :
  (opt = UTP_SNDBUF \/ opt = UTP_RCVBUF -> 1 <= val) ->
  wp F (utp_setsockopt opt val) (fun _ s' => tuned c (me s') /\ st_sys s' = y) (mkSt c y).
Proof.
  intros Hv. unfold utp_setsockopt.
  assert (Hm : forall f, wp F (upd_wn f ;; mret 0) (fun _ s' => tuned c (me s') /\ st_sys s' = y) (mkSt c y)).
  { intros f. wp_steps. split; [|done]. exists (f (wn c)), (userdata c). by destruct c. }
  repeat (apply wp_if; intros ?); try apply Hm; [..|apply wp_ret; split; [apply tuned_refl|done]];
    apply wp_bind, wp_assert; intros Ha; try apply Hm;
    exfalso; apply Z.leb_gt in Ha; rewrite !Z.eqb_eq in *; lia.
Qed.

Lemma wp_set_userdata_tuned v c y :
  wp F (upd (utp_set_userdata v)) (fun _ s' => tuned c (me s') /\ st_sys s' = y) (mkSt c y).
Proof. wp_steps. split; [|done]. exists (wn c), v. by destruct c. Qed.
End Tune.
