(* ===== verification/WorldTimers.v ===== *)
(** * The timer sweep keeps the program's invariant

    utp_check_timeouts with the destruction of sockets (src/utp_internal.cpp), on
    the state of the whole program: the sweep over the table visits each socket
    once while it deletes some of them. *)
From S2P Require Import Prelude Wrap Packet Ring Delay DelayAvg Arrays SockAddr Hash HashMap Context AckList.
From S2P Require Import Socket Frame MtuSearch Send SendQueue SendInv Reorder Ack Incoming Timeouts Api.
From S2P Require Import AckQueue AckStages Receive RecvInv IncomingSafe SockOps World WorldOps WorldOpen WorldCalls.

(** ** Destroying a socket *)

(** the state after ~UTPSocket of the socket [c] at [p] *)
Record destroyed (p : ptr) (c : UTPSocket) (y y' : Sys) : Prop := {
  ds_idas : dom (idas y') = dom (idas y) ∖ {[p]};
  ds_cb : callbacks (ctx y') = callbacks (ctx y);
  ds_rst : rst_info (ctx y') = rst_info (ctx y);
  ds_last : last_utp_socket (ctx y') = (if last_utp_socket (ctx y) =? p then NULL
                                        else last_utp_socket (ctx y));
  ds_table : utp_sockets (ctx y') = socket_delete (utp_sockets (ctx y)) (sock_key c);
  ds_ack : exists l, ack_ok l y';
  ds_trace : traced polite y y';
  ds_told : called UTP_ON_STATE_CHANGE (fun r => r = OnStateChange p UTP_STATE_DESTROYING) y y';
}.

Lemma destroyed_inv n m R w p c y' :
  world_inv n m R w -> p ∈ R -> heap w !! p = Some c -> destroyed p c (w_sys w) y' ->
  world_inv n m (R ∖ {[p]}) (mkWorld (delete p (heap w)) y').
Proof.
  intros Hw Hp Hc [D1 D2 D3 D4 D5 D6 D7 _]. pose proof Hw as [V1 V2 V3 V4 V5 V6 V7 V8 V9 V10 V11 V12].
  destruct (table_delete_spec key_hash key_eqb key_eqb_eq _ (sock_key c) V7) as (T1 & T2 & T3).
  pose proof (reg_lookup Hw p c Hp Hc) as Hlk. unfold socket_lookup in Hlk. rewrite Hlk in T3.
  assert (G : sys_good y').
  { destruct V1 as [_ Hs Hm Hwt]. split; [done| |unfold has_callback; by rewrite D2|by eapply traced_polite].
    rewrite <- size_dom, D1. pose proof (subseteq_size (dom (idas (w_sys w)) ∖ {[p]}) (dom (idas (w_sys w)))
      ltac:(apply subseteq_difference_l; done)) as Hle. rewrite size_dom in Hle. lia. }
  split; cbn [heap w_sys]; rewrite ?D3, ?D5; try done.
  - by rewrite dom_delete_L, D1, V2.
  - intros q x. rewrite lookup_delete_Some. intros [_ Hx]. by apply V3.
  - intros q x. rewrite lookup_delete_Some. intros [Hq Hx] [Hr _]%elem_of_difference.
    pose proof (V4 q x Hx Hr) as Hs. eapply sock_ok_sys; [|exact Hs]. apply sys_good_ok; [done|].
    apply elem_of_dom. rewrite D1, elem_of_difference, elem_of_singleton.
    split; [apply elem_of_dom, (sk_send _ _ _ Hs)|]. rewrite (V3 q x Hx). by intros ->.
  - intros q x. rewrite lookup_delete_Some. intros [Hq Hx] Hr. apply (V5 q x Hx). intros Hin. apply Hr.
    apply elem_of_difference. split; [done|]. rewrite elem_of_singleton. congruence.
  - rewrite dom_delete_L. intros q [Hq Hne]%elem_of_difference. apply elem_of_difference.
    split; [by apply V6|done].
  - unfold socket_delete. by rewrite table_delete_N.
  - intros k q. unfold socket_lookup, socket_delete. rewrite T2. case_decide as Hk.
    + subst k. split; [done|]. intros [[Hq Hne]%elem_of_difference (x & Hx & Hkey)].
      rewrite lookup_delete_Some in Hx. destruct Hx as [_ Hx].
      assert (socket_lookup (utp_sockets (ctx (w_sys w))) (sock_key c) = Some q) as E by (apply V9; eauto).
      unfold socket_lookup in E. rewrite Hlk in E. injection E as ->. by destruct Hne; apply elem_of_singleton.
    + fold (socket_lookup (utp_sockets (ctx (w_sys w))) k). rewrite V9.
      rewrite elem_of_difference, elem_of_singleton. split.
      * intros [Hq (x & Hx & Hkey)]. assert (q <> p) by (intros ->; congruence).
        split; [done|]. exists x. by rewrite lookup_delete_ne.
      * intros [[Hq Hne] (x & Hx & Hkey)]. rewrite lookup_delete_ne in Hx by done. eauto.
  - unfold socket_delete. rewrite T3, V10, size_difference, size_singleton by (by apply singleton_subseteq_l).
    assert (size R <> 0%nat). { intros H0%size_empty_inv. set_solver. } lia.
  - rewrite D4. destruct (Z.eqb_spec (last_utp_socket (ctx (w_sys w))) p) as [|Hne]; [by left|].
    destruct V11 as [?|Hl]; [by left|right]. rewrite elem_of_difference, elem_of_singleton. done.
Qed.

(** once its index is -1, forgetting a socket does not disturb the list *)
Lemma forget_acks l p y :
  ack_ok l y -> idas y !! p = Some (-1) -> ack_ok l (y <| idas ::= delete p |>).
Proof.
  intros [A1 A2 A3 A4 A5] Hp. pose proof (A3 p (-1) Hp) as Hout. cbn in Hout.
  destruct y as [x ids tr]. cbn in *. split; cbn; try done.
  - intros q i. rewrite lookup_delete_Some. intros [_ Hq]. by apply A3.
  - intros q Hq. rewrite lookup_delete_ne by (by intros ->). by apply A4.
Qed.

(** the context once the socket [p] under key [k] is forgotten *)
Record unregistered (p : ptr) (k : UTPSocketKey) (y y' : Sys) : Prop := {
  ur_idas : idas y' = idas y;
  ur_table : utp_sockets (ctx y') = socket_delete (utp_sockets (ctx y)) k;
  ur_cb : callbacks (ctx y') = callbacks (ctx y);
  ur_rst : rst_info (ctx y') = rst_info (ctx y);
  ur_last : last_utp_socket (ctx y') =
    if last_utp_socket (ctx y) =? p then NULL else last_utp_socket (ctx y);
  ur_trace : trace y' = trace y;
  ur_acks : ack_sockets (ctx y') = ack_sockets (ctx y);
}.

Definition forget_last (p : ptr) (x : utp_context) : utp_context :=
  if last_utp_socket x =? p then x <| last_utp_socket := NULL |> else x.

Lemma unregister p k y :
  unregistered p k y (y <| ctx ::= forget_last p |>
    <| ctx ::= fun x => x <| utp_sockets ::= fun t => socket_delete t k |> |>).
Proof.
  destruct y as [[] ids tr]. unfold forget_last. cbn.
  destruct (_ =? p) eqn:Hp; split; cbn; rewrite ?Hp; done.
Qed.

Lemma unregistered_acks p k y y' :
  unregistered p k y y' -> (exists l, ack_ok l y) -> exists l, ack_ok l y'.
Proof.
  intros [I _ _ _ _ _ A] [l Hl]. exists l.
  pose proof (ack_ok_other l y (ctx y') (trace y') A Hl) as H. rewrite <- I in H. destruct y'. exact H.
Qed.

(** the steps of the destructor together *)
Lemma destroyed_steps p c y y1 y3 y4 :
  sys_kept y y1 -> called UTP_ON_STATE_CHANGE (fun r => r = OnStateChange p UTP_STATE_DESTROYING) y y1 ->
  (exists l, ack_ok l y1) -> unregistered p (sock_key c) y1 y3 -> sys_next any y3 y4 ->
  idas y4 !! p = Some (-1) -> destroyed p c y (y4 <| idas ::= delete p |>).
Proof.
  intros K1 Hcall A1 Hu N4 Hp4. pose proof (unregistered_acks _ _ _ _ Hu A1) as A3.
  destruct Hu as [I3 T3 C3 S3 L3 Etr _].
  pose proof (sys_next_kept _ _ _ N4) as [W4 D4 T4 C4 L4 S4 K4].
  pose proof K1 as [W1 D1 T1 C1 L1 S1 _]. set (y5 := y4 <| idas ::= delete p |>).
  assert (E5 : idas y5 = delete p (idas y4) /\ ctx y5 = ctx y4 /\ trace y5 = trace y4) by by destruct y4.
  destruct E5 as (I5 & X5 & Z5). split; rewrite ?I5, ?X5.
  - by rewrite dom_delete_L, D4, I3, D1.
  - by rewrite C4, C3.
  - by rewrite S4, S3.
  - by rewrite L4, L3, L1.
  - by rewrite T4, T3, T1.
  - destruct (K4 A3) as [l Hl]. exists l. by apply forget_acks.
  - eapply traced_trans; [exact W1|]. destruct W4 as (rs & Et & Hrs). exists rs. by rewrite Z5, <- Etr.
  - destruct (nx_trace _ _ _ N4) as (rs & Et & _). apply (called_trace _ _ rs _ y1); [|exact Hcall].
    by rewrite Z5, <- Etr.
Qed.

Section Wp.
Context {E : Env} {HA : GoodApp} (F : fault -> Prop).

Lemma wp_destroy_socket n m R p c (Q : unit -> World -> Prop) w :
  world_inv n m R w -> p ∈ R -> heap w !! p = Some c ->
  (forall y', destroyed p c (w_sys w) y' ->
     Q tt (mkWorld (delete p (heap w)) y')) ->
  wp F (destroy_socket p) Q w.
Proof.
  intros Hw Hp Hc H. unfold destroy_socket, utp_call_on_state_change.
  apply wp_bind, (wp_notify_called F any); [done|]. intros y1 N1 Hcall. cbn [sys put_sys HasSys_World w_sys heap] in *.
  pose proof (sys_next_kept _ _ _ N1) as K1. pose proof (world_inv_sys Hw y1 K1) as Hw1.
  apply wp_bind, (wp_read_socket F p c); [done|]. apply wp_bind, wp_modify. cbn [sys put_sys HasSys_World w_sys heap].
  fold (forget_last p). set (y2 := y1 <| ctx ::= forget_last p |>).
  assert (Hlk : socket_lookup (utp_sockets (ctx y2)) (sock_key c) = Some p).
  { replace (utp_sockets (ctx y2)) with (utp_sockets (ctx y1)); [by apply (reg_lookup Hw1)|].
    unfold y2, forget_last. destruct y1 as [x ? ?]. cbn. case_match; by destruct x. }
  apply wp_bind. unfold find_socket. apply wp_bind, wp_gets, wp_ret. cbn [sys HasSys_World w_sys].
  change (mkKey (addr c) (conn_id_recv c)) with (sock_key c). rewrite Hlk.
  apply wp_bind, wp_assert; [intros _|done]. apply wp_bind, wp_modify. cbn [sys put_sys HasSys_World w_sys heap].
  pose proof (unregister p (sock_key c) y1) as Hu. fold y2 in Hu. set (y3 := y2 <| ctx ::= _ |>) in *.
  assert (O3 : sys_ok p y3).
  { destruct (live_sys Hw1 p) as (Ha & Hs & Hi & Hcb); [by eexists|]. cbn [w_sys] in *.
    split_and!; [by eapply unregistered_acks|by rewrite (ur_idas _ _ _ _ Hu)|by rewrite (ur_idas _ _ _ _ Hu)|].
    unfold has_callback. by rewrite (ur_cb _ _ _ _ Hu). }
  apply wp_bind, (wp_remove F any); [exact O3|]. intros y4 N4 Hp4. cbn [sys put_sys HasSys_World w_sys heap] in *.
  apply wp_modify. cbn [heap w_sys]. apply H.
  eapply destroyed_steps; [exact K1|exact Hcall|apply (wi_sys _ _ _ _ Hw1)|exact Hu|exact N4|exact Hp4].
Qed.
(** ** The sweep *)

(** every element in the chains holds a socket *)
Definition valued (t : utp_hash_t UTPSocketKey ptr) (chains : list (list Z)) : Prop :=
  forall i, i ∈ concat chains -> exists e p, elem_at t i = Some e /\ e_val e = Some p.

Lemma valued_delete t chains fl k b l1 x l :
  table_ok key_hash t chains fl -> chains !! b = Some (l1 ++ x :: l) -> valued t chains ->
  valued (socket_delete t k) (<[b := l1 ++ l]> chains).
Proof.
  intros Hok Hb Hv i Hi.
  assert (Hin : i ∈ concat chains).
  { destruct (chains_elem_of _ _ Hi) as (b' & c' & Hc' & Hic).
    destruct (decide (b' = b)) as [->|Hne].
    - rewrite list_lookup_insert_eq in Hc' by (by eapply lookup_lt_Some). injection Hc' as <-.
      eapply elem_of_chains; [exact Hb|]. rewrite !elem_of_app, elem_of_cons in *. tauto.
    - rewrite list_lookup_insert_ne in Hc' by done. by eapply elem_of_chains. }
  destruct (Hv i Hin) as (e & p & He & Hp).
  pose proof (delete_keeps_val key_hash key_eqb key_eqb_eq t chains fl k i Hok Hin) as Ev.
  rewrite He in Ev. cbn in Ev. unfold socket_delete.
  destruct (elem_at (table_delete key_hash key_eqb t k) i) as [e'|]; [|done].
  exists e', p. split; [done|]. injection Ev as Ev. congruence.
Qed.

(** A bound for each socket; those still to be visited are at the lower one. *)
Definition pending (n : ptr -> Z) (R : gset ptr) (t : utp_hash_t UTPSocketKey ptr) (rem : list Z) : Prop :=
  (forall p, p ∈ R -> n p <= max_sent + slack) /\ NoDup (keys_at t rem) /\
  (forall k p, k ∈ keys_at t rem -> socket_lookup t k = Some p -> n p <= max_sent).

Lemma pending_same n R t x e p rem c w :
  world_inv n max_samples R w -> utp_sockets (ctx (w_sys w)) = t -> elem_at t x = Some e ->
  p ∈ R -> heap w !! p = Some c -> sock_key c = e_key e -> pending n R t (x :: rem) ->
  pending (fun q => if decide (q = p) then max_sent + 2 else n q) R t rem.
Proof.
  intros Hw <- He Hp Hc Hk (P1 & P2 & P3). unfold keys_at in P2, P3. cbn [omap list_omap] in P2, P3.
  rewrite He in P2, P3. cbn [fmap option_fmap option_map] in P2, P3.
  apply NoDup_cons in P2 as [Hx P2]. split_and!.
  - intros q Hq. case_decide; [unfold slack; lia|by apply P1].
  - exact P2.
  - intros k q Hin Hl. case_decide as Hqp; [|by apply (P3 k); [right|]]. subst q. exfalso.
    apply (wi_get _ _ _ _ Hw) in Hl as (_ & c' & Hc' & Hk'). simplify_eq. rewrite Hk in Hin. done.
Qed.

(** the socket an element of the table stands for *)
Lemma element_socket n m R chains fl x w :
  world_inv n m R w ->
  let t := utp_sockets (ctx (w_sys w)) in
  table_ok key_hash t chains fl -> valued t chains -> x ∈ concat chains ->
  exists e p c, elem_at t x = Some e /\ e_val e = Some p /\
    socket_lookup t (e_key e) = Some p /\ p ∈ R /\ heap w !! p = Some c /\ sock_key c = e_key e.
Proof.
  intros Hw t Hok Hv Hx. destruct (Hv x Hx) as (e & p & He & Hp).
  assert (Hlk : socket_lookup t (e_key e) = Some p).
  { unfold socket_lookup.
    rewrite (table_get_holds key_hash key_eqb key_eqb_eq t chains fl (e_key e) x e Hok); [done| |done].
    split; [done|]. unfold elem_at in He. by rewrite He. }
  apply (wi_get _ _ _ _ Hw) in Hlk as Hreg. destruct Hreg as (HpR & c & Hc & Hk).
  by exists e, p, c.
Qed.

(** the sweep goes on after the element it just returned was deleted *)
Lemma delete_goes_on t chains fl it b l1 x l e :
  table_ok key_hash t chains fl -> valued t chains -> elem_at t x = Some e ->
  it_at t chains it b (l1 ++ [x]) l ->
  let rem := l ++ concat (drop (S b) chains) in
  let t' := socket_delete t (e_key e) in
  exists chains', table_ok key_hash t' chains' (x :: fl) /\ valued t' chains' /\
    it_rem t' chains' it rem /\ keys_at t' rem = keys_at t rem.
Proof.
  intros Hok Hv He Hat rem t'.
  pose proof (delete_returned key_hash key_eqb key_eqb_eq t chains fl it b l1 x l e Hok He Hat)
    as (Hok' & Hat' & _). exists (<[b := l1 ++ l]> chains).
  split; [exact Hok'|]. split; [|split].
  - eapply valued_delete; [exact Hok| |exact Hv]. destruct Hat as (_ & Hcb & _).
    by rewrite <- (assoc_L (++)) in Hcb.
  - right. exists b, l1, l. split; [exact Hat'|]. by rewrite drop_insert_lt by lia.
  - apply keys_at_ext. intros i Hi. eapply (delete_keeps_key _ _ key_eqb_eq); [done|].
    eapply (it_rem_elem t chains it rem); [|done]. right. by exists b, (l1 ++ [x]), l.
Qed.

(** a lookup that still succeeds succeeded before *)
Lemma lookup_deleted t k0 k :
  table_full key_hash t ->
  socket_lookup (socket_delete t k0) k = if decide (k = k0) then None else socket_lookup t k.
Proof. intros Hfull. apply (table_delete_spec key_hash key_eqb key_eqb_eq t k0 Hfull). Qed.

Lemma pending_delete n R t chains fl it b l1 x l e p :
  table_full key_hash t -> table_ok key_hash t chains fl -> valued t chains -> elem_at t x = Some e ->
  it_at t chains it b (l1 ++ [x]) l ->
  let rem := l ++ concat (drop (S b) chains) in
  pending n R t rem ->
  let t' := socket_delete t (e_key e) in
  exists chains', table_ok key_hash t' chains' (x :: fl) /\ valued t' chains' /\
    it_rem t' chains' it rem /\ pending n (R ∖ {[p]}) t' rem.
Proof.
  intros Hfull Hok Hv He Hat rem (P1 & P2 & P3) t'.
  destruct (delete_goes_on t chains fl it b l1 x l e Hok Hv He Hat) as (chains' & H1 & H2 & H3 & EK).
  exists chains'. fold rem t' in EK. split; [done|]. split; [done|]. split; [done|].
  split_and!; rewrite ?EK; [|done|].
  - intros q [Hq _]%elem_of_difference. by apply P1.
  - intros k q Hin Hl. apply (P3 k q Hin). unfold t' in Hl. rewrite (lookup_deleted _ _ _ Hfull) in Hl.
    by case_decide.
Qed.

Lemma wp_timeouts_loop : forall rem fuel n R chains fl it w,
  world_inv n max_samples R w ->
  let t := utp_sockets (ctx (w_sys w)) in
  table_ok key_hash t chains fl -> valued t chains -> it_rem t chains it rem ->
  (length rem < fuel)%nat -> pending n R t rem ->
  wp F (timeouts_loop fuel it) (fun _ w' => well w') w.
Proof.
  induction rem as [|x rem IH]; intros fuel n R chains fl it w Hw t Hok Hv Hrem Hf Hpend;
    (destruct fuel as [|fuel]; [cbn in Hf; lia|]); cbn [timeouts_loop]; apply wp_bind, wp_gets;
    cbn [sys HasSys_World]; fold t;
    pose proof (iterate_spec key_hash t chains fl Hok (wi_buckets _ _ _ _ Hw) it _ Hrem) as Hit;
    cbn [app] in Hit.
  - rewrite Hit. apply wp_ret. exists R. eapply world_inv_mono; [exact Hw| |done]. apply Hpend.
  - destruct Hit as (it' & b & l1 & l & e & -> & He & Hat & ->). rewrite He. cbn [mbind option_bind].
    assert (Hx : x ∈ concat chains).
    { destruct Hat as (_ & Hc & _). eapply elem_of_chains; [exact Hc|].
      rewrite !elem_of_app, list_elem_of_singleton. tauto. }
    destruct (element_socket n max_samples R chains fl x w Hw Hok Hv Hx) as (e' & p & c & He' & Hpe & Hlk & HpR & Hc & Hk).
    fold t in He', Hlk. assert (e' = e) as -> by congruence. rewrite Hpe.
    pose proof (pending_same n R t x e p (l ++ concat (drop (S b) chains)) c w Hw eq_refl He HpR Hc Hk Hpend)
      as Hpend1.
    set (n1 := fun q => if decide (q = p) then max_sent + 2 else n q) in *.
    apply wp_bind, (wp_run F n max_samples R p check_timeouts (max_sent + 2) max_samples);
      [exact Hw|exact HpR|done|].
    intros c0 Hc0 Hs. assert (c0 = c) as -> by congruence.
    assert (Hnp : n p <= max_sent).
    { apply (proj2 (proj2 Hpend) (e_key e)); [|done]. unfold keys_at. cbn [omap list_omap]. rewrite He. by left. }
    eapply wp_mono.
    { apply (wp_check_timeouts_ok F max_sent max_samples); [|done|done].
      eapply (sock_ok_mono (n p) max_sent max_samples max_samples); [done|lia|exact Hs]. }
    intros a s' [Hsv _]. split; [exact Hsv|]. fold n1. intros Hw1. set (w1 := mkWorld _ _) in *.
    assert (Et : utp_sockets (ctx (w_sys w1)) = t) by exact (kp_table _ _ (su_sys _ _ _ _ Hsv)).
    assert (Hc1 : heap w1 !! p = Some (me s')) by apply lookup_insert_eq.
    assert (Hk1 : sock_key (me s') = e_key e).
    { rewrite <- Hk. unfold sock_key. by rewrite (su_addr _ _ _ _ Hsv), (su_id _ _ _ _ Hsv). }
    apply wp_bind, (wp_read_socket F p (me s')); [exact Hc1|]. apply wp_bind, wp_when; intros _.
    + apply (wp_destroy_socket n1 max_samples R p (me s')); [exact Hw1|exact HpR|exact Hc1|].
      intros y2 Hd. pose proof (destroyed_inv _ _ _ _ _ _ _ Hw1 HpR Hc1 Hd) as Hw2.
      pose proof (ds_table _ _ _ _ Hd) as Et2. rewrite Et, Hk1 in Et2.
      destruct (pending_delete n1 R t chains fl it' b l1 x l e p (wi_table _ _ _ _ Hw) Hok Hv He Hat Hpend1)
        as (chains' & Hok' & Hv' & Hrem' & Hpend'). rewrite <- Et2 in *.
      apply (IH fuel n1 (R ∖ {[p]}) chains' (x :: fl) it'); try done. cbn in Hf. lia.
    + apply (IH fuel n1 R chains fl it' w1); [exact Hw1|..]; rewrite ?Et; try done; [|cbn in Hf; lia].
      right. exists b, (l1 ++ [x]), l. by split.
Qed.

(** ** The resets sent *)
Lemma sweep_rst_rep now : forall fuel i arr l, arr_rep arr l -> 0 <= i ->
  exists arr' l', sweep_rst fuel i now arr = Some arr' /\ arr_rep arr' l' /\ (length l' <= length l)%nat.
Proof.
  induction fuel as [|fuel IH]; intros i arr l Hr Hi; cbn [sweep_rst]; [by exists arr, l|].
  unfold GetCount. rewrite (arr_rep_count _ _ Hr).
  destruct (Z.ltb_spec i (Z.of_nat (length l))) as [Hlt|]; [|by exists arr, l].
  destruct (lookup_lt_is_Some_2 l (Z.to_nat i)) as [r Hri]; [lia|].
  rewrite (arr_rep_at _ _ i r Hr) by (done || lia). cbn [mbind option_bind].
  case_match; [|apply IH; [done|lia]].
  destruct (MoveUpLast_rep _ _ i Hr ltac:(lia)) as (a1 & b1 & -> & Hr1).
  destruct (IH i _ _ Hr1 Hi) as (arr' & l' & Hs & Hl' & Hle). exists arr', l'.
  split_and!; [done..|]. rewrite length_swap_remove in Hle by lia. lia.
Qed.

Lemma expire_rst_rep now arr l :
  arr_rep arr l ->
  exists arr' l', expire_rst now arr = Some arr' /\ arr_rep arr' l' /\ (length l' <= length l)%nat.
Proof.
  intros Hr. unfold expire_rst.
  destruct (sweep_rst_rep now (Z.to_nat (GetCount arr)) 0 arr l Hr ltac:(done)) as (arr' & l' & -> & Hl' & Hle).
  cbn [mbind option_bind]. eexists _, l'. split_and!; [done| |done]. case_match; [done|]. by apply Compact_rep.
Qed.

(** ** utp_check_timeouts *)
Lemma wp_utp_check_timeouts_ok R w :
  before R w -> wp F utp_check_timeouts (fun _ w' => well w') w.
Proof.
  intros Hw. unfold utp_check_timeouts, utp_call_get_milliseconds.
  apply wp_bind, (wp_world_call F (fun _ => max_sent) max_samples R); [done|exact Hw|]. intros v y1 Hw1 _ _.
  assert (Hupd : forall w1 f, before R w1 ->
    (forall c, ack_sockets (f c) = ack_sockets c /\ callbacks (f c) = callbacks c /\
      utp_sockets (f c) = utp_sockets c /\ last_utp_socket (f c) = last_utp_socket c) ->
    (forall l, arr_rep (rst_info (ctx (w_sys w1))) l -> exists l', arr_rep (rst_info (f (ctx (w_sys w1)))) l' /\
       (length l' <= length l)%nat) ->
    before R (mkWorld (heap w1) ((w_sys w1) <| ctx ::= f |>))).
  { intros w1 f H1 Hf Hr. apply world_inv_ctx; [exact H1|intros c; by destruct (Hf c) as (? & ? & ? & _)|].
    cbn zeta. destruct (Hf (ctx (w_sys w1))) as (_ & _ & _ & ->). split; [apply (wi_last _ _ _ _ H1)|].
    destruct (wi_rst _ _ _ _ H1) as (l & Hl & Hle). destruct (Hr l Hl) as (l' & Hl' & Hle').
    exists l'. split; [done|lia]. }
  apply wp_bind, wp_modify. cbn [sys put_sys HasSys_World heap w_sys]. set (w2 := mkWorld _ _).
  assert (Hw2 : before R w2) by (apply (Hupd _ _ Hw1); [by intros []|intros l; exists l; by destruct (ctx y1)]).
  clearbody w2. apply wp_bind, wp_gets. cbn [sys HasSys_World].
  apply wp_when; intros _; [|exists R; by apply before_after].
  apply wp_bind, wp_modify. cbn [sys put_sys HasSys_World heap w_sys]. set (w3 := mkWorld _ _).
  assert (Hw3 : before R w3)
    by (apply (Hupd _ _ Hw2); [by intros []|intros l; exists l; by destruct (ctx (w_sys w2))]).
  clearbody w3. apply wp_bind, wp_gets. cbn [sys HasSys_World].
  destruct (wi_rst _ _ _ _ Hw3) as (l3 & Hl3 & _).
  destruct (expire_rst_rep v _ l3 Hl3) as (arr' & l' & -> & Hl' & Hle').
  unfold mod_rst. apply wp_bind, wp_modify. cbn [sys put_sys HasSys_World heap w_sys]. set (w4 := mkWorld _ _).
  assert (Hw4 : before R w4).
  { apply (Hupd _ _ Hw3); [by intros []|]. intros l Hl. exists l'.
    rewrite (arr_rep_inj _ _ _ Hl Hl3). by destruct (ctx (w_sys w3)). }
  clearbody w4. apply wp_bind, wp_gets. cbn [sys HasSys_World].
  pose proof (wi_table _ _ _ _ Hw4) as (chains & fl & Hok & Hfull).
  apply (wp_timeouts_loop (concat chains) _ (fun _ => max_sent) R chains fl); try done; [by left| |].
  - rewrite (ok_count _ _ _ _ Hok). lia.
  - split_and!; [done|by eapply (keys_at_nodup key_hash)|done].
Qed.
End Wp.
