(* ===== verification/DeferredAcks.v ===== *)
(** * Working off the acknowledgements that are due

    utp_issue_deferred_acks (src/utp_internal.cpp): each round sends an
    acknowledgement for the first socket of the list, which takes that socket, and
    no other, off the list; so the loop ends, with an empty list, and every socket
    that was on it has sent a datagram. *)
From S2P Require Import Prelude Wrap Packet Ring Arrays SockAddr Hash HashMap Context AckList.
From S2P Require Import Socket Frame MtuSearch Send SendQueue SendInv Reorder Ack Incoming Timeouts Api.
From S2P Require Import AckQueue Receive RecvInv IncomingSafe SockOps World WorldOps WorldCalls.

(** a datagram of [p] is among the calls *)
Definition has_sent (p : ptr) (rs : list request) : Prop :=
  exists bs a fl, Sendto p bs a fl ∈ rs.

(** Between [y0] and [y]: the list is now [l], [p] is live, and if [b], a datagram
    was sent for [p]. *)
Record sending (l : list ptr) (p : ptr) (y0 : Sys) (b : bool) (y : Sys) : Prop := {
  sn_list : ack_ok l y;
  sn_live : is_Some (idas y !! p);
  sn_cb : callbacks (ctx y) = callbacks (ctx y0);
  sn_trace : exists rs, trace y = rs ++ trace y0 /\
    (b = true -> has_callback (ctx y0) UTP_SENDTO = true -> has_sent p rs);
}.

Lemma sending_start l p y : ack_ok l y -> is_Some (idas y !! p) -> sending l p y false y.
Proof. intros. split; try done. by exists []. Qed.

Lemma sending_ctx l p y0 b y f :
  (forall c, ack_sockets (f c) = ack_sockets c /\ callbacks (f c) = callbacks c) ->
  sending l p y0 b y -> sending l p y0 b (y <| ctx ::= f |>).
Proof.
  intros Hf [Hl Hp Hc Ht]. destruct y as [c ids tr]. destruct (Hf c) as [Ea Ec].
  split; cbn in *; [|done|congruence|done]. exact (ack_ok_other l (mkSys c ids tr) (f c) tr Ea Hl).
Qed.

Lemma sending_push l p y0 b y r :
  sending l p y0 b y -> sending l p y0 b (y <| trace ::= cons r |>).
Proof.
  intros [Hl Hp Hc (rs & Et & Hs)]. destruct y as [c ids tr]. split; cbn in *; try done.
  - exact (ack_ok_other l (mkSys c ids tr) c (r :: tr) eq_refl Hl).
  - exists (r :: rs). split; [by rewrite Et|]. intros Hb Hcb.
    destruct (Hs Hb Hcb) as (bs & a & fl & Hin). exists bs, a, fl. by right.
Qed.

Lemma sending_sent l p y0 b y bs a fl :
  sending l p y0 b y -> sending l p y0 true (y <| trace ::= cons (Sendto p bs a fl) |>).
Proof.
  intros H. destruct (sending_push l p y0 b y (Sendto p bs a fl) H) as [H1 H2 H3 _].
  split; try done. destruct H as [_ _ _ (rs & Et & _)]. exists (Sendto p bs a fl :: rs).
  split; [destruct y; cbn in *; by rewrite Et|]. intros _ _. exists bs, a, fl. by left.
Qed.

Section Wp.
Context {E : Env} (F : fault -> Prop).

Lemma wp_call_sending l p y0 b name r (Q : Z -> St -> Prop) c y :
  sending l p y0 b y -> (forall v y', sending l p y0 b y' -> Q v (mkSt c y')) ->
  wp F (call name r) Q (mkSt c y).
Proof.
  intros Hs H. unfold call. apply wp_bind, wp_get, wp_if; intros _.
  - apply wp_bind, wp_modify, wp_ret, H. by apply sending_push.
  - by apply wp_ret, H.
Qed.

Lemma wp_notify_sending l p y0 b name r (Q : unit -> St -> Prop) c y :
  sending l p y0 b y -> (forall y', sending l p y0 b y' -> Q tt (mkSt c y')) ->
  wp F (notify name r) Q (mkSt c y).
Proof.
  intros Hs H. unfold notify. apply wp_bind. apply (wp_call_sending l p y0 b); [done|].
  intros v y' Hy. by apply wp_ret, H.
Qed.

Lemma wp_sendto_sending l p y0 b bs a fl (Q : unit -> St -> Prop) c y :
  sending l p y0 b y -> (forall y', sending l p y0 true y' -> Q tt (mkSt c y')) ->
  wp F (send_to_addr p bs a fl) Q (mkSt c y).
Proof.
  intros Hs H. unfold send_to_addr, utp_register_sent_packet, utp_call_sendto, notify, call. wp_steps.
  pose proof (sending_ctx l p y0 b y (fun x => x <| nraw_send ::= count_packet (Z.of_nat (length bs)) |>)
    ltac:(by intros []) Hs) as Hs1.
  apply wp_if; intros Hc; wp_steps.
  - eapply H, sending_sent. exact Hs1.
  - apply H. destruct Hs1 as [S1 S2 S3 (rs & Et & _)]. split; try done. exists rs. split; [done|].
    intros _ Hcb. unfold has_callback in Hc, Hcb. rewrite S3 in Hc. congruence.
Qed.

(** taken off the list, if it was on it *)
Lemma wp_remove_sending l p y0 b (Q : unit -> St -> Prop) c y :
  sending l p y0 b y ->
  (forall l' y', sending l' p y0 b y' -> p ∉ l' -> (l ≡ₚ l') \/ (l ≡ₚ p :: l') -> Q tt (mkSt c y')) ->
  wp F (lift_sys (removeSocketFromAckList p)) Q (mkSt c y).
Proof.
  intros [Hl Hp Hc Ht] H. apply wp_lift_sys. cbn [sys HasSys_St st_sys].
  destruct (remove_spec l y Hl p Hp) as (y' & l' & E' & Hl' & [Htr Hx Hd] & Hout & Hperm).
  unfold wp. rewrite E'. apply (H l'); [|done|done]. split; [done|by apply Hd| |by rewrite Htr].
  rewrite <- Hc, <- Hx. by destruct (ctx y').
Qed.

End Wp.

Section Sent.
Context {E : Env}.

(** sending a packet does all of it *)
Definition off_list (l : list ptr) (p : ptr) (y0 : Sys) (y : Sys) : Prop :=
  exists l', sending l' p y0 true y /\ (p ∉ l') /\ ((l ≡ₚ l') \/ (l ≡ₚ p :: l')).

Lemma wp_send_data_sending l p y0 h rest len type fl c y :
  this c = p -> sending l p y0 false y ->
  wp (fun _ => True) (send_data h rest len type fl)
    (fun _ s' => off_list l p y0 (st_sys s')) (mkSt c y).
Proof.
  intros <- Hs. unfold send_data, utp_call_get_microseconds. wp_steps.
  apply (wp_call_sending _ l (this c) y0 false); [done|]. intros time y1 S1. wp_steps.
  set (c1 := c <| last_sent_packet := _ |>).
  assert (Hrest : forall y2, sending l (this c) y0 false y2 -> forall h1, wp (fun _ => True)
    (a ← my addr;
     send_to_addr (this c) (take (Z.to_nat len) (encode_header h1 ++ rest)) a fl ;;
     lift_sys (removeSocketFromAckList (this c)) ;; mret h1)
    (fun _ s' => off_list l (this c) y0 (st_sys s')) (mkSt c1 y2)).
  { intros y2 S2 h1. wp_steps. apply (wp_sendto_sending _ l _ y0 false); [done|]. intros y3 S3. wp_steps.
    apply (wp_remove_sending _ l _ y0 true); [done|]. intros l' y4 S4 Hout Hperm. wp_steps. by exists l'. }
  apply wp_when; intros _; [|by apply Hrest].
  destruct type; unfold get_overhead, get_udp_overhead, utp_call_get_udp_overhead; wp_steps;
    (apply (wp_call_sending _ l (this c) y0 false); [done|]; intros v y2 S2; wp_steps;
     apply (wp_notify_sending _ l (this c) y0 false); [done|]; intros y3 S3; by apply Hrest).
Qed.

Lemma off_list_again l p y0 l' y :
  (p ∉ l') -> (l ≡ₚ l') \/ (l ≡ₚ p :: l') -> off_list l' p y0 y -> off_list l p y0 y.
Proof.
  intros Hout Hp (l2 & S2 & Hout2 & [Hp2|Hp2]); exists l2; (split; [done|]); (split; [done|]).
  - by rewrite <- Hp2.
  - destruct Hout. rewrite Hp2. by left.
Qed.

(** sending the acknowledgement does, too *)
Lemma wp_send_ack_listing l synack c y :
  ack_ok l y -> is_Some (idas y !! this c) ->
  wp (fun _ => True) (send_ack synack)
    (fun _ s' => off_list l (this c) y (st_sys s')) (mkSt c y).
Proof.
  intros Hl Hp. pose proof (sending_start l (this c) y Hl Hp) as S0.
  unfold send_ack, get_rcv_window, utp_call_get_read_buffer_size. wp_steps.
  apply (wp_call_sending _ l (this c) y false); [done|]. intros v y1 S1. wp_step.
  apply wp_assert; [intros _|done]. wp_steps. set (c1 := c <| wn ::= _ |>).
  assert (Et : this c1 = this c) by by destruct c.
  assert (Hend : forall h rest len, wp (fun _ => True) (send_data h rest len ack_overhead 0)
    (fun _ s' => wp (fun _ => True) (lift_sys (removeSocketFromAckList (this c1)))
       (fun _ s' => off_list l (this c) y (st_sys s')) s') (mkSt c1 y1)).
  { intros h rest len. eapply wp_mono; [by apply (wp_send_data_sending l (this c) y)|].
    intros h' [c2 y2] (l' & S2 & Hout & Hperm). rewrite Et.
    apply (wp_remove_sending _ l' (this c) y true); [done|]. intros l2 y3 S3 Hout3 Hperm3.
    apply (off_list_again l _ y l'); [done|done|]. by exists l2. }
  apply wp_if; intros _; [|apply Hend]. wp_step. apply wp_assert; [intros _|done]. wp_step.
  apply wp_assert; [intros _|done]. apply Hend.
Qed.
End Sent.

(** ** The loop *)
Section Loop.
Context {E : Env} {HA : GoodApp} (F : fault -> Prop).

(** a blank socket can acknowledge, too: it stays blank *)
Lemma blank_acked n m R w p c wn' t y' :
  world_inv n m R w -> heap w !! p = Some c -> p ∉ R -> sys_kept (w_sys w) y' ->
  world_inv n m R (mkWorld (<[p := c <| wn := wn' |> <| last_sent_packet := t |>]> (heap w)) y').
Proof.
  intros Hw Hc Hp Hk.
  apply (world_inv_blank (world_inv_sys Hw y' Hk) p c); [done|done|by destruct c|].
  destruct (wi_blank _ _ _ _ Hw p c Hc Hp). by destruct c; split.
Qed.

(** one round: the first socket of the list *)
Lemma wp_ack_round n m R p l w :
  world_inv n m R w -> ack_ok (p :: l) (w_sys w) ->
  wp F (on_socket p (send_ack false)) (fun _ w' => world_inv n m R w' /\
    exists l', ack_ok l' (w_sys w') /\ (l' ≡ₚ l) /\ callbacks (ctx (w_sys w')) = callbacks (ctx (w_sys w)) /\
      exists rs, trace (w_sys w') = rs ++ trace (w_sys w) /\
        (has_callback (ctx (w_sys w)) UTP_SENDTO = true -> has_sent p rs)) w.
Proof.
  intros Hw Hl. destruct (ack_live _ _ Hl p) as [i Hi]; [by left|].
  assert (Hin : is_Some (heap w !! p)) by (apply elem_of_dom; rewrite (wi_dom _ _ _ _ Hw); by apply elem_of_dom).
  destruct Hin as [c Hc]. pose proof (wi_this _ _ _ _ Hw p c Hc) as Ht.
  apply (wp_on_socket F p c); [done|]. eapply wp_mono.
  - apply wp_strengthen; [|by apply (wp_send_ack_listing (p :: l)); [|rewrite Ht]].
    apply (wp_send_ack F false (fun _ s' => world_inv n m R (mkWorld (<[p := me s']> (heap w)) (st_sys s')))).
    + rewrite Ht. by apply (live_sys Hw); eexists.
    + intros Hn Hg. split; [done|]. apply rq_safe_next; [|done]. destruct (decide (p ∈ R)) as [Hp|Hp].
      * apply (sk_recv _ _ _ (wi_reg _ _ _ _ Hw p c Hc Hp)).
      * apply (bk_rq _ (wi_blank _ _ _ _ Hw p c Hc Hp)).
    + intros w' y' Hy _ _. cbn [me st_sys]. destruct (decide (p ∈ R)) as [Hp|Hp].
      * pose proof (survives_acked (n p) m c (w_sys w) w' (current_ms (ctx (w_sys w))) y'
          (wi_reg _ _ _ _ Hw p c Hc Hp) Hy) as Hsv.
        eapply world_inv_mono; [exact (world_inv_ran Hw p c _ (n p) m Hc Hp Hsv (Z.le_refl m))| |done].
        intros q _. cbn beta. by case_decide as Hq; [subst|].
      * apply blank_acked; try done. by eapply sys_next_kept.
  - intros x s' [H1 (l' & [S1 S2 S3 S4] & Hout & Hperm)]. split; [done|]. exists l'. cbn [w_sys].
    rewrite Ht in *. split; [done|]. split.
    + destruct Hperm as [Hp|Hp]; [|by apply Permutation_cons_inv in Hp].
      destruct Hout. rewrite <- Hp. by left.
    + split; [done|]. destruct S4 as (rs & Et & Hs). exists rs. split; [done|]. by apply Hs.
Qed.

Lemma wp_deferred_loop n m R y0 : forall fuel l w,
  world_inv n m R w -> ack_ok l (w_sys w) -> (length l <= fuel)%nat ->
  callbacks (ctx (w_sys w)) = callbacks (ctx y0) ->
  forall rs0 sent, trace (w_sys w) = rs0 ++ trace y0 ->
  (has_callback (ctx y0) UTP_SENDTO = true -> forall p, p ∈ sent -> has_sent p rs0) ->
  wp F (deferred_acks_loop fuel) (fun _ w' => world_inv n m R w' /\ ack_ok [] (w_sys w') /\
    exists rs, trace (w_sys w') = rs ++ trace y0 /\
      (has_callback (ctx y0) UTP_SENDTO = true -> forall p, p ∈ l ++ sent -> has_sent p rs)) w.
Proof.
  induction fuel as [|fuel IH]; intros l w Hw Hl Hf Hcb rs0 sent Htr Hsent; cbn [deferred_acks_loop];
    apply wp_bind, wp_gets; cbn [sys HasSys_World]; unfold GetCount; rewrite (arr_rep_count _ _ (ack_arr _ _ Hl));
    (destruct l as [|p l]; [apply wp_ret; split; [done|]; split; [done|]; by exists rs0|]); [cbn in Hf; lia|].
  destruct (Z.ltb_spec 0 (Z.of_nat (length (p :: l)))) as [_|Hlt]; [|cbn in Hlt; lia].
  apply wp_bind, wp_lift_sys. unfold wp at 1. cbn [sys HasSys_World]. rewrite (ack_at_spec (p :: l) _ Hl 0 p); [|done|done].
  cbn [put_sys sys HasSys_World]. replace (mkWorld (heap w) (w_sys w)) with w by by destruct w.
  change (wp F (on_socket p (send_ack false) ;; deferred_acks_loop fuel) (fun _ w' => world_inv n m R w' /\
    ack_ok [] (w_sys w') /\ exists rs, trace (w_sys w') = rs ++ trace y0 /\
      (has_callback (ctx y0) UTP_SENDTO = true -> forall q, q ∈ (p :: l) ++ sent -> has_sent q rs)) w).
  apply wp_bind. eapply wp_mono; [by apply wp_ack_round|].
  intros x w1 (Hw1 & l1 & Hl1 & Hp1 & Hcb1 & rs1 & Ht1 & Hs1). eapply wp_mono.
  - apply (IH l1 w1 Hw1 Hl1) with (rs0 := rs1 ++ rs0) (sent := p :: sent);
      [rewrite Hp1; cbn in Hf; lia|congruence| |].
    + by rewrite Ht1, Htr, (assoc_L (++)).
    + intros Hc q Hq. unfold has_sent. apply elem_of_cons in Hq as [->|Hq].
      * destruct Hs1 as (bs & a & fl & Hin); [unfold has_callback in *; by rewrite Hcb|].
        exists bs, a, fl. apply elem_of_app. by left.
      * destruct (Hsent Hc q Hq) as (bs & a & fl & Hin). exists bs, a, fl. apply elem_of_app. by right.
  - intros z w2 (Hw2 & Hl2 & rs & Ht2 & Hs2). split; [done|]. split; [done|]. exists rs. split; [done|].
    intros Hc q Hq. apply Hs2; [done|]. revert Hq. rewrite Hp1, !elem_of_app, !elem_of_cons. tauto.
Qed.

(** the whole call *)
Lemma wp_issue_deferred_acks n m R l w :
  world_inv n m R w -> ack_ok l (w_sys w) ->
  wp F utp_issue_deferred_acks (fun _ w' => world_inv n m R w' /\ ack_ok [] (w_sys w') /\
    exists rs, trace (w_sys w') = rs ++ trace (w_sys w) /\
      (has_callback (ctx (w_sys w)) UTP_SENDTO = true -> forall p, p ∈ l -> has_sent p rs)) w.
Proof.
  intros Hw Hl. unfold utp_issue_deferred_acks. apply wp_bind, wp_gets. cbn [sys HasSys_World].
  unfold GetCount. rewrite (arr_rep_count _ _ (ack_arr _ _ Hl)). eapply wp_mono.
  - apply (wp_deferred_loop n m R (w_sys w) _ l w Hw Hl) with (rs0 := []) (sent := []); try done; [lia|].
    by intros _ p ?%elem_of_nil.
  - intros x w' (H1 & H2 & rs & Ht & Hs). split; [done|]. split; [done|]. exists rs. split; [done|].
    intros Hc p Hp. apply Hs; [done|]. by rewrite app_nil_r.
Qed.
End Loop.
