(* ===== verification/Calls.v ===== *)
(** * The application's calls, one after another

    The public functions as one type of calls, the conditions under which the
    documentation lets an application make them, and the states a program can
    reach (src/utp.h, src/utp_internal.cpp).  [well] holds in all of them. *)
From S2P Require Import Prelude Wrap Packet Ring Delay DelayAvg Arrays SockAddr Hash HashMap Context AckList.
From S2P Require Import Socket Frame MtuSearch Send SendQueue SendInv Reorder Ack Incoming Timeouts Api.
From S2P Require Import AckQueue AckStages Receive RecvInv IncomingSafe SockOps World WorldOps WorldOpen.
From S2P Require Import WorldCalls WorldTune WorldTimers DeferredAcks.

Inductive api_call :=
| ProcessUdp (buffer : list Z) (to : sockaddr)
| ProcessIcmpError (buffer : list Z) (to : sockaddr)
| ProcessIcmpFragmentation (buffer : list Z) (to : sockaddr) (next_hop_mtu : Z)
| CheckTimeouts
| IssueDeferredAcks
| CreateSocket
| Connect (p : ptr) (to : sockaddr)
| Writev (p : ptr) (iov : list (list Z))
| ReadDrained (p : ptr)
| Close (p : ptr)
| Shutdown (p : ptr) (how : Z)
| SetSockOpt (p : ptr) (opt val : Z)
| SetUserdata (p : ptr) (data : Z)
| SetContextOption (opt val : Z)
| SetCallback (name : Z) (set : bool)
| SetContextUserdata (data : Z).

(** the socket was opened and has not been destroyed *)
Definition registered (w : World) (p : ptr) : Prop :=
  exists k, socket_lookup (utp_sockets (ctx (w_sys w))) k = Some p.

(** what an application may do *)
Definition legal (w : World) (a : api_call) : Prop :=
  match a with
  | ProcessUdp buffer _ => Forall is_u8 buffer /\ Z.of_nat (length buffer) < 2147483648
  | ProcessIcmpError _ _ | ProcessIcmpFragmentation _ _ _ => True
  | CheckTimeouts | IssueDeferredAcks | CreateSocket => True
  | Connect p _ => is_Some (heap w !! p) /\ ~ registered w p
  | Writev p iov => registered w p /\ iov <> []
  | ReadDrained p => registered w p /\ forall c, heap w !! p = Some c -> state c <> CS_UNINITIALIZED
  | Close p | Shutdown p _ => registered w p /\ forall c, heap w !! p = Some c -> closable (state c) = true
  | SetSockOpt p opt val => is_Some (heap w !! p) /\ (opt = UTP_SNDBUF \/ opt = UTP_RCVBUF -> 1 <= val)
  | SetUserdata p _ => is_Some (heap w !! p)
  | SetContextOption opt val => opt = UTP_SNDBUF \/ opt = UTP_RCVBUF -> 1 <= val
  | SetCallback name set => 0 <= name < UTP_ARRAY_SIZE /\ (name = UTP_GET_UDP_MTU -> set = true)
  | SetContextUserdata _ => True
  end.

(** The counters that are not protected against overflow are far from it: no
    packet has been sent [max_sent] times, no socket has seen [max_samples] delay
    samples in five seconds, and there are not 2^31 sockets. *)
Definition calm_queue (q : SendQueue) : bool :=
  forallb (fun j => match slot q j with
                    | Some p => pk_transmissions p + b2z (pk_need_resend p) <=? max_sent
                    | None => true
                    end) (zseq (Z.to_nat (cur_window_packets q))).

Definition calm_socket (c : UTPSocket) : bool :=
  calm_queue (sq c) && (current_delay_samples (avg (dl c)) <=? max_samples).

Definition calm (w : World) : bool :=
  (Z.of_nat (size (heap w)) + 2 <? INT_MAX) && forallb (fun x => calm_socket x.2) (map_to_list (heap w)).

Section Run.
Context {E : Env}.

(** [tries] bounds utp_connect's search for an unused connection id *)
Definition perform (tries : nat) (a : api_call) : M World unit :=
  match a with
  | ProcessUdp buffer to => utp_process_udp buffer to ;; mret tt
  | ProcessIcmpError buffer to => utp_process_icmp_error buffer to ;; mret tt
  | ProcessIcmpFragmentation buffer to mtu => utp_process_icmp_fragmentation buffer to mtu ;; mret tt
  | CheckTimeouts => utp_check_timeouts
  | IssueDeferredAcks => utp_issue_deferred_acks
  | CreateSocket => create_socket ;; mret tt
  | Connect p to => on_socket p (utp_connect tries to) ;; mret tt
  | Writev p iov => on_socket p (utp_writev iov) ;; mret tt
  | ReadDrained p => on_socket p utp_read_drained
  | Close p => on_socket p utp_close
  | Shutdown p how => on_socket p (utp_shutdown how)
  | SetSockOpt p opt val => on_socket p (utp_setsockopt opt val) ;; mret tt
  | SetUserdata p data => on_socket p (upd (utp_set_userdata data))
  | SetContextOption opt val => utp_context_set_option opt val ;; mret tt
  | SetCallback name set =>
      c ← get_ctx (fun c => c);
      match utp_set_callback name set c with Some c => mod_ctx (fun _ => c) | None => fail OutOfBounds end
  | SetContextUserdata data => mod_ctx (utp_context_set_userdata data)
  end.

(** a program before its first socket *)
Record fresh_context (c : utp_context) : Prop := {
  fc_table : UTPSocketHT_init = Some (utp_sockets c);
  fc_acks : ack_sockets c = arr_init;
  fc_rst : rst_info c = arr_init;
  fc_last : last_utp_socket c = NULL;
  fc_mtu : has_callback c UTP_GET_UDP_MTU = true;
}.

Inductive reachable (tries : nat) : World -> Prop :=
| reach_start c : fresh_context c -> reachable tries (mkWorld ∅ (mkSys c ∅ []))
| reach_call w a w' :
    reachable tries w -> calm w = true -> legal w a -> perform tries a w = Ok tt w' ->
    reachable tries w'.
End Run.

(** ** The invariant at the start of a call *)
Lemma sq_ok_tighten n n' q :
  sq_ok n q -> (forall j p, 0 <= j < cur_window_packets q -> slot q j = Some p ->
    pk_transmissions p + b2z (pk_need_resend p) <= n') -> sq_ok n' q.
Proof.
  intros [H1 H2 H3 H4 H5 H6 H7 H8] Hn. split; try done. intros j p Hj Hp.
  destruct (H7 j p Hj Hp). split; try done. by apply (Hn j p).
Qed.

Lemma calm_queue_spec q j p :
  calm_queue q = true -> 0 <= j < cur_window_packets q -> slot q j = Some p ->
  pk_transmissions p + b2z (pk_need_resend p) <= max_sent.
Proof.
  intros Hc Hj Hp. unfold calm_queue in Hc. rewrite forallb_forall in Hc. specialize (Hc j).
  rewrite Hp in Hc. apply Z.leb_le, Hc. apply list_elem_of_In, elem_of_zseq. lia.
Qed.

(** the two counters, measured again *)
Lemma sock_ok_tighten n n' m m' c y :
  sock_ok n m (mkSt c y) ->
  (forall j p, 0 <= j < cur_window_packets (sq c) -> slot (sq c) j = Some p ->
    pk_transmissions p + b2z (pk_need_resend p) <= n') ->
  current_delay_samples (avg (dl c)) <= m' ->
  sock_ok n' m' (mkSt c y).
Proof.
  intros [[C1 C2 C3 C4] S2 S3 S4 S5 S6 S7] Hn Hm. cbn [me st_sys] in *.
  split; cbn [me st_sys]; try assumption. split; cbn [me st_sys]; try assumption.
  eapply sq_ok_tighten; [exact C2|exact Hn].
Qed.

Lemma calm_start R w : after R w -> calm w = true -> before R w /\ room w.
Proof.
  intros Hw [Hr Hc]%andb_true_iff. apply Z.ltb_lt in Hr. split; [|exact Hr].
  rewrite forallb_forall in Hc. destruct Hw as [V1 V2 V3 V4 V5 V6 V7 V8 V9 V10 V11 V12].
  split; try assumption. intros p c Hp Hin.
  assert (Hs : calm_socket c = true).
  { apply (Hc (p, c)), list_elem_of_In, elem_of_map_to_list. exact Hp. }
  apply andb_true_iff in Hs as [Hq Hd%Z.leb_le].
  eapply sock_ok_tighten; [exact (V4 p c Hp Hin)| |exact Hd].
  intros j pk Hj Hpk. by apply (calm_queue_spec (sq c) j).
Qed.

Lemma empty_inv c n m : fresh_context c -> world_inv n m ∅ (mkWorld ∅ (mkSys c ∅ [])).
Proof.
  intros [F1 F2 F3 F4 F5]. injection F1 as F1. symmetry in F1.
  assert (Hfull : table_full (V := ptr) key_hash (empty_table UTP_SOCKET_BUCKETS UTP_SOCKET_INIT))
    by (apply create_full; done).
  assert (Hl : ack_ok [] (mkSys c ∅ [])).
  { split; cbn; try done; [by rewrite F2|apply NoDup_nil_2|by intros p ?%elem_of_nil]. }
  split; cbn [heap w_sys ctx idas]; rewrite ?F1, ?F3, ?F4; try done.
  - by split; [exists []|..].
  - intros k p. split; [|by intros [?%elem_of_empty _]]. unfold socket_lookup. by rewrite create_get.
  - by left.
  - by exists [].
Qed.

Lemma registered_in n m R w p : world_inv n m R w -> registered w p <-> p ∈ R.
Proof.
  intros Hw. split.
  - intros [k Hk]. by eapply (lookup_reg Hw).
  - intros Hp. destruct (reg_sock Hw p Hp) as (c & Hc & _). exists (sock_key c). by apply (reg_lookup Hw).
Qed.

(** ** Each call *)
Section Safe.
Context {E : Env} {HA : GoodApp}.

(** A datagram can lead to a read past the end of a selective acknowledgement or
    to a failed assertion of the congestion controller; the search for a
    connection id need not end.  Nothing else goes wrong. *)
Definition allowed_fault (a : api_call) (f : fault) : Prop :=
  incoming_fault f \/ (f = OutOfFuel /\ exists p to, a = Connect p to).

Lemma wp_registered F R p {A} (mm : M St A) w :
  before R w -> registered w p ->
  (forall c y, heap w !! p = Some c -> sock_ok max_sent max_samples (mkSt c y) ->
     wp F mm (fun _ s' => survives max_sent max_samples (mkSt c y) s') (mkSt c y)) ->
  wp F (on_socket p mm) (fun _ w' => well w') w.
Proof.
  intros Hw Hp%(registered_in _ _ _ _ _ Hw) H. eapply wp_mono.
  - apply (wp_method F R p); [done|done|]. intros c y Hc Hs. eapply wp_mono; [by apply H|].
    intros a s' Hv. eapply survives_less; [..|exact Hv]; done.
  - intros a w' Hw'. by exists R.
Qed.

Lemma wp_perform tries a w :
  well w -> calm w = true -> legal w a ->
  wp (allowed_fault a) (perform tries a) (fun _ w' => well w') w.
Proof.
  intros [R0 H0] Hcalm Hl. destruct (calm_start R0 w H0 Hcalm) as [Hw Hroom]. clear H0.
  assert (HF : forall f, incoming_fault f -> allowed_fault a f) by (intros f Hf; by left).
  assert (Hret : forall {A} (mm : M World A), wp (allowed_fault a) mm (fun _ w' => well w') w ->
    wp (allowed_fault a) (mm ;; mret tt) (fun _ w' => well w') w).
  { intros A mm H. apply wp_bind. eapply wp_mono; [exact H|]. intros x w' Hw'. by apply wp_ret. }
  assert (Hb : 1 <= max_sent < 2147483647) by done.
  destruct a as [buffer to|buffer to|buffer to mtu| | | |p to|p iov|p|p|p how|p opt v|p v|opt v|name set|v]; cbn [perform legal] in *.
  - destruct Hl. by apply Hret, (wp_process_udp_ok _ HF R0).
  - by apply Hret, (wp_process_icmp_error_ok _ HF R0).
  - by apply Hret, (wp_process_icmp_fragmentation_ok _ HF R0).
  - by apply (wp_utp_check_timeouts_ok _ R0).
  - destruct (sg_acks _ (wi_sys _ _ _ _ Hw)) as [l Hacks]. eapply wp_mono; [exact (wp_issue_deferred_acks _ (fun _ => max_sent) max_samples R0 l w Hw Hacks)|].
    intros x w' (Hw' & _). exists R0. by apply before_after.
  - apply Hret. apply (wp_create _ (fun _ => max_sent) max_samples R0); [exact Hw|exact Hroom|].
    intros p w' Hw' _ _ _. exists R0. by apply before_after.
  - destruct Hl as [Hp Hreg]. rewrite (registered_in _ _ _ _ _ Hw) in Hreg.
    apply Hret, (wp_connect_ok _ R0); try done. right. eauto.
  - destruct Hl as [Hp Hne]. apply Hret, (wp_registered _ R0); [done|done|].
    intros c y _ Hs. by apply wp_utp_writev_ok.
  - destruct Hl as [Hp Hst]. apply (wp_registered _ R0); [done|done|].
    intros c y Hc Hs. apply wp_utp_read_drained_ok; [done|by apply Hst].
  - destruct Hl as [Hp Hst]. apply (wp_registered _ R0); [done|done|].
    intros c y Hc Hs. apply wp_utp_close_ok; [done|done|by apply Hst].
  - destruct Hl as [Hp Hst]. apply (wp_registered _ R0); [done|done|].
    intros c y Hc Hs. apply wp_utp_shutdown_ok; [done|done|by apply Hst].
  - destruct Hl as [Hp Hv]. apply Hret. eapply wp_mono.
    + apply (wp_tune_socket _ R0); [done|exact Hp|]. intros c y. by apply wp_setsockopt_tuned.
    + intros x w' Hw'. by exists R0.
  - eapply wp_mono.
    + apply (wp_tune_socket _ R0); [done|exact Hl|]. intros c y. apply wp_set_userdata_tuned.
    + intros x w' Hw'. by exists R0.
  - apply Hret. eapply wp_mono; [by apply (wp_context_set_option _ (fun _ => max_sent) max_samples R0)|].
    intros x w' Hw'. exists R0. by apply before_after.
  - destruct Hl as [Hn Hset]. apply wp_bind, wp_gets. cbn [sys HasSys_World].
    destruct (set_callback_tuned name set (ctx (w_sys w)) Hn Hset) as (x' & -> & Hx).
    eapply (wp_tune_ctx _ (fun _ => max_sent) max_samples R0); [exact Hw|exact Hx|].
    intros w' Hw'. exists R0. by apply before_after.
  - eapply (wp_tune_ctx _ (fun _ => max_sent) max_samples R0); [exact Hw|by destruct (ctx (w_sys w)); split|].
    intros w' Hw'. exists R0. by apply before_after.
Qed.

Lemma reachable_well tries w : reachable tries w -> well w.
Proof.
  induction 1 as [c Hc|w a w' Hr IH Hcalm Hl Hrun].
  - exists ∅. by apply empty_inv.
  - pose proof (wp_perform tries a w IH Hcalm Hl) as H. unfold wp in H. by rewrite Hrun in H.
Qed.
End Safe.
