(* ===== verification/Demo.v ===== *)
(** * A concrete application and socket

    Used by the witnesses and the end-to-end scenario: an application that
    answers every call, a context with all callbacks installed, and a connected
    socket at address 1. *)
From S2P Require Import Prelude Packet Ring Arrays SockAddr Hash HashMap Context AckList Socket Frame MtuSearch Send SendQueue SendInv Flush WriteQueue Ack Incoming Timeouts Api Writev.

#[export] Instance demo_env : Env := {
  answer rs := match rs with
    | GetUdpMtu _ _ :: _ => 1400
    | GetUdpOverhead _ _ :: _ => 28
    | GetMilliseconds _ :: h => 1000 + Z.of_nat (length h)
    | GetMicroseconds _ :: h => Z.min (1000000 + 1000 * Z.of_nat (length h)) 4611686018427387904
    | GetRandom _ :: _ => 65530
    | _ => 0
    end }.

#[export] Instance demo_app : GoodApp.
Proof.
  split; intros; [done..|]. change (answer (GetMicroseconds p :: h)) with
    (Z.min (1000000 + 1000 * Z.of_nat (length h)) 4611686018427387904).
  rewrite u64_small; unfold is_u64; lia.
Qed.

Definition all_callbacks : list Z := [0; 1; 2; 3; 4; 5; 6; 7; 8; 9; 10; 11; 12; 13; 15].

Definition demo_ctx : utp_context := utp_context_init <| callbacks := all_callbacks |>.
Definition demo_sys : Sys := mkSys demo_ctx {[ 1 := -1 ]} [].

Definition demo_peer : sockaddr := SockIn [127; 0; 0; 1] 9000.

Definition demo_mtu : Mtu :=
  mkMtu 2000000 1400 576 1400 0 0.

(** a connected socket with an empty send queue and a window of 4000 bytes *)
Definition demo_sock : UTPSocket :=
  (utp_create_socket demo_ctx 1)
    <| state := CS_CONNECTED |> <| addr := set_addr demo_peer |> <| conn_id_send := 78 |>
    <| conn_id_recv := 77 |> <| mt := demo_mtu |>
    <| wn ::= fun w => w <| max_window := 4000 |> |>.

Definition demo_st : St := mkSt demo_sock demo_sys.

Lemma ack_ok_empty c ids tr :
  ack_sockets c = arr_init -> (forall p i, ids !! p = Some i -> i = -1) ->
  ack_ok [] (mkSys c ids tr).
Proof.
  intros Hc Hi. split; cbn; try done.
  - rewrite Hc. done.
  - apply NoDup_nil_2.
  - intros p i ->%Hi. cbn. apply not_elem_of_nil.
  - by intros p ?%not_elem_of_nil.
Qed.

Lemma demo_ack_ok : ack_ok [] demo_sys.
Proof. apply ack_ok_empty; [done|]. by intros p i [_ <-]%lookup_singleton_Some. Qed.

Lemma demo_sys_ok : sys_ok 1 demo_sys.
Proof.
  split_and!; [exists []; apply demo_ack_ok|done|eexists; apply lookup_singleton_eq|done].
Qed.

Lemma demo_sender : sender_ok 1 demo_st.
Proof.
  split; [apply demo_sys_ok|by apply empty_queue_ok|split; cbn; lia|lia].
Qed.
