(* ===== verification/RecvSpec.v ===== *)
(** * What the receiving side promises

    Datagrams of one stream arriving in any order, repeated and missing, at a
    connected socket with nothing in flight: what the application is given is a
    gapless prefix of the stream, each byte once. *)
From S2P Require Import Prelude Wrap Packet Ring Delay DelayAvg Arrays Hash HashMap Context AckList.
From S2P Require Import Socket Frame MtuSearch Send SendQueue SendInv Streams Reorder Ack Incoming Receive.
From S2P Require Import OneWay Demo.

Section Spec.
Context {E : Env} {HA : GoodApp}.

(** the datagrams of a list arrive, one after the other *)
Fixpoint process_all (l : list (list Z)) : M St unit :=
  match l with
  | [] => mret tt
  | packet :: l => utp_process_incoming packet false ;; process_all l
  end.

Context (D : Z -> list Z) (isn : Z) (fin : option Z).

(** a datagram of the stream: its header and its offset *)
Definition datagram (p : PacketFormatV1 * Z) : list Z := encode_header p.1 ++ D p.2.

(** what its sender guarantees: [ack] is the last packet the sender has seen, and [lo] is
    old enough a packet that the numbers do not repeat *)
Definition honest (lo ack : Z) (p : PacketFormatV1 * Z) : Prop :=
  peer_header isn fin ack p.2 p.1 /\ lo <= p.2 < lo + 64512 /\ forall N, fin = Some N -> p.2 <= N.

Definition last_sent (s : St) : Z := u16 (seq_nr (sq (me s)) - 1).

(** ** Which packets are kept *)

(** the FIN has arrived, and packet [o] has a larger number than it, as 16-bit integers *)
Definition beyond_fin (R : gset Z) (o : Z) : bool :=
  match fin with
  | Some N => bool_decide (N ∈ R) && (u16 (isn + N) <? u16 (isn + o))
  | None => false
  end.

(** With [R] arrived and [k] the first missing packet, packet [o] is kept if it is in the
    window of 1024 packets from [k] on; unless it is beyond a FIN that has arrived, when
    only [k] itself is. *)
Definition keeps (R : gset Z) (k o : Z) : bool :=
  (k <=? o) && (o <? k + 1024) && ((o =? k) || negb (beyond_fin R o)).

(** the first packet from [k] on that is missing *)
Fixpoint missing_from (fuel : nat) (R : gset Z) (k : Z) : Z :=
  match fuel with
  | O => k
  | S fuel => if decide (k ∈ R) then missing_from fuel R (k + 1) else k
  end.
Definition first_missing (R : gset Z) (k : Z) : Z := missing_from (size R) R k.

(** a packet arrives at a receiver that has [R] and waits for [k] *)
Definition hear (v : gset Z * Z) (o : Z) : gset Z * Z :=
  let R := if keeps v.1 v.2 o then {[o]} ∪ v.1 else v.1 in (R, first_missing R v.2).

Lemma missing_from_eq fuel R : forall k k',
  k <= k' <= k + Z.of_nat fuel -> (forall o, k <= o < k' -> o ∈ R) -> k' ∉ R -> missing_from fuel R k = k'.
Proof.
  induction fuel as [|fuel IH]; intros k k' Hk HR Hn; cbn [missing_from]; [lia|]. case_decide as Hin.
  - destruct (Z.eq_dec k k') as [->|]; [done|]. apply IH; [lia|intros; apply HR; lia|done].
  - destruct (Z.eq_dec k k') as [->|]; [done|]. destruct Hin. apply HR. lia.
Qed.

(** so many packets in a row are at most as many as there are *)
Lemma run_size (R : gset Z) k (n : nat) :
  (forall o, k <= o < k + Z.of_nat n -> o ∈ R) -> (n <= size R)%nat.
Proof.
  intros HR. set (l := (fun i => k + Z.of_nat i) <$> seq 0 n).
  assert (Hnd : NoDup l) by (apply NoDup_fmap_2; [intros i j; lia|apply NoDup_seq]).
  assert (Hs : size (list_to_set l : gset Z) = n)
    by (rewrite size_list_to_set by done; unfold l; by rewrite length_fmap, length_seq).
  rewrite <- Hs. apply subseteq_size. intros o. rewrite elem_of_list_to_set. unfold l.
  rewrite list_elem_of_fmap. intros (i & -> & Hi%elem_of_seq). apply HR. lia.
Qed.

Lemma first_missing_eq R k k' :
  k <= k' -> (forall o, k <= o < k' -> o ∈ R) -> k' ∉ R -> first_missing R k = k'.
Proof.
  intros Hk HR Hn. apply missing_from_eq; [|done..]. split; [done|].
  pose proof (run_size R k (Z.to_nat (k' - k))) as H. enough (Z.to_nat (k' - k) <= size R)%nat by lia.
  apply H. intros o Ho. apply HR. lia.
Qed.

(** the code keeps the same packets *)
Lemma past_eof_beyond n R k o s :
  listening D isn fin n R k s -> past_eof (rq (me s)) (u16 (isn + o)) = beyond_fin R o.
Proof.
  intros [Hs _ _ Hfi _]. pose proof (rc_queue _ _ _ _ _ _ Hs) as Hq. unfold past_eof, beyond_fin.
  destruct (got_fin (rq (me s))) eqn:Hg.
  - destruct (Hfi Hg) as (N & HN & HR), (rc_fin _ _ _ _ _ _ Hq Hg) as (N' & HN' & He & _).
    rewrite HN in *. injection HN' as <-. by rewrite bool_decide_true, He.
  - destruct fin as [N|] eqn:HN; [|done]. rewrite bool_decide_false; [done|].
    intros Hin. by rewrite (rc_noted _ _ _ _ _ _ Hq N eq_refl Hin) in Hg.
Qed.

Lemma arrived_keeps n R k o s :
  listening D isn fin n R k s ->
  arrived isn R k o (rq (me s)) = if keeps R k o then {[o]} ∪ R else R.
Proof.
  intros Hs. unfold arrived, keeps, dropped. rewrite (past_eof_beyond n R k o s Hs).
  by destruct (o =? k), (beyond_fin R o).
Qed.

Lemma listening_got n R k s : listening D isn fin n R k s -> 0 <= k /\ forall o, 0 <= o < k -> o ∈ R.
Proof.
  intros [Hs _ _ _ _]. pose proof (rc_buf _ _ _ _ _ _ (rc_queue _ _ _ _ _ _ Hs)) as Hb.
  split; [apply (bf_start _ _ _ _ _ Hb)|apply (bf_got _ _ _ _ _ Hb)].
Qed.

Lemma listening_bound n R k s lo :
  listening D isn fin n R k s -> lo <= k -> 0 <= lo -> (forall o, o ∈ R -> o < lo + 64512) -> lo <= k <= lo + 64512.
Proof.
  intros Hl Hlo H0 HR. destruct (listening_got n R k s Hl) as [Hk Hg].
  destruct (Z.eq_dec k 0); [lia|]. assert (k - 1 < lo + 64512); [|lia]. apply HR, Hg. lia.
Qed.

(** the end of the stream was reported exactly when everything before it was *)
Lemma listening_told n R k s :
  listening D isn fin n R k s -> got_fin_reached (rq (me s)) = true <-> fin = Some (k - 1).
Proof.
  intros Hl. destruct (listening_got n R k s Hl) as [Hk Hg]. pose proof Hl as [Hs _ He _ _].
  pose proof (rc_queue _ _ _ _ _ _ Hs) as Hq. split; [apply (rc_reached _ _ _ _ _ _ Hq)|]. intros HN.
  apply He; [|done]. apply (rc_noted _ _ _ _ _ _ Hq _ HN), Hg. destruct (rc_last _ _ _ _ _ _ Hq _ HN). lia.
Qed.

(** ** A sequence of packets *)

(** what it leaves behind, the receiver having ended with [v] *)
Record heard_all n k s (l : list (PacketFormatV1 * Z)) (v : gset Z * Z) s' : Prop := {
  ha_run : process_all (datagram <$> l) s = Ok tt s';
  ha_end : listening D isn fin (n + Z.of_nat (length l)) v.1 v.2 s';
  ha_next : k <= v.2;
  ha_read : listened isn fin (stream_data D k v.2) s s';
}.

(** one datagram *)
Lemma process_one n R k lo p s :
  listening D isn fin n R k s -> n < INT_MAX -> lo <= k <= lo + 64512 -> honest lo (last_sent s) p ->
  exists s', heard_all n k s [p] (hear (R, k) p.2) s'.
Proof.
  intros Hs Hn Hk (Hh & Ho & Hle).
  destruct (proj1 (wp_ok _ _ _) (wp_incoming no_fault D isn fin n R k p.1 p.2 s Hs Hn Hh ltac:(lia) Hle))
    as (r & s' & Hrun & k' & Hs' & Hk' & _ & Hr).
  rewrite (arrived_keeps n R k p.2 s Hs) in Hs'. exists s'. unfold hear. cbn [fst snd].
  set (R' := if keeps R k p.2 then {[p.2]} ∪ R else R) in *.
  assert (Ek : first_missing R' k = k').
  { pose proof Hs' as [_ Hn' _ _ _]. apply first_missing_eq; [done| |done]. intros o Ho'.
    apply (listening_got _ _ _ _ Hs'). pose proof (proj1 (listening_got _ _ _ _ Hs)). lia. }
  rewrite Ek. split; [| |done|done].
  - cbn [process_all fmap list_fmap]. unfold mbind, M_bind, datagram. by rewrite Hrun.
  - exact Hs'.
Qed.

Lemma heard_nil n R k s : listening D isn fin n R k s -> heard_all n k s [] (R, k) s.
Proof.
  intros Hs. split; [done|by rewrite Z.add_0_r|cbn; lia|].
  cbn [snd]. rewrite stream_data_refl. split; rewrite ?app_nil_r; [apply traced_refl|done..].
Qed.

Lemma heard_cons n k s p l v1 s1 v s' :
  heard_all n k s [p] v1 s1 -> heard_all (n + 1) v1.2 s1 l v s' -> heard_all n k s (p :: l) v s'.
Proof.
  intros [H1 _ H3 H4] [H5 H6 H7 H8]. split; [| |lia|].
  - cbn [process_all fmap list_fmap] in *. unfold mbind, M_bind in *. destruct (utp_process_incoming _ _ _); [|done]. by injection H1 as ->.
  - cbn [length]. by replace (n + Z.of_nat (S (length l))) with (n + 1 + Z.of_nat (length l)) by lia.
  - rewrite <- (stream_data_app D k v1.2 v.2) by lia. by eapply listened_trans.
Qed.

Lemma hear_new v o x : x ∈ (hear v o).1 -> x = o \/ x ∈ v.1.
Proof. unfold hear. cbn. destruct (keeps _ _ _); [|by right]. rewrite elem_of_union, elem_of_singleton. tauto. Qed.

Lemma process_list lo l : forall n R k s,
  listening D isn fin n R k s -> n + Z.of_nat (length l) <= INT_MAX -> 0 <= lo <= k ->
  (forall o, o ∈ R -> o < lo + 64512) -> Forall (honest lo (last_sent s)) l ->
  exists s', heard_all n k s l (foldl hear (R, k) l.*2) s'.
Proof.
  induction l as [|p l IH]; intros n R k s Hs Hn Hlo HR Hl.
  { exists s. by apply heard_nil. }
  apply Forall_cons in Hl as [Hp Hl]. cbn [length] in Hn.
  destruct (process_one n R k lo p s Hs) as (s1 & H1); [lia| |done|].
  { apply (listening_bound n R k s lo); try done; lia. }
  pose proof (ha_end _ _ _ _ _ _ H1) as Hs1. pose proof (ha_next _ _ _ _ _ _ H1) as Hk1.
  change (Z.of_nat (length [p])) with 1 in Hs1. pose proof (hear_new (R, k) p.2) as Hnew.
  cbn [fmap list_fmap foldl]. destruct (hear (R, k) p.2) as [R1 k1] eqn:Eh. cbn [fst snd] in *.
  destruct (IH (n + 1) R1 k1 s1 Hs1) as (s' & H2); [lia|lia| | |].
  - intros x [->|Hx]%Hnew; [apply Hp|by apply HR].
  - unfold last_sent in *. by rewrite (ld_seq _ _ _ _ _ (ha_read _ _ _ _ _ _ H1)).
  - exists s'. by apply (heard_cons _ _ _ _ _ (R1, k1) s1).
Qed.

(** ** When nothing is thrown away *)

(** no packet from [k] to the FIN has a larger number than the FIN *)
Definition no_wrap (k : Z) : Prop :=
  forall N o, fin = Some N -> k <= o <= N -> u16 (isn + o) <= u16 (isn + N).

Lemma hear_keeps R k k0 o :
  no_wrap k0 -> k0 <= k -> o < k0 + 1024 -> (forall N, fin = Some N -> o <= N) ->
  (forall x, 0 <= x < k -> x ∈ R) -> 0 <= o -> o ∈ (hear (R, k) o).1.
Proof.
  intros Hw Hk Ho Hle HR H0. unfold hear, keeps. cbn [fst snd].
  destruct (Z.leb_spec k o) as [Hko|]; [|apply HR; lia].
  rewrite (proj2 (Z.ltb_lt o (k + 1024))) by lia. cbn [andb].
  enough (beyond_fin R o = false) as ->.
  { rewrite orb_true_r. apply elem_of_union_l, elem_of_singleton_2. done. }
  unfold beyond_fin. destruct fin as [N|] eqn:HN; [|done]. specialize (Hle N eq_refl).
  specialize (Hw N o HN ltac:(lia)). rewrite (proj2 (Z.ltb_ge _ _)) by lia. apply andb_false_r.
Qed.

Lemma hear_incl v o : v.1 ⊆ (hear v o).1.
Proof. unfold hear. cbn. destruct (keeps _ _ _); set_solver. Qed.

Lemma hear_all_incl l : forall v, v.1 ⊆ (foldl hear v l).1.
Proof. induction l as [|o l IH]; intros v; cbn; [done|]. etrans; [apply hear_incl|apply IH]. Qed.

(** everything before the packet waited for stays there *)
Lemma hear_prefix v o :
  (forall x, 0 <= x < v.2 -> x ∈ v.1) ->
  v.2 <= (hear v o).2 /\ forall x, 0 <= x < (hear v o).2 -> x ∈ (hear v o).1.
Proof.
  intros Hp. destruct v as [R k]. pose proof (hear_incl (R, k) o) as Hi. unfold hear in *. cbn [fst snd] in *.
  set (R' := if keeps R k o then {[o]} ∪ R else R) in *. clearbody R'. unfold first_missing.
  assert (H : forall fuel j, (forall x, 0 <= x < j -> x ∈ R') ->
    j <= missing_from fuel R' j /\ forall x, 0 <= x < missing_from fuel R' j -> x ∈ R').
  { induction fuel as [|fuel IH]; intros j Hj; cbn [missing_from]; [by split; [lia|]|].
    case_decide; [|by split; [lia|]]. destruct (IH (j + 1)) as [H1 H2]; [|by split; [lia|]].
    intros x Hx. destruct (Z.eq_dec x j) as [->|]; [done|apply Hj; lia]. }
  apply H. intros x Hx. by apply Hi, Hp.
Qed.

Lemma hear_all_keeps k0 l : forall R k,
  no_wrap k0 -> k0 <= k -> (forall x, 0 <= x < k -> x ∈ R) ->
  Forall (fun o => 0 <= o < k0 + 1024 /\ forall N, fin = Some N -> o <= N) l ->
  forall o, o ∈ l -> o ∈ (foldl hear (R, k) l).1.
Proof.
  induction l as [|o l IH]; intros R k Hw Hk HR Hl x Hx; [by apply elem_of_nil in Hx|].
  apply Forall_cons in Hl as [[Ho Hle] Hl]. cbn [foldl].
  destruct (hear_prefix (R, k) o HR) as [Hk1 HR1].
  destruct (hear (R, k) o) as [R1 k1] eqn:Eh. cbn [fst snd] in *.
  apply elem_of_cons in Hx as [->|Hx]; [|apply IH; try done; lia].
  apply (hear_all_incl l (R1, k1)). pose proof (hear_keeps R k k0 o Hw Hk ltac:(lia) Hle HR ltac:(lia)) as H.
  by rewrite Eh in H.
Qed.

Lemma hear_all_new l x : forall v, x ∈ (foldl hear v l).1 -> x ∈ l \/ x ∈ v.1.
Proof.
  induction l as [|o l IH]; intros v Hx; [by right|]. cbn [foldl] in Hx.
  destruct (IH _ Hx) as [Hl|Hv]; [left; by right|]. destruct (hear_new _ _ _ Hv) as [->|]; [left; by left|by right].
Qed.

Lemma process_list_all lo n R k s l :
  listening D isn fin n R k s -> n + Z.of_nat (length l) <= INT_MAX -> 0 <= lo <= k ->
  (forall o, o ∈ R -> o < lo + 64512) -> no_wrap k ->
  Forall (fun p => honest lo (last_sent s) p /\ p.2 < k + 1024) l ->
  exists R' k' s', heard_all n k s l (R', k') s' /\ (forall o, o ∈ l.*2 -> o ∈ R') /\
    forall o, o ∈ R' -> o ∈ l.*2 \/ o ∈ R.
Proof.
  intros Hs Hn Hlo HR Hw Hl. destruct (process_list lo l n R k s Hs Hn Hlo HR) as (s' & Hh).
  { eapply Forall_impl; [exact Hl|]. by intros p []. }
  pose proof (hear_all_keeps k l.*2 R k Hw ltac:(done) (proj2 (listening_got n R k s Hs))) as Hall.
  pose proof (fun o => hear_all_new l.*2 o (R, k)) as Hnew.
  destruct (foldl hear (R, k) l.*2) as [R' k']. exists R', k', s'. split_and!; [done| |done].
  apply Hall, Forall_fmap. eapply Forall_impl; [exact Hl|].
  intros p [(_ & Ho & Hle) Hp]. cbn. split; [lia|done].
Qed.

(** C4: whatever order the datagrams of a stream reach a connected socket with nothing in
    flight, repeated, early or missing, utp_process_incoming fails no assertion, and what
    it keeps is what [hear] says: each packet inside the window of 1024 packets from the
    first missing one on, the only exception being that once the FIN has arrived the
    packets with a larger 16-bit number than the FIN are thrown away, which are packets
    before it when the numbers wrap in between.  The application is given exactly the
    bytes of the packets before the first missing one, in order and each once; the
    reorder buffer holds exactly the others; and the end of the stream has been reported
    exactly when everything up to the FIN was delivered.  The packets are within a range
    of 64512, in which the 16-bit numbers tell them apart. *)
Theorem receive_any_order lo n R k s l
    (Hs : listening D isn fin n R k s) (Hn : n + Z.of_nat (length l) <= INT_MAX) (Hlo : 0 <= lo <= k)
    (HR : forall o, o ∈ R -> o < lo + 64512) (Hl : Forall (honest lo (last_sent s)) l) :
  let '(R', k') := foldl hear (R, k) l.*2 in
  exists s',
    process_all (datagram <$> l) s = Ok tt s' /\ k <= k' /\
    listening D isn fin (n + Z.of_nat (length l)) R' k' s' /\
    reads (this (me s)) (trace (st_sys s')) =
      reads (this (me s)) (trace (st_sys s)) ++ stream_data D k k' /\
    (got_fin_reached (rq (me s')) = true <-> fin = Some (k' - 1)).
Proof.
  destruct (process_list lo l n R k s Hs Hn Hlo HR Hl) as (s' & [H1 H2 H3 H4]).
  destruct (foldl hear (R, k) l.*2) as [R' k']. exists s'. split_and!; try done; [apply H4|].
  by apply (listening_told (n + Z.of_nat (length l)) R' k').
Qed.

(** C12: nothing in the window is lost.  Datagrams that reach at most 1023 packets past
    the next expected one are all kept, in any order and with repetitions, when no packet
    from there to the FIN has a larger 16-bit number than the FIN (where one has, the code
    throws it away once the FIN is there): if a list of them covers the next [m] packets,
    the application is given all their bytes. *)
Theorem receive_window_complete lo n R k s l m
    (Hs : listening D isn fin n R k s) (Hn : n + Z.of_nat (length l) <= INT_MAX) (Hlo : 0 <= lo <= k)
    (HR : forall o, o ∈ R -> o < lo + 64512) (Hw : no_wrap k)
    (Hl : Forall (fun p => honest lo (last_sent s) p /\ p.2 < k + 1024) l)
    (Hm : forall o, k <= o < k + m -> o ∈ l.*2) :
  exists k' s',
    process_all (datagram <$> l) s = Ok tt s' /\ k + m <= k' /\
    reads (this (me s)) (trace (st_sys s')) =
      reads (this (me s)) (trace (st_sys s)) ++ stream_data D k k'.
Proof.
  destruct (process_list_all lo n R k s l Hs Hn Hlo HR Hw Hl) as (R' & k' & s' & [H1 H2 H3 H4] & Hall & _).
  exists k', s'. split; [done|]. split; [|apply H4].
  destruct (Z.le_gt_cases (k + m) k') as [|Hlt]; [done|]. exfalso.
  apply (ls_next _ _ _ _ _ _ _ H2), Hall, Hm. cbn [snd] in *. lia.
Qed.
End Spec.

(** ** Witnesses *)
Definition demo_stream (o : Z) : list Z := [o; o].

(** the peer's header for offset [o] of a stream of four packets *)
Definition demo_header (o : Z) : PacketFormatV1 :=
  (set_version 1 (set_type (if decide (Some 3 = Some o) then ST_FIN else ST_DATA) zero_header))
    <| pf_connid := 77 |> <| pf_reply_micro := 1500 |> <| pf_windowsize := 100000 |>
    <| pf_seq_nr := 1 + o |> <| pf_ack_nr := 0 |>.

Definition demo_packets (l : list Z) : list (PacketFormatV1 * Z) := (fun o => (demo_header o, o)) <$> l.

Lemma demo_passive : passive 0 demo_sock.
Proof. split; try done; split; try done; vm_compute; split; congruence. Qed.

Lemma demo_listening : listening demo_stream 1 (Some 3) 0 ∅ 0 demo_st.
Proof.
  split; [|set_solver|done|done|exact demo_passive].
  split; [apply demo_sys_ok|done|].
  split; [|done|done|done| |].
  - split; try done; [apply ring_init_wf| |intros o Ho; exfalso; lia].
    intros j _. apply ring_get_init.
  - intros N [= <-]. split; [done|]. set_solver.
  - intros N _. set_solver.
Qed.

Lemma demo_honest o : 0 <= o <= 3 -> honest 1 (Some 3) 0 (last_sent demo_st) (demo_header o, o).
Proof.
  intros Ho. split; [|split; [cbn; lia|intros N [= <-]; cbn; lia]].
  assert (o = 0 \/ o = 1 \/ o = 2 \/ o = 3) as Hc by lia.
  destruct Hc as [->|[->|[->| ->]]]; split; try done; split; vm_compute; split; congruence.
Qed.

Lemma demo_all_honest l :
  Forall (fun o => 0 <= o <= 3) l -> Forall (honest 1 (Some 3) 0 (last_sent demo_st)) (demo_packets l).
Proof. intros Hl. apply Forall_fmap. eapply Forall_impl; [exact Hl|]. apply demo_honest. Qed.

Lemma receive_any_order_witness :
  let '(R', k') := foldl (hear 1 (Some 3)) (∅, 0) [2; 0; 0; 3] in
  k' = 1 /\ exists s',
    process_all (datagram demo_stream <$> demo_packets [2; 0; 0; 3]) demo_st = Ok tt s' /\ 0 <= k' /\
    listening demo_stream 1 (Some 3) 4 R' k' s' /\
    reads 1 (trace (st_sys s')) =
      reads 1 (trace (st_sys demo_st)) ++ stream_data demo_stream 0 k' /\
    (got_fin_reached (rq (me s')) = true <-> Some 3 = Some (k' - 1)).
Proof.
  pose proof (receive_any_order demo_stream 1 (Some 3) 0 0 ∅ 0 demo_st (demo_packets [2; 0; 0; 3])
    demo_listening ltac:(done) ltac:(done) ltac:(set_solver)
    ltac:(apply demo_all_honest; repeat constructor; done)) as H.
  change (demo_packets [2; 0; 0; 3]).*2 with [2; 0; 0; 3] in H.
  assert ((foldl (hear 1 (Some 3)) (∅, 0) [2; 0; 0; 3]).2 = 1) as Ek by by vm_compute.
  destruct (foldl (hear 1 (Some 3)) (∅, 0) [2; 0; 0; 3]) as [R' k']. split; [exact Ek|exact H].
Defined.

(** the numbers of four packets wrap after the second: it arrives after the FIN and before
    the first one, and is thrown away *)
Example wrapped_packet_thrown_away :
  let '(R', k') := foldl (hear 65534 (Some 3)) (∅, 0) [3; 1; 0; 2] in
  k' = 1 /\ forall o, o ∈ [0; 1; 2; 3] -> o ∈ R' <-> o <> 1.
Proof.
  change (foldl (hear 65534 (Some 3)) (∅, 0) [3; 1; 0; 2]) with
    (hear 65534 (Some 3) (hear 65534 (Some 3) (hear 65534 (Some 3) (hear 65534 (Some 3) (∅, 0) 3) 1) 0) 2).
  destruct (hear 65534 (Some 3) _ 2) as [R' k'] eqn:E. vm_compute in E. injection E as <- <-.
  split; [done|]. intros o Ho. repeat (apply elem_of_cons in Ho as [->|Ho]; [by vm_compute; split|]).
  by apply elem_of_nil in Ho.
Qed.

Lemma receive_window_complete_witness :
  exists k' s',
    process_all (datagram demo_stream <$> demo_packets [2; 0; 3; 0; 1]) demo_st = Ok tt s' /\
    0 + 4 <= k' /\
    reads 1 (trace (st_sys s')) =
      reads 1 (trace (st_sys demo_st)) ++ stream_data demo_stream 0 k'.
Proof.
  apply (receive_window_complete demo_stream 1 (Some 3) 0 0 ∅ 0 demo_st
    (demo_packets [2; 0; 3; 0; 1]) 4 demo_listening).
  - done.
  - done.
  - set_solver.
  - intros N o [= <-] Ho. rewrite !u16_small by (unfold is_u16; lia). lia.
  - apply Forall_and. split; [apply demo_all_honest; repeat constructor; done|].
    apply Forall_fmap. repeat constructor; done.
  - intros o Ho. assert (o = 0 \/ o = 1 \/ o = 2 \/ o = 3) as Hc by lia.
    destruct Hc as [->|[->|[->| ->]]]; repeat constructor.
Defined.
