(* ===== verification/SendSpec.v ===== *)
(** * What sending guarantees

    The properties of the sending side of a socket, for every application that
    satisfies [GoodApp]: queueing, flushing and utp_writev end without a failed
    assertion, keep the queue consistent, and lose, repeat or reorder no byte. *)
From S2P Require Import Prelude Wrap Packet Ring Arrays SockAddr Context AckList Socket Frame MtuSearch Send SendQueue SendInv Flush WriteQueue Ack Incoming Timeouts Api Writev Demo.

(** C9: utp_writev accepts a prefix.  On a connected socket that has not sent its
    FIN, the call ends without a failed assertion; the number [k] it returns is at
    most the number of bytes of the (first 1024) iovecs, exactly the first [k] of
    them are appended to the byte stream of the send queue, the queue stays
    consistent (cur_window is the number of bytes in flight), and if not
    everything was accepted the socket is left in CS_CONNECTED_FULL, so that the
    application will be told when it can write again. *)
Theorem utp_writev_accepts_prefix {E : Env} {HA : GoodApp} (n : Z) (iovs : list (list Z)) (s : St) :
  sender_ok n s -> iovs <> [] -> state (me s) = CS_CONNECTED -> fin_sent (me s) = false ->
  exists k s', utp_writev iovs s = Ok k s' /\
    0 <= k <= Z.of_nat (length (iov_data iovs)) /\
    content (sq (me s')) = content (sq (me s)) ++ take (Z.to_nat k) (iov_data iovs) /\
    sender_ok n s' /\
    (k < Z.of_nat (length (iov_data iovs)) -> state (me s') = CS_CONNECTED_FULL).
Proof.
  intros Hs Hne Hst Hf.
  destruct (proj1 (wp_ok _ _ _) (wp_utp_writev no_fault n iovs s Hs Hne Hst Hf))
    as (k & s' & E' & Hk & Hok & Hc & _ & Hfull & _).
  exists k, s'. split_and!; try done; try lia. intros Hlt. by rewrite decide_False in Hfull by lia.
Qed.

Lemma utp_writev_accepts_prefix_witness :
  exists k s', utp_writev [[1; 2; 3]; [4; 5]] demo_st = Ok k s' /\
    0 <= k <= 5 /\ content (sq (me s')) = take (Z.to_nat k) [1; 2; 3; 4; 5] /\
    sender_ok 1 s' /\ (k < 5 -> state (me s') = CS_CONNECTED_FULL).
Proof.
  exact (utp_writev_accepts_prefix 1 [[1; 2; 3]; [4; 5]] demo_st demo_sender
           ltac:(discriminate) eq_refl eq_refl).
Defined.

(** C10: writing keeps to the window.  A call of utp_writev never sends beyond the
    smallest of the congestion window, the send buffer and the window the peer
    advertised: with no queued packet longer than [M] bytes, the bytes in flight
    afterwards are either no more than before, or at most that limit and what [M]
    exceeds the present packet size by, which is nothing unless the path's MTU has
    shrunk since a packet was cut.  The packets it adds are no longer than [M]. *)
Theorem utp_writev_respects_window {E : Env} {HA : GoodApp} (n M : Z) (iovs : list (list Z)) (s : St) :
  sender_ok n s -> iovs <> [] -> state (me s) = CS_CONNECTED -> fin_sent (me s) = false ->
  get_packet_size (me s) <= M -> fits M (sq (me s)) ->
  let limit := Z.min (Z.min (max_window (wn (me s))) (opt_sndbuf (wn (me s)))) (max_window_user (wn (me s))) in
  exists k s', utp_writev iovs s = Ok k s' /\ fits M (sq (me s')) /\
    cur_window (sq (me s')) <= Z.max (cur_window (sq (me s))) (limit + (M - get_packet_size (me s))).
Proof.
  intros Hs Hne Hst Hf HM Hfit limit.
  destruct (proj1 (wp_ok _ _ _) (wp_utp_writev no_fault n iovs s Hs Hne Hst Hf))
    as (k & s' & E' & _ & _ & _ & _ & _ & Hw & _).
  exists k, s'. destruct (pc_window _ _ _ (wf_paced _ _ Hw M HM) Hfit) as [Hf' Hb].
  split; [done|]. split; [done|]. revert Hb. unfold max_send.
  rewrite !tmin_min. fold limit. intros Hb. lia.
Qed.

Lemma utp_writev_respects_window_witness :
  exists k s', utp_writev [replicate 4900 7] demo_st = Ok k s' /\
    fits 1380 (sq (me s')) /\ cur_window (sq (me s')) <= 4000.
Proof.
  assert (Hfit : fits 1380 (sq (me demo_st))) by (intros j p Hj; cbn in Hj; lia).
  destruct (utp_writev_respects_window 1 1380 [replicate 4900 7] demo_st demo_sender
    ltac:(discriminate) eq_refl eq_refl ltac:(vm_compute; discriminate) Hfit) as (k & s' & H1 & H2 & H3).
  exists k, s'. split; [exact H1|]. split; [exact H2|].
  etrans; [exact H3|vm_compute; discriminate].
Defined.

(** C17: write_outgoing_packet queues exactly the bytes it is given.  With room in
    the queue and enough bytes in the iovecs, none of its assertions fails, the
    loop ends, the [payload] first bytes of the iovecs are appended to the byte
    stream of the queue, the iovecs keep what follows, at most one packet is
    added, and the queue stays consistent. *)
Theorem write_outgoing_packet_appends {E : Env} {HA : GoodApp} (n payload flags : Z)
    (iov : list (list Z)) (s : St) :
  sender_ok n s -> cur_window_packets (sq (me s)) < 1024 ->
  0 <= payload <= 65536 -> payload <= Z.of_nat (length (concat iov)) ->
  flags = ST_DATA \/ (flags = ST_FIN /\ payload = 0) ->
  exists iov' s', write_outgoing_packet payload flags iov s = Ok iov' s' /\
    concat iov' = drop (Z.to_nat payload) (concat iov) /\
    content (sq (me s')) = content (sq (me s)) ++ take (Z.to_nat payload) (concat iov) /\
    cur_window_packets (sq (me s)) <= cur_window_packets (sq (me s'))
      <= cur_window_packets (sq (me s)) + 1 /\
    sender_ok n s'.
Proof.
  intros Hs Hc Hp Hl Hf. pose proof Hs as [H1 H2 H3 H4]. destruct s as [c y].
  destruct (proj1 (wp_ok _ _ _) (wp_write_outgoing_packet no_fault n payload flags iov c y
    H1 H2 H3 (proj1 H4) ltac:(lia) Hc Hp Hl Hf)) as (iov' & s' & E' & Hio & Hw).
  exists iov', s'. destruct (wrote_sender _ _ _ _ _ Hs Hw) as [Hs' _].
  split_and!; try done; apply Hw.
Qed.

Lemma write_outgoing_packet_appends_witness :
  exists iov' s', write_outgoing_packet 3 ST_DATA [[1; 2]; [3; 4]] demo_st = Ok iov' s' /\
    concat iov' = [4] /\ content (sq (me s')) = [1; 2; 3] /\
    0 <= cur_window_packets (sq (me s')) <= 1 /\ sender_ok 1 s'.
Proof.
  apply (write_outgoing_packet_appends 1 3 ST_DATA [[1; 2]; [3; 4]] demo_st demo_sender);
    [reflexivity|split; discriminate|discriminate|left; reflexivity].
Defined.


