(* ===== verification/CloseSpec.v ===== *)
(** * What closing a connection guarantees

    utp_close of src/utp_internal.cpp on a connection: the FIN is queued behind
    the stream, once, and the socket is freed when it has been acknowledged. *)
From S2P Require Import Prelude Wrap Packet Ring Arrays SockAddr Context AckList Socket Frame MtuSearch Send SendQueue SendInv Flush WriteQueue Ack Incoming Timeouts Api Writev Demo.

Section Close.
Context {E : Env} {HA : GoodApp} (F : fault -> Prop).

(** what writing the FIN leaves as it is *)
Lemma wrote_same n fl bs s s' :
  wrote n fl bs s s' ->
  state (me s') = state (me s) /\ fin_sent (me s') = fin_sent (me s) /\ rq (me s') = rq (me s) /\
  close_requested (me s') = close_requested (me s) /\ fin_sent_acked (me s') = fin_sent_acked (me s).
Proof. intros [(q & r & w & m & t & ->)]. by destruct (me s). Qed.

(** the socket before the FIN is written *)
Definition closing (c : UTPSocket) : UTPSocket :=
  c <| rq ::= fun q => q <| read_shutdown := true |> |> <| close_requested := true |> <| fin_sent := true |>.

Lemma wp_close_connected n c y :
  sender_ok n (mkSt c y) -> connected (state c) = true -> fin_sent c = false ->
  cur_window_packets (sq c) < 1024 ->
  wp F utp_close (fun _ s' => wrote n ST_FIN [] (mkSt (closing c) y) s') (mkSt c y).
Proof.
  intros Hs Hc Hf Hr. unfold utp_close. wp_steps.
  apply wp_assert; [intros _|by destruct (state c)]. rewrite Hc. wp_steps. rewrite Hf. cbn [negb].
  unfold send_fin. wp_steps. fold (closing c).
  assert (Es : sq (closing c) = sq c /\ mt (closing c) = mt c /\ this (closing c) = this c) by by destruct c.
  destruct Es as (E1 & E2 & E3). destruct Hs as [H1 H2 H3 H4]. cbn [me st_sys] in *.
  eapply wp_mono; [apply (wp_write_outgoing_packet F n); rewrite ?E1, ?E2, ?E3; try done; try lia; by right|].
  intros iov s' [_ Hw]. by wp_steps.
Qed.
End Close.

(** a connection whose last packet, the FIN, is acknowledged after utp_close *)
Lemma fin_acked {E : Env} fl s :
  connected (state (me s)) = true -> fin_sent (me s) = true -> close_requested (me s) = true ->
  exists s', ack_transitions fl (cur_window_packets (sq (me s))) s = Ok tt s' /\
    state (me s') = CS_DESTROY.
Proof.
  intros Hc Hf Hr. destruct s as [c y]. cbn [me] in *.
  assert (H : wp no_fault (ack_transitions fl (cur_window_packets (sq c)))
    (fun _ s' => state (me s') = CS_DESTROY) (mkSt c y)).
  { unfold ack_transitions. wp_steps.
    apply wp_when; [intros [_ Hx]%andb_true_iff; by destruct (state c)|intros _]. wp_steps.
    apply wp_if; [intros [_ Hx]%andb_true_iff; by destruct (state c)|intros _].
    rewrite Hf, Z.eqb_refl. cbn [andb when]. wp_steps.
    apply wp_when; intros Hx; [wp_steps; by destruct c|]. exfalso. revert Hx Hr. by destruct c; cbn; intros ->. }
  apply wp_ok in H as ([] & s' & Hr' & Hs'). by exists s'.
Qed.

(** ... and a second call of utp_close *)
Lemma closed_again {E : Env} s :
  connected (state (me s)) = true -> fin_sent (me s) = true -> close_requested (me s) = true ->
  fin_sent_acked (me s) = false -> read_shutdown (rq (me s)) = true -> utp_close s = Ok tt s.
Proof.
  intros Hc Hf Hr Ha Hrd. destruct s as [c y]. cbn [me] in *.
  assert (H : wp no_fault utp_close (fun _ s' => s' = mkSt c y) (mkSt c y)).
  { unfold utp_close. wp_steps. apply wp_assert; [intros _|by destruct (state c)].
    rewrite Hc. wp_steps. rewrite Hf, Ha. cbn [negb when]. apply wp_ret.
    destruct c, rq. cbn in *. by subst. }
  apply wp_ok in H as ([] & s' & Hr' & ->). done.
Qed.

(** C11: closing ends the stream.  On a connection whose FIN was not sent, utp_close
    ends without a failed assertion and queues exactly one more packet: an empty
    ST_FIN with the next sequence number, behind all the bytes written before, which
    stay queued.  Nothing is delivered to the application any more and the state stays
    the same, so that the rest of the stream is still sent; calling it again changes
    nothing; and the acknowledgement of everything queued makes the socket due for
    destruction. *)
Theorem close_ends_stream {E : Env} {HA : GoodApp} (n : Z) (s : St) :
  sender_ok n s -> connected (state (me s)) = true -> fin_sent (me s) = false ->
  fin_sent_acked (me s) = false -> cur_window_packets (sq (me s)) < 1024 ->
  exists s' p, utp_close s = Ok tt s' /\ sender_ok n s' /\ state (me s') = state (me s) /\
    read_shutdown (rq (me s')) = true /\
    content (sq (me s')) = content (sq (me s)) /\
    cur_window_packets (sq (me s')) = cur_window_packets (sq (me s)) + 1 /\
    (slot (sq (me s')) 0 = Some p /\ pk_body p = [] /\ pf_type (pk_hdr p) = ST_FIN /\
     pf_seq_nr (pk_hdr p) = seq_nr (sq (me s))) /\
    utp_close s' = Ok tt s' /\
    (forall fl, exists s2, ack_transitions fl (cur_window_packets (sq (me s'))) s' = Ok tt s2 /\
       state (me s2) = CS_DESTROY).
Proof.
  intros Hs Hc Hf Ha Hr. destruct s as [c y]. cbn [me] in *.
  destruct (proj1 (wp_ok _ _ _) (wp_close_connected no_fault n c y Hs Hc Hf Hr)) as ([] & s' & E' & Hw).
  pose proof (proj1 (wr_grows _ _ _ _ _ Hw eq_refl)) as Hg.
  destruct (wr_last _ _ _ _ _ Hw Hg) as (p & b & Hp & Hl & Hb). symmetry in Hb. apply app_nil in Hb as [-> Hb].
  destruct (wrote_same _ _ _ _ _ Hw) as (W1 & W2 & W3 & W4 & W5).
  pose proof (wr_content _ _ _ _ _ Hw) as Hcon. pose proof (wr_first _ _ _ _ _ Hw) as Hfirst.
  assert (Hs1 : sender_ok n (mkSt (closing c) y)) by (destruct Hs, c; by split).
  destruct (wrote_sender _ _ _ _ _ Hs1 Hw) as [Hs' _]. cbn [me] in *.
  assert (Ec : state (closing c) = state c /\ sq (closing c) = sq c /\ read_shutdown (rq (closing c)) = true /\
    fin_sent (closing c) = true /\ close_requested (closing c) = true /\ fin_sent_acked (closing c) = false)
    by by destruct c, rq.
  destruct Ec as (C1 & C2 & C3 & C4 & C5 & C6). rewrite C1, C2, ?C3, C4, C5, C6, ?app_nil_r in *.
  exists s', p. split; [done|]. split; [done|]. split; [done|]. split; [by rewrite W3|].
  split; [done|]. split; [done|]. split; [|split].
  - split_and!; [done|done|apply Hl|]. rewrite (lb_seq _ _ _ _ Hl). unfold first_seq in Hfirst. rewrite Hg in Hfirst.
    pose proof (so_seq _ _ (sn_queue _ _ Hs)) as Hq. cbn [me] in Hq. revert Hfirst Hq. clear. word_lia.
  - apply closed_again; [by rewrite W1|done..|by rewrite W3].
  - intros fl. apply fin_acked; [by rewrite W1|done|done].
Qed.

Lemma close_ends_stream_witness :
  exists s' p, utp_close demo_st = Ok tt s' /\ content (sq (me s')) = [] /\
    cur_window_packets (sq (me s')) = 1 /\ slot (sq (me s')) 0 = Some p /\
    pf_type (pk_hdr p) = ST_FIN /\ utp_close s' = Ok tt s'.
Proof.
  destruct (close_ends_stream 1 demo_st demo_sender eq_refl eq_refl eq_refl eq_refl)
    as (s' & p & H1 & _ & _ & _ & H5 & H6 & (H7 & _ & H9 & _) & H10 & _).
  exists s', p. split; [exact H1|]. split; [exact H5|]. split; [exact H6|]. split; [exact H7|].
  split; [exact H9|exact H10].
Defined.
