(* ===== verification/SafetySpec.v ===== *)
(** * What every program can rely on

    The properties of the library as a whole, for every application that
    satisfies [GoodApp] and every sequence of calls the documentation allows:
    the calls end, no assertion fails but the ones named, no freed socket is
    touched, and what the sockets promised to their streams is kept. *)
From S2P Require Import Prelude Wrap Packet Ring Delay DelayAvg Arrays SockAddr Hash HashMap Context AckList.
From S2P Require Import Socket Frame MtuSearch Send SendQueue SendInv Reorder Ack Incoming Timeouts Api.
From S2P Require Import AckQueue AckStages Receive RecvInv IncomingSafe SockOps World WorldOps WorldOpen.
From S2P Require Import Flush WriteQueue WorldCalls WorldTimers DeferredAcks Calls Demo.

(** ** Concrete programs, for the witnesses *)
Definition after_call {E : Env} (w : World) (a : api_call) : World :=
  match perform 3 a w with Ok _ w' => w' | Err _ _ => w end.

Definition ends {E : Env} (w : World) (a : api_call) : bool :=
  match perform 3 a w with Ok _ _ => true | Err _ _ => false end.

Definition demo_start : World := mkWorld ∅ (mkSys demo_ctx ∅ []).
Definition demo_created : World := after_call demo_start CreateSocket.
Definition demo_connecting : World := after_call demo_created (Connect 1 demo_peer).

(** the answer of the peer: an acknowledgement of the SYN *)
Definition demo_state_packet : list Z :=
  encode_header ((set_version 1 (set_type ST_STATE zero_header))
    <| pf_connid := 65530 |> <| pf_windowsize := 100000 |> <| pf_seq_nr := 500 |>
    <| pf_ack_nr := 65530 |>).

Definition demo_connected : World := after_call demo_connecting (ProcessUdp demo_state_packet demo_peer).
Definition demo_written : World := after_call demo_connected (Writev 1 [[10; 20; 30]]).

Lemma reach_next w a :
  reachable 3 w -> calm w = true -> legal w a -> ends w a = true -> reachable 3 (after_call w a).
Proof.
  intros Hr Hc Hl He. unfold ends, after_call in *. destruct (perform 3 a w) as [[] w'|] eqn:Hp; [|done].
  by apply (reach_call 3 w a w').
Qed.

(** registration, decided by a lookup *)
Lemma registered_lookup {E : Env} {HA : GoodApp} tries w p c :
  reachable tries w -> heap w !! p = Some c ->
  registered w p <-> socket_lookup (utp_sockets (ctx (w_sys w))) (sock_key c) = Some p.
Proof.
  intros [R Hw]%reachable_well Hc. split; [|by eexists].
  intros Hp%(registered_in _ _ _ _ _ Hw). by apply (reg_lookup Hw).
Qed.

Definition looks_registered (w : World) (p : ptr) : bool :=
  match heap w !! p with
  | Some c => bool_decide (socket_lookup (utp_sockets (ctx (w_sys w))) (sock_key c) = Some p)
  | None => false
  end.

Lemma demo_registered w p : reachable 3 w -> looks_registered w p = true -> registered w p.
Proof.
  unfold looks_registered. intros Hr H. destruct (heap w !! p) as [c|] eqn:Hc; [|done].
  apply (registered_lookup 3 w p c); [done..|]. by apply bool_decide_eq_true in H.
Qed.

Lemma demo_unregistered w p :
  reachable 3 w -> is_Some (heap w !! p) -> looks_registered w p = false -> ~ registered w p.
Proof.
  unfold looks_registered. intros Hr [c Hc] H. rewrite Hc in H.
  rewrite (registered_lookup 3 w p c); [|done..]. by apply bool_decide_eq_false in H.
Qed.

Lemma demo_reach_start : reachable 3 demo_start.
Proof. by apply reach_start. Qed.

Lemma demo_reach_created : reachable 3 demo_created.
Proof. apply reach_next; [exact demo_reach_start|by vm_compute..]. Qed.

Lemma demo_reach_connecting : reachable 3 demo_connecting.
Proof.
  assert (is_Some (heap demo_created !! 1)) as Hs by (vm_compute; eauto).
  apply reach_next; [exact demo_reach_created|by vm_compute| |by vm_compute].
  split; [exact Hs|]. apply demo_unregistered; [exact demo_reach_created|exact Hs|by vm_compute].
Qed.

Lemma demo_reach_connected : reachable 3 demo_connected.
Proof.
  apply reach_next; [exact demo_reach_connecting|by vm_compute| |by vm_compute].
  split; [|done]. unfold demo_state_packet. by repeat constructor.
Qed.

Lemma demo_reach_written : reachable 3 demo_written.
Proof.
  apply reach_next; [exact demo_reach_connected|by vm_compute| |by vm_compute].
  split; [|done]. apply demo_registered; [exact demo_reach_connected|by vm_compute].
Qed.

(** data that arrives on the connection *)
Definition demo_data_packet : list Z :=
  encode_header ((set_version 1 (set_type ST_DATA zero_header))
    <| pf_connid := 65530 |> <| pf_windowsize := 100000 |> <| pf_seq_nr := 500 |>
    <| pf_ack_nr := 65530 |>) ++ [1; 2; 3].

Definition demo_received : World := after_call demo_connected (ProcessUdp demo_data_packet demo_peer).

Lemma demo_reach_received : reachable 3 demo_received.
Proof.
  apply reach_next; [exact demo_reach_connected|by vm_compute| |by vm_compute].
  split; [|done]. unfold demo_data_packet. by repeat constructor.
Qed.

(** ** The calls are safe *)

(** C1: the calls of an application are safe.  From any state a program can reach by
    the calls the documentation allows, each further call ends: every loop runs to
    its end (but for the search of utp_connect for an unused connection id, bounded
    by [tries], which the random numbers decide), no assertion fails but three of
    the congestion controller, no socket that was destroyed is touched, no array is
    read out of bounds but the selective acknowledgement of a malformed datagram
    (see selective_ack_bytes), and every socket, the table, the list of due
    acknowledgements and the reset records are consistent again afterwards. *)
Theorem api_calls_safe {E : Env} {HA : GoodApp} (tries : nat) (w : World) (a : api_call) :
  reachable tries w -> calm w = true -> legal w a ->
  match perform tries a w with
  | Ok _ w' => well w'
  | Err f _ => allowed_fault a f
  end.
Proof. intros Hr Hc Hl. apply (wp_perform tries a w); [by eapply reachable_well|done..]. Qed.

Lemma api_calls_safe_witness :
  match perform 3 (ProcessUdp demo_data_packet demo_peer) demo_connected with
  | Ok _ w' => well w'
  | Err f _ => allowed_fault (ProcessUdp demo_data_packet demo_peer) f
  end.
Proof.
  apply (api_calls_safe 3 demo_connected); [exact demo_reach_connected|by vm_compute|].
  split; [|done]. unfold demo_data_packet. by repeat constructor.
Defined.

(** C15: no dangling references.  In every state a program can reach, a socket found in
    the context's table exists and is registered under its own address and receive
    id, and only once; the sockets due an acknowledgement exist and are listed once;
    the last socket used is NULL or registered; and the table counts its sockets. *)
Theorem context_never_dangles {E : Env} {HA : GoodApp} (tries : nat) (w : World) :
  reachable tries w ->
  (forall k p, socket_lookup (utp_sockets (ctx (w_sys w))) k = Some p ->
     exists c, heap w !! p = Some c /\ this c = p /\ sock_key c = k) /\
  (exists l, arr_rep (ack_sockets (ctx (w_sys w))) l /\ NoDup l /\
     forall p, p ∈ l -> is_Some (heap w !! p)) /\
  (last_utp_socket (ctx (w_sys w)) = NULL \/ registered w (last_utp_socket (ctx (w_sys w)))) /\
  exists R : gset ptr, (forall p, p ∈ R <-> registered w p) /\
    count (utp_sockets (ctx (w_sys w))) = Z.of_nat (size R).
Proof.
  intros [R Hw]%reachable_well. split; [|split; [|split]].
  - intros k p [_ (c & Hc & Hk)]%(wi_get _ _ _ _ Hw). exists c. split; [done|].
    split; [by apply (wi_this _ _ _ _ Hw)|done].
  - destruct (sg_acks _ (wi_sys _ _ _ _ Hw)) as [l Hl]. exists l.
    split; [apply Hl|]. split; [apply Hl|]. intros p Hp%(ack_live _ _ Hl).
    apply elem_of_dom. rewrite (wi_dom _ _ _ _ Hw). by apply elem_of_dom.
  - rewrite (registered_in _ _ _ _ _ Hw). apply (wi_last _ _ _ _ Hw).
  - exists R. split; [|apply Hw]. intros p. symmetry. apply (registered_in _ _ _ _ _ Hw).
Qed.

Lemma context_never_dangles_witness :
  exists c, heap demo_received !! 1 = Some c /\ this c = 1 /\
    sock_key c = mkKey (set_addr demo_peer) 65530.
Proof.
  apply (proj1 (context_never_dangles 3 demo_received demo_reach_received)). by vm_compute.
Defined.

(** C28: the memory for resets is bounded.  However many datagrams of unknown
    connections arrive, the context never remembers more than RST_INFO_LIMIT + 1 of
    the resets it sent. *)
Theorem rst_info_bounded {E : Env} {HA : GoodApp} (tries : nat) (w : World) :
  reachable tries w -> 0 <= GetCount (rst_info (ctx (w_sys w))) <= RST_INFO_LIMIT + 1.
Proof.
  intros [R Hw]%reachable_well. destruct (wi_rst _ _ _ _ Hw) as (l & Hl & Hb).
  unfold GetCount. rewrite (arr_rep_count _ _ Hl). lia.
Qed.

Lemma rst_info_bounded_witness : 0 <= GetCount (rst_info (ctx (w_sys demo_received))) <= 1001.
Proof. apply (rst_info_bounded 3), demo_reach_received. Defined.

(** ** What a socket promises to its stream *)

(** C13: a packet only removes what it acknowledges.  On a consistent socket, any
    well-sized packet other than a RST, whatever its fields and extensions say, is
    processed to the end without a failed assertion but those named by
    [incoming_fault]; the socket is consistent afterwards, and every packet of its
    send queue is still there, in its place and with its bytes, unless the packet's
    ack_nr covers that place or one of the bits of a selective acknowledgement in it
    does, of which there are eight for each byte of its length field. *)
Theorem process_incoming_keeps_unacked {E : Env} {HA : GoodApp} (n m : Z) (packet : list Z)
    (syn : bool) (s : St) :
  sock_ok n m s -> n + 6 < 2147483648 -> m < INT_MAX ->
  Forall is_u8 packet -> sizeof_PacketFormatV1 <= Z.of_nat (length packet) < 2147483648 ->
  (forall pf, decode_header packet = Some pf -> pf_type pf <> ST_RESET) ->
  match utp_process_incoming packet syn s with
  | Ok _ s' => exists pf, decode_header packet = Some pf /\
      sock_ok (n + 6) (m + 1) s' /\
      trimmed (acked_by (sq (me s)) (extensions (rq (me s))) packet pf) (sq (me s)) (sq (me s')) /\
      identity (me s') = identity (me s)
  | Err f _ => incoming_fault f
  end.
Proof.
  destruct s as [c y]. intros Hs Hn Hm Hb Hl Hr. apply (wp_mono _ _ _ _ _ (wp_incoming_any _
    (fun f H => H) n m packet syn c y Hs Hn Hm Hb Hl Hr)).
  intros x s' (pf & Hd & [H1 _ H3 H4 _] & _). by exists pf.
Qed.

(** a socket of a program, for the witnesses *)
Definition the_socket (w : World) (p : ptr) : St :=
  mkSt (default demo_sock (heap w !! p)) (w_sys w).

Lemma demo_socket_ok w p :
  reachable 3 w -> looks_registered w p = true ->
  sock_ok (max_sent + slack) (max_samples + slack) (the_socket w p).
Proof.
  intros Hr Hp. pose proof (demo_registered w p Hr Hp) as Hreg.
  destruct (reachable_well 3 w Hr) as [R Hw]. rewrite (registered_in _ _ _ _ _ Hw) in Hreg.
  destruct (reg_sock Hw p Hreg) as (c & Hc & _ & Hs). unfold the_socket. by rewrite Hc.
Qed.

Lemma demo_socket_calm w p :
  reachable 3 w -> calm w = true -> looks_registered w p = true ->
  sock_ok max_sent max_samples (the_socket w p).
Proof.
  intros Hr Hcalm Hp. pose proof (demo_registered w p Hr Hp) as Hreg.
  destruct (reachable_well 3 w Hr) as [R Hw]. rewrite (registered_in _ _ _ _ _ Hw) in Hreg.
  destruct (calm_start R w Hw Hcalm) as [Hb _].
  destruct (reg_sock Hb p Hreg) as (c & Hc & _ & Hs). unfold the_socket. by rewrite Hc.
Qed.

Lemma process_incoming_keeps_unacked_witness :
  match utp_process_incoming demo_data_packet false (the_socket demo_written 1) with
  | Ok _ s' => exists pf, decode_header demo_data_packet = Some pf /\
      sock_ok (max_sent + 6) (max_samples + 1) s' /\
      trimmed (acked_by (sq (me (the_socket demo_written 1))) (extensions (rq (me (the_socket demo_written 1))))
        demo_data_packet pf)
        (sq (me (the_socket demo_written 1))) (sq (me s')) /\
      identity (me s') = identity (me (the_socket demo_written 1))
  | Err f _ => incoming_fault f
  end.
Proof.
  apply (process_incoming_keeps_unacked max_sent max_samples).
  - apply demo_socket_calm; [exact demo_reach_written|by vm_compute..].
  - done.
  - done.
  - unfold demo_data_packet. by repeat constructor.
  - done.
  - intros pf Hd. vm_compute in Hd. by injection Hd as <-.
Defined.

(** C14: the timer loses nothing.  Whatever the time, UTPSocket::check_timeouts on a
    consistent socket ends without a failed assertion, leaves the socket consistent,
    and leaves the byte stream of its send queue as it was, whether it sends a
    packet again, gives up a path-MTU probe, closes the window or abandons the
    connection. *)
Theorem check_timeouts_keeps_stream {E : Env} {HA : GoodApp} (n m : Z) (s : St) :
  sock_ok n m s -> 1 <= n -> n + 2 < 2147483648 ->
  exists s', check_timeouts s = Ok tt s' /\ sock_ok (n + 2) m s' /\
    content (sq (me s')) = content (sq (me s)).
Proof.
  destruct s as [c y]. intros Hs Hn1 Hn.
  destruct (proj1 (wp_ok _ _ _) (wp_check_timeouts_ok no_fault n m c y Hs Hn1 Hn))
    as ([] & s' & E' & [H _ _ _ _] & Hc). exists s'. split_and!; [done..|].
  by apply content_unmoved, tk_unmoved.
Qed.

Lemma check_timeouts_keeps_stream_witness :
  exists s', check_timeouts (the_socket demo_written 1) = Ok tt s' /\
    sock_ok (max_sent + 2) max_samples s' /\ content (sq (me s')) = [10; 20; 30].
Proof.
  apply (check_timeouts_keeps_stream max_sent max_samples (the_socket demo_written 1)).
  - apply demo_socket_calm; [exact demo_reach_written|by vm_compute..].
  - done.
  - done.
Defined.

(** C16: deferred acknowledgements are sent.  In every state a program can reach,
    utp_issue_deferred_acks ends without a failed assertion with no acknowledgement
    due any more, and if the application handles UTP_SENDTO, every socket that was
    listed has had a datagram sent by the call. *)
Theorem deferred_acks_are_sent {E : Env} {HA : GoodApp} (tries : nat) (w : World) (l : list ptr) :
  reachable tries w -> calm w = true -> arr_rep (ack_sockets (ctx (w_sys w))) l ->
  exists w', utp_issue_deferred_acks w = Ok tt w' /\ well w' /\
    arr_rep (ack_sockets (ctx (w_sys w'))) [] /\
    exists rs, trace (w_sys w') = rs ++ trace (w_sys w) /\
      (has_callback (ctx (w_sys w)) UTP_SENDTO = true -> forall p, p ∈ l -> has_sent p rs).
Proof.
  intros [R Hw]%reachable_well Hc Hl. destruct (calm_start R w Hw Hc) as [Hb _].
  destruct (sg_acks _ (wi_sys _ _ _ _ Hb)) as [l' Hl'].
  assert (l' = l) as -> by (eapply arr_rep_inj; [apply Hl'|exact Hl]).
  destruct (proj1 (wp_ok _ _ _) (wp_issue_deferred_acks no_fault _ _ _ l w Hb Hl'))
    as ([] & w' & E' & Hb' & Hn & rs & Ht & Hs).
  exists w'. split; [exact E'|]. split; [exists R; by apply before_after|].
  split; [apply Hn|]. by exists rs.
Qed.

Lemma deferred_acks_are_sent_witness :
  exists w', utp_issue_deferred_acks demo_received = Ok tt w' /\ well w' /\
    arr_rep (ack_sockets (ctx (w_sys w'))) [] /\
    exists rs, trace (w_sys w') = rs ++ trace (w_sys demo_received) /\
      (true = true -> forall p, p ∈ [1] -> has_sent p rs).
Proof.
  apply (deferred_acks_are_sent 3 demo_received [1]);
    [exact demo_reach_received|by vm_compute|].
  by vm_compute.
Defined.
