(* ===== verification/MtuSpec.v ===== *)
(** * Path MTU discovery converges

    The search of MtuSearch.v with the packets send_packet probes with
    (src/utp_internal.cpp): what a sequence of full packets finds out about a path
    that lets through sizes up to some bound, and the states in which it finds out
    nothing. *)
From S2P Require Import Prelude Packet SockAddr AckList Context Socket Frame MtuSearch Send.
From S2P Require Import World Calls Demo SafetySpec.

(** ** The environment *)
Section Discovery.
Context {E : Env}.

(** a packet of the size utp_writev fills packets to, not sent yet *)
Definition full_packet (c : UTPSocket) : OutgoingPacket :=
  mkPkt (get_header_size + get_packet_size c) (get_packet_size c) 0 0 false zero_header [].

(** the packet takes the next sequence number (write_outgoing_packet) and send_packet
    decides whether it is a probe; on a path that lets through sizes up to [P], the probe
    is acknowledged or considered lost *)
Definition offer (P : Z) (p : OutgoingPacket) : M St unit :=
  upd_sq (fun q => q <| seq_nr ::= fun n => u16 (n + 1) |>) ;;
  c ← my (fun c => c);
  when (is_probe c p) (
    start_probe p ;;
    if pk_length p <=? P then probe_acked else probe_lost).

Definition mtu_done (m : Mtu) : bool := mtu_floor m =? mtu_ceiling m.

(** full packets until the range has closed *)
Fixpoint discover (fuel : nat) (P : Z) : M St unit :=
  c ← my (fun c => c);
  if mtu_done (mt c) then mret tt else
  match fuel with
  | O => fail OutOfFuel
  | S fuel => offer P (full_packet c) ;; discover fuel P
  end.
End Discovery.

(** ** The search on the fields *)

(** the outcome of a probe of size [mtu_last] *)
Definition probe_round (P : Z) (m : Mtu) : Mtu :=
  if mtu_last m <=? P then mtu_search (m <| mtu_floor := mtu_last m |>)
  else mtu_search (m <| mtu_ceiling := u32 (mtu_last m - 1) |>).

(** a range that holds [P], no probe being under way *)
Record ranges (P : Z) (m : Mtu) : Prop := {
  ra_ok : 21 <= mtu_floor m /\ mtu_ceiling m < 65536;
  ra_in : mtu_floor m <= P <= mtu_ceiling m;
  ra_last : 21 <= mtu_last m < 65536;
  ra_probe : mtu_probe_seq m = 0;
}.

(** the next full packet is a probe *)
Definition probing (m : Mtu) : bool := (mtu_floor m <? mtu_last m) && (mtu_last m <=? mtu_ceiling m).

(** after the first probe it is in the middle *)
Record halving (P : Z) (m : Mtu) : Prop := {
  ha_ranges : ranges P m;
  ha_open : 16 < mtu_ceiling m - mtu_floor m;
  ha_mid : mtu_last m = (mtu_floor m + mtu_ceiling m) / 2;
}.

Lemma halving_probing P m : halving P m -> ranges P m /\ probing m = true.
Proof.
  intros [H1 H2 H3]. split; [done|]. unfold probing. rewrite H3.
  rewrite (proj2 (Z.ltb_lt _ _)), (proj2 (Z.leb_le _ _)) by dlia. done.
Qed.

Lemma mtu_search_shape P m :
  21 <= mtu_floor m -> mtu_ceiling m < 65536 -> mtu_floor m <= P <= mtu_ceiling m ->
  (let m' := mtu_search m in
   (mtu_ceiling m - mtu_floor m <= 16 /\ mtu_floor m' = mtu_floor m /\
    mtu_ceiling m' = mtu_floor m /\ mtu_last m' = mtu_floor m) \/
   (halving P m' /\ mtu_floor m' = mtu_floor m /\ mtu_ceiling m' = mtu_ceiling m)).
Proof.
  intros H0 H1 H2. unfold mtu_search, mtu_repair, mtu_bisect, mtu_close_enough, mtu_finish.
  destruct m as [t c f l ps pz]. cbn in *. destruct (Z.ltb_spec c f); [lia|]. cbn.
  rewrite (u32_small (c - _)), (u32_small (f + _)) by word_lia.
  destruct (Z.leb_spec (c - f) 16); [by left|right].
  split; [|done]. split; cbn; [split; cbn|..]; dlia.
Qed.

(** what a probe leaves *)
Lemma probe_round_shape P m :
  ranges P m -> probing m = true ->
  let m' := probe_round P m in
  (mtu_done m' = true /\ P - 16 <= mtu_last m' <= P) \/
  (halving P m' /\ mtu_ceiling m' - mtu_floor m' < mtu_ceiling m - mtu_floor m /\
   (halving P m -> 2 * (mtu_ceiling m' - mtu_floor m') <= (mtu_ceiling m - mtu_floor m) + 1)).
Proof.
  intros [[H0 H1] H2 _ _] [H3%Z.ltb_lt H4%Z.leb_le]%andb_true_iff. cbn zeta. unfold probe_round, mtu_done.
  destruct (Z.leb_spec (mtu_last m) P).
  - set (m1 := m <| mtu_floor := mtu_last m |>).
    assert (E : mtu_floor m1 = mtu_last m /\ mtu_ceiling m1 = mtu_ceiling m) by by destruct m.
    destruct E as [Ef Ec].
    destruct (mtu_search_shape P m1) as [(Hc & E1 & E2 & E3)|(Hs & E1 & E2)];
      rewrite ?Ef, ?Ec in *; try lia.
    right. rewrite E1, E2. split_and!; [done|lia|]. intros [_ _ Hm]. dlia.
  - set (m1 := m <| mtu_ceiling := u32 (mtu_last m - 1) |>).
    assert (E : mtu_floor m1 = mtu_floor m /\ mtu_ceiling m1 = mtu_last m - 1).
    { destruct m. cbn in *. split; [done|]. apply u32_small. unfold is_u32. lia. }
    destruct E as [Ef Ec].
    destruct (mtu_search_shape P m1) as [(Hc & E1 & E2 & E3)|(Hs & E1 & E2)];
      rewrite ?Ef, ?Ec in *; try lia.
    right. rewrite E1, E2. split_and!; [done|lia|]. intros [_ _ Hm]. dlia.
Qed.

(** neither depends on when the next discovery is due, nor on the probe just ended *)
Lemma halving_discover P m t : halving P m -> halving P (m <| mtu_discover_time := t |>).
Proof. by intros [[] ? ?]; destruct m; split. Qed.

Lemma mtu_search_probe m a b :
  mtu_search (m <| mtu_probe_seq := a |> <| mtu_probe_size := b |>) = mtu_search m.
Proof.
  unfold mtu_search, mtu_repair, mtu_bisect, mtu_close_enough, mtu_finish.
  destruct m. cbn. by repeat (case_match; cbn in *; try congruence).
Qed.

(** probes that are enough to close a range: fourteen for any, fewer for a small one *)
Definition probes_enough (P : Z) (k : nat) (m : Mtu) : Prop :=
  ranges P m /\ probing m = true /\
  ((14 <= k)%nat \/ halving P m /\ mtu_ceiling m - mtu_floor m <= 2 ^ Z.of_nat (k + 3) + 1).

(** what the search leaves: a closed range and packets that get through, at most sixteen
    bytes smaller than the largest that do *)
Definition best_size (P : Z) (m : Mtu) : Prop :=
  mtu_floor m = mtu_ceiling m /\ P - 16 <= mtu_last m <= P.

Lemma probes_enough_open P k m : probes_enough P k m -> mtu_done m = false /\ k <> 0%nat.
Proof.
  intros (_ & [H1%Z.ltb_lt H2%Z.leb_le]%andb_true_iff & H). unfold mtu_done.
  split; [apply Z.eqb_neq; lia|]. intros ->. destruct H as [H|[[_ H _] H']]; [lia|].
  change (2 ^ Z.of_nat (0 + 3)) with 8 in H'. lia.
Qed.

Lemma probes_enough_step P k m t :
  probes_enough P (S k) m ->
  let m' := (probe_round P m) <| mtu_discover_time := t |> in
  mtu_done m' = true /\ best_size P m' \/ probes_enough P k m'.
Proof.
  intros (Hr & Hp & Hk). cbn zeta.
  destruct (probe_round_shape P m Hr Hp) as [[Hd Hl]|(Hh & Hw & Hhalf)].
  - left. unfold best_size, mtu_done in *. destruct (probe_round P m). cbn in *.
    apply Z.eqb_eq in Hd. by rewrite Hd, Z.eqb_refl.
  - right. pose proof (halving_discover _ _ t Hh) as Ht. unfold probes_enough.
    destruct (halving_probing _ _ Ht) as [H1 H2]. split_and!; [done..|].
    assert (E : forall m', mtu_ceiling (m' <| mtu_discover_time := t |>) = mtu_ceiling m' /\
      mtu_floor (m' <| mtu_discover_time := t |>) = mtu_floor m') by by intros [].
    rewrite !(proj1 (E _)), !(proj2 (E _)). destruct Hr as [[Hr1 Hr2] _ _ _].
    destruct Hk as [Hk|[Hm Hk]].
    + destruct (decide (k = 13%nat)) as [->|]; [right|left; lia]. split; [done|].
      change (2 ^ Z.of_nat (13 + 3)) with 65536. lia.
    + right. split; [done|]. specialize (Hhalf Hm). replace (S k + 3)%nat with (S (k + 3)) in Hk by lia.
      rewrite Nat2Z.inj_succ, Z.pow_succ_r in Hk by lia. lia.
Qed.

(** ** Full packets *)
Section Packets.
Context {E : Env} (F : fault -> Prop) (P : Z).

(** it is as long as the sizes the search picks *)
Lemma full_packet_length c :
  21 <= mtu_last (mt c) < 65536 -> pk_length (full_packet c) = mtu_last (mt c).
Proof.
  intros H. cbn. unfold get_packet_size, get_header_size, sizeof_PacketFormatV1.
  destruct (Z.eqb_spec (mtu_last (mt c)) 0); word_lia.
Qed.

(** a full packet is a probe when the size is above the floor and not above the ceiling *)
Lemma is_probe_full c p :
  ranges P (mt c) -> pk_length p = mtu_last (mt c) -> pk_transmissions p = 0 ->
  is_probe c p = probing (mt c) && negb (seq_nr (sq c) =? 1).
Proof.
  intros [_ _ _ Hs] Hl Ht. unfold is_probe, probing. rewrite Hl, Ht, Hs. cbn.
  rewrite !andb_true_r. destruct (Z.ltb_spec (mtu_floor (mt c)) (mtu_last (mt c))); [|by rewrite andb_false_r].
  destruct (Z.leb_spec (mtu_last (mt c)) (mtu_ceiling (mt c))); [|by rewrite andb_false_r].
  rewrite (proj2 (Z.ltb_lt _ _)) by lia. done.
Qed.

(** the outcome of a probe *)
Lemma wp_probe (Q : unit -> St -> Prop) c y p :
  ranges P (mt c) -> pk_length p = mtu_last (mt c) -> probing (mt c) = true ->
  (forall c' y' t, mt c' = (probe_round P (mt c)) <| mtu_discover_time := t |> -> sq c' = sq c ->
     Q tt (mkSt c' y')) ->
  wp F (start_probe p ;; if pk_length p <=? P then probe_acked else probe_lost) Q (mkSt c y).
Proof.
  intros [[] ? ? _] Hl [H3%Z.ltb_lt H4%Z.leb_le]%andb_true_iff HQ. unfold start_probe. rewrite Hl.
  rewrite (u32_small (mtu_last (mt c))) by (unfold is_u32; lia).
  unfold probe_round in HQ. destruct c, mt as [t0 ce f l ps pz]. cbn -[mtu_search] in * |-. cbn [mt mtu_last].
  wp_steps. apply wp_assert; [intros _|cbn; lia]. apply wp_assert; [intros _|cbn; lia].
  set (a := Z.land _ _).
  destruct (Z.leb_spec l P).
  - unfold probe_acked. wp_steps. apply wp_mtu_search_update; [cbn; unfold mtu_loose; cbn; lia|].
    intros t y' _ _. rewrite <- (mtu_search_probe _ a l) in HQ. apply (HQ _ _ t); done.
  - unfold probe_lost. wp_steps. apply wp_mtu_search_update; [cbn; unfold mtu_loose; cbn; word_lia|].
    intros t y' _ _. rewrite <- (mtu_search_probe _ a l) in HQ. apply (HQ _ _ t); done.
Qed.

(** a full packet: a probe, or one that changes nothing *)
Lemma wp_offer_full (Q : unit -> St -> Prop) c y :
  let n := u16 (seq_nr (sq c) + 1) in
  ranges P (mt c) ->
  (n = 1 \/ probing (mt c) = false ->
     forall c', mt c' = mt c -> seq_nr (sq c') = n -> Q tt (mkSt c' y)) ->
  (n <> 1 -> probing (mt c) = true -> forall c' y' t,
     mt c' = (probe_round P (mt c)) <| mtu_discover_time := t |> -> seq_nr (sq c') = n ->
     Q tt (mkSt c' y')) ->
  wp F (offer P (full_packet c)) Q (mkSt c y).
Proof.
  cbn zeta. intros Hr H0 H1. pose proof (full_packet_length _ (ra_last _ _ Hr)) as Hlen.
  assert (Hp : pk_transmissions (full_packet c) = 0) by done.
  unfold offer. wp_steps.
  lazymatch goal with |- context [mkSt ?x y] => set (c1 := x) end.
  assert (Hc : mt c1 = mt c /\ seq_nr (sq c1) = u16 (seq_nr (sq c) + 1)) by by destruct c.
  destruct Hc as [Hm Hn]. generalize dependent c1. intros c1 Hm Hn.
  rewrite is_probe_full by (rewrite ?Hm; done). rewrite Hm, Hn.
  apply wp_when; intros Hb.
  - apply andb_true_iff in Hb as [Hb Hb1%negb_true_iff%Z.eqb_neq].
    apply wp_probe; rewrite ?Hm; try done. intros c' y' t Ht Hs. apply (H1 Hb1 Hb c' y' t Ht).
    by rewrite Hs.
  - apply H0; [|done|done].
    apply andb_false_iff in Hb as [Hb|Hb%negb_false_iff%Z.eqb_eq]; [by right|by left].
Qed.

Lemma discover_eq k s :
  discover k P s =
    if mtu_done (mt (me s)) then Ok tt s else
    match k with
    | O => Err OutOfFuel s
    | S k => (offer P (full_packet (me s)) ;; discover k P) s
    end.
Proof. destruct k; cbn [discover]; unfold mbind, M_bind, my, gets; by destruct (mtu_done _). Qed.

Lemma discover_done k s : mtu_done (mt (me s)) = true -> discover k P s = Ok tt s.
Proof. intros H. by rewrite discover_eq, H. Qed.

(** one round, from a range that is open *)
Lemma wp_discover_step (Q : unit -> St -> Prop) k c y :
  mtu_done (mt c) = false ->
  wp F (offer P (full_packet c)) (fun _ => wp F (discover k P) Q) (mkSt c y) ->
  wp F (discover (S k) P) Q (mkSt c y).
Proof. intros H H'. cbn [discover]. wp_steps. rewrite H. wp_steps. exact H'. Qed.

(** no packet takes the sequence number that is never probed with *)
Lemma wp_discover_avoid k c y :
  probes_enough P k (mt c) -> (forall i, 1 <= i <= Z.of_nat k -> u16 (seq_nr (sq c) + i) <> 1) ->
  wp F (discover k P) (fun _ s' => best_size P (mt (me s'))) (mkSt c y).
Proof.
  revert c y. induction k as [|k IH]; intros c y Hc Hi; destruct (probes_enough_open _ _ _ Hc) as [Hd Hk]; [done|].
  apply wp_discover_step; [done|]. pose proof (Hi 1 ltac:(lia)) as Hn.
  apply wp_offer_full; [apply Hc|..].
  - intros [?|Hp]; [done|]. by rewrite (proj1 (proj2 Hc)) in Hp.
  - intros _ _ c' y' t Ht Hs. destruct (probes_enough_step _ _ _ t Hc) as [[Hd' Hf]|Hc']; rewrite <- Ht in *.
    + unfold wp. by rewrite discover_done.
    + apply IH; [done|]. intros i Hi'. rewrite Hs. specialize (Hi (1 + i) ltac:(lia)). word_lia.
Qed.

(** one of them does *)
Lemma wp_discover k c y :
  probes_enough P k (mt c) -> Z.of_nat k < 65535 ->
  wp F (discover (S k) P) (fun _ s' => best_size P (mt (me s'))) (mkSt c y).
Proof.
  revert c y. induction k as [|k IH]; intros c y Hc Hk; destruct (probes_enough_open _ _ _ Hc) as [Hd Hk']; [done|].
  apply wp_discover_step; [done|]. apply wp_offer_full; [apply Hc|..].
  - intros [Hn|Hp]; [|by rewrite (proj1 (proj2 Hc)) in Hp]. intros c' Hm Hs.
    apply wp_discover_avoid; [by rewrite Hm|]. intros i Hi. rewrite Hs, Hn. word_lia.
  - intros _ _ c' y' t Ht Hs. destruct (probes_enough_step _ _ _ t Hc) as [[Hd' Hf]|Hc']; rewrite <- Ht in *.
    + unfold wp. by rewrite discover_done.
    + apply IH; [done|lia].
Qed.
End Packets.

(** no packet is a probe: the range stays as it is *)
Lemma discover_stuck {E : Env} P k s :
  ranges P (mt (me s)) -> probing (mt (me s)) = false -> mtu_done (mt (me s)) = false ->
  exists s', discover k P s = Err OutOfFuel s' /\ mt (me s') = mt (me s).
Proof.
  revert s. induction k as [|k IH]; intros s Hr Hp Hd; rewrite discover_eq, Hd; [by exists s|].
  destruct s as [c y]. cbn [me] in *.
  destruct (proj1 (wp_ok (offer P (full_packet c)) (fun _ s' => mt (me s') = mt c) (mkSt c y)))
    as ([] & s1 & E1 & H1).
  { apply (wp_offer_full no_fault P); [done|by intros _ c' Hm _|by rewrite Hp]. }
  destruct (IH s1) as (s' & E' & H'); [by rewrite H1..|]. exists s'.
  split; [|by rewrite H', H1]. unfold mbind, M_bind. by rewrite E1.
Qed.

(** ** Properties *)

(** C21: Let the path let through packets of up to [P] bytes, with [P] inside the search
    range, no probe being under way, and let the socket send packets of the size utp_writev
    fills them to (that is [mtu_last]), each probe being acknowledged or lost before the
    next packet and no restart falling due meanwhile.  When [mtu_last] is above the floor
    and not above the ceiling -- utp_initialize_socket starts with [mtu_last] at the ceiling
    -- fifteen packets close the range, whatever their sequence numbers, and the packet size
    then gets through and is at most sixteen bytes smaller than the largest that does.  When
    it is not -- mtu_reset moves the ends and keeps [mtu_last], which may be the floor
    itself -- no packet is ever a probe, and no number of packets changes the range. *)
Theorem mtu_search_converges {E : Env} (P : Z) (s : St) :
  let m := mt (me s) in
  ranges P m -> mtu_floor m < mtu_ceiling m ->
  (mtu_floor m < mtu_last m <= mtu_ceiling m ->
   exists s', discover 15 P s = Ok tt s' /\
     let m' := mt (me s') in mtu_floor m' = mtu_ceiling m' /\ P - 16 <= mtu_last m' <= P) /\
  (~ mtu_floor m < mtu_last m <= mtu_ceiling m ->
   forall packets, exists s', discover packets P s = Err OutOfFuel s' /\ mt (me s') = m).
Proof.
  cbn zeta. intros Hr Ho. split; intros H.
  - destruct s as [c y]. cbn [me] in *.
    assert (Hc : probes_enough P 14 (mt c)).
    { split; [done|]. split; [|by left]. unfold probing. apply andb_true_iff.
      split; [apply Z.ltb_lt|apply Z.leb_le]; lia. }
    destruct (proj1 (wp_ok _ _ _) (wp_discover no_fault P 14 c y Hc ltac:(lia))) as ([] & s' & ? & ?).
    by exists s'.
  - intros k. apply discover_stuck; [done|..].
    + unfold probing. apply andb_false_iff.
      destruct (Z.ltb_spec (mtu_floor (mt (me s))) (mtu_last (mt (me s)))); [|by left].
      right. apply Z.leb_gt. lia.
    + apply Z.eqb_neq. lia.
Qed.

(** ** A connection *)

(** as utp_initialize_socket left it *)
Example starts_at_the_ceiling :
  mt (me (the_socket demo_connected 1)) =
    (mt (me (the_socket demo_connected 1)))
      <| mtu_floor := 576 |> <| mtu_ceiling := 1400 |> <| mtu_last := 1400 |>
      <| mtu_probe_seq := 0 |>.
Proof. vm_compute. reflexivity. Qed.

Lemma mtu_search_converges_witness :
  exists s', discover 15 1300 (the_socket demo_connected 1) = Ok tt s' /\
    let m' := mt (me s') in mtu_floor m' = mtu_ceiling m' /\ 1300 - 16 <= mtu_last m' <= 1300.
Proof.
  apply (mtu_search_converges 1300 (the_socket demo_connected 1)).
  - split; vm_compute; try reflexivity; split; discriminate || reflexivity.
  - vm_compute. reflexivity.
  - vm_compute. split; discriminate || reflexivity.
Defined.

(** a path of 576 bytes, then a restart of the discovery on a better one: no packet probes *)
Definition restarted : St :=
  match discover 15 576 (the_socket demo_connected 1) with
  | Ok _ s => match mtu_reset s with Ok _ s => s | Err _ s => s end
  | Err _ s => s
  end.

Example restart_finds_nothing :
  mtu_floor (mt (me restarted)) = 576 /\ mtu_ceiling (mt (me restarted)) = 1400 /\
  mtu_last (mt (me restarted)) = 576 /\
  (forall packets, exists s', discover packets 1400 restarted = Err OutOfFuel s').
Proof.
  split; [vm_compute; reflexivity|]. split; [vm_compute; reflexivity|].
  split; [vm_compute; reflexivity|]. intros k. destruct (discover_stuck 1400 k restarted) as (s' & H & _); [..|by exists s'].
  - split; vm_compute; try reflexivity; split; discriminate || reflexivity.
  - vm_compute. reflexivity.
  - vm_compute. reflexivity.
Qed.
