(* ===== verification/EndToEnd.v ===== *)
(** * From one application to the other

    The sending side of one socket and the receiving side of another, put
    together: the datagrams that utp_writev sends (src/utp_internal.cpp) are
    handed to utp_process_incoming of the peer in whatever order the network
    chooses, and the peer's application is given the bytes that were written. *)
From S2P Require Import Prelude Wrap Packet Ring Delay DelayAvg Arrays SockAddr Hash HashMap Context AckList.
From S2P Require Import Socket Frame MtuSearch Send SendQueue SendInv Flush Streams WriteQueue Reorder Ack Incoming.
From S2P Require Import AckQueue Timeouts Api Receive RecvInv IncomingSafe OneWay Writev Demo RecvSpec.

(** ** The stream of a send queue *)

(** the packet at offset [o] from the oldest one *)
Definition queue_stream (q : SendQueue) (o : Z) : list Z := body_at q (cur_window_packets q - 1 - o).

Lemma window_stream f n :
  window_bytes f n = concat ((fun o => f (Z.of_nat n - 1 - o)) <$> seqZ 0 (Z.of_nat n)).
Proof.
  induction n as [|n IH]; [done|]. rewrite seqZ_cons by lia. cbn [window_bytes fmap list_fmap concat].
  f_equal; [f_equal; lia|]. rewrite IH. replace (Z.pred (Z.of_nat (S n))) with (Z.of_nat n) by lia.
  f_equal. change (Z.succ 0) with 1. replace 1 with (0 + 1) by done. rewrite <- (fmap_add_seqZ 1 0).
  rewrite <- list_fmap_compose. apply list_fmap_ext. intros i x _. cbn. f_equal. lia.
Qed.

Lemma content_stream q :
  0 <= cur_window_packets q ->
  stream_data (queue_stream q) 0 (cur_window_packets q) = content q.
Proof.
  intros Hc. unfold content, stream_data. rewrite window_stream, Z2Nat.id, Z.sub_0_r by lia. done.
Qed.

Lemma empty_content q : cur_window_packets q = 0 -> content q = [].
Proof. intros H. unfold content. by rewrite H. Qed.

(** a datagram that carries a packet of the queue, for the receiver *)
Lemma carried_datagram q ack r j p d :
  labelled ST_DATA q -> ack = last_sent r -> 0 <= j < cur_window_packets q -> cur_window_packets q <= 1024 ->
  slot q j = Some p -> carried_by ack p d ->
  exists h, d = datagram (queue_stream q) (h, cur_window_packets q - 1 - j) /\
    honest (first_seq q) None 0 (last_sent r) (h, cur_window_packets q - 1 - j).
Proof.
  intros Hl -> Hj Hc Hp (h & [L1 L2 L3] & Ha & ->). destruct (Hl j p Hj Hp) as [B1 B2 B3 B4].
  exists (norm_header h). split.
  - unfold datagram, queue_stream, body_at. cbn [fst snd]. rewrite encode_norm.
    replace (cur_window_packets q - 1 - (cur_window_packets q - 1 - j)) with j by lia. by rewrite Hp.
  - split; [|split; [cbn; lia|done]]. cbn [fst snd].
    assert (Et : pf_type (norm_header h) = ST_DATA).
    { apply norm_type; [|done]. rewrite <- B2. unfold pf_type. by rewrite L1. }
    split; [apply norm_header_wf|rewrite decide_False by done; exact Et|..]; cbn.
    + rewrite L2, B3. done.
    + rewrite L3, B4. unfold first_seq. word_lia.
    + rewrite Ha. unfold last_sent. word_lia.
Qed.

(** a list of such datagrams *)
Lemma carried_list q ack r l :
  labelled ST_DATA q -> ack = last_sent r -> cur_window_packets q <= 1024 ->
  (forall d, d ∈ l -> carries q ack d) ->
  exists l', l = datagram (queue_stream q) <$> l' /\
    Forall (fun x => honest (first_seq q) None 0 (last_sent r) x /\ x.2 < cur_window_packets q) l'.
Proof.
  intros Hl Ha Hc. induction l as [|d l IH]; intros Hd; [by exists []|].
  destruct (Hd d ltac:(left)) as (j & p & Hj & Hp & _ & Hcar).
  destruct (carried_datagram q ack r j p d Hl Ha Hj Hc Hp Hcar) as (h & -> & Hh).
  destruct IH as (l' & -> & Hl'); [intros d Hin; apply Hd; by right|].
  eexists (_ :: l'). split; [done|]. apply Forall_cons. split; [|done]. split; [exact Hh|cbn; lia].
Qed.

(** ** A receiver waiting for the start of a stream *)
Record awaits (isn n : Z) (s : St) : Prop := {
  aw_sys : sys_ok (this (me s)) (st_sys s);
  aw_cb : has_callback (ctx (st_sys s)) UTP_ON_READ = true;
  aw_ring : ring_wf (inbuf (rq (me s))) /\ Ring.mask (inbuf (rq (me s))) < 2048;
  aw_fresh : rq_fresh (rq (me s));
  aw_ack : ack_nr (rq (me s)) = u16 (isn - 1);
  aw_open : read_shutdown (rq (me s)) = false /\ got_fin (rq (me s)) = false /\
            got_fin_reached (rq (me s)) = false;
  aw_passive : passive n (me s);
}.

Lemma awaits_listening D isn n s : awaits isn n s -> listening D isn None n ∅ 0 s.
Proof.
  intros [Hs Hc [Hr Hm] [Hf H0] Ha (Ho & Hg & Hgr) Hp]. split; [|set_solver| | |done].
  - split; [done|done|]. split; [|done| | |done|done]; [|by rewrite Hg|by rewrite Hgr].
    split; try done; [by rewrite Z.add_0_r|by intros j _; apply Hf|intros o; lia|].
    rewrite held_zero; [done|exact Hf].
  - intros Hx. by rewrite Hg in Hx.
  - intros Hx. by rewrite Hg in Hx.
Qed.

(** every place of the queue has a packet that some datagram of [l] carries *)
Definition covers (q : SendQueue) (ack : Z) (l : list (list Z)) : Prop :=
  forall j, 0 <= j < cur_window_packets q ->
    exists p d, slot q j = Some p /\ d ∈ l /\ carried_by ack p d.

Section Transfer.
Context {E : Env} {HA : GoodApp}.

Lemma no_wrap_open isn k : no_wrap isn None k.
Proof. by intros N. Qed.

(** the receiver's half *)
Lemma receive_stream q n r l :
  labelled ST_DATA q -> 0 <= cur_window_packets q <= 1024 -> awaits (first_seq q) n r ->
  n + Z.of_nat (length l) <= INT_MAX -> (forall d, d ∈ l -> carries q (last_sent r) d) ->
  exists k' r', process_all l r = Ok tt r' /\ 0 <= k' <= cur_window_packets q /\
    reads (this (me r)) (trace (st_sys r')) =
      reads (this (me r)) (trace (st_sys r)) ++ stream_data (queue_stream q) 0 k' /\
    (covers q (last_sent r) l -> k' = cur_window_packets q).
Proof.
  intros Hl Hc Hr Hn Hd.
  destruct (carried_list q (last_sent r) r l Hl eq_refl ltac:(lia) Hd) as (l' & -> & Hl').
  rewrite length_fmap in Hn.
  destruct (process_list_all (queue_stream q) (first_seq q) None 0 n ∅ 0 r l') as (R' & k' & r' & [H1 H2 H3 H6] & Hall & H5);
    [by apply awaits_listening|done|done|set_solver|apply no_wrap_open| |].
  { eapply Forall_impl; [exact Hl'|]. intros x [? ?]. split; [done|lia]. }
  cbn [fst snd] in *. assert (Hle : k' <= cur_window_packets q).
  { destruct (Z.le_gt_cases k' (cur_window_packets q)) as [|Hlt]; [done|exfalso].
    pose proof (bf_got _ _ _ _ _ (rc_buf _ _ _ _ _ _ (rc_queue _ _ _ _ _ _ (ls_recv _ _ _ _ _ _ _ H2)))
      (cur_window_packets q) ltac:(lia)) as Hin.
    apply H5 in Hin as [Hin|]; [|set_solver]. apply list_elem_of_fmap in Hin as (x & Hx & Hin).
    rewrite Forall_forall in Hl'. destruct (Hl' x Hin). lia. }
  exists k', r'. split; [done|]. split; [lia|]. split; [apply H6|]. intros Hcov.
  destruct (Z.le_gt_cases (cur_window_packets q) k') as [|Hlt]; [lia|exfalso].
  apply (ls_next _ _ _ _ _ _ _ H2), Hall.
  destruct (Hcov (cur_window_packets q - 1 - k') ltac:(lia)) as (p & d & Hp & Hin & Hcar).
  apply list_elem_of_fmap in Hin as (x & -> & Hin). apply list_elem_of_fmap. exists x. split; [|done].
  rewrite Forall_forall in Hl'. destruct (Hl' x Hin) as [(Hh & Ho & _) Hx]. destruct Hcar as (h & [_ _ L3] & _ & Ed).
  destruct (Hl (cur_window_packets q - 1 - k') p ltac:(lia) Hp) as [_ _ _ B4]. destruct x as [hx o]. cbn [fst snd] in *.
  unfold datagram in Ed. cbn [fst snd] in Ed.
  apply (f_equal decode_header) in Ed. rewrite decode_encode in Ed by apply Hh.
  rewrite <- (encode_norm h), decode_encode in Ed by apply norm_header_wf. injection Ed as ->.
  pose proof (ph_seq _ _ _ _ _ Hh) as Hs. cbn in Hs. rewrite L3, B4 in Hs. unfold first_seq in Hs.
  revert Hs. clear -Hx Ho Hlt Hc H3. word_lia.
Qed.

(** C3: what is written arrives.  utp_writev on a connected socket with an empty send
    queue ends without a failed assertion and reports [k] bytes as written.  Let a
    connected peer that has sent nothing else wait for the start of this stream, and
    let the network hand it any of the datagrams that utp_writev sent, in any order,
    some repeated and some lost: utp_process_incoming fails no assertion, and the
    peer's application is given a prefix of those [k] bytes, each once and in order;
    if a datagram for every queued packet is among them, it is given all [k]. *)
Theorem written_bytes_arrive (n m : Z) (iovs : list (list Z)) (s r : St) :
  sender_ok n s -> cur_window_packets (sq (me s)) = 0 -> iovs <> [] ->
  state (me s) = CS_CONNECTED -> fin_sent (me s) = false ->
  awaits (seq_nr (sq (me s))) m r -> ack_nr (rq (me s)) = last_sent r ->
  exists k s' rs, utp_writev iovs s = Ok k s' /\ trace (st_sys s') = rs ++ trace (st_sys s) /\
    0 <= k <= Z.of_nat (length (iov_data iovs)) /\
    forall l, m + Z.of_nat (length l) <= INT_MAX ->
      (forall d, d ∈ l -> exists p a fl, Sendto p d a fl ∈ rs) ->
      exists r' got, process_all l r = Ok tt r' /\
        reads (this (me r)) (trace (st_sys r')) = reads (this (me r)) (trace (st_sys r)) ++ got /\
        got `prefix_of` take (Z.to_nat k) (iov_data iovs) /\
        (covers (sq (me s')) (last_sent r) l -> got = take (Z.to_nat k) (iov_data iovs)).
Proof.
  intros Hs H0 Hne Hst Hf Hr Ha.
  destruct (proj1 (wp_ok _ _ _) (wp_utp_writev no_fault n iovs s Hs Hne Hst Hf))
    as (k & s' & E' & Hk & Hs' & Hc & _ & _ & Hfr & _).
  destruct (wf_sent _ _ Hfr) as (rs & Ht & Hrs). rewrite Ha in Hrs.
  exists k, s', rs. split; [done|]. split; [done|]. split; [done|]. intros l Hn Hl.
  rewrite (empty_content _ H0) in Hc. cbn [app] in Hc.
  assert (Hlab : labelled ST_DATA (sq (me s'))).
  { apply (wf_label _ _ Hfr). intros j p Hj. lia. }
  pose proof (so_count _ _ (sn_queue _ _ Hs')) as Hcnt.
  assert (Hfirst : first_seq (sq (me s')) = seq_nr (sq (me s))).
  { rewrite (proj2 (wf_seq _ _ Hfr)). unfold first_seq. rewrite H0, Z.sub_0_r.
    apply u16_small, (so_seq _ _ (sn_queue _ _ Hs)). }
  rewrite <- Hfirst in Hr.
  destruct (receive_stream (sq (me s')) m r l Hlab Hcnt Hr Hn) as (k' & r' & Hrun & Hk' & Hread & Hall).
  { intros d Hd. destruct (Hl d Hd) as (p & a & fl & Hin). rewrite Forall_forall in Hrs.
    apply (Hrs _ Hin). }
  exists r', (stream_data (queue_stream (sq (me s'))) 0 k'). split; [done|]. split; [done|].
  rewrite <- Hc, <- content_stream by lia. split.
  - rewrite <- (stream_data_app _ 0 k' (cur_window_packets (sq (me s')))) by lia. by eexists.
  - intros Hcov. by rewrite (Hall Hcov).
Qed.
End Transfer.

(** two sockets of the same kind, facing each other *)
Lemma demo_awaits : awaits 1 0 demo_st.
Proof.
  split; try done; [apply demo_sys_ok|split; [apply ring_init_wf|done]|].
  split; [intros i; apply ring_get_init|done].
Qed.

Lemma written_bytes_arrive_witness :
  exists k s' rs, utp_writev [[1; 2; 3]; [4; 5]] demo_st = Ok k s' /\
    trace (st_sys s') = rs ++ trace (st_sys demo_st) /\ 0 <= k <= 5 /\
    forall l, 0 + Z.of_nat (length l) <= INT_MAX ->
      (forall d, d ∈ l -> exists p a fl, Sendto p d a fl ∈ rs) ->
      exists r' got, process_all l demo_st = Ok tt r' /\
        reads 1 (trace (st_sys r')) = reads 1 (trace (st_sys demo_st)) ++ got /\
        got `prefix_of` take (Z.to_nat k) [1; 2; 3; 4; 5] /\
        (covers (sq (me s')) (last_sent demo_st) l -> got = take (Z.to_nat k) [1; 2; 3; 4; 5]).
Proof.
  apply (written_bytes_arrive 1 0 [[1; 2; 3]; [4; 5]] demo_st demo_st demo_sender);
    [reflexivity|discriminate|reflexivity|reflexivity|exact demo_awaits|reflexivity].
Defined.

(** evaluated: two full packets of one write, the second first and both twice; the
    last 340 bytes wait for a full packet or an acknowledgement *)
Definition demo_sent (iovs : list (list Z)) : list (list Z) :=
  match utp_writev iovs demo_st with
  | Ok _ s' => omap (fun r => match r with Sendto _ d _ _ => Some d | _ => None end) (trace (st_sys s'))
  | Err _ _ => []
  end.

Definition demo_read (l : list (list Z)) : option (list Z) :=
  match process_all l demo_st with
  | Ok _ r' => Some (reads 1 (trace (st_sys r')))
  | Err _ _ => None
  end.

Example written_bytes_arrive_run :
  let iovs := [replicate 1600 7; replicate 1500 8] in
  demo_read (demo_sent iovs ++ demo_sent iovs) = Some (replicate 1600 7 ++ replicate 1160 8).
Proof. by vm_compute. Qed.
