(* ===== verification/SackSpec.v ===== *)
(** * What an acknowledgement says

    send_ack of src/utp_internal.cpp against the set view of Reorder.v: the
    cumulative number and the selective mask together describe exactly the set of
    packets that have arrived, as far as the mask reaches. *)
From S2P Require Import Prelude Wrap Packet Ring Arrays SockAddr Context AckList Socket Frame MtuSearch.
From S2P Require Import Send SendQueue SendInv Reorder Ack Incoming Receive OneWay Demo RecvSpec.

(** the fold that sets one bit per packet in the buffer *)
Lemma mask_fold_bit {A} (f : Z -> option A) n i :
  0 <= i ->
  Z.testbit (foldl (fun m i => match f i with Some _ => Z.lor m (Z.shiftl 1 i) | None => m end) 0
    (zseq n)) i = (i <? Z.of_nat n) && bool_decide (f i <> None).
Proof.
  intros Hi. induction n as [|n IH]; [by rewrite Z.bits_0, (proj2 (Z.ltb_ge _ _)) by lia|].
  rewrite zseq_S, foldl_app. cbn [foldl].
  assert (Hone : Z.testbit (Z.shiftl 1 (Z.of_nat n)) i = (i =? Z.of_nat n)).
  { rewrite Z.shiftl_1_l, Z.pow2_bits_eqb by lia. apply Z.eqb_sym. }
  destruct (Z.ltb_spec i (Z.of_nat (S n))), (Z.ltb_spec i (Z.of_nat n)), (Z.eqb_spec i (Z.of_nat n));
    try lia; destruct (f (Z.of_nat n)) eqn:Ef;
    rewrite ?Z.lor_spec, ?Hone, ?IH; subst; rewrite ?Ef; cbn; rewrite ?orb_false_r; done.
Qed.

Lemma eack_mask_bit inb ack i :
  0 <= i -> 0 <= ring_size inb ->
  Z.testbit (eack_mask inb ack) i =
  (i <? Z.min 30 (ring_size inb)) && bool_decide (ring_get inb (ack + i + 2) <> None).
Proof.
  intros Hi Hs. unfold eack_mask. rewrite (mask_fold_bit (fun i => ring_get inb (ack + i + 2))) by done.
  f_equal. rewrite Z2Nat.id; unfold tmin; destruct (Z.ltb_spec 30 (ring_size inb)); try lia; f_equal; lia.
Qed.

Section Spec.
Context {E : Env} {HA : GoodApp} (D : Z -> list Z) (isn : Z) (fin : option Z).

(** the mask is the set of packets after the missing one *)
Lemma mask_bit_arrived R k q i :
  buffered D isn R k q -> k ∉ R -> 0 <= i < 30 ->
  Z.testbit (eack_mask (inbuf q) (ack_nr q)) i = bool_decide (k + 1 + i ∈ R).
Proof.
  intros Hb Hk Hi. pose proof (ring_wf_mask _ (bf_ring _ _ _ _ _ Hb)) as Hm.
  rewrite eack_mask_bit by (unfold ring_size; lia). unfold ring_size.
  replace (ack_nr q + i + 2) with (ack_nr q + 1 + (i + 1)) by lia. fold (islot q (i + 1)).
  pose proof (bf_range _ _ _ _ _ Hb (k + 1 + i)) as Hr.
  destruct (Z.ltb_spec i (Z.min 30 (Ring.mask (inbuf q) + 1))) as [Hlt|Hge].
  2: { symmetry. apply bool_decide_eq_false. intros Hin. specialize (Hr Hin). lia. }
  cbn [andb]. destruct (Z.eq_dec i (Ring.mask (inbuf q))) as [He|Hne].
  - assert (Hw : islot q (i + 1) = islot q 0).
    { unfold islot. apply ring_get_mod; [apply Hb|]. rewrite He.
      replace (ack_nr q + 1 + (Ring.mask (inbuf q) + 1)) with
        (ack_nr q + 1 + 0 + 1 * (Ring.mask (inbuf q) + 1)) by lia. by rewrite Z_mod_plus_full. }
    rewrite Hw, (bf_slots _ _ _ _ _ Hb 0), decide_False by (rewrite ?Z.add_0_r; done || lia).
    rewrite bool_decide_false by (by intros []). symmetry. apply bool_decide_eq_false.
    intros Hin. specialize (Hr Hin). lia.
  - rewrite (bf_slots _ _ _ _ _ Hb) by lia. replace (k + (i + 1)) with (k + 1 + i) by lia.
    case_decide; [by rewrite !bool_decide_true|rewrite !bool_decide_false; [done..|by intros []]].
Qed.

(** nothing to report beyond the cumulative number *)
Lemma nothing_more R k q :
  recv_queue D isn fin R k q -> reorder_count q = 0 \/ got_fin_reached q = true ->
  forall o, o ∈ R -> o < k.
Proof.
  intros Hq [H0|Hf] o Ho.
  - pose proof (rc_buf _ _ _ _ _ _ Hq) as Hb. destruct (Z.lt_ge_cases o k) as [|Hle]; [done|exfalso].
    pose proof (bf_range _ _ _ _ _ Hb o Ho) as Hr. rewrite (bf_count _ _ _ _ _ Hb) in H0.
    pose proof (held_count_zero q (o - k) ltac:(lia) H0) as Hn.
    rewrite (bf_slots _ _ _ _ _ Hb), decide_True in Hn by (try lia; by replace (k + (o - k)) with o by lia).
    done.
  - destruct (rc_reached _ _ _ _ _ _ Hq Hf) as [_ Hfin].
    destruct (rc_last _ _ _ _ _ _ Hq _ Hfin) as [_ Hle]. specialize (Hle o Ho). lia.
Qed.

(** what an acknowledgement tells of the packets [R] that arrived, [k] being the
    first missing one *)
Definition reports (R : gset Z) (k : Z) (bs : list Z) : Prop :=
  exists h, decode_header bs = Some h /\ pf_type h = ST_STATE /\ pf_ack_nr h = u16 (isn + k - 1) /\
    if pf_ext h =? 1
    then rd bs 20 = Some 0 /\ rd bs 21 = Some 4 /\
      forall i, 0 <= i < 30 -> mask_bit (drop 22 bs) i = Some (bool_decide (k + 1 + i ∈ R))
    else forall o, o ∈ R -> o < k.

Lemma acknowledges_reports R k q bs :
  recv_queue D isn fin R k q -> k ∉ R -> acknowledges q bs -> reports R k bs.
Proof.
  intros Hq Hk (h & rest & -> & _ & Ht & Ha & Hext). pose proof (rc_buf _ _ _ _ _ _ Hq) as Hb.
  exists (norm_header h). split; [apply decode_encode_norm|]. split; [by apply norm_type|].
  split; [cbn; rewrite Ha, (bf_ack _ _ _ _ _ Hb); apply u16_u16|].
  assert (Hd : forall r, drop 22 (encode_header h ++ r) = drop 2 r).
  { intros r. replace 22%nat with (length (encode_header h) + 2)%nat by by rewrite encode_header_length.
    by rewrite <- drop_drop, drop_app_length. }
  case_match eqn:Hc.
  - destruct Hext as [He ->]. cbn [norm_header pf_ext]. rewrite He. cbn [Z.eqb u8].
    change (u8 1 =? 1) with true. cbn iota. split; [done|]. split; [done|]. intros i Hi.
    rewrite Hd. cbn [drop app]. rewrite drop_0, selective_ack_mask_roundtrip by lia. f_equal.
    by apply mask_bit_arrived.
  - destruct Hext as [He ->]. cbn [norm_header pf_ext]. rewrite He. change (u8 0 =? 1) with false.
    cbn iota. eapply nothing_more; [exact Hq|]. apply andb_false_iff in Hc as [Hc|Hc].
    + left. by apply negb_false_iff, Z.eqb_eq in Hc.
    + right. by apply negb_false_iff in Hc.
Qed.

(** C5: acknowledgements are exact.  When the packets at the offsets in [R] of a stream
    have arrived and [k] is the first one missing, send_ack ends without a failed
    assertion, sends a datagram if the callback for it is installed, and every datagram
    it sends is a ST_STATE packet whose ack_nr names packet [k - 1] and whose selective
    mask, if it has one, says for each of the 30 packets after packet [k] whether it has
    arrived; it has none only if nothing beyond [k] has arrived. *)
Theorem acknowledgement_is_exact R k s :
  receiver D isn fin R k s -> k ∉ R ->
  exists s' rs, send_ack false s = Ok tt s' /\ rq (me s') = rq (me s) /\
    trace (st_sys s') = rs ++ trace (st_sys s) /\
    (has_callback (ctx (st_sys s)) UTP_SENDTO = true -> exists bs a fl, Sendto (this (me s)) bs a fl ∈ rs) /\
    forall p bs a fl, Sendto p bs a fl ∈ rs -> reports R k bs.
Proof.
  intros [Hs Hc Hq] Hk. destruct s as [c y]. cbn [me st_sys] in *.
  assert (Hw : wp no_fault (send_ack false) (fun _ s' => rq (me s') = rq c /\
    traced (sends_only (acknowledges (rq c))) y (st_sys s') /\
    emitted (this c) (acknowledges (rq c)) y (st_sys s')) (mkSt c y)).
  { apply wp_send_ack_D; [done| |].
    - intros _ _. split; [done|]. pose proof (rc_buf _ _ _ _ _ _ Hq) as Hb.
      pose proof (ring_wf_mask _ (bf_ring _ _ _ _ _ Hb)).
      rewrite (bf_slots _ _ _ _ _ Hb), decide_False by (rewrite ?Z.add_0_r; done || lia). done.
    - intros w y' Hy He _ _. split; [by destruct c|]. split; [by apply traced_next|done]. }
  destruct (proj1 (wp_ok _ _ _) Hw) as ([] & s' & E' & Hrq & (rs & Ht & Hrs) & He).
  exists s', rs. split; [done|]. split; [done|]. split; [done|]. split.
  { intros Hcb. destruct (He Hcb) as (rs1 & [] & Ht1 & Hin & Hr); try done. destruct Hr as [-> _]. do 3 eexists.
    rewrite Ht in Ht1. apply app_inv_tail in Ht1 as ->. exact Hin. }
  intros p bs a fl Hin.
  rewrite Forall_forall in Hrs. destruct (Hrs _ Hin) as [_ Hack]. by eapply acknowledges_reports.
Qed.
End Spec.

(** ** Witness: packets 0 and 1 are missing, packet 2 has arrived *)
Definition demo_holding : St :=
  mkSt (demo_sock <| rq ::= fun q =>
    q <| inbuf ::= fun r => ring_put r 3 (Some (demo_stream 2)) |> <| reorder_count := 1 |> |>) demo_sys.

Lemma demo_holding_receiver : receiver demo_stream 1 (Some 3) ({[2]} ∪ ∅) 0 demo_holding.
Proof.
  pose proof (ls_recv _ _ _ _ _ _ _ demo_listening) as [Hs Hc [Hb Ho Hg Hr Hl]].
  split; [exact demo_sys_ok|exact Hc|]. split; try done.
  - apply (buffered_store demo_stream 1 ∅ 0 (rq (me demo_st)) _ 2 3); try done; lia.
  - intros N [= <-]. split; [done|].
    intros o [->%elem_of_singleton|?%elem_of_empty]%elem_of_union; [lia|done].
  - intros N [= <-] [Hn%elem_of_singleton|?%elem_of_empty]%elem_of_union; [lia|done].
Qed.

Lemma acknowledgement_is_exact_witness :
  exists s' rs, send_ack false demo_holding = Ok tt s' /\ rq (me s') = rq (me demo_holding) /\
    trace (st_sys s') = rs ++ trace (st_sys demo_holding) /\
    (has_callback demo_ctx UTP_SENDTO = true -> exists bs a fl, Sendto 1 bs a fl ∈ rs) /\
    forall p bs a fl, Sendto p bs a fl ∈ rs -> reports 1 ({[2]} ∪ ∅) 0 bs.
Proof.
  apply (acknowledgement_is_exact demo_stream 1 (Some 3) ({[2]} ∪ ∅) 0 demo_holding demo_holding_receiver).
  by intros [?%elem_of_singleton|?%elem_of_empty]%elem_of_union.
Defined.

(** evaluated: the datagram acknowledges nothing in sequence and packet 2 by bit 1 *)
Example demo_ack_bytes :
  match send_ack false demo_holding with
  | Ok _ s' => head (trace (st_sys s')) = Some (Sendto 1
      [33; 1; 0; 78; 0; 15; 70; 40; 0; 0; 0; 0; 0; 16; 0; 0; 0; 1; 0; 0; 0; 4; 2; 0; 0; 0] demo_peer 0)
  | Err _ _ => False
  end.
Proof. by vm_compute. Qed.
