(* ===== verification/StraySpec.v ===== *)
(** * Datagrams that belong to no connection

    What utp_process_udp and the ICMP entry points (src/utp_internal.cpp) do with
    datagrams that are not uTP, and with packets of unknown connections: the resets
    they answer, the record kept of them, and its expiry in utp_check_timeouts. *)
From S2P Require Import Prelude Packet Arrays SockAddr Hash HashMap Context AckList Socket Send Ack Incoming Timeouts Api.
From S2P Require Import Frame World WorldOps WorldOpen WorldCalls WorldTimers DeferredAcks Calls Demo SafetySpec.

(** ** The sweep over the resets sent *)
Section Sweep.
Context (now : Z).

(** an entry young enough to be kept *)
Definition recent (r : RST_Info) : Prop := time_diff now (ri_timestamp r) < RST_INFO_TIMEOUT.

#[global] Instance recent_dec r : Decision (recent r).
Proof. unfold recent. apply _. Defined.

Lemma take_swap_remove {A} k (l : list A) :
  (k < length l)%nat -> take k (swap_remove k l) = take k l.
Proof.
  intros Hk. unfold swap_remove. destruct (last l) as [t|] eqn:E.
  - rewrite take_take, Nat.min_l by lia. by rewrite take_insert_ge by lia.
  - apply last_None in E as ->. by rewrite take_nil.
Qed.

Lemma drop_swap_remove {A} k (l : list A) t :
  l !! k = Some t -> drop k (swap_remove k l) ≡ₚ drop (S k) l.
Proof.
  intros Hk. pose proof (lookup_lt_Some _ _ _ Hk) as Hlt.
  apply (Permutation_cons_inv (a := t)), (Permutation_app_inv_l (take k l)).
  rewrite (take_drop_middle l k t Hk), <- Permutation_middle.
  rewrite <- (take_swap_remove k l) by done. rewrite take_drop. by apply swap_remove_perm.
Qed.

Lemma sweep_filter fuel : forall i arr l, arr_rep arr l -> (length l <= i + fuel)%nat ->
  exists arr' l', sweep_rst fuel (Z.of_nat i) now arr = Some arr' /\ arr_rep arr' l' /\
    l' ≡ₚ take i l ++ filter recent (drop i l).
Proof.
  induction fuel as [|fuel IH]; intros i arr l Hr Hf; cbn [sweep_rst].
  { exists arr, l. split_and!; [done..|]. by rewrite take_ge, drop_ge, app_nil_r by lia. }
  unfold GetCount. rewrite (arr_rep_count _ _ Hr).
  destruct (Z.ltb_spec (Z.of_nat i) (Z.of_nat (length l))) as [Hlt|].
  2: { exists arr, l. split_and!; [done..|]. by rewrite take_ge, drop_ge, app_nil_r by lia. }
  destruct (lookup_lt_is_Some_2 l i) as [r Hi]; [lia|].
  rewrite (arr_rep_at _ _ (Z.of_nat i) r Hr) by (rewrite ?Nat2Z.id; done || lia).
  cbn [mbind option_bind].
  rewrite (drop_S l r i Hi), filter_cons. destruct (Z.leb_spec RST_INFO_TIMEOUT (time_diff now (ri_timestamp r))) as [Hold|Hnew].
  - destruct (MoveUpLast_rep _ _ (Z.of_nat i) Hr ltac:(lia)) as (a1 & b1 & -> & Hr'). rewrite Nat2Z.id in Hr'.
    destruct (IH i _ _ Hr') as (arr' & l' & Hs & Hl' & Hp); [rewrite length_swap_remove by lia; lia|].
    exists arr', l'. split_and!; [done..|]. rewrite Hp, take_swap_remove, (drop_swap_remove i l r Hi) by lia.
    by rewrite decide_False by (unfold recent; lia).
  - replace (Z.of_nat i + 1) with (Z.of_nat (S i)) by lia.
    destruct (IH (S i) arr l Hr ltac:(lia)) as (arr' & l' & Hs & Hl' & Hp). exists arr', l'. split_and!; [done..|].
    rewrite Hp, (take_S_r _ _ r Hi), decide_True by done. by rewrite <- (assoc_L (++)).
Qed.
End Sweep.

(** C30: expiry is a filter.  The loop of utp_check_timeouts over rst_info, which moves
    the last entry into the place of each one it drops while the index stands still,
    ends with exactly the entries younger than RST_INFO_TIMEOUT, each as often as it
    was there, and no assertion fails; releasing the spare memory afterwards changes nothing. *)
Theorem expire_rst_is_filter (now : Z) (arr : Array RST_Info) (l : list RST_Info) :
  arr_rep arr l ->
  exists arr' l', expire_rst now arr = Some arr' /\ arr_rep arr' l' /\ l' ≡ₚ filter (recent now) l.
Proof.
  intros Hr. destruct (sweep_filter now (length l) 0 arr l Hr ltac:(lia)) as (arr' & l' & Hs & Hl' & Hp).
  unfold expire_rst.
  assert (E : Z.to_nat (GetCount arr) = length l) by (unfold GetCount; rewrite (arr_rep_count _ _ Hr); lia).
  rewrite E. change (Z.of_nat 0) with 0 in Hs. rewrite Hs. cbn [mbind option_bind]. eexists _, l'. split; [done|].
  split; [|by rewrite Hp, take_0, drop_0]. case_match; [done|]. by apply Compact_rep.
Qed.

Definition demo_rst (t : Z) : RST_Info := mkRst (set_addr demo_peer) 7 3 t.

Lemma expire_rst_is_filter_witness :
  exists arr' l', expire_rst 20000 (fst (Append (demo_rst 15000) (fst (Append (demo_rst 1000)
      (fst (Append (demo_rst 500) arr_init)))))) = Some arr' /\ arr_rep arr' l' /\
    l' ≡ₚ filter (recent 20000) [demo_rst 500; demo_rst 1000; demo_rst 15000].
Proof. apply expire_rst_is_filter. split; reflexivity. Defined.

(** ** Datagrams that are not uTP *)

(** too short for a header, or not of version 1 with a known type and extension *)
Definition not_utp (buffer : list Z) : Prop :=
  Z.of_nat (length buffer) < sizeof_PacketFormatV1 \/
  exists pf, decode_header buffer = Some pf /\
    (ST_NUM_STATES <= pf_type pf \/ 2 < pf_ext pf \/ pf_version pf <> 1).

(** C31: what is not uTP is left alone.  A datagram or an ICMP payload that is shorter
    than a header, or whose version, type or extension is unknown, is reported as not
    handled (0), and nothing happens: no socket, timer or counter changes, nothing is
    sent and the application is not called. *)
Theorem not_utp_ignored {E : Env} (buffer : list Z) (to : sockaddr) (mtu : Z) (w : World) :
  not_utp buffer ->
  utp_process_udp buffer to w = Ok 0 w /\ utp_process_icmp_error buffer to w = Ok 0 w /\
  utp_process_icmp_fragmentation buffer to mtu w = Ok 0 w.
Proof.
  unfold utp_process_udp, utp_process_icmp_error, utp_process_icmp_fragmentation, parse_icmp_payload.
  intros [Hs|(pf & Hd & Hv)].
  - by rewrite (proj2 (Z.ltb_lt _ _) Hs).
  - destruct (Z.of_nat (length buffer) <? sizeof_PacketFormatV1); [done|]. rewrite Hd.
    assert (Hne : (UTP_Version pf =? 1) = false).
    { unfold UTP_Version. destruct (Z.ltb_spec (pf_type pf) ST_NUM_STATES), (Z.ltb_spec (pf_ext pf) 3);
        cbn [andb]; try done. apply Z.eqb_neq. destruct Hv as [?|[?|?]]; lia. }
    by rewrite Hne.
Qed.

(** a DNS response, and the first bytes of a TLS record *)
Lemma not_utp_ignored_witness :
  utp_process_udp (replicate 40 129) demo_peer demo_connected = Ok 0 demo_connected /\
  utp_process_icmp_error (replicate 40 129) demo_peer demo_connected = Ok 0 demo_connected /\
  utp_process_icmp_fragmentation (replicate 40 129) demo_peer 1400 demo_connected = Ok 0 demo_connected.
Proof.
  apply (not_utp_ignored (replicate 40 129) demo_peer 1400 demo_connected).
  right. eexists. split; [reflexivity|]. left. discriminate.
Defined.

(** ** Packets of unknown connections *)

(** the datagrams among a list of calls *)
Definition datagrams (rs : list request) : list (list Z) :=
  omap (fun r => match r with Sendto _ d _ _ => Some d | _ => None end) rs.

Lemma datagrams_app r1 r2 : datagrams (r1 ++ r2) = datagrams r1 ++ datagrams r2.
Proof. apply omap_app. Qed.

(** a call is logged if the callback is installed, and changes nothing else *)
Definition logged {S} `{!HasSys S} (name : Z) (r : request) (s : S) : list request :=
  if has_callback (ctx (sys s)) name then [r] else [].

Lemma wp_call_logged {E : Env} F name r (Q : Z -> World -> Prop) w :
  (forall v, Q v (mkWorld (heap w) ((w_sys w) <| trace ::= app (logged name r w) |>))) ->
  wp F (call name r) Q w.
Proof.
  intros H. unfold call. apply wp_bind, wp_get. unfold logged in H. cbn [sys HasSys_World] in *.
  apply wp_if; intros Hc; rewrite Hc in H.
  - apply wp_bind, wp_modify, wp_ret. apply H.
  - apply wp_ret. specialize (H 0). by destruct w as [h [x i tr]].
Qed.

Section Strays.
Context {E : Env} (F : fault -> Prop) (a : PackedSockAddr) (id seq_nr : Z).
Context (Hseq : is_u16 seq_nr).

(** a reset for this packet was sent and is remembered *)
Definition known (l : list RST_Info) : Prop := exists r, r ∈ l /\ rst_matches a id seq_nr r = true.

(** no more resets are sent *)
Definition full (l : list RST_Info) : Prop := RST_INFO_LIMIT < Z.of_nat (length l).

Lemma rst_find_spec arr l fuel : forall i, arr_rep arr l -> 0 <= i -> Z.of_nat (length l) = i + Z.of_nat fuel ->
  match rst_find fuel i a id seq_nr arr with
  | Some k => 0 <= k < Z.of_nat (length l) /\
      exists r, l !! Z.to_nat k = Some r /\ rst_matches a id seq_nr r = true
  | None => forall k r, i <= Z.of_nat k -> l !! k = Some r -> rst_matches a id seq_nr r = false
  end.
Proof.
  induction fuel as [|fuel IH]; intros i Hr Hi Hf; cbn [rst_find].
  { intros k r Hk Hl. apply lookup_lt_Some in Hl. lia. }
  destruct (lookup_lt_is_Some_2 l (Z.to_nat i)) as [r Hl]; [lia|].
  rewrite (arr_rep_at _ _ i r Hr Hi Hl). destruct (rst_matches a id seq_nr r) eqn:Hm.
  { split; [apply lookup_lt_Some in Hl; lia|by exists r]. }
  specialize (IH (i + 1) Hr ltac:(lia) ltac:(lia)). destruct (rst_find _ _ _ _ _ _); [done|].
  intros k x Hk Hx. destruct (Z.eq_dec (Z.of_nat k) i) as [Hki|]; [|apply (IH k x); [lia|done]].
  replace k with (Z.to_nat i) in Hx by lia. congruence.
Qed.

(** one stray packet *)
Record stray (l : list RST_Info) (w w' : World) : Prop := {
  sy_heap : heap w' = heap w;
  sy_tab : utp_sockets (ctx (w_sys w')) = utp_sockets (ctx (w_sys w));
  sy_rst : exists l', arr_rep (rst_info (ctx (w_sys w'))) l' /\ (known l' \/ full l');
  sy_log : exists rs, trace (w_sys w') = rs ++ trace (w_sys w) /\
    (known l \/ full l -> datagrams rs = []) /\
    (datagrams rs = [] \/ exists v, datagrams rs = [encode_header (rst_header id seq_nr v)]);
}.

Lemma logged_none name r w :
  match r with Sendto _ _ _ _ => False | _ => True end -> datagrams (logged name r w) = [].
Proof. intros Hr. unfold logged. destruct (has_callback _ _); [by destruct r|done]. Qed.

Lemma wp_reject_unknown l w :
  arr_rep (rst_info (ctx (w_sys w))) l -> wp F (reject_unknown a id seq_nr) (fun _ w' => stray l w w') w.
Proof.
  intros Hl. unfold reject_unknown, utp_call_get_milliseconds. apply wp_bind, wp_call_logged. intros t.
  apply wp_bind, wp_modify, wp_bind, wp_gets. cbn [sys put_sys HasSys_World w_sys heap].
  set (r0 := logged UTP_GET_MILLISECONDS _ w). assert (D0 : datagrams r0 = []) by by apply logged_none.
  clearbody r0. destruct w as [h [x ids tr]]. cbn [w_sys ctx] in *.
  set (y0 := mkSys (x <| current_ms := t |>) ids (r0 ++ tr)).
  replace (((mkSys x ids tr) <| trace ::= app r0 |>) <| ctx ::= fun x => x <| current_ms := t |> |>) with y0 by done.
  assert (Er : rst_info (ctx y0) = rst_info x) by by destruct x. rewrite Er. unfold GetCount.
  rewrite (arr_rep_count _ _ Hl), Nat2Z.id.
  pose proof (rst_find_spec _ l (length l) 0 Hl ltac:(done) ltac:(lia)) as Hfind.
  destruct (rst_find _ _ _ _ _ _) as [k|].
  - destruct Hfind as (Hk & r & Hr & Hm). apply wp_modify. cbn [sys put_sys HasSys_World w_sys heap].
    split; cbn [heap w_sys]; [done|by destruct x| |].
    + exists (<[Z.to_nat k := r <| ri_timestamp := t |>]> l). split.
      * destruct x. cbn in *. rewrite (arr_rep_at _ _ k r Hl) by (done || lia). by apply arr_rep_put.
      * left. exists (r <| ri_timestamp := t |>). split; [|by destruct r].
        apply list_elem_of_lookup_2 with (Z.to_nat k). apply list_lookup_insert_eq. lia.
    + exists r0. split; [by destruct x|]. by split; [|left].
  - apply wp_when; intros Hc; rewrite ?negb_true_iff, ?negb_false_iff, ?Z.ltb_lt, ?Z.ltb_ge in Hc.
    2: { split; cbn [heap w_sys]; [done|by destruct x| |].
         - exists l. split; [by rewrite Er|by right].
         - exists r0. split; [done|]. by split; [|left]. }
    apply wp_bind, wp_modify. cbn [sys put_sys HasSys_World w_sys heap].
    unfold utp_call_get_random. apply wp_bind, wp_bind, wp_call_logged. intros v. apply wp_ret.
    unfold send_rst, send_to_addr, utp_register_sent_packet, utp_call_sendto, notify.
    apply wp_bind, wp_modify, wp_bind, wp_call_logged. intros v'. apply wp_ret.
    cbn [sys put_sys HasSys_World w_sys heap].
    match goal with |- context [logged UTP_GET_RANDOM ?r ?w1] => set (r1 := logged UTP_GET_RANDOM r w1) end.
    match goal with |- context [logged UTP_SENDTO ?r ?w1] => set (r2 := logged UTP_SENDTO r w1) end.
    assert (D1 : datagrams r1 = []) by by apply logged_none.
    assert (D2 : datagrams r2 = [] \/ exists v, datagrams r2 = [encode_header (rst_header id seq_nr v)])
      by (unfold r2, logged; case_match; [right; eexists; reflexivity|by left]).
    clearbody r1 r2. split; cbn [heap w_sys]; [done|by destruct x| |].
    + exists (l ++ [mkRst a id (u16 seq_nr) t]). split.
      * destruct x. cbn. by apply Append_rep.
      * left. eexists. split; [apply elem_of_app; right; by left|].
        unfold rst_matches. cbn. by rewrite Z.eqb_refl, addr_eqb_eq, bool_decide_true, u16_small, Z.eqb_refl.
    + exists (r2 ++ r1 ++ r0). split; [by rewrite <- !(assoc_L (++))|].
      rewrite !datagrams_app, D0, D1, !app_nil_r. split; [|done].
      intros [(r & Hin & Hm)|Hful]; [|unfold full in Hful; lia].
      apply list_elem_of_lookup in Hin as [k Hk]. rewrite (Hfind k r ltac:(lia) Hk) in Hm. done.
Qed.
End Strays.

(** the socket used last is in the table, so it is not the one looked for *)
Lemma find_connection_none {E : Env} n m R w a id :
  world_inv n m R w -> socket_lookup (utp_sockets (ctx (w_sys w))) (mkKey a id) = None ->
  find_connection a id w = Ok None w.
Proof.
  intros Hw Hn. assert (H : wp no_fault (find_connection a id) (fun o w' => o = None /\ w' = w) w).
  { unfold find_connection. apply wp_bind, wp_gets. cbn [sys HasSys_World]. set (last := last_utp_socket _).
    apply wp_bind. apply wp_mono with (fun hit w' => hit = false /\ w' = w).
    - destruct (Z.eqb_spec last NULL) as [|Hne]; [by apply wp_ret|].
      destruct (wi_last _ _ _ _ Hw) as [|Hp]; [done|]. fold last in Hp.
      destruct (reg_sock Hw last Hp) as (c & Hc & _ & _).
      apply wp_bind, (wp_read_socket no_fault last c); [done|]. apply wp_ret. split; [|done].
      rewrite addr_eqb_eq. apply andb_false_iff.
      destruct (decide (addr c = a)) as [Ea|]; [right|left; by apply bool_decide_eq_false].
      apply Z.eqb_neq. intros Ei. pose proof (reg_lookup Hw last c Hp Hc) as Hl. unfold sock_key in Hl.
      congruence.
    - intros hit w' [-> ->]. unfold find_socket. apply wp_bind, wp_bind, wp_gets, wp_ret.
      cbn [sys HasSys_World]. rewrite Hn. by apply wp_ret. }
  destruct (proj1 (wp_ok _ _ _) H) as (o & w' & Ho & -> & ->). exact Ho.
Qed.

Section Once.
Context {E : Env} {HA : GoodApp}.

(** a packet of a connection that does not exist, neither SYN nor RST *)
Record stray_packet (buffer : list Z) (to : sockaddr) (w : World) (pf : PacketFormatV1) : Prop := {
  sp_bytes : Forall is_u8 buffer;
  sp_length : sizeof_PacketFormatV1 <= Z.of_nat (length buffer);
  sp_header : decode_header buffer = Some pf;
  sp_version : UTP_Version pf = 1;
  sp_type : pf_type pf <> ST_RESET /\ pf_type pf <> ST_SYN;
  sp_unknown : socket_lookup (utp_sockets (ctx (w_sys w))) (mkKey (set_addr to) (pf_connid pf)) = None;
}.

Lemma process_stray n m R l buffer to pf w :
  world_inv n m R w -> arr_rep (rst_info (ctx (w_sys w))) l -> stray_packet buffer to w pf ->
  exists w', utp_process_udp buffer to w = Ok 1 w' /\ world_inv n m R w' /\
    stray (set_addr to) (pf_connid pf) (pf_seq_nr pf) l w w'.
Proof.
  intros Hw Hl [H1 H2 H3 H4 [H5 H6] H7]. destruct (decode_wf buffer pf H1 H3) as [Hwf _].
  assert (Hrun : wp no_fault (reject_unknown (set_addr to) (pf_connid pf) (pf_seq_nr pf))
    (fun _ w' => world_inv n m R w' /\ stray (set_addr to) (pf_connid pf) (pf_seq_nr pf) l w w') w).
  { apply wp_conj; [by apply wp_reject_unknown_ok|apply wp_reject_unknown; [apply Hwf|done]]. }
  destruct (proj1 (wp_ok _ _ _) Hrun) as ([] & w' & E' & Hw' & Hst). exists w'. split; [|done].
  unfold utp_process_udp. rewrite (proj2 (Z.ltb_ge _ _) H2), H3, H4. change (negb (1 =? 1)) with false.
  cbn iota. rewrite (proj2 (Z.eqb_neq _ _) H5), (proj2 (Z.eqb_neq _ _) H6). cbn [negb].
  unfold mbind, M_bind. rewrite (find_connection_none n m R w _ _ Hw H7), E'. done.
Qed.

End Once.

(** a data packet for connection 99 *)
Definition demo_stray_header : PacketFormatV1 :=
  (set_version 1 (set_type ST_DATA zero_header)) <| pf_connid := 99 |> <| pf_seq_nr := 5 |>.

