(* ===== verification/CcSpec.v ===== *)
(** * Bounds of the windows and timers

    apply_ccontrol, maybe_decay_win and the round-trip estimate of ack_packet
    (src/utp_internal.cpp): whatever the peer measures and acknowledges, the
    congestion window and the retransmission timeout stay in their ranges. *)
From S2P Require Import Prelude Wrap Delay DelayAvg Arrays SockAddr Context AckList Socket Frame Send Ack.
From S2P Require Import Doubles Ccontrol AckStages Demo.

(** ** The congestion window *)

(** C35: the congestion window stays in range.  For every positive number of newly
    acknowledged bytes, every delay measured and every round-trip time below 2^31
    microseconds, apply_ccontrol ends without a failed assertion but the one on the
    rounding of the gain, leaves max_window between MIN_WINDOW_SIZE and the send
    buffer, and changes nothing of the socket but its windows. *)
Theorem window_stays_bounded {E : Env} (bytes delay rtt : Z) (s : St) :
  1 <= bytes -> 0 <= rtt < INT_MAX -> DelayHist.wf (our_hist (dl (me s))) ->
  MIN_WINDOW_SIZE <= opt_sndbuf (wn (me s)) ->
  match apply_ccontrol bytes delay rtt s with
  | Ok _ s' => me s' = (me s) <| wn := wn (me s') |> /\
      opt_sndbuf (wn (me s')) = opt_sndbuf (wn (me s)) /\
      MIN_WINDOW_SIZE <= max_window (wn (me s')) <= opt_sndbuf (wn (me s))
  | Err f _ => f = AssertFailed 1704
  end.
Proof.
  destruct s as [c y]. intros Hb Hr Hwf Hmin. cbn [me] in *.
  apply (wp_apply_ccontrol_clamped (fun f => f = AssertFailed 1704) bytes delay rtt
    (fun _ s' => me s' = c <| wn := wn (me s') |> /\ opt_sndbuf (wn (me s')) = opt_sndbuf (wn c) /\
       MIN_WINDOW_SIZE <= max_window (wn (me s')) <= opt_sndbuf (wn c))); [done| | |done|].
  - unfold rtt_ok, INT_MAX, INT64_MAX in *. lia.
  - left. pose proof (DelayHist.get_value_u32 _ Hwf) as Hg. unfold our_delay_of, INT_MAX, is_u32 in *.
    rewrite (u32_small rtt) by (unfold is_u32; lia). rewrite tmin_min, i32_small by (unfold is_i32; lia). lia.
  - intros w y' _ Hs Hw. cbn [me]. replace (wn (c <| wn := w |>)) with w by by destruct c.
    rewrite Hs in *. split; [done|]. split; [done|lia].
Qed.

Lemma window_stays_bounded_witness :
  match apply_ccontrol 1400 30000 50000 demo_st with
  | Ok _ s' => me s' = (me demo_st) <| wn := wn (me s') |> /\
      opt_sndbuf (wn (me s')) = opt_sndbuf (wn (me demo_st)) /\
      MIN_WINDOW_SIZE <= max_window (wn (me s')) <= 1048576
  | Err f _ => f = AssertFailed 1704
  end.
Proof.
  apply (window_stays_bounded 1400 30000 50000 demo_st); [lia|done|apply DelayHist.clear_wf; done|done].
Defined.

(** evaluated: 35% of the window acknowledged without queueing: the window grows by 35% of 3000 bytes *)
Example demo_ccontrol :
  match apply_ccontrol 1400 30000 50000 demo_st with
  | Ok _ s' => (max_window (wn (me demo_st)), max_window (wn (me s'))) = (4000, 5050)
  | Err _ _ => False
  end.
Proof. by vm_compute. Qed.

(** ** The retransmission timeout *)

(** an estimate made of samples between [lo] and [hi] milliseconds *)
Record estimate (lo hi : Z) (r : Retrans) : Prop := {
  es_rtt : rtt r = 0 \/ lo <= rtt r <= hi;
  es_var : 0 <= rtt_var r <= hi;
}.

Lemma var_step v d :
  0 <= v -> 0 <= d -> Z.min v d <= v + Z.quot (d - v) 4 <= Z.max v d.
Proof.
  intros Hv Hd. destruct (Z.le_ge_cases v d) as [Hle|Hge].
  - rewrite Z.quot_div_nonneg by lia. dlia.
  - replace (d - v) with (- (v - d)) by lia. rewrite Z.quot_opp_l, Z.quot_div_nonneg by lia. dlia.
Qed.

(** C36: the retransmission timeout follows the round trip.  While the samples lie between
    [lo] and [hi] milliseconds, the smoothed estimate stays between them too, the
    variance stays below [hi], and the timeout computed is at least one second and at
    most one second or five times [hi]; no computation wraps around. *)
Theorem rto_stays_bounded (lo hi ertt now : Z) (r : Retrans) :
  0 <= lo <= ertt -> ertt <= hi < 268435456 -> estimate lo hi r ->
  let r' := update_rtt ertt now r in
  estimate lo hi r' /\ 1000 <= rto r' <= Z.max 1000 (5 * hi).
Proof.
  intros Hl Hh [Hr Hv]. cbn zeta. unfold update_rtt. set (r1 := if rtt r =? 0 then _ else _).
  assert (H1 : (rtt r1 = 0 \/ lo <= rtt r1 <= hi) /\ 0 <= rtt_var r1 <= hi /\ 0 <= rtt r1 <= hi).
  { unfold r1. destruct (Z.eqb_spec (rtt r) 0) as [E|E].
    - destruct r. cbn in *. dlia.
    - destruct Hr as [|Hr]; [done|]. cbn zeta.
      rewrite (i32_small (rtt r - ertt)) by (unfold is_i32; lia).
      pose proof (var_step (rtt_var r) (Z.abs (rtt r - ertt)) ltac:(lia) ltac:(lia)) as Hq.
      rewrite (i32_small (Z.abs _ - _)) by (unfold is_i32; lia).
      rewrite (u32_small (rtt_var r + _)) by (unfold is_u32; lia).
      assert (Hd : lo <= rtt r - rtt r / 8 + ertt / 8 <= hi) by dlia.
      rewrite (u32_small (rtt r - _ + _)) by (unfold is_u32; lia).
      destruct r. cbn in *. lia. }
  clearbody r1. destruct H1 as (H1 & H2 & H3).
  rewrite (u32_small (rtt r1 + _)) by (unfold is_u32; lia). rewrite tmax_max.
  split; [by destruct r1|]. destruct r1. cbn in *. lia.
Qed.

Lemma rto_stays_bounded_witness :
  let r' := update_rtt 120 5000 (update_rtt 80 4000 (rt demo_sock)) in
  estimate 80 120 r' /\ 1000 <= rto r' <= 1000.
Proof.
  apply (rto_stays_bounded 80 120 120 5000); [lia|lia|]. vm_compute. split; cbn; [right|]; split; discriminate.
Defined.
