(* ===== verification/TimerSpec.v ===== *)
(** * What the retransmission timer does

    UTPSocket::check_timeouts (src/utp_internal.cpp) when the retransmission
    timeout has expired: the oldest packet is sent again, the others wait for their
    turn, the timeout is doubled, and after too many attempts the connection is
    given up. *)
From S2P Require Import Prelude Wrap Packet Ring Arrays SockAddr Context AckList Socket Frame MtuSearch.
From S2P Require Import Send SendQueue SendInv Flush Streams Ack Incoming Timeouts AckQueue AckStages TimerInv.
From S2P Require Import IncomingSafe SockOps World WorldOps WorldTimers Calls Demo SafetySpec.

(** nothing but a probe is in flight *)
Definition lone_probe (c : UTPSocket) : bool :=
  (cur_window_packets (sq c) =? 1) &&
  (Z.land (seq_nr (sq c) - 1) ACK_NR_MASK =? mtu_probe_seq (mt c)) &&
  negb (mtu_probe_seq (mt c) =? 0).

(** the attempts are used up *)
Definition gives_up (c : UTPSocket) : bool :=
  is_state (state c) CS_SYN_RECV || (4 <=? retransmit_count (rt c)) ||
  (is_state (state c) CS_SYN_SENT && (2 <=? retransmit_count (rt c))).

Definition given_up (c : UTPSocket) : CONN_STATE :=
  if is_state (state c) CS_SYN_RECV || close_requested c then CS_DESTROY else CS_RESET.

(** the timeout doubles, unless the packet was lost for its size *)
Definition backoff (c : UTPSocket) : Z :=
  if lone_probe c then retransmit_timeout (rt c) else u32 (retransmit_timeout (rt c) * 2).

Definition oldest (c : UTPSocket) : option OutgoingPacket :=
  slot (sq c) (cur_window_packets (sq c) - 1).

(** the oldest packet was sent again, and nothing else *)
Record refired (s s' : St) : Prop := {
  rf_rt : rt (me s') = (rt (me s)) <| retransmit_count ::= fun n => u16 (n + 1) |>
                                   <| fast_timeout := true |> <| timeout_seq_nr := seq_nr (sq (me s)) |>;
  rf_state : state (me s') = state (me s);
  rf_count : cur_window_packets (sq (me s')) = cur_window_packets (sq (me s));
  rf_oldest : exists p p', oldest (me s) = Some p /\ oldest (me s') = Some p' /\ resent p p' /\
    emitted (this (me s)) (carried_by (ack_nr (rq (me s))) p) (st_sys s) (st_sys s');
  rf_others : forall j, 0 <= j < cur_window_packets (sq (me s)) - 1 ->
    slot (sq (me s')) j = slot (sq (me s)) j;
}.

(** the timeout was handled, and the connection lives on *)
Record timed_out (s s' : St) : Prop := {
  to_timeout : retransmit_timeout (rt (me s')) = backoff (me s);
  to_deadline : rto_timeout (rt (me s')) = u64 (current_ms (ctx (st_sys s)) + backoff (me s));
  to_attempts : retransmit_count (rt (me s')) = u16 (retransmit_count (rt (me s)) + 1);
  to_state : state (me s') = state (me s);
  to_count : cur_window_packets (sq (me s')) = cur_window_packets (sq (me s));
  to_oldest : exists p p', oldest (me s) = Some p /\ oldest (me s') = Some p' /\ resent (lost p) p' /\
    emitted (this (me s)) (carried_by (ack_nr (rq (me s))) p) (st_sys s) (st_sys s');
  to_others : forall j, 0 <= j < cur_window_packets (sq (me s)) - 1 ->
    slot (sq (me s')) j = lost <$> slot (sq (me s)) j;
}.

(** ... or it was given up *)
Definition error_told (s s' : St) : Prop :=
  state (me s') = given_up (me s) /\
  called UTP_ON_ERROR (fun r => r = OnError (this (me s)) UTP_ETIMEDOUT) (st_sys s) (st_sys s').

Lemma carried_lost ack p bs : carried_by ack (lost p) bs -> carried_by ack p bs.
Proof. unfold lost. destruct (in_flight p); [|done]. intros (h & Hh). exists h. by destruct p. Qed.

(** what flushing the queue and reopening the window keep *)
Record unhurried (n : Z) (s s1 : St) : Prop := {
  uh_kept : queue_kept (sq (me s)) (sq (me s1));
  uh_sq : sq_ok n (sq (me s1));
  uh_rt : rt (me s1) = rt (me s);
  uh_this : this (me s1) = this (me s);
  uh_rq : rq (me s1) = rq (me s);
  uh_gives : gives_up (me s1) = gives_up (me s);
  uh_given : given_up (me s1) = given_up (me s);
  uh_sys : sys_next quiet (st_sys s) (st_sys s1);
}.

Lemma sends_unhurried n c y c1 y1 f :
  sends n (mkSt c y) (mkSt c1 y1) -> unhurried n (mkSt c y) (mkSt (c1 <| wn ::= f |>) y1).
Proof.
  intros [(q & m & t & w & Em) _ Hq _ Hk Hy _]. cbn [me st_sys] in *. subst c1.
  split; cbn [me st_sys]; try (by destruct c); by destruct c.
Qed.

Section Wp.
Context {E : Env} {HA : GoodApp} (F : fault -> Prop).

Lemma wp_refire n c y :
  can_send n (mkSt c y) -> n + 1 < 2147483648 -> 0 < cur_window_packets (sq c) ->
  wp F resend_oldest (fun _ s' => refired (mkSt c y) s') (mkSt c y).
Proof.
  intros [Hok Hq Hm Hf] Hn Hc. cbn [me st_sys] in *. unfold resend_oldest. wp_steps.
  apply wp_when; intros Hc'; [|apply Z.ltb_ge in Hc'; lia]. wp_steps.
  destruct (front_packet n _ Hf Hq Hc) as [p Hp].
  apply wp_assert; [intros _|by unfold Incoming.front; rewrite (front_slot _ n), Hp]. wp_steps.
  set (c1 := c <| rt ::= _ |>).
  assert (E1 : sq c1 = sq c /\ mt c1 = mt c /\ this c1 = this c /\ rq c1 = rq c /\ state c1 = state c /\
    rt c1 = (rt c) <| retransmit_count ::= fun n => u16 (n + 1) |> <| fast_timeout := true |>
                   <| timeout_seq_nr := seq_nr (sq c) |>) by by destruct c.
  destruct E1 as (E1 & E2 & E3 & E4 & E5 & E6). clearbody c1.
  apply (send_sends F (n + 1) _ (cur_window_packets (sq c) - 1) p n); rewrite ?E1, ?E2, ?E3, ?E4;
    try done; [lia| |lia|unfold same_place; f_equal; lia|].
  { intros p'. apply resent_ok. eapply so_pkts; [exact Hq| |exact Hp]. lia. }
  intros s' Hs (p' & Hp' & Hr) He Hoth.
  pose proof (qk_count _ _ (sd_kept _ _ _ Hs)) as Ek. pose proof (sd_me _ _ _ Hs) as (q & m & t & w & Em).
  cbn [me] in *. rewrite E1 in *. split; cbn [me st_sys].
  - rewrite <- E6, Em. by destruct c1.
  - rewrite <- E5, Em. by destruct c1.
  - exact Ek.
  - exists p, p'. unfold oldest. cbn [me]. by rewrite Ek.
  - intros j Hj. apply Hoth; lia.
Qed.

Lemma wp_timeout_probe_mt (Q : bool -> St -> Prop) c y :
  mtu_ok (mt c) ->
  (forall m y', mtu_ok m -> sys_next quiet y y' -> Q (lone_probe c) (mkSt (c <| mt := m |>) y')) ->
  wp F timeout_probe Q (mkSt c y).
Proof.
  intros Hm H. unfold timeout_probe. wp_steps. fold (lone_probe c). apply wp_when; intros Hp.
  - pose proof Hp as Hp'. unfold lone_probe in Hp'. apply andb_true_iff in Hp' as [_ Hp'%negb_true_iff%Z.eqb_neq].
    unfold probe_lost. wp_steps. set (c1 := c <| mt ::= _ |>).
    pose proof (probe_lost_loose _ Hm Hp') as Hl.
    assert (E1 : mt c1 = (mt c) <| mtu_ceiling := u32 (mtu_probe_size (mt c) - 1) |>) by by destruct c.
    apply wp_mtu_search_update; [by rewrite E1|]. intros t y' Hy' _. wp_steps.
    destruct (mtu_search_ok _ Hl) as [Hok _]. pose proof (clear_probe_ok _ (set_discover_ok _ t Hok)) as Hok1.
    rewrite <- E1 in Hok1. specialize (H _ y' Hok1 (sys_next_mono _ _ _ _ silent_quiet Hy')). rewrite Hp in *. by destruct c.
  - wp_steps. specialize (H _ y (clear_probe_ok _ Hm) (sys_next_refl _ _)). rewrite Hp in *. by destruct c.
Qed.

Lemma wp_abandon_spec (Q : bool -> St -> Prop) c y :
  (gives_up c = false -> Q false (mkSt c y)) ->
  (forall y', gives_up c = true -> sys_next no_read y y' ->
     called UTP_ON_ERROR (fun r => r = OnError (this c) UTP_ETIMEDOUT) y y' ->
     Q true (mkSt (c <| state := given_up c |>) y')) ->
  wp F abandon Q (mkSt c y).
Proof.
  intros Hno Hyes. unfold abandon, close_on_error. wp_steps. unfold gives_up, given_up in *.
  apply wp_if; intros H1; rewrite H1 in *; cbn [orb] in *.
  2: apply wp_if; intros H2; rewrite H2 in *; [|wp_steps; by apply Hno].
  all: wp_steps; apply (wp_notify_called F no_read); [done|]; intros y' Hy He;
    cbn [put_sys HasSys_St me st_sys] in *; wp_steps; by apply Hyes.
Qed.
(** marking the packets in flight and sending the oldest *)
Lemma wp_mark_and_refire n c0 c y y0 R :
  can_send n (mkSt c y) -> n + 2 < 2147483648 -> 0 < cur_window_packets (sq c) ->
  sys_next R y0 y -> this c = this c0 -> sq c = sq c0 -> rq c = rq c0 -> state c = state c0 ->
  retransmit_timeout (rt c) = backoff c0 ->
  rto_timeout (rt c) = u64 (current_ms (ctx y0) + backoff c0) ->
  retransmit_count (rt c) = retransmit_count (rt c0) ->
  wp F (q ← my sq;
        mfor (zseq (Z.to_nat (cur_window_packets q))) mark_lost ;; resend_oldest ;; mret false)
    (fun dead s' => dead = false /\ timed_out (mkSt c0 y0) s') (mkSt c y).
Proof.
  intros Hs Hn Hc Hy Et Eq Er Est E1 E2 E3. wp_steps. eapply wp_mono.
  { apply (wp_mark_all F n (mkSt c y)). apply (resumed_refl n); [lia|done]. }
  intros _ [c4 y4] [R4 [M1 M2 M3]]. cbn [me st_sys] in *. subst y4. wp_steps.
  pose proof (re_count _ _ _ R4) as Ec. cbn [me] in Ec.
  assert (E4 : this c4 = this c /\ rq c4 = rq c /\ state c4 = state c /\ rt c4 = rt c)
    by (rewrite M2; by destruct c). destruct E4 as (T4 & Q4 & S4 & X4). clear M2.
  assert (Hsl : forall k, 0 <= k < cur_window_packets (sq c) -> slot (sq c4) k = lost <$> slot (sq c) k).
  { intros k Hk. destruct (M3 k Hk) as [->|[Hin _]]; [done|]. by apply elem_of_nil in Hin. }
  eapply wp_mono; [apply (wp_refire (n + 1)); [apply R4|lia|lia]|].
  intros _ s' [F1 F2 F3 (p & p' & Hp & Hp' & Hr & He) F5]. wp_steps. split; [done|]. cbn [me st_sys] in *.
  unfold oldest in Hp. rewrite Ec, Hsl in Hp by lia.
  destruct (slot (sq c) (cur_window_packets (sq c) - 1)) as [p0|] eqn:Hp0; [|done].
  injection Hp as <-. rewrite T4, Q4, Et, Er in He. rewrite Ec in F5.
  split; cbn [me st_sys]; rewrite ?F1, ?X4; try (by destruct (rt c)).
  - rewrite <- E3. by destruct (rt c).
  - congruence.
  - rewrite F3, Ec. by rewrite Eq.
  - exists p0, p'. unfold oldest at 1. cbn [me]. rewrite <- Eq. split; [done|]. split; [done|].
    split; [done|]. eapply called_before; [exact Hy|]. eapply emitted_mono; [|exact He].
    intros bs. apply carried_lost.
  - intros j Hj. rewrite <- Eq in *. rewrite F5 by done. apply Hsl. lia.
Qed.

Lemma wp_on_rto_spec n c y :
  can_send n (mkSt c y) -> n + 2 < 2147483648 -> 0 < cur_window_packets (sq c) ->
  wp F on_rto (fun dead s' => dead = gives_up c /\
    if dead then error_told (mkSt c y) s' else timed_out (mkSt c y) s') (mkSt c y).
Proof.
  intros Hs Hn Hc. pose proof Hs as [Hok Hq Hm Hf]. cbn [me st_sys] in *. unfold on_rto. wp_step.
  apply wp_timeout_probe_mt; [done|]. intros m y1 Hm1 H1. wp_steps.
  set (c1 := c <| mt := m |>).
  assert (E1 : sq c1 = sq c /\ this c1 = this c /\ rq c1 = rq c /\ state c1 = state c /\ rt c1 = rt c /\
    mt c1 = m /\ gives_up c1 = gives_up c /\ given_up c1 = given_up c) by by destruct c.
  destruct E1 as (E1 & E2 & E3 & E4 & E5 & E6 & E7 & E8). clearbody c1.
  apply wp_abandon_spec.
  2: { intros y2 Hg H2 He. wp_steps. rewrite E7 in Hg. rewrite E8, E2 in *. split; [done|].
    split; [by destruct c1|]. cbn [me st_sys]. eapply called_before; [exact H1|exact He]. }
  rewrite E7. intros Hg. wp_steps. rewrite (sys_next_ms _ _ _ H1), E5. fold (backoff c).
  set (c2 := c1 <| rt ::= _ |>).
  assert (Hgo : forall c3, sq c3 = sq c2 -> this c3 = this c2 -> rq c3 = rq c2 -> state c3 = state c2 ->
    mt c3 = mt c2 -> retransmit_timeout (rt c3) = retransmit_timeout (rt c2) ->
    rto_timeout (rt c3) = rto_timeout (rt c2) -> retransmit_count (rt c3) = retransmit_count (rt c2) ->
    wp F (q ← my sq;
        mfor (zseq (Z.to_nat (cur_window_packets q))) mark_lost ;; resend_oldest ;; mret false)
    (fun dead s' => dead = gives_up c /\
      if dead then error_told (mkSt c y) s' else timed_out (mkSt c y) s') (mkSt c3 y1)).
  { intros c3 D1 D2 D3 D4 D5 D6 D7 D8.
    assert (sq c2 = sq c /\ this c2 = this c /\ rq c2 = rq c /\ state c2 = state c /\ mt c2 = m /\
      retransmit_timeout (rt c2) = backoff c /\
      rto_timeout (rt c2) = u64 (current_ms (ctx y) + backoff c) /\
      retransmit_count (rt c2) = retransmit_count (rt c)) as (G1 & G2 & G3 & G4 & G5 & G6 & G7 & G8).
    { unfold c2. rewrite <- E1, <- E2, <- E3, <- E4, <- E5, <- E6. by destruct c1, rt. }
    eapply wp_mono; [apply (wp_mark_and_refire n c c3 y1 y quiet); try congruence; try done|].
    - split; cbn [me st_sys]; rewrite ?D1, ?D2, ?D5, ?G1, ?G2, ?G5; try done. by eapply sys_next_ok.
    - intros dead s' [-> H]. by rewrite Hg. }
  clearbody c2. apply wp_when; intros _; [do 5 wp_step|]; apply Hgo; by destruct c2 as [].
Qed.
(** what follows leaves the queue and the timer alone *)
Lemma wp_mark_writable_rt c y :
  wp F mark_writable (fun _ s' => steady (mkSt c y) s' /\ rt (me s') = rt c) (mkSt c y).
Proof.
  apply wp_conj; [apply wp_mark_writable_steady|]. unfold mark_writable. wp_steps.
  apply wp_if; intros _; [|by wp_steps]. wp_steps. apply wp_is_full. intros w full _.
  apply wp_when; intros _; [|by destruct c]. wp_steps. apply (wp_notify F (fun _ => True)); [done|].
  intros y' _. by destruct c.
Qed.

Lemma wp_timer_tail n m c y :
  sock_ok n m (mkSt c y) ->
  wp F (mark_writable ;; keep_alive_check)
    (fun _ s' => sq (me s') = sq c /\ rt (me s') = rt c /\ sys_next no_read y (st_sys s')) (mkSt c y).
Proof.
  intros Hs. wp_step. eapply wp_mono; [apply wp_mark_writable_rt|]. intros _ [c1 y1] [S1 E1].
  pose proof (steady_survives n m _ _ S1 Hs) as V1. pose proof (sy_sys _ _ S1) as Y1.
  pose proof (sy_sq _ _ S1) as Q1. cbn [me st_sys] in *.
  eapply wp_mono; [apply (wp_keep_alive_check_ok F n m), V1|]. intros _ s' [_ [E2 E3 _ _ Y2]]. cbn [me st_sys] in *.
  split; [congruence|]. split; [congruence|]. eapply sys_next_trans; [by eapply sys_next_heard|].
  eapply sys_next_heard, sys_next_mono, Y2. intros r. apply sends_speaks.
Qed.
(** the whole call, when the timer has expired *)
Lemma wp_check_timeouts_rto n m c y :
  sock_ok n m (mkSt c y) -> 1 <= n -> n + 2 < 2147483648 ->
  timer_active (state c) = true -> rto_expired (current_ms (ctx y)) (rt c) = true ->
  0 < cur_window_packets (sq c) ->
  wp F check_timeouts (fun _ s' => exists s1, unhurried n (mkSt c y) s1 /\
    if gives_up c then error_told s1 s' else exists s2, timed_out s1 s2 /\
      sq (me s') = sq (me s2) /\ rt (me s') = rt (me s2) /\ sys_next no_read (st_sys s2) (st_sys s')) (mkSt c y).
Proof.
  intros Hs Hn1 Hn Hta He Hc. unfold check_timeouts. wp_step.
  apply (wp_assert_front F _ n); [apply Hs|]. wp_steps.
  apply wp_when; intros Hd; [|by destruct (state c)]. wp_step.
  eapply wp_mono; [apply (wp_flush_packets F c y n); try done; apply Hs || lia|].
  intros full [c1 y1] [S1 _]. wp_steps. rewrite Hta. cbn [when]. wp_steps.
  rewrite (sys_next_ms _ _ _ (sd_sys _ _ _ S1) : current_ms (ctx y1) = current_ms (ctx y)).
  set (c2 := c1 <| wn ::= _ |>).
  assert (U2 : unhurried n (mkSt c y) (mkSt c2 y1)) by by apply (sends_unhurried n c y c1).
  assert (R2 : resumed n (mkSt c y) (mkSt c2 y1)).
  { eapply resumed_trans; [apply (sends_resumed n n _ _ S1), Hs|]. apply steady_resumed.
    - apply steady_set; by destruct c1.
    - apply (sends_resumed n n _ _ S1), Hs. }
  clearbody c2. pose proof (uh_rt _ _ _ U2) as X2. pose proof (qk_count _ _ (uh_kept _ _ _ U2)) as Q2.
  pose proof (uh_gives _ _ _ U2) as G2. cbn [me] in *. rewrite X2, He.
  eapply wp_mono.
  { apply (wp_conj F _ _ _ _ (wp_on_rto F n c2 y1 (re_can _ _ _ R2) Hn)
      (wp_on_rto_spec n c2 y1 (re_can _ _ _ R2) Hn ltac:(lia))). }
  intros dead [c3 y3] [R3 [-> H3]]. rewrite G2 in *.
  pose proof (resumed_survives _ _ m _ _ (resumed_trans _ _ _ _ _ R2 R3) Hs) as V3.
  destruct (gives_up c); cbn [negb when]; [apply wp_ret; by exists (mkSt c2 y1)|].
  eapply wp_mono; [apply (wp_timer_tail (n + 2) m), V3|]. intros x s' H. exists (mkSt c2 y1).
  split; [done|]. by exists (mkSt c3 y3).
Qed.
End Wp.

(** ** The property *)

Lemma lost_body p : pk_body (lost p) = pk_body p /\ pk_transmissions (lost p) = pk_transmissions p.
Proof. unfold lost. case_match; by destruct p. Qed.

(** an unacknowledged packet was sent once more *)
Record sent_again (ack : Z) (p p' : OutgoingPacket) (y y' : Sys) (socket : ptr) : Prop := {
  sa_body : pk_body p' = pk_body p;
  sa_more : pk_transmissions p < pk_transmissions p';
  sa_flight : in_flight p' = true;
  sa_sent : emitted socket (carried_by ack p) y y';
}.


(** ** Witness: three bytes were written, and nobody answered *)
Definition demo_overdue : St :=
  let s := the_socket demo_written 1 in
  mkSt (me s) ((st_sys s) <| ctx ::= fun x => x <| current_ms := 50000 |> |>).

Lemma demo_overdue_ok : sock_ok max_sent max_samples demo_overdue.
Proof.
  pose proof (demo_socket_calm demo_written 1 demo_reach_written ltac:(by vm_compute) ltac:(by vm_compute)) as H.
  unfold demo_overdue. destruct (the_socket demo_written 1) as [c y]. cbn [me st_sys].
  eapply sock_ok_sys; [|exact H]. eapply sys_kept_ok; [|apply (sk_send _ _ _ H)].
  apply sys_kept_ctx. by intros [].
Qed.


(** evaluated: the same bytes, the timeout of one second doubled *)
Example demo_timeout :
  match check_timeouts demo_overdue with
  | Ok _ s' => (retransmit_timeout (rt (me demo_overdue)), retransmit_timeout (rt (me s')))
  | Err _ _ => (0, 0)
  end = (1000, 2000).
Proof. by vm_compute. Qed.
