(* ===== verification/TeardownSpec.v ===== *)
(** * The end of a context

    UTP_FreeAll and ~UTPSocket (src/utp_internal.cpp), which utp_destroy runs: the
    sweep over the table deletes the element it stands on each time, and frees every
    registered socket once. *)
From S2P Require Import Prelude Wrap Packet Arrays SockAddr Hash HashMap Context AckList Socket Frame Send Ack Timeouts Api.
From S2P Require Import World WorldOps WorldOpen WorldCalls WorldTimers Calls Demo SafetySpec.

Section Wp.
Context {E : Env} {HA : GoodApp} (F : fault -> Prop).

(** every registered socket is still to be visited *)
Definition left_over (R : gset ptr) (t : utp_hash_t UTPSocketKey ptr) (rem : list Z) : Prop :=
  forall p, p ∈ R -> exists k, k ∈ keys_at t rem /\ socket_lookup t k = Some p.

Lemma left_over_delete R t t' x e p rem :
  elem_at t x = Some e -> socket_lookup t (e_key e) = Some p ->
  keys_at t' rem = keys_at t rem ->
  (forall k, socket_lookup t' k = if decide (k = e_key e) then None else socket_lookup t k) ->
  left_over R t (x :: rem) -> left_over (R ∖ {[p]}) t' rem.
Proof.
  intros He Hp Ek Hlk H q [Hq Hne%not_elem_of_singleton]%elem_of_difference.
  destruct (H q Hq) as (k & Hk & Hl). exists k.
  assert (k <> e_key e) by (intros ->; congruence). rewrite Hlk, decide_False by done. split; [|done].
  rewrite Ek. unfold keys_at in *. cbn [omap list_omap] in Hk. rewrite He in Hk.
  cbn [fmap option_fmap option_map] in Hk. by apply elem_of_cons in Hk as [|].
Qed.

(** between [w] and [w'] the sockets of [R] were destroyed, and told so *)
Record torn_down (R : gset ptr) (w w' : World) : Prop := {
  td_heap : forall p, heap w' !! p = if decide (p ∈ R) then None else heap w !! p;
  td_cb : callbacks (ctx (w_sys w')) = callbacks (ctx (w_sys w));
  td_trace : traced (fun _ => True) (w_sys w) (w_sys w');
  td_told : forall p, p ∈ R ->
    called UTP_ON_STATE_CHANGE (fun r => r = OnStateChange p UTP_STATE_DESTROYING) (w_sys w) (w_sys w');
}.

Lemma torn_down_none w : torn_down ∅ w w.
Proof.
  split; [intros p; by rewrite decide_False by set_solver|done|by exists []|].
  by intros p ?%elem_of_empty.
Qed.

Lemma torn_down_one p c y' w R w' :
  p ∈ R -> destroyed p c (w_sys w) y' ->
  torn_down (R ∖ {[p]}) (mkWorld (delete p (heap w)) y') w' -> torn_down R w w'.
Proof.
  intros Hp [_ D2 _ _ _ _ (rs & D7 & _) D8] [T1 T2 T3 T4]. cbn [heap w_sys] in *. split.
  - intros q. rewrite T1. destruct (decide (q = p)) as [->|Hne].
    + rewrite lookup_delete_eq, (decide_True _ _ Hp). by case_decide.
    + rewrite lookup_delete_ne by done. repeat case_decide; set_solver.
  - congruence.
  - eapply traced_trans; [exists rs; split; [exact D7|]|exact T3]. by apply Forall_true.
  - intros q Hq. destruct (decide (q = p)) as [->|Hne].
    + destruct T3 as (rs' & T3 & _). by eapply called_trace.
    + intros Hc. unfold has_callback in *. rewrite <- D2 in Hc.
      destruct (T4 q ltac:(set_solver) Hc) as (r2 & r & E2 & Hin & Hr). exists (r2 ++ rs), r.
      rewrite E2, D7, (assoc_L (++)), elem_of_app. auto.
Qed.

Lemma wp_free_all_loop n m : forall rem fuel R chains fl it w,
  world_inv n m R w ->
  let t := utp_sockets (ctx (w_sys w)) in
  table_ok key_hash t chains fl -> valued t chains -> it_rem t chains it rem ->
  (length rem < fuel)%nat -> left_over R t rem ->
  wp F (free_all_loop fuel it) (fun _ w' => world_inv n m ∅ w' /\ torn_down R w w') w.
Proof.
  induction rem as [|x rem IH]; intros fuel R chains fl it w Hw t Hok Hv Hrem Hf Hleft;
    (destruct fuel as [|fuel]; [cbn in Hf; lia|]); cbn [free_all_loop]; apply wp_bind, wp_gets;
    cbn [sys HasSys_World]; fold t;
    pose proof (iterate_spec key_hash t chains fl Hok (wi_buckets _ _ _ _ Hw) it _ Hrem) as Hit;
    cbn [app] in Hit.
  - rewrite Hit. apply wp_ret. assert (R = ∅) as ->; [|split; [done|apply torn_down_none]].
    apply set_eq. intros p. split; [|by intros ?%elem_of_empty].
    intros Hp. by destruct (Hleft p Hp) as (k & ?%elem_of_nil & _).
  - destruct Hit as (it' & b & l1 & l & e & -> & He & Hat & ->). rewrite He. cbn [mbind option_bind].
    assert (Hx : x ∈ concat chains).
    { destruct Hat as (_ & Hc & _). eapply elem_of_chains; [exact Hc|].
      rewrite !elem_of_app, list_elem_of_singleton. tauto. }
    destruct (element_socket n m R chains fl x w Hw Hok Hv Hx) as (e' & p & c & He' & Hpe & Hlk & HpR & Hc & Hk).
    fold t in He', Hlk. assert (e' = e) as -> by congruence. rewrite Hpe.
    apply wp_bind, (wp_destroy_socket F n m R p c); [exact Hw|exact HpR|exact Hc|]. intros y' Hd.
    pose proof (destroyed_inv _ _ _ _ _ _ _ Hw HpR Hc Hd) as Hw1. pose proof (ds_table _ _ _ _ Hd) as Et.
    rewrite Hk in Et. fold t in Et.
    destruct (delete_goes_on t chains fl it' b l1 x l e Hok Hv He Hat) as (chains' & Hok' & Hv' & Hrem' & EK).
    pose proof (left_over_delete R t _ x e p _ He Hlk EK
      (fun k => lookup_deleted t (e_key e) k (wi_table _ _ _ _ Hw)) Hleft) as Hleft'.
    rewrite <- Et in *. eapply wp_mono.
    + apply (IH fuel (R ∖ {[p]}) chains' (x :: fl) it'); try done. cbn in Hf. lia.
    + intros u w' [H1 H2]. split; [exact H1|]. by eapply torn_down_one.
Qed.
End Wp.

(** C20: destroying the context frees every connection.  In every state a program can
    reach, UTP_FreeAll ends without a failed assertion; every registered socket has
    been told UTP_STATE_DESTROYING (if the callback is installed) and is gone, every
    other object is untouched, the table is empty, no last socket is remembered, and
    no freed socket is left in the list of due acknowledgements. *)
Theorem teardown_frees_all {E : Env} {HA : GoodApp} (tries : nat) (w : World) :
  reachable tries w ->
  exists w' rs, UTP_FreeAll w = Ok tt w' /\
    (forall p, registered w p -> heap w' !! p = None) /\
    (forall p, ~ registered w p -> heap w' !! p = heap w !! p) /\
    count (utp_sockets (ctx (w_sys w'))) = 0 /\ last_utp_socket (ctx (w_sys w')) = NULL /\
    (exists l, arr_rep (ack_sockets (ctx (w_sys w'))) l /\ forall p, p ∈ l -> is_Some (heap w' !! p)) /\
    trace (w_sys w') = rs ++ trace (w_sys w) /\
    (has_callback (ctx (w_sys w)) UTP_ON_STATE_CHANGE = true ->
     forall p, registered w p -> OnStateChange p UTP_STATE_DESTROYING ∈ rs).
Proof.
  intros [R Hw]%reachable_well.
  pose proof (fun p => registered_in _ _ _ w p Hw) as Hreg. pose proof (wi_table _ _ _ _ Hw) as (chains & fl & Hok & Hfull).
  assert (Hwp : wp no_fault UTP_FreeAll (fun _ w' =>
    world_inv (fun _ => max_sent + slack) (max_samples + slack) ∅ w' /\ torn_down R w w') w).
  { unfold UTP_FreeAll. apply wp_bind, wp_gets. cbn [sys HasSys_World].
    apply (wp_free_all_loop no_fault _ _ (concat chains) _ R chains fl); try done; [by left| |].
    - rewrite (ok_count _ _ _ _ Hok). lia.
    - intros p Hp. destruct (reg_sock Hw p Hp) as (c & Hc & _). pose proof (reg_lookup Hw p c Hp Hc) as Hl.
      exists (sock_key c). split; [|exact Hl].
      apply (keys_at_get key_hash key_eqb key_eqb_eq _ chains fl _ Hok Hfull). by exists p. }
  destruct (proj1 (wp_ok _ _ _) Hwp) as ([] & w' & E' & Hw' & [T1 T2 (rs & T3 & _) T4]). exists w', rs.
  split; [exact E'|]. split_and!.
  - intros p Hp%Hreg. by rewrite T1, decide_True.
  - intros p Hp. rewrite T1, decide_False; [done|]. by rewrite <- Hreg.
  - by rewrite (wi_count _ _ _ _ Hw'), size_empty.
  - destruct (wi_last _ _ _ _ Hw') as [|?%elem_of_empty]; done.
  - destruct (sg_acks _ (wi_sys _ _ _ _ Hw')) as [l Hl]. exists l. split; [apply Hl|].
    intros p Hp. apply elem_of_dom. rewrite (wi_dom _ _ _ _ Hw'). apply elem_of_dom. by apply (ack_live _ _ Hl).
  - exact T3.
  - intros Hc p Hp%Hreg. destruct (T4 p Hp Hc) as (r2 & r & E2 & Hin & ->). rewrite T3 in E2.
    by apply app_inv_tail in E2 as ->.
Qed.

Lemma teardown_frees_all_witness :
  exists w' rs, UTP_FreeAll demo_written = Ok tt w' /\ heap w' !! 1 = None /\
    count (utp_sockets (ctx (w_sys w'))) = 0 /\ trace (w_sys w') = rs ++ trace (w_sys demo_written) /\
    OnStateChange 1 UTP_STATE_DESTROYING ∈ rs.
Proof.
  destruct (teardown_frees_all 3 demo_written demo_reach_written)
    as (w' & rs & H1 & H2 & _ & H4 & _ & _ & H7 & H8). exists w', rs.
  assert (Hr : registered demo_written 1)
    by (apply demo_registered; [exact demo_reach_written|by vm_compute]).
  split; [exact H1|]. split; [by apply H2|]. split; [exact H4|]. split; [exact H7|].
  by apply H8; [vm_compute|].
Defined.

(** evaluated: a socket that was created but never connected is not in the table; it
    survives the teardown, and utp_close refuses it *)
Example unused_socket_stays :
  match UTP_FreeAll demo_created with Ok _ w' => is_Some (heap w' !! 1) | Err _ _ => False end /\
  match on_socket 1 utp_close demo_created with Ok _ _ => False | Err f _ => f = AssertFailed 3398 end.
Proof. vm_compute. eauto. Qed.
