(* ===== verification/StateSpec.v ===== *)
(** * The life of a connection

    The state diagram of States.v on the whole program: whatever the application
    calls and the network delivers, each socket moves along it, and a socket that
    appears starts at its beginning. *)
From stdpp Require Import relations.
From S2P Require Import Prelude Wrap Packet Arrays SockAddr Hash HashMap Context AckList Socket Send Ack.
From S2P Require Import Incoming Timeouts Api States World WorldOps WorldOpen WorldCalls WorldTimers DeferredAcks Calls Demo SafetySpec.

(** ** Computations that move the sockets within a relation *)
Class Moves (T : World -> World -> Prop) {A} (m : M World A) : Prop :=
  moves w : wp (fun _ => True) m (fun _ w' => T w w') w.

(** a relation between programs that allows steps along the diagram *)
Class Lives (T : World -> World -> Prop) : Prop := {
  lv_preorder :: PreOrder T;
  lv_sys w y : T w (mkWorld (heap w) y);
  lv_run w p c c' y : heap w !! p = Some c -> st_path (state c) (state c') ->
    T w (mkWorld (<[p := c']> (heap w)) y);
}.

Section Rules.
Context (T : World -> World -> Prop) `{!Lives T}.

#[export] Instance moves_ret {A} (a : A) : Moves T (mret a).
Proof. intros w. apply wp_ret. reflexivity. Qed.

#[export] Instance moves_fail {A} f : Moves T (fail (A := A) f).
Proof. done. Qed.

Lemma moves_bind {A B} (m : M World A) (k : A -> M World B) :
  Moves T m -> (forall a, Moves T (k a)) -> Moves T (mbind k m).
Proof.
  intros Hm Hk w. apply wp_bind. eapply wp_mono; [apply Hm|]. intros a w1 H1.
  eapply wp_mono; [apply Hk|]. intros b w2 H2. etrans; [exact H1|exact H2].
Qed.

Lemma moves_when b (m : M World unit) : Moves T m -> Moves T (when b m).
Proof. intros H. destruct b; [exact H|apply _]. Qed.

#[export] Instance moves_gets {A} (f : World -> A) : Moves T (gets f).
Proof. intros w. apply wp_gets. reflexivity. Qed.

#[export] Instance moves_get_ctx {A} (f : utp_context -> A) : Moves T (get_ctx f).
Proof. intros w. apply wp_gets. reflexivity. Qed.

#[export] Instance moves_mod_ctx f : Moves T (mod_ctx f).
Proof. intros w. apply wp_modify, lv_sys. Qed.

#[export] Instance moves_assert line b : Moves T (assert_at line b).
Proof. intros w. apply wp_assert; [reflexivity|done]. Qed.

#[export] Instance moves_lift {A} (m : M Sys A) : Moves T (lift_sys m).
Proof.
  intros w. apply wp_lift_sys. unfold wp. cbn [sys HasSys_World].
  destruct (m _); [apply lv_sys|done].
Qed.

#[export] Instance moves_call `{E : Env} name r : Moves T (call name r).
Proof.
  intros w. unfold call. apply wp_bind, wp_get, wp_if; intros _; [|apply wp_ret; reflexivity].
  apply wp_bind, wp_modify, wp_ret, lv_sys.
Qed.

#[export] Instance moves_on_socket {A} p (m : M St A) : Within st_path m -> Moves T (on_socket p m).
Proof.
  intros Hm w. unfold wp, on_socket. destruct (heap w !! p) as [c|] eqn:Hc; [|done].
  pose proof (within_at st_path m (mkSt c (w_sys w)) Hm) as H. unfold wp in H.
  destruct (m _) as [a s'|]; [|done]. by apply lv_run with c.
Qed.
End Rules.

(** splits a computation into its parts *)
Ltac moves :=
  repeat first
    [ progress intros
    | match goal with
      | |- Moves _ (when _ _) => apply moves_when; [apply _|]
      | |- Moves _ (if ?b then _ else _) => destruct b
      | |- Moves _ (match ?x with _ => _ end) => destruct x
      | |- Moves _ (let _ := _ in _) => cbv zeta
      end
    | apply _
    | apply moves_bind; [apply _| |] ].

Section Calls.
Context {E : Env}.

(** ** Calls that may create sockets, and destroy none *)

Record onward (w w' : World) : Prop := {
  ow_old p c : heap w !! p = Some c ->
    exists c', heap w' !! p = Some c' /\ st_path (state c) (state c');
  ow_new p c' : heap w' !! p = Some c' -> heap w !! p = None ->
    st_path CS_UNINITIALIZED (state c');
}.

#[export] Instance onward_lives : Lives onward.
Proof.
  split.
  - split.
    + intros w. split; [intros p c Hc; by exists c|congruence].
    + intros w1 w2 w3 [O1 N1] [O2 N2]. split.
      * intros p c Hc. destruct (O1 p c Hc) as (c1 & Hc1 & P1), (O2 p c1 Hc1) as (c2 & Hc2 & P2).
        exists c2. split; [done|by etrans].
      * intros p c2 Hc2 Hn. destruct (heap w2 !! p) as [c1|] eqn:Hc1; [|by apply (N2 p)].
        destruct (O2 p c1 Hc1) as (c & Hc & P2). simplify_eq. etrans; [by apply (N1 p)|done].
  - intros w y. split; cbn [heap]; [intros p c Hc; by exists c|congruence].
  - intros w p c c' y Hc Hp. split; cbn [heap]; intros q d Hd.
    + destruct (decide (q = p)) as [->|Hne].
      * exists c'. rewrite lookup_insert_eq. split; [done|]. congruence.
      * exists d. by rewrite lookup_insert_ne.
    + intros Hn. rewrite lookup_insert_ne in Hd by (by intros ->; congruence). congruence.
Qed.

Lemma created_onward w : onward w (created w).
Proof.
  destruct (fresh_ptr w) as [Hn _]. split; unfold created; cbn [heap]; intros p c Hc.
  - exists c. by rewrite lookup_insert_ne by (intros <-; congruence).
  - intros Hp. destruct (decide (p = new_ptr w)) as [->|Hne].
    + rewrite lookup_insert_eq in Hc. by injection Hc as <-.
    + rewrite lookup_insert_ne in Hc by done. congruence.
Qed.

#[export] Instance moves_create : Moves onward create_socket.
Proof. intros w. apply wp_bind, wp_get, wp_bind, wp_modify, wp_ret, created_onward. Qed.

(** the new socket is the one that is opened *)
#[export] Instance moves_accept buffer to id seq_nr :
  Moves onward (p ← create_socket; accept_syn p buffer to id seq_nr).
Proof.
  intros w. unfold create_socket. apply wp_bind, wp_bind, wp_get, wp_bind, wp_modify, wp_ret.
  fold (created w). set (p := new_ptr w). destruct (fresh_ptr w) as [Hn _]. fold p in Hn.
  unfold accept_syn. apply (wp_on_socket _ p (utp_create_socket (ctx (w_sys w)) p)).
  { apply lookup_insert_eq. }
  eapply wp_mono; [apply wp_accept_state|]. intros u s' Hp.
  split; unfold created; cbn [heap]; fold p; rewrite insert_insert_eq; intros q d Hd.
  - exists d. by rewrite lookup_insert_ne by (intros <-; congruence).
  - intros Hq. destruct (decide (q = p)) as [->|Hne].
    + rewrite lookup_insert_eq in Hd. by injection Hd as <-.
    + rewrite lookup_insert_ne in Hd by done. congruence.
Qed.

(** ** The sweep, which destroys sockets and creates none *)
Definition fewer (w w' : World) : Prop :=
  forall p c', heap w' !! p = Some c' -> exists c, heap w !! p = Some c /\ st_path (state c) (state c').

#[export] Instance fewer_lives : Lives fewer.
Proof.
  split.
  - split; [by intros w p c Hc; exists c|]. intros w1 w2 w3 H1 H2 p c3 Hc3.
    destruct (H2 p c3 Hc3) as (c2 & Hc2 & P2), (H1 p c2 Hc2) as (c1 & Hc1 & P1).
    exists c1. split; [done|by etrans].
  - intros w y p c Hc. by exists c.
  - intros w p c c' y Hc Hp q d. cbn [heap]. rewrite lookup_insert_Some.
    intros [[<- <-]|[_ Hd]]; [by exists c|by exists d].
Qed.

(** ** The calls *)
Section Any.
Context (T : World -> World -> Prop) `{!Lives T}.

Ltac alone m := unfold m; moves.

#[export] Instance moves_read_socket {A} p (f : UTPSocket -> A) : Moves T (read_socket p f).
Proof. alone @read_socket. Qed.
#[export] Instance moves_context_set_option opt val : Moves T (utp_context_set_option opt val).
Proof. unfold utp_context_set_option. moves. Qed.
#[export] Instance moves_find_socket k : Moves T (find_socket k).
Proof. alone @find_socket. Qed.
#[export] Instance moves_find_by_send_id a r i : Moves T (find_by_send_id a r i).
Proof. alone @find_by_send_id. Qed.
#[export] Instance moves_find_by_either_id a i : Moves T (find_by_either_id a i).
Proof. alone @find_by_either_id. Qed.
#[export] Instance moves_find_connection a i : Moves T (find_connection a i).
Proof. alone @find_connection. Qed.
#[export] Instance moves_mod_rst f : Moves T (mod_rst f).
Proof. alone @mod_rst. Qed.
#[export] Instance moves_firewall a : Moves T (utp_call_on_firewall a).
Proof. alone @utp_call_on_firewall. Qed.
#[export] Instance moves_milliseconds p : Moves T (utp_call_get_milliseconds p).
Proof. alone @utp_call_get_milliseconds. Qed.
#[export] Instance moves_random p : Moves T (utp_call_get_random p).
Proof. alone @utp_call_get_random. Qed.
#[export] Instance moves_on_state_change p v : Moves T (utp_call_on_state_change p v).
Proof. unfold utp_call_on_state_change, notify. moves. Qed.
#[export] Instance moves_send_rst a c k n : Moves T (send_rst a c k n).
Proof. unfold send_rst, send_to_addr, utp_register_sent_packet, utp_call_sendto, notify. moves. Qed.
#[export] Instance moves_reject_unknown a i n : Moves T (reject_unknown a i n).
Proof. alone @reject_unknown. Qed.
#[export] Instance moves_process_connected p b : Moves T (process_connected p b).
Proof. unfold process_connected. apply moves_on_socket; [apply _|]. within. Qed.
#[export] Instance moves_parse_icmp b a : Moves T (parse_icmp_payload b a).
Proof. alone @parse_icmp_payload. Qed.
#[export] Instance moves_icmp_error b a : Moves T (utp_process_icmp_error b a).
Proof. alone @utp_process_icmp_error. Qed.
#[export] Instance moves_icmp_fragmentation b a v : Moves T (utp_process_icmp_fragmentation b a v).
Proof. alone @utp_process_icmp_fragmentation. Qed.
#[export] Instance moves_deferred_loop n : Moves T (deferred_acks_loop n).
Proof. induction n; cbn [deferred_acks_loop]; moves. Qed.
#[export] Instance moves_deferred_acks : Moves T utp_issue_deferred_acks.
Proof. alone @utp_issue_deferred_acks. Qed.
End Any.

#[export] Instance moves_handle_syn b a pa i n : Moves onward (handle_syn b a pa i n).
Proof. unfold handle_syn. moves. Qed.

#[export] Instance moves_process_udp b a : Moves onward (utp_process_udp b a).
Proof. unfold utp_process_udp. moves. Qed.

#[export] Instance moves_destroy p : Moves fewer (destroy_socket p).
Proof.
  unfold destroy_socket. moves. intros w. apply wp_modify. intros q c. cbn [heap].
  rewrite lookup_delete_Some. intros [_ Hq]. by exists c.
Qed.

#[export] Instance moves_timeouts_loop n it : Moves fewer (timeouts_loop n it).
Proof. revert it. induction n; intros it; cbn [timeouts_loop]; moves. Qed.

#[export] Instance moves_check_timeouts : Moves fewer utp_check_timeouts.
Proof. unfold utp_check_timeouts. moves. Qed.
End Calls.

(** ** The property *)

(** where a socket stands; one that does not exist yet is at the beginning *)
Definition state_at (w : World) (p : ptr) : CONN_STATE :=
  match heap w !! p with Some c => state c | None => CS_UNINITIALIZED end.

Lemma state_at_live w p : state_at w p <> CS_UNINITIALIZED -> exists c, heap w !! p = Some c /\ state c = state_at w p.
Proof. unfold state_at. intros H. destruct (heap w !! p) as [c|]; [by exists c|done]. Qed.

Definition follows (w w' : World) : Prop :=
  forall p c', heap w' !! p = Some c' -> st_path (state_at w p) (state c').

Lemma onward_follows w w' : onward w w' -> follows w w'.
Proof.
  intros [O N] p c' Hc'. unfold state_at. destruct (heap w !! p) as [c|] eqn:Hc; [|by apply (N p)].
  destruct (O p c Hc) as (d & Hd & Hp). by simplify_eq.
Qed.

Lemma fewer_follows w w' : fewer w w' -> follows w w'.
Proof. intros H p c' Hc'. destruct (H p c' Hc') as (c & Hc & Hp). unfold state_at. by rewrite Hc. Qed.

Lemma perform_follows {E : Env} tries a w :
  wp (fun _ => True) (perform tries a) (fun _ w' => follows w w') w.
Proof.
  assert (H : Moves onward (perform tries a) \/ Moves fewer (perform tries a))
    by (destruct a; (right; solve [cbn [perform]; moves]) || (left; cbn [perform]; moves)).
  destruct H as [H|H]; (eapply wp_mono; [apply H|]); intros u w' Hw; [by apply onward_follows|by apply fewer_follows].
Qed.

(** C7: connections live by their state diagram.  Whatever function the application
    calls, legally or not, and whatever the network delivers, every socket that exists
    afterwards got from where it stood along the steps of the diagram, a new one from
    CS_UNINITIALIZED; so a connection that was reset or destroyed is never used again,
    and none becomes connected without having sent or received a SYN. *)
Theorem states_follow_diagram {E : Env} (tries : nat) (a : api_call) (w w' : World) (p : ptr) (c' : UTPSocket) :
  perform tries a w = Ok tt w' -> heap w' !! p = Some c' ->
  st_path (state_at w p) (state c') /\
  (st_over (state_at w p) = true -> st_over (state c') = true) /\
  (state_at w p = CS_UNINITIALIZED \/ state_at w p = CS_IDLE -> connected (state c') = true ->
   exists r, (r = CS_SYN_SENT \/ r = CS_SYN_RECV) /\ st_path (state_at w p) r /\ st_path r (state c')).
Proof.
  intros Hp Hc. pose proof (perform_follows tries a w) as H. unfold wp in H. rewrite Hp in H.
  specialize (H p c' Hc). split; [exact H|]. split; [by apply st_over_path|].
  intros Hs Ht. by apply st_path_handshake.
Qed.

Lemma after_call_ends {E : Env} w a : ends w a = true -> perform 3 a w = Ok tt (after_call w a).
Proof. unfold ends, after_call. by destruct (perform 3 a w) as [[] w'|]. Qed.

Lemma demo_answered : ends demo_connecting (ProcessUdp demo_state_packet demo_peer) = true.
Proof. vm_compute. reflexivity. Qed.

Lemma states_follow_diagram_witness :
  exists c', heap (after_call demo_connecting (ProcessUdp demo_state_packet demo_peer)) !! 1 = Some c' /\
    state c' = CS_CONNECTED /\ st_path CS_SYN_SENT (state c').
Proof.
  assert (Hs : state_at demo_connecting 1 = CS_SYN_SENT) by (vm_compute; reflexivity).
  assert (Hc : state_at (after_call demo_connecting (ProcessUdp demo_state_packet demo_peer)) 1 = CS_CONNECTED)
    by (vm_compute; reflexivity).
  pose proof (after_call_ends _ _ demo_answered) as Hrun.
  destruct (state_at_live _ 1 ltac:(by rewrite Hc)) as (c' & He & Est).
  destruct (states_follow_diagram 3 _ _ _ 1 c' Hrun He) as (Hp & _ & _).
  exists c'. rewrite Hs in Hp. rewrite Hc in Est. split; [exact He|]. split; [exact Est|exact Hp].
Defined.
