(* ===== verification/ErrorSpec.v ===== *)
(** * How a connection fails

    The three ways the library tells the application that a connection is lost
    (src/utp_internal.cpp): a reset from the peer, an ICMP message, and a timeout;
    and examples of what goes wrong on the way. *)
From S2P Require Import Prelude Wrap Packet Ring Arrays SockAddr Hash Context AckList Socket Frame Send Ack.
From S2P Require Import Incoming Timeouts Api States World WorldOps Calls Demo SafetySpec Receive TimerSpec.

(** the application was told of the error [e] *)
Definition told_error (e : Z) (s s' : St) : Prop :=
  called UTP_ON_ERROR (fun r => r = OnError (this (me s)) e) (st_sys s) (st_sys s').

Section Wp.
Context {E : Env} (F : fault -> Prop).

(** the last step of each way *)
Lemma wp_tell e s0 c y R (Q : unit -> St -> Prop) :
  sys_next R (st_sys s0) y -> this c = this (me s0) ->
  (forall y', told_error e s0 (mkSt c y') -> Q tt (mkSt c y')) ->
  wp F (utp_call_on_error (this c) e) Q (mkSt c y).
Proof.
  intros Hy Ht H. apply (wp_notify_called F any); [done|]. intros y' _ Hc.
  cbn [put_sys HasSys_St sys me st_sys] in *. apply H. rewrite Ht in Hc. by eapply called_before.
Qed.

Lemma wp_incoming_overhead n t (Q : unit -> St -> Prop) c y :
  (forall y', sys_next any y y' -> Q tt (mkSt c y')) -> wp F (incoming_overhead n t) Q (mkSt c y).
Proof.
  intros H. unfold incoming_overhead, get_udp_overhead, utp_call_get_udp_overhead. wp_steps.
  apply (wp_call F any); [done|]. intros v y1 H1 _. wp_steps.
  apply (wp_notify F any); [done|]. intros y2 H2. apply H. by eapply sys_next_trans.
Qed.
End Wp.

(** the state an error leaves: the application may have closed the socket before *)
Definition ended_by (c : UTPSocket) : CONN_STATE :=
  match close_requested c with true => CS_DESTROY | false => CS_RESET end.

Lemma handle_reset_ends {E : Env} len s :
  exists s', handle_reset len s = Ok tt s' /\ me s' = (me s) <| state := ended_by (me s) |> /\
    told_error UTP_ECONNRESET s s'.
Proof.
  destruct s as [c y]. cbn [me].
  assert (H : wp no_fault (handle_reset len) (fun _ s' => me s' = c <| state := ended_by c |> /\
    told_error UTP_ECONNRESET (mkSt c y) s') (mkSt c y)).
  { unfold handle_reset. wp_steps. apply wp_incoming_overhead. intros y1 H1. wp_steps.
    set (c1 := c <| state := close_on_error c |>).
    assert (Es : is_state (state c1) CS_SYN_SENT = false)
      by (unfold c1, close_on_error; destruct c; cbn; by case_match).
    rewrite Es. replace (this c) with (this c1) by by destruct c.
    eapply (wp_tell no_fault _ (mkSt c y)); [exact H1|by destruct c|]. intros y' He. by split. }
  apply wp_ok in H as ([] & s' & Hr & Hq). by exists s'.
Qed.

Lemma icmp_error_ends {E : Env} s :
  exists s', icmp_error s = Ok tt s' /\
    if is_state (state (me s)) CS_IDLE then s' = s
    else me s' = (me s) <| state := ended_by (me s) |> /\
      told_error (if is_state (state (me s)) CS_SYN_SENT then UTP_ECONNREFUSED else UTP_ECONNRESET) s s'.
Proof.
  destruct s as [c y]. cbn [me].
  assert (H : wp no_fault icmp_error (fun _ s' => if is_state (state c) CS_IDLE then s' = mkSt c y
    else me s' = c <| state := ended_by c |> /\
      told_error (if is_state (state c) CS_SYN_SENT then UTP_ECONNREFUSED else UTP_ECONNRESET) (mkSt c y) s')
    (mkSt c y)).
  { unfold icmp_error. wp_steps. apply wp_if; intros Hi; rewrite Hi; [by apply wp_ret|]. wp_steps.
    set (c1 := c <| state := close_on_error c |>). replace (this c) with (this c1) by by destruct c.
    eapply (wp_tell no_fault _ (mkSt c y)); [apply (sys_next_refl any)|by destruct c|]. intros y' He. by split. }
  apply wp_ok in H as ([] & s' & Hr & Hq). by exists s'.
Qed.

Lemma abandon_ends {E : Env} s :
  exists s', abandon s = Ok (gives_up (me s)) s' /\
    if gives_up (me s) then me s' = (me s) <| state := given_up (me s) |> /\ told_error UTP_ETIMEDOUT s s'
    else s' = s.
Proof.
  destruct s as [c y]. cbn [me].
  assert (H : wp no_fault abandon (fun b s' => b = gives_up c /\ if gives_up c
    then me s' = c <| state := given_up c |> /\ told_error UTP_ETIMEDOUT (mkSt c y) s' else s' = mkSt c y) (mkSt c y)).
  { apply wp_abandon_spec; [by intros ->|]. intros y' -> _ He. by split. }
  apply wp_ok in H as (b & s' & Hr & -> & Hq). by exists s'.
Qed.


(** a connection being opened: it is reset, or given up at the third timeout *)
Definition demo_late : St :=
  let s := the_socket demo_connecting 1 in
  mkSt ((me s) <| rt ::= fun r => r <| retransmit_count := 2 |> |>) (st_sys s).


(** ** Closing and then being reset *)

(** a socket whose connection is over is left as it is by the timer *)
Lemma over_stays {E : Env} s x s' :
  st_over (state (me s)) = true -> check_timeouts s = Ok x s' -> state (me s') = state (me s).
Proof.
  intros Ho Hr. assert (H : wp (fun _ => True) check_timeouts (fun _ s' => state (me s') = state (me s)) s).
  { destruct s as [c y]. cbn [me] in *. unfold check_timeouts.
    apply (wp_past _ _ (state c)); [done|apply _|]. intros _ c1 y1 H1.
    apply wp_bind, wp_gets. cbn [me]. rewrite H1.
    apply (wp_past _ _ (state c)); [done|within|]. intros _ c2 y2 H2.
    apply wp_when; intros Ht; [by destruct (state c)|done]. }
  unfold wp in H. by rewrite Hr in H.
Qed.

(** C39: closing early does not keep.  A connection that is closed before the peer answers is due for destruction
    (CS_DESTROY), but close_requested is not set; a reset that arrives before the next
    sweep makes it CS_RESET again, reports an error on the closed socket, and the
    sweep, which destroys only sockets in CS_DESTROY, never frees it. *)
Theorem closed_socket_revived {E : Env} (len : Z) (s : St) :
  state (me s) = CS_SYN_SENT -> close_requested (me s) = false ->
  exists s1 s2, utp_close s = Ok tt s1 /\ state (me s1) = CS_DESTROY /\
    handle_reset len s1 = Ok tt s2 /\ state (me s2) = CS_RESET /\ told_error UTP_ECONNRESET s1 s2 /\
    forall x s3, check_timeouts s2 = Ok x s3 -> state (me s3) = CS_RESET.
Proof.
  destruct s as [c y]. cbn [me]. intros Hs Hc.
  assert (H : wp no_fault utp_close (fun _ s1 => state (me s1) = CS_DESTROY /\ close_requested (me s1) = false) (mkSt c y)).
  { unfold utp_close. wp_steps. rewrite Hs. apply wp_assert; [intros _|done]. cbn [connected is_state].
    apply wp_if; intros Hcon; [done|]. wp_steps. apply wp_when; intros _; [|wp_steps; by destruct c].
    unfold shorten_timeout, utp_call_get_milliseconds. wp_steps. apply (wp_call no_fault any); [done|].
    intros t y1 _ _. cbn [put_sys HasSys_St me st_sys]. wp_steps. by destruct c. }
  apply wp_ok in H as ([] & s1 & Hcl & Hs1 & Hc1).
  destruct (handle_reset_ends len s1) as (s2 & Hr & Em & Ht). exists s1, s2.
  assert (E2 : state (me s2) = CS_RESET).
  { rewrite Em. unfold ended_by. rewrite Hc1. by destruct (me s1). }
  split_and!; try done. intros x s3 H3. by rewrite (over_stays _ _ _ ltac:(by rewrite E2) H3).
Qed.

Lemma closed_socket_revived_witness :
  exists s1 s2, utp_close (the_socket demo_connecting 1) = Ok tt s1 /\ state (me s1) = CS_DESTROY /\
    handle_reset 20 s1 = Ok tt s2 /\ state (me s2) = CS_RESET /\ told_error UTP_ECONNRESET s1 s2 /\
    forall x s3, check_timeouts s2 = Ok x s3 -> state (me s3) = CS_RESET.
Proof.
  apply (closed_socket_revived 20 (the_socket demo_connecting 1)); vm_compute; reflexivity.
Defined.
