(* ===== verification/WireSpec.v ===== *)
(** * Every datagram sent is well formed

    The type of what the library puts on the wire: whatever an application does,
    each datagram handed to UTP_SENDTO has a complete header of version 1 and
    extensions that the library's own parser accepts. *)
From S2P Require Import Prelude Packet Arrays SockAddr Context Socket Frame Send World Calls Demo SafetySpec.

(** the parts of a datagram as the receiving side finds them: no extension and a
    payload, or a selective acknowledgement of four bytes and nothing else *)
Definition parses (bs : list Z) : Prop :=
  exists h, decode_header bs = Some h /\ header_wf h /\ UTP_Version h = 1 /\
    forall extensions,
      skip_extensions bs h extensions = ExtOk 20 None extensions \/
      skip_extensions bs h extensions = ExtOk 26 (Some 22) extensions /\
        length bs = 26%nat /\ rd bs 21 = Some 4.

Lemma norm_ok h : header_ok h -> pf_ext h = 0 \/ pf_ext h = 1 ->
  UTP_Version (norm_header h) = 1 /\ pf_ext (norm_header h) = pf_ext h.
Proof.
  intros [Ht Hv] He. unfold norm_header.
  assert (Ex : u8 (pf_ext h) = pf_ext h) by (apply u8_small; destruct He as [-> | ->]; done).
  split; [|exact Ex]. revert Hv. unfold UTP_Version, pf_type, pf_version.
  cbn [pf_ver_type pf_ext]. by rewrite Ex, (u8_small _ Ht).
Qed.

Lemma wire_parses bs : wire bs -> parses bs.
Proof.
  intros (h & rest & -> & Hh). exists (norm_header h). split; [apply decode_encode_norm|].
  split; [apply norm_header_wf|].
  destruct Hh as [[Ho He]|(Ho & He & m & ->)]; destruct (norm_ok h Ho) as [Hv Ex]; auto;
    (split; [exact Hv|]); intros x; unfold skip_extensions; rewrite Ex, He.
  - by left.
  - right. split; [|done]. by cbn.
Qed.

(** C8: every datagram is well formed.  In every state a program can reach, each
    datagram that was handed to UTP_SENDTO is one the library accepts itself: the
    header decodes, its fields fit their widths, it passes the version test, and the
    extension parser finds either no extension or exactly one selective
    acknowledgement of four bytes that ends the datagram. *)
Theorem datagrams_well_formed {E : Env} {HA : GoodApp} (tries : nat) (w : World) p bs a flags :
  reachable tries w -> Sendto p bs a flags ∈ trace (w_sys w) -> parses bs.
Proof.
  intros [R Hw]%reachable_well Hin. apply wire_parses.
  pose proof (sg_wire _ (wi_sys _ _ _ _ Hw)) as Hp. rewrite Forall_forall in Hp. exact (Hp _ Hin).
Qed.

(** ** Witness: the SYN of a connection and the data written on it *)
Definition sent_by (w : World) : list (list Z) :=
  omap (fun r => match r with Sendto _ bs _ _ => Some bs | _ => None end) (trace (w_sys w)).

Lemma sent_by_in w bs :
  bs ∈ sent_by w -> exists p a flags, Sendto p bs a flags ∈ trace (w_sys w).
Proof.
  intros (r & Hr & Hs)%list_elem_of_omap. destruct r; try done. injection Hs as <-. eauto.
Qed.

Lemma datagrams_well_formed_witness :
  length (sent_by demo_written) = 2%nat /\ Forall parses (sent_by demo_written).
Proof.
  split; [vm_compute; reflexivity|]. apply Forall_forall. intros bs (p & a & fl & Hin)%sent_by_in.
  exact (datagrams_well_formed 3 demo_written p bs a fl demo_reach_written Hin).
Defined.
