(* ===== verification/Link.v ===== *)
(** * Two sockets and the network between them

    A connection seen from both ends: a socket that writes, a socket that reads, and
    a network that may lose, repeat, delay and reorder what they send.  The methods
    are those of src/utp_internal.cpp; the network hands any datagram that was ever
    sent to utp_process_incoming of the other side, any number of times, as long as
    it is not older than [lifetime] packets. *)
From S2P Require Import Prelude Wrap Packet Ring Arrays SockAddr Context AckList Socket Frame.
From S2P Require Import Send Ack Incoming Timeouts Api.

(** ** What was sent *)
Definition datagrams (rs : list request) : list (list Z) :=
  omap (fun r => match r with Sendto _ bs _ _ => Some bs | _ => None end) rs.

(** the datagrams sent between two moments, the newest first *)
Definition new_datagrams (y y' : Sys) : list (list Z) :=
  datagrams (take (length (trace y') - length (trace y)) (trace y')).

Lemma elem_of_datagrams d rs : d ∈ datagrams rs <-> exists p a fl, Sendto p d a fl ∈ rs.
Proof.
  unfold datagrams. rewrite list_elem_of_omap. split.
  - intros ([] & Hin & Hd); try done. injection Hd as <-. eauto.
  - intros (p & a & fl & Hin). eauto.
Qed.

Lemma new_datagrams_trace y y' rs :
  trace y' = rs ++ trace y -> new_datagrams y y' = datagrams rs.
Proof.
  intros E. unfold new_datagrams. rewrite E, length_app.
  replace (length rs + length (trace y) - length (trace y))%nat with (length rs) by lia.
  by rewrite take_app_length.
Qed.

Lemma new_datagrams_traced (R : request -> Prop) (D : list Z -> Prop) y y' :
  (forall p d a fl, R (Sendto p d a fl) -> D d) -> traced R y y' ->
  forall d, d ∈ new_datagrams y y' -> D d.
Proof.
  intros H (rs & E & Hrs) d. rewrite (new_datagrams_trace _ _ rs E), elem_of_datagrams.
  intros (p & a & fl & Hin). rewrite Forall_forall in Hrs. by eapply H, Hrs.
Qed.

(** ** The two ends *)

(** Each datagram is kept with the number of packets that had been queued when it
    was sent. *)
Record Net : Type := mkNet {
  tx : St;                       (* the socket that writes *)
  rx : St;                       (* the socket that reads *)
  to_rx : list (Z * list Z);
  to_tx : list (Z * list Z);
  total : Z;                     (* packets queued by [tx] so far *)
  written : list Z;              (* the bytes its utp_writev has accepted *)
}.

Definition start (s r : St) : Net := mkNet s r [] [] 0 [].

(** no datagram outlives this many later packets *)
Definition lifetime : Z := 30000.

Definition stamped_with (t : Z) (l : list (list Z)) : list (Z * list Z) := (fun d => (t, d)) <$> l.

(** the sequence numbers used since: the packets queued *)
Definition queued_since (s s' : St) : Z := u16 (seq_nr (sq (me s')) - seq_nr (sq (me s))).

Definition after_tx (w : Net) (s' : St) (bs : list Z) : Net :=
  let t := total w + queued_since (tx w) s' in
  mkNet s' (rx w) (stamped_with t (new_datagrams (st_sys (tx w)) (st_sys s')) ++ to_rx w) (to_tx w)
    t (written w ++ bs).

Definition after_rx (w : Net) (r' : St) : Net :=
  mkNet (tx w) r' (to_rx w)
    (stamped_with (total w) (new_datagrams (st_sys (rx w)) (st_sys r')) ++ to_tx w) (total w) (written w).

(** a datagram of the list that the network may still deliver *)
Definition fresh (w : Net) (l : list (Z * list Z)) (i : nat) : option (list Z) :=
  p ← l !! i; if total w - p.1 <=? lifetime then Some p.2 else None.

(** ** What may happen *)
Inductive action : Type :=
| Write (iovs : list (list Z))  (* the application writes, when the socket is connected *)
| Close                         (* the application closes the connection *)
| Shutdown (how : Z)            (* or only one direction of it *)
| Clock (ms : Z)                (* time passes for the sender's context *)
| Timer                         (* the sender's timers are checked *)
| Deliver (i : nat)             (* a datagram reaches the reader *)
| Acknowledge                   (* the reader sends an acknowledgement *)
| Drained                       (* the reader's application has read *)
| Reader_clock (ms : Z)         (* time passes for the reader's context *)
| Reader_timer                  (* the reader's timers are checked *)
| Return (i : nat).             (* a datagram reaches the sender *)

Section Run.
Context {E : Env}.

Definition run_tx {A} (m : M St A) (bs : A -> list Z) (w : Net) : Net + fault :=
  match m (tx w) with
  | Ok a s' => inl (after_tx w s' (bs a))
  | Err f _ => inr f
  end.

Definition run_rx {A} (m : M St A) (w : Net) : Net + fault :=
  match m (rx w) with
  | Ok _ r' => inl (after_rx w r')
  | Err f _ => inr f
  end.

Definition act (a : action) (w : Net) : Net + fault :=
  match a with
  | Write iovs =>
      if is_state (state (me (tx w))) CS_CONNECTED && negb (bool_decide (iovs = [])) then
        run_tx (utp_writev iovs) (fun k => take (Z.to_nat k) (concat (take UTP_IOV_MAX iovs))) w
      else inl w
  | Close => if closable (state (me (tx w))) then run_tx utp_close (fun _ => []) w else inl w
  | Shutdown how =>
      if closable (state (me (tx w))) then run_tx (utp_shutdown how) (fun _ => []) w else inl w
  | Clock ms => run_tx (mod_ctx (fun c => c <| current_ms := ms |>)) (fun _ => []) w
  | Timer => run_tx check_timeouts (fun _ => []) w
  | Deliver i =>
      match fresh w (to_rx w) i with
      | Some d => run_rx (utp_process_incoming d false) w
      | None => inl w
      end
  | Acknowledge => run_rx (send_ack false) w
  | Drained => run_rx utp_read_drained w
  | Reader_clock ms => run_rx (mod_ctx (fun c => c <| current_ms := ms |>)) w
  | Reader_timer => run_rx check_timeouts w
  | Return i =>
      match fresh w (to_tx w) i with
      | Some d => run_tx (utp_process_incoming d false) (fun _ => []) w
      | None => inl w
      end
  end.

Fixpoint run (l : list action) (w : Net) : Net + fault :=
  match l with
  | [] => inl w
  | a :: l => match act a w with inl w' => run l w' | inr f => inr f end
  end.
End Run.
