(* ===== verification/Finish.v ===== *)
(** * Ending a stream

    What utp_close and utp_shutdown (src/utp_internal.cpp) do to the send queue of an
    established socket: at most once, the FIN is queued behind the stream, and apart
    from that nothing another end of the connection could notice. *)
From S2P Require Import Prelude Wrap Packet Ring Delay DelayAvg Arrays SockAddr Context AckList.
From S2P Require Import Socket Frame MtuSearch Send SendQueue SendInv Flush Streams WriteQueue Reorder Ack Incoming.
From S2P Require Import Timeouts Api States AckQueue AckStages Receive TimerInv RecvInv IncomingSafe Writev SockOps CloseSpec.

(** what the socket would acknowledge *)
Definition same_acks (c c' : UTPSocket) : Prop :=
  ack_nr (rq c') = ack_nr (rq c) /\ reorder_count (rq c') = reorder_count (rq c).

(** nothing was queued or sent *)
Record idle (s s' : St) : Prop := {
  id_sq : sq (me s') = sq (me s);
  id_fin : fin_sent (me s') = fin_sent (me s);
  id_acks : same_acks (me s) (me s');
  id_state : state (me s') = state (me s) \/ state (me s') = CS_DESTROY;
  id_sys : sys_next mute (st_sys s) (st_sys s');
}.

(** the FIN was queued *)
Record ended (n : Z) (s s' : St) : Prop := {
  en_before : fin_sent (me s) = false;
  en_fin : fin_sent (me s') = true;
  en_acks : same_acks (me s) (me s');
  en_state : state (me s') = state (me s);
  en_wrote : exists c, sq c = sq (me s) /\ same_acks (me s) c /\ wrote n ST_FIN [] (mkSt c (st_sys s)) s';
}.

(** fields the other end does not see *)
Lemma idle_upd c y c' :
  sq c' = sq c -> fin_sent c' = fin_sent c -> same_acks c c' ->
  state c' = state c \/ state c' = CS_DESTROY -> idle (mkSt c y) (mkSt c' y).
Proof. intros. split; try done. apply sys_next_refl. Qed.

Lemma idle_trans s1 s2 s3 :
  idle s1 s2 -> idle s2 s3 -> idle s1 s3.
Proof.
  intros [Q1 F1 [A1 B1] S1 Y1] [Q2 F2 [A2 B2] S2 Y2].
  split; [congruence|congruence|split; congruence|intuition congruence|by eapply sys_next_trans].
Qed.

Lemma idle_ended n s1 s2 s3 :
  st_sys s2 = st_sys s1 -> state (me s2) = state (me s1) -> idle s1 s2 -> ended n s2 s3 -> ended n s1 s3.
Proof.
  intros Ey Es [Q1 F1 [A1 B1] _ _] [F2 F3 [A2 B2] S2 (c & Ec & [A3 B3] & Hw)].
  split; [congruence|done|split; congruence|congruence|]. exists c. rewrite <- Ey.
  split; [congruence|]. split; [split; congruence|done].
Qed.

Section Wp.
Context {E : Env} {HA : GoodApp} (F : fault -> Prop).

Lemma wp_shorten_idle c y :
  wp F shorten_timeout (fun _ s' => idle (mkSt c y) s' /\ state (me s') = state c) (mkSt c y).
Proof.
  unfold shorten_timeout, utp_call_get_milliseconds. wp_steps.
  apply (wp_call F mute); [done|]. intros t y1 H1 _. cbn [put_sys HasSys_St me st_sys]. wp_steps.
  split; [|by destruct c]. split; cbn [me st_sys]; [by destruct c..|by destruct c; left|done].
Qed.

Lemma wp_send_fin_ended n m c y :
  sock_ok n m (mkSt c y) -> 1 <= n < 2147483647 -> fin_sent c = false ->
  wp F send_fin (fun _ s' => ended n (mkSt c y) s') (mkSt c y).
Proof.
  intros [[C1 C2 C3 _] _ _ _ _ _ Hr] Hn Hf. specialize (Hr Hf). cbn [me st_sys] in *.
  unfold send_fin. wp_steps. set (c1 := c <| fin_sent := true |>).
  assert (E1 : sq c1 = sq c /\ mt c1 = mt c /\ this c1 = this c /\ same_acks c c1 /\ fin_sent c1 = true /\
    state c1 = state c) by by destruct c.
  destruct E1 as (Q1 & M1 & T1 & A1 & F1 & S1).
  eapply wp_mono.
  { apply (wp_write_outgoing_packet F n); rewrite ?Q1, ?M1, ?T1; try done; try lia. }
  intros iov s' [_ Hw]. wp_steps. destruct (wrote_same _ _ _ _ _ Hw) as (W1 & W2 & W3 & _).
  cbn [me] in *. split; cbn [me st_sys]; try congruence.
  - unfold same_acks. by rewrite W3.
  - by exists c1.
Qed.

(** the two functions *)
Lemma wp_utp_close_effect n m c y :
  sock_ok n m (mkSt c y) -> 1 <= n < 2147483647 -> closable (state c) = true ->
  wp F utp_close (fun _ s' => idle (mkSt c y) s' \/ ended n (mkSt c y) s') (mkSt c y).
Proof.
  intros Hs Hn Hc. unfold utp_close. wp_steps. apply wp_assert; [intros _|congruence].
  apply wp_if; intros Hcon.
  - wp_steps. set (c1 := _ <| close_requested := true |>).
    assert (I1 : idle (mkSt c y) (mkSt c1 y))
      by (apply idle_upd; [by destruct c|by destruct c|by destruct c, rq|by destruct c; left]).
    assert (V1 : sock_ok n m (mkSt c1 y)).
    { pose proof (survives_shutdown n m c y Hs) as V0. eapply su_ok, survives_upd, V0; by destruct c. }
    assert (S1 : state c1 = state c) by by destruct c.
    apply wp_if; intros Hf.
    + eapply wp_mono.
      * apply (wp_send_fin_ended n m); [done|done|]. apply negb_true_iff in Hf. by destruct c.
      * intros x s' H. right. by apply (idle_ended n _ (mkSt c1 y)).
    + apply wp_when; intros _; [|by left]. wp_steps. left. eapply idle_trans; [exact I1|].
      apply idle_upd; destruct c1; by (done || right).
  - wp_step. apply wp_when; intros _.
    + eapply wp_mono; [apply wp_shorten_idle|]. intros x [c1 y1] [I1 _]. wp_steps. left.
      eapply idle_trans; [exact I1|]. apply idle_upd; destruct c1; by (done || right).
    + wp_steps. left. apply idle_upd; destruct c; by (done || right).
Qed.

Lemma wp_utp_shutdown_effect n m how c y :
  sock_ok n m (mkSt c y) -> 1 <= n < 2147483647 -> closable (state c) = true ->
  wp F (utp_shutdown how) (fun _ s' => idle (mkSt c y) s' \/ ended n (mkSt c y) s') (mkSt c y).
Proof.
  intros Hs Hn Hc. unfold utp_shutdown. wp_steps. apply wp_assert; [intros _|congruence]. wp_step.
  assert (Hrest : forall c1, sock_ok n m (mkSt c1 y) -> idle (mkSt c y) (mkSt c1 y) -> state c1 = state c ->
    wp F (when (negb (how =? SHUT_RD)) (
      if connected (state c) then when (negb (fin_sent c)) send_fin
      else when (is_state (state c) CS_SYN_SENT) shorten_timeout))
      (fun _ s' => idle (mkSt c y) s' \/ ended n (mkSt c y) s') (mkSt c1 y)).
  { intros c1 V1 I1 S1. apply wp_when; intros _; [|by left]. apply wp_if; intros Hcon.
    - apply wp_when; intros Hf; [|by left]. eapply wp_mono.
      + apply (wp_send_fin_ended n m); [done|done|]. pose proof (id_fin _ _ I1) as Ef. cbn [me] in Ef.
        rewrite Ef. by apply negb_true_iff.
      + intros x s' H. right. by apply (idle_ended n _ (mkSt c1 y)).
    - apply wp_when; intros _; [|by left].
      eapply wp_mono; [apply wp_shorten_idle|]. intros x s' [I2 _]. left. by eapply idle_trans. }
  assert (Hid : idle (mkSt c y) (mkSt c y)) by (apply idle_upd; by try left).
  apply wp_when; intros _; [|by apply Hrest].
  wp_step. apply Hrest; [apply (survives_shutdown n m c y Hs)|apply idle_upd|by destruct c];
    [by destruct c|by destruct c|by destruct c, rq|by destruct c; left].
Qed.
End Wp.
