(* ===== verification/Listener.v ===== *)
(** * A reader between two packets

    What a socket that only receives does on its own (src/utp_internal.cpp): its
    timers with nothing in flight, the keep-alive, acknowledgements that were due,
    and the notice that its application has read. *)
From S2P Require Import Prelude Wrap Packet Ring Delay DelayAvg Arrays SockAddr Context AckList.
From S2P Require Import Socket Frame MtuSearch Send SendQueue SendInv Flush Streams Reorder Ack Ccontrol Incoming.
From S2P Require Import Timeouts Api AckQueue AckStages Receive TimerInv RecvInv IncomingSafe OneWay Writev SockOps.

(** neither end of the stream moved, and only datagrams of kind [ok] were sent *)
Record rested (n : Z) (ok : list Z -> Prop) (s s' : St) : Prop := {
  rd_this : this (me s') = this (me s);
  rd_rq : rq (me s') = rq (me s);
  rd_sq : sq (me s') = sq (me s);
  rd_passive : passive n (me s) -> passive n (me s');
  rd_ok : forall p, sys_ok p (st_sys s) -> sys_ok p (st_sys s');
  rd_cb : callbacks (ctx (st_sys s')) = callbacks (ctx (st_sys s));
  rd_sent : traced (speaks ok) (st_sys s) (st_sys s');
}.

Lemma rested_trans n ok s1 s2 s3 : rested n ok s1 s2 -> rested n ok s2 s3 -> rested n ok s1 s3.
Proof. intros [] []. split; auto; try congruence. by eapply traced_trans. Qed.

(** fields of the socket's own *)
Lemma rested_upd n ok c y c' :
  this c' = this c -> rq c' = rq c -> sq c' = sq c -> (passive n c -> passive n c') ->
  rested n ok (mkSt c y) (mkSt c' y).
Proof. intros. split; try done. apply traced_refl. Qed.

Lemma rested_refl n ok s : rested n ok s s.
Proof. destruct s. by apply rested_upd. Qed.

(** the context's own fields, and calls *)
Lemma rested_next n ok c y y' : sys_next (speaks ok) y y' -> rested n ok (mkSt c y) (mkSt c y').
Proof.
  intros Hy. split; try done; [intros p; by eapply sys_next_ok|by eapply sys_next_cb|by apply traced_next].
Qed.

Lemma rested_ms n ok c y t : rested n ok (mkSt c y) (mkSt c (y <| ctx ::= fun x => x <| current_ms := t |> |>)).
Proof.
  split; try done; cbn [st_sys].
  - intros p. apply sys_ok_ctx. by intros [].
  - exists []. by destruct y.
Qed.

Lemma rested_sideways ok n c y c' y' :
  sideways n c y c' y' -> rested n ok (mkSt c y) (mkSt c' y').
Proof.
  intros [E1 E2 E3 Hp Hy]. split; try done; cbn [st_sys].
  - intros p. by eapply sys_next_ok.
  - by eapply sys_next_cb.
  - apply traced_next. eapply sys_next_mono, Hy. apply mute_speaks.
Qed.

Lemma rested_listening D isn fin ok n R k s s' :
  rested n ok s s' -> listening D isn fin n R k s -> listening D isn fin n R k s'.
Proof.
  intros [E1 E2 E3 Hp Hok Hcb _] [[H1 H2 H3] Hk He Hfi Hpv]. split; rewrite ?E2; auto.
  split; rewrite ?E1, ?E2; auto. unfold has_callback in *. by rewrite Hcb.
Qed.

Lemma rested_reads n ok p s s' : rested n ok s s' -> reads p (trace (st_sys s')) = reads p (trace (st_sys s)).
Proof.
  intros [_ _ _ _ _ _ (rs & -> & Hrs)]. apply reads_app. eapply Forall_impl; [exact Hrs|]. by intros r [].
Qed.

(** a reader that misses packet [k] is as send_ack expects it *)
Lemma buffered_safe D isn R k q : buffered D isn R k q -> k ∉ R -> rq_safe q.
Proof.
  intros Hb Hk. destruct (buffered_rq_ok _ _ _ _ _ Hb Hk). pose proof (buffered_mask _ _ _ _ _ Hb) as Hm.
  split; try done; [|by exists D, isn, R, k].
  rewrite (bf_count _ _ _ _ _ Hb). pose proof (held_count_bounds q Hm). unfold is_u16. lia.
Qed.

Section Wp.
Context {E : Env} {HA : GoodApp} (F : fault -> Prop).

(** ** Acknowledgements *)

(** the stamps an acknowledgement leaves *)
Lemma rested_acked n q c y w t y' :
  sys_next (sends_only (acknowledges q)) y y' ->
  rested n (acknowledges q) (mkSt c y) (mkSt (c <| wn := w |> <| last_sent_packet := t |>) y').
Proof.
  intros Hy. eapply rested_trans.
  - apply rested_next. eapply sys_next_mono, Hy. apply sends_speaks.
  - apply rested_upd; try by destruct c. by apply passive_same; destruct c.
Qed.

Lemma wp_send_ack_rested n c y :
  sys_ok (this c) y -> rq_safe (rq c) ->
  wp F (send_ack false) (fun _ s' => rested n (acknowledges (rq c)) (mkSt c y) s') (mkSt c y).
Proof.
  intros Hok Hs. apply wp_send_ack_D; [done| |].
  - intros _ Hr. split; [done|]. by apply rq_safe_next.
  - intros w y' Hy _ _ _. by apply rested_acked.
Qed.

Lemma wp_send_keep_alive_rested n c y :
  sys_ok (this c) y -> rq_safe (rq c) ->
  wp F send_keep_alive (fun _ s' => rested n (acknowledges (last_heard (rq c))) (mkSt c y) s') (mkSt c y).
Proof.
  intros Hok Hs. unfold send_keep_alive. wp_steps. set (c1 := c <| rq ::= _ |>).
  assert (E1 : this c1 = this c /\ rq c1 = last_heard (rq c)) by by destruct c. destruct E1 as [Et Er].
  apply wp_send_ack_D; [by rewrite Et| |].
  - intros _ Hr. split; [done|]. rewrite Er. apply rq_safe_last; [done|].
    rewrite Er in Hr. by destruct (rq c).
  - intros w y' Hy _ _ _. wp_steps. rewrite Er in Hy. pose proof (rs_ack _ Hs) as Ha.
    pose proof (rested_acked n _ c y w (current_ms (ctx y)) y' Hy) as H.
    assert (Ea : u16 (u16 (ack_nr (rq c) - 1) + 1) = ack_nr (rq c)) by (revert Ha; word_lia).
    match goal with |- rested _ _ _ (mkSt ?c2 _) => match type of H with rested _ _ _ (mkSt ?c3 _) =>
      replace c2 with c3; [exact H|] end end.
    clear H. subst c1. destruct c, rq. cbn in *. by rewrite Ea.
Qed.

(** the application has read *)
Lemma wp_utp_read_drained_rested n c y :
  sys_ok (this c) y -> rq_safe (rq c) -> state c <> CS_UNINITIALIZED ->
  wp F utp_read_drained (fun _ s' => rested n (acknowledges (rq c)) (mkSt c y) s') (mkSt c y).
Proof.
  intros Hok Hs Hst. unfold utp_read_drained. wp_steps.
  apply wp_assert; [intros _|intros Hf%negb_false_iff%bool_decide_eq_true; done]. wp_steps.
  apply (wp_get_rcv_window_R F mute); [intros r; apply silent_mute|]. intros w y1 H1. wp_steps.
  assert (R1 : rested n (acknowledges (rq c)) (mkSt c y) (mkSt c y1)).
  { apply rested_next. eapply sys_next_mono, H1. apply mute_speaks. }
  assert (Hok1 : sys_ok (this c) y1) by by eapply sys_next_ok.
  apply wp_when; intros _; [|done]. apply wp_if; intros _.
  - eapply wp_mono; [by apply (wp_send_ack_rested n)|]. intros x s' R2. by eapply rested_trans.
  - wp_steps. unfold utp_call_get_milliseconds. apply (wp_call F mute); [done|].
    intros t y2 H2 _. cbn [put_sys HasSys_St me st_sys] in *. wp_steps.
    assert (Hok2 : sys_ok (this c) y2) by by eapply sys_next_ok.
    apply (wp_schedule F mute); [apply sys_ok_ctx; [by intros []|done]|]. intros y4 i H4 _ _.
    cbn [put_sys HasSys_St sys me st_sys] in *. eapply rested_trans; [exact R1|].
    eapply rested_trans; [apply rested_next; eapply sys_next_mono, H2; apply mute_speaks|].
    eapply rested_trans; [apply rested_ms|]. apply rested_next. eapply sys_next_mono, H4. apply mute_speaks.
Qed.

(** ** The timers *)

(** the retransmission timer, which only the windows and times notice *)
Lemma wp_on_rto_rested n ok c y :
  passive n c ->
  wp F on_rto (fun dead s' => dead = false /\ rested n ok (mkSt c y) s') (mkSt c y).
Proof.
  intros Hp. pose proof Hp as [Hw _ _ _ _ _ _ Htr]. unfold on_rto, timeout_probe. wp_steps.
  rewrite Hw. change (0 =? 1) with false. cbn [andb when]. wp_steps. set (c1 := c <| mt ::= _ |>).
  assert (E1 : this c1 = this c /\ rq c1 = rq c /\ sq c1 = sq c /\ passive n c1 /\ state c1 = state c /\ rt c1 = rt c)
    by (split_and!; try (by destruct c); apply (passive_same n c); by destruct c).
  destruct E1 as (T1 & R1 & Q1 & P1 & S1 & C1). unfold abandon. wp_steps.
  rewrite (passive_state n c1 CS_SYN_RECV P1), (passive_state n c1 CS_SYN_SENT P1) by done.
  rewrite (proj2 (Z.leb_gt 4 _)) by (rewrite C1; lia). cbn [orb andb]. wp_steps. cbn [negb when]. wp_steps.
  set (c2 := (_ <| rt ::= _ |>) <| wn ::= _ |>).
  assert (E2 : rested n ok (mkSt c y) (mkSt c2 y)).
  { apply rested_upd; try (by destruct c). intros _. apply (passive_same n c1); by destruct c. }
  assert (Q2 : sq c2 = sq c) by by destruct c. rewrite Q2, Hw. change (Z.to_nat 0) with 0%nat.
  cbn [zseq seq fmap list_fmap mfor]. wp_steps. unfold resend_oldest. wp_steps. rewrite Q2, Hw. cbn [Z.ltb Z.compare when].
  by wp_steps.
Qed.

Lemma wp_check_timeouts_rested n c y :
  passive n c -> sys_ok (this c) y -> rq_safe (rq c) ->
  wp F check_timeouts (fun _ s' => rested n (acknowledges (last_heard (rq c))) (mkSt c y) s') (mkSt c y).
Proof.
  intros Hp Hok Hs. pose proof Hp as [Hw _ _ _ _ _ _ _]. set (ok := acknowledges _).
  unfold check_timeouts, assert_front. wp_steps. rewrite Hw. apply wp_assert; [intros _|done]. wp_steps.
  rewrite (passive_state n c CS_DESTROY Hp) by done. cbn [negb when]. unfold flush_packets. wp_steps.
  rewrite Hw. change (Z.to_nat 0) with 0%nat. cbn [flush_loop].
  rewrite Z.sub_0_r, (u16_small _ (pv_seq _ _ Hp)). wp_steps. rewrite Z.eqb_refl. wp_steps.
  apply wp_when; intros _; [|apply rested_refl]. wp_steps. set (c1 := c <| wn ::= _ |>).
  assert (R1 : rested n ok (mkSt c y) (mkSt c1 y)).
  { apply rested_upd; try (by destruct c). intros _. apply (passive_same n c); by destruct c. }
  assert (Hend : forall s1, rested n ok (mkSt c y) s1 ->
    wp F (when (negb false) (mark_writable ;; keep_alive_check)) (fun _ s' => rested n ok (mkSt c y) s') s1).
  { intros [c2 y2] R2. pose proof (rd_passive _ _ _ _ R2 Hp) as P2. cbn [negb when me] in *. wp_step.
    apply (wp_mark_writable F n); [done|]. intros c3 y3 S3.
    pose proof (rested_trans n ok _ _ _ R2 (rested_sideways ok n _ _ _ _ S3)) as R3.
    unfold keep_alive_check. wp_steps. apply wp_when; intros _; [|done].
    pose proof R3 as [T3 Q3 _ _ O3 _ _]. cbn [me st_sys] in *.
    eapply wp_mono.
    { apply (wp_send_keep_alive_rested n c3 y3); [by rewrite T3; apply O3|by rewrite Q3]. }
    intros x s' R4. rewrite Q3 in R4. by eapply rested_trans. }
  apply wp_if; intros _.
  - eapply wp_mono; [by apply (wp_on_rto_rested n ok), (rd_passive _ _ _ _ R1)|].
    intros dead s2 [-> R2]. apply Hend. by eapply rested_trans.
  - wp_steps. by apply Hend.
Qed.
End Wp.
