(* ===== verification/Said.v ===== *)
(** * What the datagrams of a session say

    The datagrams that the two ends of Link.v send, with what each of them says about
    the stream: the packets of utp_writev and its retransmissions, the keep-alives of
    the writer, and the acknowledgements of the reader (src/utp_internal.cpp). *)
From S2P Require Import Prelude Wrap Packet Ring Delay DelayAvg Arrays SockAddr Hash Context AckList Socket Frame.
From S2P Require Import MtuSearch Send SendQueue SendInv Flush Streams WriteQueue Reorder Ack Ccontrol Incoming.
From S2P Require Import AckQueue Timeouts Api States Receive TimerInv RecvInv IncomingSafe OneWay Writev SockOps Finish.
From S2P Require Import Demo RecvSpec EndToEnd SackSpec Link.

(** ** What the datagrams say *)
Section Said.
Context (isn : Z).

(** the type of packet [o], when [fin] is the FIN *)
Definition flag (fin : option Z) (o : Z) : Z := if decide (fin = Some o) then ST_FIN else ST_DATA.

(** the headers of the queued packets, of which [N] is the number queued so far *)
Definition packets_of (fin : option Z) (N : Z) (q : SendQueue) : Prop :=
  forall j p, 0 <= j < cur_window_packets q -> slot q j = Some p ->
    label_ok (flag fin (N - 1 - j)) q j (pk_hdr p).

(** the end of the stream, once known, stays what it is *)
Definition fin_next (N : Z) (fin fin' : option Z) : Prop := fin' = fin \/ fin = None /\ fin' = Some N.

(** a packet of the stream, sent when [t] packets had been queued, or a keep-alive *)
Definition says_data (fin : option Z) (D : Z -> list Z) (ack N : Z) (q : SendQueue) (t : Z) (d : list Z) : Prop :=
  t <= N /\
  ((exists o h, d = encode_header h ++ D o /\ peer_header isn fin ack o h /\
      t - 1024 <= o < t /\ final N q o) \/
   (exists h, d = encode_header h ++ [] /\ header_wf h /\ pf_ext h = 0 /\ pf_type h = ST_STATE /\
      pf_ack_nr h = u16 (ack - 1))).

(** an acknowledgement: of everything before [k], and of packets in [R] only *)
Definition says_ack (R : gset Z) (t : Z) (d : list Z) : Prop :=
  exists h rest k, d = encode_header h ++ rest /\ header_wf h /\ pf_type h = ST_STATE /\
    pf_ack_nr h = u16 (isn + k - 1) /\ t - 1025 <= k <= t /\ (forall o, 0 <= o < k -> o ∈ R) /\
    (pf_ext h = 0 /\ rest = [] \/
     pf_ext h = 1 /\ exists m, rest = [0; 4] ++ acks_bytes m /\
       forall i, 0 <= i < 32 -> Z.testbit m i = true -> k + 1 + i ∈ R).

Lemma says_data_next fin fin' D D' ack N N' q q' t d :
  fin_next N fin fin' -> N <= N' -> (forall o, final N q o -> D' o = D o /\ final N' q' o) ->
  says_data fin D ack N q t d -> says_data fin' D' ack N' q' t d.
Proof.
  intros Hfn Hn HD [Ht [(o & h & -> & Hh & Ho & Hf)|Hk]]; (split; [lia|]); [left|by right].
  destruct (HD o Hf) as [E1 Hf']. exists o, h. rewrite E1. split; [done|]. split; [|by split].
  destruct Hfn as [->|[-> ->]]; [done|]. destruct Hh as [H1 H2 H3 H4 H5]. split; try done.
  rewrite H2, !decide_False; [done|intros [= <-]; lia|done].
Qed.

Lemma says_ack_next R R' t d : R ⊆ R' -> says_ack R t d -> says_ack R' t d.
Proof.
  intros HR (h & rest & k & -> & Hw & Ht & Ha & Hk & Hg & He). exists h, rest, k.
  split_and!; try done; try lia; [intros o Ho; by apply HR, Hg|].
  destruct He as [He|(He & m & -> & Hm)]; [by left|right]. split; [done|]. exists m. split; [done|].
  intros i Hi Hb. by apply HR, Hm.
Qed.

(** a packet of the queue *)
Lemma ferried_says fin D ack N q q' d :
  packets_of fin N q -> on_stream D N q -> seq_nr q = u16 (isn + N) -> cur_window_packets q <= 1024 ->
  ferries q q' ack d -> is_u16 ack -> says_data fin D ack N q' N d.
Proof.
  intros Hl HD Hseq Hc (j & p & Hj & Hp & (h & [L1 L2 L3] & Ha & ->) & Ht) Hack.
  destruct (Hl j p Hj Hp) as [B1 B2 B3 B4]. split; [lia|]. left. exists (N - 1 - j), (norm_header h).
  split; [|split; [|split]].
  - by rewrite encode_norm, (HD j p).
  - assert (Et : pf_type (norm_header h) = flag fin (N - 1 - j)).
    { apply norm_type; [|unfold flag; by case_decide]. rewrite <- B2. unfold pf_type. by rewrite L1. }
    split; [apply norm_header_wf|exact Et|..]; cbn.
    + rewrite L2, B3. done.
    + rewrite L3, B4, Hseq. word_lia.
    + rewrite Ha. by apply u16_small.
  - lia.
  - split; [lia|]. replace (N - 1 - (N - 1 - j)) with j by lia. intros p' Hj' Hp'. apply (Ht p'); [lia|done].
Qed.

(** a keep-alive *)
Lemma alive_says fin D rq N q d :
  reorder_count rq = 0 -> acknowledges (last_heard rq) d -> says_data fin D (ack_nr rq) N q N d.
Proof.
  intros H0 (h & rest & -> & Hok & Ht & Ha & He). split; [lia|]. right. exists (norm_header h).
  replace (reorder_count (last_heard rq)) with (reorder_count rq) in He by by destruct rq.
  rewrite H0 in He. cbn [Z.eqb negb andb] in He. destruct He as [He ->].
  rewrite encode_norm. split_and!; [done|apply norm_header_wf|cbn; by rewrite He|by apply norm_type|].
  cbn. rewrite Ha. destruct rq. cbn. apply u16_u16.
Qed.

(** what a mask of a receive queue says is what arrived *)
Lemma acknowledges_says R k N q d :
  acknowledges q d -> u16 (ack_nr q) = u16 (isn + k - 1) -> N - 1025 <= k <= N ->
  (forall o, 0 <= o < k -> o ∈ R) ->
  (forall i, 0 <= i < 30 -> i <= Ring.mask (inbuf q) -> ring_get (inbuf q) (ack_nr q + i + 2) <> None -> k + 1 + i ∈ R) ->
  0 <= Ring.mask (inbuf q) -> says_ack R N d.
Proof.
  intros (h & rest & -> & Hok & Ht & Ha & He) Hn HN Hg Hm H0. exists (norm_header h), rest, k.
  rewrite encode_norm. split_and!; [done|apply norm_header_wf|by apply norm_type| |lia|lia|done|].
  { cbn. by rewrite Ha. }
  case_match; destruct He as [He ->]; [right|left; by cbn; rewrite He].
  split; [cbn; by rewrite He|]. eexists. split; [done|]. intros i Hi Hbit.
  rewrite eack_mask_bit in Hbit by (unfold ring_size; lia). unfold ring_size in Hbit.
  apply andb_true_iff in Hbit as [Hlt%Z.ltb_lt Hs%bool_decide_eq_true]. apply Hm; [lia..|done].
Qed.

(** what the reader acknowledges *)
Lemma acknowledged_says D fin R k N q d :
  recv_queue D isn fin R k q -> k ∉ R -> N - 1024 <= k <= N -> acknowledges q d -> says_ack R N d.
Proof.
  intros Hq Hk HN Ha. pose proof (rc_buf _ _ _ _ _ _ Hq) as Hb. pose proof (buffered_mask _ _ _ _ _ Hb) as Hm.
  apply (acknowledges_says R k N q); try done; [|lia|apply (bf_got _ _ _ _ _ Hb)| |lia].
  { rewrite (bf_ack _ _ _ _ _ Hb). apply u16_u16. }
  intros i Hi Hle Hs. pose proof (mask_bit_arrived D isn R k q i Hb Hk Hi) as Hbit.
  rewrite eack_mask_bit, (bool_decide_true (ring_get _ _ <> None)) in Hbit by (done || unfold ring_size; lia).
  rewrite (proj2 (Z.ltb_lt _ _)) in Hbit by (unfold ring_size; lia). symmetry in Hbit.
  by apply bool_decide_eq_true in Hbit.
Qed.

(** ... and with a keep-alive, which leaves out the last packet in order *)
Lemma kept_alive_says D fin R k N q d :
  recv_queue D isn fin R k q -> k ∉ R -> N - 1024 <= k <= N -> acknowledges (last_heard q) d -> says_ack R N d.
Proof.
  intros Hq Hk HN Ha. pose proof (rc_buf _ _ _ _ _ _ Hq) as Hb. pose proof (buffered_mask _ _ _ _ _ Hb) as Hm.
  assert (E1 : ack_nr (last_heard q) = u16 (isn + k - 2)).
  { transitivity (u16 (ack_nr q - 1)); [by destruct q|]. rewrite (bf_ack _ _ _ _ _ Hb). word_lia. }
  assert (E2 : inbuf (last_heard q) = inbuf q) by by destruct q.
  apply (acknowledges_says R (k - 1) N (last_heard q)); try done; rewrite ?E1, ?E2; [word_lia|lia| | |lia].
  { intros o Ho. apply (bf_got _ _ _ _ _ Hb). lia. }
  intros i Hi Hle Hs. rewrite (ring_get_cong _ _ (ack_nr q + 1 + i)) in Hs;
    [|apply (bf_ring _ _ _ _ _ Hb)|lia|rewrite (bf_ack _ _ _ _ _ Hb); word_lia].
  fold (islot q i) in Hs. rewrite (bf_slots _ _ _ _ _ Hb) in Hs by lia.
  replace (k - 1 + 1 + i) with (k + i) by lia. by case_decide.
Qed.

(** ... and at last *)
Lemma completed_says fin R N d :
  completes isn fin d -> fin = Some (N - 1) -> (forall o, 0 <= o < N -> o ∈ R) -> says_ack R N d.
Proof.
  intros (M & h & HM & -> & Hok & Ht & He & Ha) HN HR. rewrite HN in HM. injection HM as <-.
  exists (norm_header h), [], N. rewrite encode_norm.
  split_and!; [done|apply norm_header_wf|by apply norm_type| |lia|lia|done|left; by cbn; rewrite He].
  cbn. rewrite Ha, u16_u16. f_equal. lia.
Qed.

(** a packet is added to the queue, the first FIN *)
Lemma packets_grown n N q q' :
  sq_ok n q -> cur_window_packets q < 1024 -> packets_of None N q -> grown q q' -> ends_with ST_FIN [] q' ->
  packets_of (Some N) (N + 1) q'.
Proof.
  intros Hq Hc Hl [Hg (p & HK)] (p0 & b & Hp0 & Hl0 & _) j x Hj Hx. unfold flag.
  destruct (push_slot_slots n q p Hq Hc) as (_ & _ & Ec & _ & E0 & Es & _). cbn zeta in *.
  destruct (Z.eq_dec j 0) as [->|Hne].
  { rewrite decide_True by (f_equal; lia). rewrite Hp0 in Hx. by injection Hx as <-. }
  rewrite decide_False by (intros [= ?]; lia). pose proof (qk_slots _ _ HK j ltac:(lia)) as K.
  rewrite Hx in K. replace j with (j - 1 + 1) in K at 1 by lia. rewrite Es in K by lia.
  destruct (slot q (j - 1)) as [x0|] eqn:Hx0; [|done].
  destruct (Hl (j - 1) x0 ltac:(lia) Hx0) as [B1 B2 B3 B4].
  eapply (label_like _ (push_slot q p)); [apply HK|apply K|]. split; try done.
  rewrite B4. unfold push_slot. destruct q. cbn. word_lia.
Qed.

(** where the mask of an acknowledgement is *)
Lemma sack_position h m exts :
  pf_ext h = 1 ->
  skip_extensions (encode_header h ++ [0; 4] ++ acks_bytes m) h exts = ExtOk 26 (Some 22) exts.
Proof. intros He. unfold skip_extensions. rewrite He. reflexivity. Qed.

Lemma mask_bit_short m b : 0 <= b -> mask_bit (acks_bytes m) b = Some true -> 0 <= b < 32 /\ Z.testbit m b = true.
Proof.
  intros Hb Hm. destruct (Z.lt_ge_cases b 32) as [Hlt|Hge].
  - split; [lia|]. rewrite selective_ack_mask_roundtrip in Hm by lia. by injection Hm.
  - exfalso. revert Hm. unfold mask_bit. rewrite shiftr_div by lia. change (2 ^ 3) with 8.
    unfold rd. assert (4 <= b / 8) by dlia. rewrite (proj2 (Z.ltb_ge _ _)) by lia.
    by rewrite lookup_ge_None_2 by (cbn; lia).
Qed.

(** an acknowledgement that is not too old covers only packets that have arrived *)
Lemma says_ack_covers R N q t d exts pf j :
  says_ack R t d -> decode_header d = Some pf -> seq_nr q = u16 (isn + N) -> t <= N <= t + lifetime ->
  cur_window_packets q <= N -> 0 <= j < cur_window_packets q -> cur_window_packets q <= 1024 ->
  acked_by q exts d pf j -> N - 1 - j ∈ R.
Proof.
  unfold lifetime. intros (h & rest & k & -> & Hw & Hty & Ha & Hk & Hg & Hr) Hd Hseq HN Hcn Hj Hc.
  rewrite decode_encode in Hd by done. injection Hd as <-. intros [Hf|(p & len & Hsp & _ & b & [Hb _] & Hm & Hs)].
  - apply Hg. revert Hf. unfold acked_front, acks_of. rewrite Ha, Hseq.
    replace (u16 (u16 (isn + k - 1) - (u16 (isn + N) - 1 - cur_window_packets q)))
      with (u16 (k - (N - cur_window_packets q))) by word_lia.
    destruct (Z.ltb_spec (cur_window_packets q) (u16 (k - (N - cur_window_packets q)))) as [|Hle]; [lia|].
    revert Hle. word_lia.
  - destruct Hr as [[He ->]|(He & m & -> & Hbits)].
    { unfold skip_extensions in Hsp. by rewrite He in Hsp. }
    rewrite (sack_position h m exts He) in Hsp. injection Hsp as <-.
    change (drop (Z.to_nat 22) _) with (acks_bytes m) in Hm.
    destruct (mask_bit_short m b Hb Hm) as [H32 Hbit]. specialize (Hbits b H32 Hbit).
    replace (N - 1 - j) with (k + 1 + b); [done|]. revert Hs. rewrite Ha, Hseq. word_lia.
Qed.
End Said.
