(* ===== verification/Session.v ===== *)
(** * A session over an unreliable network

    The two ends of Link.v together: whatever the network does to the datagrams,
    what the reader's application has been given is a prefix of what the writer's
    application has written, and once the send queue is empty it is all of it; the
    end of the stream is told last. *)
From S2P Require Import Prelude Wrap Packet Ring Delay DelayAvg Arrays SockAddr Hash Context AckList Socket Frame.
From S2P Require Import MtuSearch Send SendQueue SendInv Flush Streams WriteQueue Reorder Ack Ccontrol Incoming.
From S2P Require Import AckQueue Timeouts Api States Receive TimerInv RecvInv IncomingSafe OneWay Writev SockOps.
From S2P Require Import Demo RecvSpec EndToEnd SackSpec CloseSpec Link Finish Listener Said.

(** ** Past the handshake *)
Definition past_handshake (s : CONN_STATE) : Prop :=
  s <> CS_UNINITIALIZED /\ s <> CS_IDLE /\ s <> CS_SYN_SENT.

Lemma past_path s t : st_path s t -> past_handshake s -> past_handshake t.
Proof.
  induction 1 as [|s s' t Hs _ IH]; [done|]. intros (H1 & H2 & H3). apply IH. by destruct Hs.
Qed.

Section Session.
Context {E : Env} {HA : GoodApp}.
Context (isn n0 m0 r0 : Z) (p0 : ptr) (reads0 : list Z).

(** the writer, with [N] packets queued so far, [fin] the FIN, and [i] steps taken *)
Record writes (fin : option Z) (D : Z -> list Z) (N i : Z) (s : St) : Prop := {
  ws_ok : sock_ok (n0 + 6 * i) (m0 + i) s;
  ws_fin : fin_sent (me s) = bool_decide (is_Some fin);
  ws_end : forall M, fin = Some M -> N = M + 1;
  ws_past : past_handshake (state (me s));
  ws_seq : seq_nr (sq (me s)) = u16 (isn + N);
  ws_count : cur_window_packets (sq (me s)) <= N;
  ws_label : packets_of fin N (sq (me s));
  ws_data : on_stream D N (sq (me s));
  ws_reorder : reorder_count (rq (me s)) = 0;
}.

(** the reader, which has the packets in [R] and has handed on those before [k] *)
Record reads_on (fin : option Z) (D : Z -> list Z) (R : gset Z) (k i : Z) (s : St) : Prop := {
  ro_listen : listening D isn fin (r0 + i) R k s;
  ro_this : this (me s) = p0;
  ro_read : reads p0 (trace (st_sys s)) = reads0 ++ stream_data D 0 k;
}.

Record session (fin : option Z) (D : Z -> list Z) (R : gset Z) (k i : Z) (w : Net) : Prop := {
  sn_writes : writes fin D (total w) i (tx w);
  sn_reads : reads_on fin D R k i (rx w);
  sn_ack : ack_nr (rq (me (tx w))) = last_sent (rx w);
  sn_written : written w = stream_data D 0 (total w);
  sn_arrived : forall o, o ∈ R -> 0 <= o /\ final (total w) (sq (me (tx w))) o;
  sn_kept : forall o, 0 <= o < total w -> o ∈ R \/ waits (total w) (sq (me (tx w))) o;
  sn_data : forall t d, (t, d) ∈ to_rx w ->
    says_data isn fin D (last_sent (rx w)) (total w) (sq (me (tx w))) t d;
  sn_acks : forall t d, (t, d) ∈ to_tx w -> t <= total w /\ says_ack isn R t d;
}.

Lemma session_window fin D R k i w :
  session fin D R k i w -> 0 <= k <= total w /\ total w - 1024 <= k /\ (k ∉ R) /\ (forall o, 0 <= o < k -> o ∈ R).
Proof.
  intros [Hw [Hl _ _] _ _ Ha Hk _ _]. pose proof (ls_next _ _ _ _ _ _ _ Hl) as Hn.
  pose proof (rc_buf _ _ _ _ _ _ (rc_queue _ _ _ _ _ _ (ls_recv _ _ _ _ _ _ _ Hl))) as Hb.
  pose proof (bf_start _ _ _ _ _ Hb) as H0. pose proof (bf_got _ _ _ _ _ Hb) as Hg.
  pose proof (so_count _ _ (cs_sq _ _ (sk_send _ _ _ (ws_ok _ _ _ _ _ Hw)))) as Hc.
  assert (Hle : k <= total w).
  { destruct (Z.le_gt_cases k (total w)) as [|Hlt]; [done|].
    destruct (Ha (total w) (Hg (total w) ltac:(pose proof (ws_count _ _ _ _ _ Hw); lia))) as [_ [? _]]. lia. }
  split_and!; try done. destruct (Z.lt_ge_cases k (total w)) as [Hlt|]; [|lia].
  destruct (Hk k ltac:(lia)) as [|(p & Hj & _)]; [done|lia].
Qed.

(** the bytes of packets that have arrived may be looked up in a later stream *)
Lemma reads_on_data fin fin' D D' N R k i s :
  0 <= N -> fin_next N fin fin' -> (forall o, o ∈ R -> o < N) -> (forall o, o ∈ R -> D' o = D o) ->
  reads_on fin D R k i s -> reads_on fin' D' R k i s.
Proof.
  intros HN Hfin HR HD [[[Hs Hc [Hb Ho Hf Hr Hl Hno]] Hn He Hfi Hp] Ht Hrd].
  pose proof (bf_got _ _ _ _ _ Hb) as Hg.
  assert (Hb' : buffered D' isn R k (rq (me s))) by by apply (buffered_data D).
  split; [|done|].
  - destruct Hfin as [->|[-> ->]]; [by split; try done; split|].
    assert (Hgf : got_fin (rq (me s)) = true -> False) by by intros (M & ? & _)%Hf.
    split; try done; [|by intros ?%Hgf|by intros ?%Hgf]. split; try done. split; try done.
    + by intros [?%Hgf _]%Hr.
    + intros M [= <-]. split; [done|]. intros o ?%HR. lia.
    + intros M [= <-] ?%HR. lia.
  - rewrite Hrd. f_equal. symmetry. apply stream_data_ext. intros o Hok. by apply HD, Hg.
Qed.

Lemma reads_on_step fin D R k i s : reads_on fin D R k i s -> reads_on fin D R k (i + 1) s.
Proof.
  intros [[Hs Hn He Hfi Hp] Ht Hrd]. split; [|done..]. split; try done. eapply passive_mono; [|exact Hp]. lia.
Qed.

Lemma writes_step fin D N i s : writes fin D N i s -> writes fin D N (i + 1) s.
Proof. intros []. split; try done. eapply sock_ok_mono; [| |done]; lia. Qed.

Lemma elem_of_stamped t d t0 l : ((t, d) ∈ stamped_with t0 l) <-> (t = t0 /\ d ∈ l).
Proof.
  unfold stamped_with. rewrite list_elem_of_fmap. split.
  - by intros (x & [= -> ->] & Hx).
  - intros [-> Hd]. by exists d.
Qed.

(** ** The writer's steps *)

(** what a step of the writer has to keep *)
Record moves (fin fin' : option Z) (D D' : Z -> list Z) (N N' : Z) (R : gset Z) (ack : Z) (bs : list Z) (s s' : St) : Prop := {
  mv_fin : fin_next N fin fin';
  mv_more : N <= N';
  mv_ack : ack_nr (rq (me s')) = ack_nr (rq (me s));
  mv_final : forall o, final N (sq (me s)) o -> D' o = D o /\ final N' (sq (me s')) o;
  mv_waits : forall o, waits N (sq (me s)) o -> o ∈ R \/ waits N' (sq (me s')) o;
  mv_new : forall o, N <= o < N' -> waits N' (sq (me s')) o;
  mv_bytes : stream_data D' 0 N' = stream_data D 0 N ++ bs;
  mv_sent : forall d, d ∈ new_datagrams (st_sys s) (st_sys s') -> says_data isn fin' D' ack N' (sq (me s')) N' d;
}.

Lemma session_tx fin fin' D D' R k i w s' bs :
  session fin D R k i w -> let N' := total w + queued_since (tx w) s' in
  writes fin' D' N' (i + 1) s' -> moves fin fin' D D' (total w) N' R (last_sent (rx w)) bs (tx w) s' ->
  session fin' D' R k (i + 1) (after_tx w s' bs).
Proof.
  intros Hs N' Hw [M0 M1 M2 M3 M4 M5 M6 M7]. pose proof (session_window _ _ _ _ _ _ Hs) as (H0 & _).
  pose proof Hs as [W Hr Ha Hwr Har Hk Hd Hak].
  assert (HD : forall o, o ∈ R -> D' o = D o) by (intros o Ho; by apply M3, Har).
  split; cbn [tx rx total written to_rx to_tx after_tx]; fold N'; try done.
  - eapply reads_on_step, (reads_on_data fin _ D _ (total w)); try done; [lia|]. intros o Ho. apply Har, Ho.
  - congruence.
  - by rewrite M6, Hwr.
  - intros o Ho. destruct (Har o Ho) as [Ho0 Hf]. split; [done|]. by apply M3.
  - intros o Ho. destruct (Z.lt_ge_cases o (total w)); [|right; apply M5; lia].
    destruct (Hk o ltac:(lia)) as [|Hwo]; [by left|]. by apply M4.
  - intros t d. rewrite elem_of_app, elem_of_stamped. intros [[-> Hin]|Hin]; [by apply M7|].
    eapply says_data_next; [exact M0|exact M1|exact M3|by apply Hd].
  - intros t d Hin. destruct (Hak t d Hin). split; [lia|done].
Qed.

(** one step, whatever bytes it accepts *)
Definition tx_step fin D N R i (s : St) (bs : list Z) (s' : St) : Prop :=
  exists fin' D', let N' := N + queued_since s s' in
    writes fin' D' N' (i + 1) s' /\ moves fin fin' D D' N N' R (ack_nr (rq (me s))) bs s s'.

(** a step that queues nothing *)
Lemma tx_step_descends fin D N R i s s' :
  writes fin D N i s -> sock_ok (n0 + 6 * (i + 1)) (m0 + (i + 1)) s' ->
  past_handshake (state (me s')) -> fin_sent (me s') = fin_sent (me s) ->
  same_acks (me s) (me s') -> descends (sq (me s)) (sq (me s')) ->
  (forall o, waits N (sq (me s)) o -> o ∈ R \/ waits N (sq (me s')) o) ->
  (forall d, d ∈ new_datagrams (st_sys s) (st_sys s') ->
     says_data isn fin D (ack_nr (rq (me s))) N (sq (me s')) N d) ->
  tx_step fin D N R i s [] s'.
Proof.
  intros Hw Hok Hp Hf [Ea Eo] Hd Hwait Hsent. destruct Hw as [W1 W2 We W3 W4 W5 W6 W7 W8].
  exists fin, D. assert (En : N + queued_since s s' = N).
  { unfold queued_since. rewrite (de_seq _ _ Hd), Z.sub_diag. change (u16 0) with 0. lia. }
  cbn zeta. rewrite En. pose proof (de_count _ _ Hd). split.
  - split; try done; try congruence.
    + by rewrite (de_seq _ _ Hd).
    + lia.
    + intros j p' Hj Hp'. destruct (de_left _ _ Hd j p' Hj Hp') as (p & Hp0 & [_ Hl _]).
      eapply label_like; [by apply Hd|exact Hl|]. apply W6; [lia|done].
    + by eapply descends_stream.
  - split; try done; try lia.
    + by left.
    + intros o Ho. split; [done|]. by eapply descends_final.
    + by rewrite app_nil_r.
Qed.

Lemma same_acks_exts c c' e : rq c' = (rq c) <| extensions := e |> -> same_acks c c'.
Proof. unfold same_acks. intros ->. by destruct (rq c). Qed.

Lemma kept_seq q q' N :
  is_u16 (seq_nr q') -> cur_window_packets q <= cur_window_packets q' <= 1024 -> 0 <= cur_window_packets q ->
  first_seq q' = first_seq q -> seq_nr q = u16 (isn + N) ->
  u16 (seq_nr q' - seq_nr q) = cur_window_packets q' - cur_window_packets q /\
  seq_nr q' = u16 (isn + (N + (cur_window_packets q' - cur_window_packets q))).
Proof.
  unfold first_seq. intros Hq' Hc H0 Hf Hs.
  assert (E1 : seq_nr q' = u16 (u16 (seq_nr q' - cur_window_packets q') + cur_window_packets q'))
    by (revert Hq'; word_lia).
  assert (E2 : seq_nr q' = u16 (isn + (N + (cur_window_packets q' - cur_window_packets q)))).
  { rewrite E1, Hf, Hs. word_lia. }
  split; [|done]. rewrite E2, Hs. revert Hc H0. clear. word_lia.
Qed.

Lemma packets_open N q : packets_of None N q <-> labelled ST_DATA q.
Proof.
  unfold packets_of, labelled, flag. by split; intros H j p Hj Hp; specialize (H j p Hj Hp);
    rewrite decide_False in * by done.
Qed.

(** a step that queues some *)
Lemma tx_step_streams fin fin' D N R i bs s s' :
  let N' := N + (cur_window_packets (sq (me s')) - cur_window_packets (sq (me s))) in
  writes fin D N i s -> sock_ok (n0 + 6 * (i + 1)) (m0 + (i + 1)) s' ->
  past_handshake (state (me s')) -> fin_sent (me s') = bool_decide (is_Some fin') ->
  same_acks (me s) (me s') -> fin_next N fin fin' -> (forall M, fin' = Some M -> N' = M + 1) ->
  packets_of fin' N' (sq (me s')) -> first_seq (sq (me s')) = first_seq (sq (me s)) ->
  streams bs (sq (me s)) (sq (me s')) ->
  traced (sends_only (carries (sq (me s')) (ack_nr (rq (me s))))) (st_sys s) (st_sys s') ->
  tx_step fin D N R i s bs s'.
Proof.
  intros N' Hw Hok Hp Hf [Ea Eo] Hfin Hend Hl Hfirst [S1 S2 S3 S4] Hsent.
  destruct Hw as [W1 W2 We W3 W4 W5 W6 W7 W8].
  pose proof (so_count _ _ (cs_sq _ _ (sk_send _ _ _ W1))) as Hc.
  pose proof (cs_sq _ _ (sk_send _ _ _ Hok)) as Hq'. pose proof (so_count _ _ Hq') as Hc'.
  destruct (kept_seq (sq (me s)) (sq (me s')) N) as [E1 E2]; try done; try lia; [apply Hq'|].
  destruct (S4 D N ltac:(lia) W7) as (D' & H1 & H2 & H3). cbn zeta in *.
  assert (EN : forall x, x + cur_window_packets (sq (me s')) - cur_window_packets (sq (me s)) =
    x + (cur_window_packets (sq (me s')) - cur_window_packets (sq (me s)))) by (intros; lia).
  exists fin', D'. unfold queued_since. cbn zeta. rewrite E1. rewrite EN in *. fold N' in H1, H2, H3 |- *.
  split.
  - split; try done; try congruence. lia.
  - split; try done.
    + lia.
    + intros o Ho. right. specialize (S2 N o Ho). by rewrite EN in S2.
    + intros o Ho. specialize (S3 N o). rewrite EN in S3. apply S3. lia.
    + eapply new_datagrams_traced, Hsent. intros p d a fl [_ Hd].
      apply (ferried_says isn fin' D' _ N' (sq (me s'))); [done|done|done|lia| |].
      * apply carries_ferries, Hd. apply queue_kept_refl.
      * apply (rs_ack _ (sk_recv _ _ _ W1)).
Qed.

(** nothing happens *)
Lemma tx_step_same fin D N R i s : writes fin D N i s -> tx_step fin D N R i s [] s.
Proof.
  intros Hw. pose proof (writes_step _ _ _ _ _ Hw) as [H1 _ _ H2 _ _ _ _ _].
  apply (tx_step_descends fin D); try done; [apply descends_refl|by right|].
  intros d. unfold new_datagrams. by rewrite Nat.sub_diag, take_0, elem_of_nil.
Qed.

(** the application writes *)
Lemma wp_write_step fin D N R i iovs s :
  writes fin D N i s -> iovs <> [] -> state (me s) = CS_CONNECTED ->
  1 <= n0 -> 0 <= i -> n0 + 6 * i + 6 < 2147483648 ->
  wp (fun _ => False) (utp_writev iovs)
    (fun k s' => tx_step fin D N R i s (take (Z.to_nat k) (iov_data iovs)) s') s.
Proof.
  intros Hw Hne Hst Hn0 Hi Hn. pose proof Hw as [W1 W2 We W3 W4 W5 W6 W7 W8].
  pose proof (sock_ok_sender _ _ _ W1 ltac:(lia)) as Hsn. destruct fin as [M|].
  { destruct s as [c y]. cbn [me] in *. unfold utp_writev. rewrite (bool_decide_false (iovs = [])) by done.
    wp_step. apply wp_assert; [intros _|done]. wp_step. wp_step. rewrite Hst, W2. cbn. by apply tx_step_same. }
  eapply wp_mono.
  { apply wp_strengthen; [by apply (wp_utp_writev _ (n0 + 6 * i) iovs s)|exact (within_utp_writev iovs s)]. }
  intros k s' [(Hk & Hsn' & _ & Hss & _ & Hfr & Hst') Hpath]. cbn beta in *.
  apply (tx_step_streams None None); try done.
  - apply (sock_ok_mono (n0 + 6 * i) _ (m0 + i)); [lia..|].
    by apply (su_ok _ _ s), write_frame_survives.
  - by eapply past_path.
  - pose proof (wf_ident _ _ Hfr) as [= _ _ ->]. done.
  - unfold same_acks. by rewrite (wf_rq _ _ Hfr).
  - by left.
  - apply packets_open, (wf_label _ _ Hfr). by apply (packets_open N).
  - apply (wf_seq _ _ Hfr).
  - apply (wf_sent _ _ Hfr).
Qed.

(** the application closes *)
Lemma tx_step_effect fin D N R i s s' :
  writes fin D N i s -> 0 <= i -> survives (n0 + 6 * i) (m0 + i) s s' ->
  idle s s' \/ ended (n0 + 6 * i) s s' -> tx_step fin D N R i s [] s'.
Proof.
  intros Hw Hi HV [[Q F A S Y]|[F1 F2 A S (c & Ec & [Aa _] & Hwr)]].
  - pose proof Hw as [W1 W2 We W3 W4 W5 W6 W7 W8]. apply (tx_step_descends fin D); try done.
    + eapply sock_ok_mono; [| |apply HV]; lia.
    + destruct S as [->| ->]; [done|by split].
    + rewrite Q. apply descends_refl.
    + rewrite Q. by right.
    + eapply new_datagrams_traced, traced_next, Y. by intros ? ? ? ? [_ []].
  - pose proof Hw as [W1 W2 We W3 W4 W5 W6 W7 W8]. rewrite F1 in W2. destruct fin as [M|]; [done|].
    pose proof (sk_room _ _ _ W1 F1) as Hroom. pose proof (wr_grows _ _ _ _ _ Hwr eq_refl) as Hg.
    pose proof (cs_sq _ _ (sk_send _ _ _ W1)) as Hq. cbn [me] in Hg. rewrite Ec in Hg.
    assert (EN : N + (cur_window_packets (sq (me s')) - cur_window_packets (sq (me s))) = N + 1)
      by (rewrite (proj1 Hg); lia).
    apply (tx_step_streams None (Some N)); rewrite ?EN; try done.
    + eapply sock_ok_mono; [| |apply HV]; lia.
    + by rewrite S.
    + by right.
    + by intros M [= ->].
    + apply (packets_grown (n0 + 6 * i) N (sq (me s))); try done; [lia|].
      apply (wr_last _ _ _ _ _ Hwr). cbn [me]. rewrite Ec. apply Hg.
    + rewrite (wr_first _ _ _ _ _ Hwr). cbn [me]. by rewrite Ec.
    + rewrite <- Ec. apply (wr_stream _ _ _ _ _ Hwr).
    + rewrite <- Aa. apply traced_next, (wr_sent _ _ _ _ _ Hwr).
Qed.

Lemma wp_close_step fin D N R i s :
  writes fin D N i s -> closable (state (me s)) = true -> 1 <= n0 -> 0 <= i -> n0 + 6 * i + 6 < 2147483648 ->
  wp (fun _ => False) utp_close (fun _ => tx_step fin D N R i s []) s.
Proof.
  intros Hw Hc Hn0 Hi Hn. destruct s as [c y]. eapply wp_mono.
  { apply wp_strengthen; [apply (wp_utp_close_ok _ (n0 + 6 * i) (m0 + i))|
      apply (wp_utp_close_effect _ (n0 + 6 * i) (m0 + i))]; try done; try apply Hw; lia. }
  intros _ s' [V He]. by apply tx_step_effect.
Qed.

Lemma wp_shutdown_step fin D N R i how s :
  writes fin D N i s -> closable (state (me s)) = true -> 1 <= n0 -> 0 <= i -> n0 + 6 * i + 6 < 2147483648 ->
  wp (fun _ => False) (utp_shutdown how) (fun _ => tx_step fin D N R i s []) s.
Proof.
  intros Hw Hc Hn0 Hi Hn. destruct s as [c y]. eapply wp_mono.
  { apply wp_strengthen; [apply (wp_utp_shutdown_ok _ (n0 + 6 * i) (m0 + i))|
      apply (wp_utp_shutdown_effect _ (n0 + 6 * i) (m0 + i))]; try done; try apply Hw; lia. }
  intros _ s' [V He]. by apply tx_step_effect.
Qed.

(** the sender's clock *)
Lemma wp_clock_step fin D N R i ms s :
  writes fin D N i s -> 0 <= i ->
  wp (fun _ => False) (mod_ctx (fun c => c <| current_ms := ms |>)) (fun _ => tx_step fin D N R i s []) s.
Proof.
  intros Hw Hi. destruct s as [c y]. wp_steps. pose proof Hw as [W1 W2 We W3 W4 W5 W6 W7 W8].
  apply (tx_step_descends fin D); cbn [me st_sys] in *; try done.
  - eapply (sock_ok_mono (n0 + 6 * i) _ (m0 + i)); [lia..|]. eapply sock_ok_sys; [|exact W1].
    eapply sys_kept_ok; [apply sys_kept_ctx; by intros []|apply W1].
  - apply descends_refl.
  - by right.
  - intros d. unfold new_datagrams. destruct y. cbn. by rewrite Nat.sub_diag, take_0, elem_of_nil.
Qed.

(** the sender's timers *)
Lemma wp_timer_step fin D N R i s :
  writes fin D N i s -> 1 <= n0 -> 0 <= i -> n0 + 6 * i + 6 < 2147483648 ->
  wp (fun _ => False) check_timeouts (fun _ => tx_step fin D N R i s []) s.
Proof.
  intros Hw Hn0 Hi Hn. destruct s as [c y]. pose proof Hw as [W1 W2 We W3 W4 W5 W6 W7 W8].
  eapply wp_mono.
  { apply wp_strengthen; [apply (wp_check_timeouts_ok _ (n0 + 6 * i) (m0 + i)); [done|lia..]|].
    exact (within_check_timeouts (mkSt c y)). }
  intros _ s' [[V [T1 T2 T3 T4]] Hpath]. cbn beta in *. pose proof (um_descends _ _ T3) as Hd.
  apply (tx_step_descends fin D); try done.
  - eapply sock_ok_mono; [| |apply V]; lia.
  - by eapply past_path.
  - by injection T2.
  - unfold same_acks. by rewrite T1.
  - intros o (p & Hj & Hp). right. destruct (um_stay _ _ T3 _ p Hj Hp) as [p' Hp'].
    exists p'. by rewrite (um_count _ _ T3).
  - eapply new_datagrams_traced, traced_next, T4. intros _ bs _ _ [_ [Hf|Ha]].
    + apply (ferried_says isn fin D _ N (sq c)); try done; [|apply (rs_ack _ (sk_recv _ _ _ W1))].
      apply (so_count _ _ (cs_sq _ _ (sk_send _ _ _ W1))).
    + by apply alive_says.
Qed.

(** an acknowledgement as a packet *)
Lemma says_ack_packet R t d :
  says_ack isn R t d ->
  Forall is_u8 d /\ sizeof_PacketFormatV1 <= Z.of_nat (length d) < 2147483648 /\
  forall pf, decode_header d = Some pf -> pf_type pf = ST_STATE.
Proof.
  intros (h & rest & k & -> & Hw & Ht & _ & _ & _ & He).
  assert (Hr : Forall is_u8 rest /\ (length rest <= 6)%nat).
  { destruct He as [[_ ->]|(_ & m & -> & _)]; [split; [constructor|cbn; lia]|].
    split; [|cbn; lia]. repeat constructor; try done; apply u8_range. }
  split; [|split].
  - apply Forall_app. split; [|apply Hr]. repeat constructor; apply u8_range.
  - rewrite length_app. change (length (encode_header h)) with 20%nat.
    change sizeof_PacketFormatV1 with 20. lia.
  - intros pf. rewrite decode_encode by done. by intros [= <-].
Qed.

(** the writer hears an acknowledgement *)
Lemma wp_return_step fin D N R i t d s :
  writes fin D N i s -> says_ack isn R t d -> t <= N <= t + lifetime ->
  0 <= i -> n0 + 6 * i + 6 < 2147483648 -> m0 + i < INT_MAX ->
  wp incoming_fault (utp_process_incoming d false) (fun _ => tx_step fin D N R i s []) s.
Proof.
  intros Hw Ha HN Hi Hn Hm. destruct s as [c y]. pose proof Hw as [W1 W2 We W3 W4 W5 W6 W7 W8].
  cbn [me st_sys] in *. destruct (says_ack_packet R t d Ha) as (Hb & Hlen & Hty).
  eapply wp_mono.
  { apply wp_strengthen; [|exact (within_process_incoming d false (mkSt c y))].
    apply (wp_incoming_any incoming_fault ltac:(done) (n0 + 6 * i) (m0 + i)); try done.
    intros pf Hd. by rewrite (Hty pf Hd). }
  intros _ s' [(pf & Hd & P & Hans) Hpath]. cbn beta in *.
  destruct (Hans (Hty pf Hd)) as [Er Hleft Hsent]; [by destruct W3 as (_ & _ & ?)|].
  pose proof (so_count _ _ (cs_sq _ _ (sk_send _ _ _ W1))) as Hc. cbn [me] in *.
  apply (tx_step_descends fin D); try done.
  - eapply sock_ok_mono; [| |apply P]; lia.
  - by eapply past_path.
  - by injection (pr_ident _ _ _ _ _ P).
  - destruct Er as [e Er]. by eapply same_acks_exts.
  - intros o (p & Hj & Hp). cbn [me] in *.
    destruct (tm_gone _ _ _ (pr_trim _ _ _ _ _ P) _ p Hj Hp) as [Hcov|[Hj' Hp']].
    + left. pose proof (says_ack_covers isn R N (sq c) t d _ pf _ Ha Hd W4 HN W5 Hj ltac:(lia) Hcov) as Hin.
      by replace o with (N - 1 - (N - 1 - o)) by lia.
    + right. cbn [me] in Hp'. destruct (slot (sq (me s')) (N - 1 - o)) as [p'|] eqn:E'; [|done].
      exists p'. split; [lia|done].
  - eapply new_datagrams_traced, Hsent. intros _ bs _ _ [_ Hf].
    apply (ferried_says isn fin D _ N (sq c)); try done; [lia|apply (rs_ack _ (sk_recv _ _ _ W1))].
Qed.

(** ** The reader's steps *)

(** one step: packets that were [sent] may have arrived, and acknowledgements of those that have *)
Definition rx_step (fin : option Z) (D : Z -> list Z) (N : Z) (R : gset Z) (i : Z) (sent : Z -> Prop) (s s' : St) : Prop :=
  exists R' k', reads_on fin D R' k' (i + 1) s' /\ last_sent s' = last_sent s /\ R ⊆ R' /\
    (forall o, o ∈ R' -> o ∈ R \/ 0 <= o /\ sent o) /\
    forall d, d ∈ new_datagrams (st_sys s) (st_sys s') -> says_ack isn R' N d.

Lemma session_rx fin D R k i w r' :
  session fin D R k i w -> rx_step fin D (total w) R i (final (total w) (sq (me (tx w)))) (rx w) r' ->
  exists R' k', session fin D R' k' (i + 1) (after_rx w r').
Proof.
  intros [Hw Hr Ha Hwr Har Hk Hd Hak] (R' & k' & Hr' & El & HR & Hnew & Hsent). exists R', k'.
  split; cbn [tx rx total written to_rx to_tx after_rx]; try done.
  - by apply writes_step.
  - congruence.
  - intros o [Ho|Ho]%Hnew; [by apply Har|done].
  - intros o Ho. destruct (Hk o Ho); [left; by apply HR|by right].
  - intros t d. rewrite El. apply Hd.
  - intros t d. rewrite elem_of_app, elem_of_stamped. intros [[-> Hin]|Hin]; [split; [lia|by apply Hsent]|].
    destruct (Hak t d Hin). split; [done|by eapply says_ack_next].
Qed.

(** the reader answers at once only when the stream ends *)
Lemma listened_step fin D N R R' k k' i sent s s' :
  (forall M, fin = Some M -> N = M + 1) ->
  reads_on fin D R k i s -> listening D isn fin (r0 + i + 1) R' k' s' ->
  listened isn fin (stream_data D k k') s s' -> 0 <= k <= k' -> R ⊆ R' ->
  (forall o, o ∈ R' -> o ∈ R \/ 0 <= o /\ sent o) -> rx_step fin D N R i sent s s'.
Proof.
  intros Hend [Hl Ht Hrd] Hl' [L1 _ L2 L3 L4] Hk HR Hnew. exists R', k'. split_and!; try done.
  - split; [by replace (r0 + (i + 1)) with (r0 + i + 1) by lia|congruence|].
    rewrite Ht in L4. by rewrite L4, Hrd, <- (assoc_L (++)), stream_data_app by lia.
  - unfold last_sent. by rewrite L3.
  - pose proof (rc_queue _ _ _ _ _ _ (ls_recv _ _ _ _ _ _ _ Hl')) as Hq.
    eapply new_datagrams_traced, L1. intros _ d _ _ [Hgr Hd].
    destruct (rc_reached _ _ _ _ _ _ Hq Hgr) as [_ Hf]. pose proof (Hend _ Hf) as EN.
    replace (k' - 1) with (N - 1) in Hf by lia. apply (completed_says isn fin); [done|done|].
    intros o Ho. apply (bf_got _ _ _ _ _ (rc_buf _ _ _ _ _ _ Hq)). lia.
Qed.

(** a datagram of the writer reaches the reader *)
Lemma wp_deliver_step fin D N R k i q t d s :
  (forall M, fin = Some M -> N = M + 1) ->
  reads_on fin D R k i s -> says_data isn fin D (last_sent s) N q t d ->
  0 <= k <= N -> N - 1024 <= k -> N <= t + lifetime -> r0 + i < INT_MAX ->
  wp (fun _ => False) (utp_process_incoming d false) (fun _ => rx_step fin D N R i (final N q) s) s.
Proof.
  unfold lifetime. intros Hend Hr [Ht Hd] Hk HNk HN Hi. pose proof Hr as [Hl _ Hrd].
  destruct Hd as [(o & h & -> & Hh & Ho & Hf)|(h & -> & Hwf & Hext & Hty & Hack)].
  - eapply wp_mono.
    { apply (wp_incoming (fun _ => False) D isn fin (r0 + i) R k h o s); try done; [lia|].
      intros M ->%Hend. lia. }
    intros _ s' (k' & Hl' & Hle & _ & L). eapply listened_step; [exact Hend|exact Hr|exact Hl'|exact L|lia|..].
    + unfold arrived. case_match; set_solver.
    + intros x. unfold arrived. case_match eqn:Hc; [|by left]. rewrite elem_of_union, elem_of_singleton.
      intros [->|]; [right|by left]. apply andb_true_iff in Hc as [[Hc%Z.leb_le _]%andb_true_iff _].
      split; [lia|done].
  - eapply wp_mono.
    { apply (wp_incoming_state (fun _ => False) D isn fin (r0 + i) R k h s); try done.
      exists 1. split; [lia|]. rewrite Hack. unfold last_sent. word_lia. }
    intros _ s' [Hl' L]. eapply (listened_step fin D N R R k k); [done|done|done| |lia|done|by left].
    by rewrite stream_data_refl.
Qed.

(** what the reader does on its own, in which it sends acknowledgements only *)
Lemma wp_rested_step {A} (m : M St A) ok fin D N R k i sent s :
  reads_on fin D R k i s -> N - 1024 <= k <= N -> (forall d, ok d -> says_ack isn R N d) ->
  wp (fun _ => False) m (fun _ s' => rested (r0 + i) ok s s') s ->
  wp (fun _ => False) m (fun _ => rx_step fin D N R i sent s) s.
Proof.
  intros [Hl Ht Hrd] HN Hok Hm. eapply wp_mono; [exact Hm|]. intros x s' H.
  pose proof H as [E1 E2 E3 _ _ _ Hsent]. exists R, k.
  split_and!; [|by unfold last_sent; rewrite E3|done|by left|].
  - apply reads_on_step. split; [by apply (rested_listening _ _ _ ok _ _ _ s)|by rewrite E1|].
    by rewrite (rested_reads _ _ _ _ _ H).
  - eapply new_datagrams_traced, Hsent. intros _ d _ _ [_ Hd]. by apply Hok.
Qed.

Lemma reads_on_ready fin D R k i c y :
  reads_on fin D R k i (mkSt c y) -> sys_ok (this c) y /\ rq_safe (rq c) /\ passive (r0 + i) c.
Proof.
  intros [[[Hs _ Hq] Hn _ _ Hp] _ _]. split_and!; try done.
  by eapply buffered_safe; [apply (rc_buf _ _ _ _ _ _ Hq)|].
Qed.

(** the reader acknowledges *)
Lemma wp_acknowledge_step fin D N R k i sent s :
  reads_on fin D R k i s -> N - 1024 <= k <= N ->
  wp (fun _ => False) (send_ack false) (fun _ => rx_step fin D N R i sent s) s.
Proof.
  intros Hr HN. destruct s as [c y]. destruct (reads_on_ready _ _ _ _ _ _ _ Hr) as (Hs & Hq & _).
  eapply (wp_rested_step _ _ fin D N R k); [exact Hr|done| |by apply wp_send_ack_rested].
  intros d. eapply (acknowledged_says isn D fin); apply Hr || done.
Qed.

(** its application has read *)
Lemma wp_drained_step fin D N R k i sent s :
  reads_on fin D R k i s -> N - 1024 <= k <= N ->
  wp (fun _ => False) utp_read_drained (fun _ => rx_step fin D N R i sent s) s.
Proof.
  intros Hr HN. destruct s as [c y]. destruct (reads_on_ready _ _ _ _ _ _ _ Hr) as (Hs & Hq & Hp).
  eapply (wp_rested_step _ _ fin D N R k); [exact Hr|done| |apply wp_utp_read_drained_rested; try done].
  - intros d. eapply (acknowledged_says isn D fin); apply Hr || done.
  - intros He. pose proof (pv_conn _ _ Hp) as Hc. by rewrite He in Hc.
Qed.

(** its timers *)
Lemma wp_reader_timer_step fin D N R k i sent s :
  reads_on fin D R k i s -> N - 1024 <= k <= N ->
  wp (fun _ => False) check_timeouts (fun _ => rx_step fin D N R i sent s) s.
Proof.
  intros Hr HN. destruct s as [c y]. destruct (reads_on_ready _ _ _ _ _ _ _ Hr) as (Hs & Hq & Hp).
  eapply (wp_rested_step _ _ fin D N R k); [exact Hr|done| |by apply wp_check_timeouts_rested].
  intros d. eapply (kept_alive_says isn D fin); apply Hr || done.
Qed.

(** its clock *)
Lemma wp_reader_clock_step fin D N R k i sent ms s :
  reads_on fin D R k i s -> N - 1024 <= k <= N ->
  wp (fun _ => False) (mod_ctx (fun c => c <| current_ms := ms |>)) (fun _ => rx_step fin D N R i sent s) s.
Proof.
  intros Hr HN. destruct s as [c y].
  apply (wp_rested_step _ (fun _ => False) fin D N R k); [done..|]. wp_steps. apply rested_ms.
Qed.

(** ** Any number of steps *)

(** [i] more steps are within the counters' range *)
Definition counts (i : Z) : Prop :=
  1 <= n0 /\ n0 + 6 * i < 2147483648 /\ m0 + i <= INT_MAX /\ r0 + i <= INT_MAX.

(** what a step, or several, may end in *)
Definition goes_on (i : Z) (x : Net + fault) : Prop :=
  match x with
  | inl w => exists fin D R k, session fin D R k i w
  | inr f => incoming_fault f
  end.

Lemma run_tx_session {A} (m : M St A) bs fin D R k i w (F : fault -> Prop) :
  session fin D R k i w -> (forall f, F f -> incoming_fault f) ->
  wp F m (fun a s' => tx_step fin D (total w) R i (tx w) (bs a) s') (tx w) ->
  goes_on (i + 1) (run_tx m bs w).
Proof.
  intros Hs HF. unfold wp, run_tx. destruct (m (tx w)) as [a s'|f s']; [|by apply HF].
  intros (fin' & D' & Hw & Hm). exists fin', D', R, k. rewrite (sn_ack _ _ _ _ _ _ Hs) in Hm.
  by apply (session_tx fin fin' D).
Qed.

Lemma run_rx_session {A} (m : M St A) fin D R k i w :
  session fin D R k i w ->
  wp (fun _ => False) m (fun _ => rx_step fin D (total w) R i (final (total w) (sq (me (tx w)))) (rx w)) (rx w) ->
  goes_on (i + 1) (run_rx m w).
Proof.
  intros Hs. unfold wp, run_rx. destruct (m (rx w)) as [a s'|f s']; [|done].
  intros Hx. destruct (session_rx fin D R k i w s' Hs Hx) as (R' & k' & Hs'). by exists fin, D, R', k'.
Qed.

Lemma session_idle fin D R k i w : session fin D R k i w -> goes_on (i + 1) (inl w).
Proof.
  intros []. exists fin, D, R, k. split; try done; [by apply writes_step|by apply reads_on_step].
Qed.

Lemma fresh_sent w l j d : fresh w l j = Some d -> exists t, (t, d) ∈ l /\ total w <= t + lifetime.
Proof.
  unfold fresh. destruct (l !! j) as [[t d']|] eqn:Hj; [|done]. cbn.
  destruct (Z.leb_spec (total w - t) lifetime); [|done]. intros [= ->]. exists t.
  split; [by eapply list_elem_of_lookup_2|lia].
Qed.

Lemma act_session a fin D R k i w :
  session fin D R k i w -> 0 <= i -> counts (i + 1) -> goes_on (i + 1) (act a w).
Proof.
  intros Hs Hi (Hc1 & Hc2 & Hc3 & Hc4). pose proof Hs as [Hw Hr Ha _ _ _ Hd Hak].
  destruct (session_window fin D R k i w Hs) as (Hk & Hwin & _).
  destruct a as [iovs| |how|ms| |j| | |ms| |j]; cbn [act].
  - destruct (is_state (state (me (tx w))) CS_CONNECTED) eqn:Hst; [|by eapply session_idle].
    apply bool_decide_eq_true in Hst. case_bool_decide as Hne; [by eapply session_idle|].
    eapply run_tx_session; [done| |apply wp_write_step]; (done || lia).
  - destruct (closable _) eqn:Hcl; [|by eapply session_idle].
    eapply run_tx_session; [done| |apply wp_close_step]; (done || lia).
  - destruct (closable _) eqn:Hcl; [|by eapply session_idle].
    eapply run_tx_session; [done| |apply wp_shutdown_step]; (done || lia).
  - eapply run_tx_session; [done| |by apply wp_clock_step]; done.
  - eapply run_tx_session; [done| |apply wp_timer_step]; (done || lia).
  - destruct (fresh w (to_rx w) j) as [d|] eqn:Hf; [|by eapply session_idle].
    destruct (fresh_sent w _ j d Hf) as (t & Hin & Ht).
    eapply run_rx_session; [done|]. apply (wp_deliver_step fin D _ R k i _ t); auto; [apply Hw|lia..].
  - eapply run_rx_session, (wp_acknowledge_step fin D _ R k); [done..|lia].
  - eapply run_rx_session, (wp_drained_step fin D _ R k); [done..|lia].
  - eapply run_rx_session, (wp_reader_clock_step fin D _ R k); [done..|lia].
  - eapply run_rx_session, (wp_reader_timer_step fin D _ R k); [done..|lia].
  - destruct (fresh w (to_tx w) j) as [d|] eqn:Hf; [|by eapply session_idle].
    destruct (fresh_sent w _ j d Hf) as (t & Hin & Ht). destruct (Hak t d Hin).
    eapply run_tx_session; [done| |apply (wp_return_step fin D _ R i t)]; (done || lia).
Qed.

Lemma run_session l fin D R k i w :
  session fin D R k i w -> 0 <= i -> counts (i + Z.of_nat (length l)) ->
  goes_on (i + Z.of_nat (length l)) (run l w).
Proof.
  revert fin D R k i w. induction l as [|a l IH]; intros fin D R k i w Hs Hi Hc.
  { cbn [length run]. rewrite Z.add_0_r. by exists fin, D, R, k. }
  cbn [length run] in *. rewrite Nat2Z.inj_succ in *.
  pose proof (act_session a fin D R k i w Hs Hi) as Hact. destruct (act a w) as [w'|f].
  - destruct Hact as (fin' & D' & R' & k' & Hs'); [unfold counts in *; lia|].
    replace (i + Z.succ (Z.of_nat (length l))) with (i + 1 + Z.of_nat (length l)) in * by lia.
    apply (IH fin' D' R' k'); [done|lia|done].
  - apply Hact. unfold counts in *. lia.
Qed.

(** what the reader has and what the writer wrote *)
Record delivery (w : Net) (got : list Z) : Prop := {
  dy_reads : reads p0 (trace (st_sys (rx w))) = reads0 ++ got;
  dy_prefix : got `prefix_of` written w;
  dy_all : cur_window_packets (sq (me (tx w))) = 0 -> got = written w;
  dy_end : got_fin_reached (rq (me (rx w))) = true -> fin_sent (me (tx w)) = true /\ got = written w;
  dy_told : fin_sent (me (tx w)) = true -> cur_window_packets (sq (me (tx w))) = 0 ->
    got_fin_reached (rq (me (rx w))) = true;
}.

Lemma session_delivered fin D R k i w : session fin D R k i w -> exists got, delivery w got.
Proof.
  intros Hs. destruct (session_window fin D R k i w Hs) as (Hk & _ & Hn & HR).
  pose proof Hs as [Hw [Hl _ Hrd] _ Hwr _ Hkept _ _]. exists (stream_data D 0 k).
  pose proof (rc_queue _ _ _ _ _ _ (ls_recv _ _ _ _ _ _ _ Hl)) as Hq.
  assert (Hall : cur_window_packets (sq (me (tx w))) = 0 -> k = total w).
  { intros H0. destruct (Z.lt_ge_cases k (total w)) as [Hlt|]; [|lia].
    destruct (Hkept k ltac:(lia)) as [|(p & Hj & _)]; [done|lia]. }
  pose proof (ws_fin _ _ _ _ _ Hw) as Hfin. split; [done| | | |].
  - rewrite Hwr, <- (stream_data_app D 0 k (total w)) by lia. by eexists.
  - intros ->%Hall. by rewrite Hwr.
  - intros Hg. destruct (rc_reached _ _ _ _ _ _ Hq Hg) as [_ ->]. split; [done|].
    rewrite Hwr, (ws_end _ _ _ _ _ Hw _ eq_refl). f_equal. lia.
  - intros Hf H0. rewrite Hf in Hfin. symmetry in Hfin. apply bool_decide_eq_true in Hfin as [M HM].
    pose proof (ws_end _ _ _ _ _ Hw M HM) as EN. pose proof (Hall H0) as Ek.
    apply (ls_eof _ _ _ _ _ _ _ Hl); [|rewrite HM; f_equal; lia].
    apply (rc_noted _ _ _ _ _ _ Hq M HM), HR.
    pose proof (so_count _ _ (cs_sq _ _ (sk_send _ _ _ (ws_ok _ _ _ _ _ Hw)))).
    destruct (rc_last _ _ _ _ _ _ Hq M HM). lia.
Qed.
End Session.
