(* ===== verification/SessionSpec.v ===== *)
(** * A stream survives the network

    What the application at one end reads is what the application at the other end
    wrote, whatever the network between the two ends does: the theorem about the
    sessions of Session.v, and a session with losses evaluated. *)
From S2P Require Import Prelude Wrap Packet Ring Delay DelayAvg Arrays SockAddr Hash Context AckList Socket Frame.
From S2P Require Import MtuSearch Send SendQueue SendInv Flush Streams WriteQueue Reorder Ack Ccontrol Incoming.
From S2P Require Import AckQueue Timeouts Api States Receive TimerInv RecvInv IncomingSafe OneWay Writev SockOps.
From S2P Require Import Demo RecvSpec EndToEnd SackSpec Link Said Session.

(** ** Where a session starts *)

(** two connected sockets: one has sent nothing yet that is not acknowledged, the other
    waits for what it will send *)
Record facing (n m r0 : Z) (s r : St) : Prop := {
  fc_writer : sock_ok n m s;
  fc_open : fin_sent (me s) = false;
  fc_past : past_handshake (state (me s));
  fc_empty : cur_window_packets (sq (me s)) = 0;
  fc_heard : reorder_count (rq (me s)) = 0;
  fc_reader : awaits (seq_nr (sq (me s))) r0 r;
  fc_ack : ack_nr (rq (me s)) = last_sent r;
}.

Section Spec.
Context {E : Env} {HA : GoodApp}.

Lemma facing_session n m r0 s r :
  facing n m r0 s r ->
  session (seq_nr (sq (me s))) n m r0 (this (me r)) (reads (this (me r)) (trace (st_sys r)))
    None (fun _ => []) ∅ 0 0 (start s r).
Proof.
  intros [F1 F2 F3 F4 F5 F6 F7]. pose proof (cs_sq _ _ (sk_send _ _ _ F1)) as Hq.
  split; cbn [tx rx to_rx to_tx total written start]; try done;
    try (intros ? ?; by rewrite ?elem_of_nil); try (by intros ? ?%elem_of_empty).
  - split; try done; rewrite ?F4; try done.
    + by rewrite !Z.add_0_r.
    + rewrite Z.add_0_r, u16_small; [done|apply Hq].
    + intros j p Hj. rewrite F4 in Hj. lia.
    + intros j p Hj. rewrite F4 in Hj. lia.
  - split; [rewrite Z.add_0_r; by apply awaits_listening|done|].
    by rewrite stream_data_refl, app_nil_r.
  - lia.
Qed.

(** C2: a stream survives the network.  Take two connected sockets, the one to write and
    the other to read, and let any sequence of these happen: the writer's application
    calls utp_writev, utp_close or utp_shutdown, the clock of either side moves, the
    timers of either side are checked, the reader sends an acknowledgement, its
    application calls utp_read_drained, and any datagram that either has sent reaches
    the other, in any order, any number of times or never, unless it has outlived 30000
    later packets.  No assertion fails but, possibly, one of the congestion controller,
    and nothing is read out of bounds but, possibly, the byte after a selective
    acknowledgement; what the reader's application has been given is a prefix of what
    utp_writev has accepted; if the writer's send queue is empty, it is all of it: no
    byte is acknowledged that has not arrived.  The end of the stream is reported to the
    reader only after the writer's FIN and with everything delivered, and it has been
    reported when the FIN was queued and the send queue is empty. *)
Theorem stream_survives_network (n m r0 : Z) (s r : St) (l : list action) :
  facing n m r0 s r -> 1 <= n -> n + 6 * Z.of_nat (length l) < 2147483648 ->
  m + Z.of_nat (length l) <= INT_MAX -> r0 + Z.of_nat (length l) <= INT_MAX ->
  match run l (start s r) with
  | inl w => exists got,
      reads (this (me r)) (trace (st_sys (rx w))) = reads (this (me r)) (trace (st_sys r)) ++ got /\
      got `prefix_of` written w /\
      let q := sq (me (tx w)) in let ended := got_fin_reached (rq (me (rx w))) in
      (cur_window_packets q = 0 -> got = written w) /\
      (ended = true -> fin_sent (me (tx w)) = true /\ got = written w) /\
      (fin_sent (me (tx w)) = true -> cur_window_packets q = 0 -> ended = true)
  | inr f => incoming_fault f
  end.
Proof.
  intros Hf Hn H1 H2 H3. pose proof (run_session _ n m r0 _ _ l _ _ _ _ _ _ (facing_session _ _ _ _ _ Hf)
    ltac:(lia) ltac:(unfold counts; lia)) as Hg.
  destruct (run l (start s r)) as [w|f]; [|done]. destruct Hg as (fin & D & R & k & Hs).
  destruct (session_delivered _ _ _ _ _ _ _ _ _ _ _ _ Hs) as (got & []). by exists got.
Qed.
End Spec.

Lemma demo_sock_ok : sock_ok 1 0 demo_st.
Proof.
  assert (Hq : forall i, ring_get (inbuf (rq (me demo_st))) i = None) by apply ring_get_init.
  split; try done; [split; try done; [apply demo_sys_ok|by apply empty_queue_ok]|].
  replace (rq (me demo_st)) with ((rq (me demo_st)) <| ack_nr := ack_nr (rq (me demo_st)) |>) by done.
  apply fresh_safe; [apply ring_init_wf|done|by split|done].
Qed.

Lemma demo_facing : facing 1 0 0 demo_st demo_st.
Proof. split; try done; [apply demo_sock_ok|apply demo_awaits]. Qed.

(** two full packets and a rest are written; the first packet is lost, the second
    acknowledged selectively; the timer sends the first again, the old datagram of the
    second comes once more, and then the rest is acknowledged; after a while the reader
    sends a keep-alive, and what it sends then is heard; at last the connection is closed,
    and the FIN acknowledged *)
Definition demo_iovs : list (list Z) := [replicate 1600 7; replicate 1500 8].
Definition demo_session : list action :=
  [Write demo_iovs; Deliver 0; Acknowledge; Return 0; Clock 20000; Timer; Deliver 0;
   Deliver 1; Acknowledge; Return 0; Deliver 0; Acknowledge; Return 0; Drained;
   Reader_clock 40000; Reader_timer; Return 0; Close; Deliver 0; Return 0].

Lemma stream_survives_network_witness :
  match run demo_session (start demo_st demo_st) with
  | inl w => exists got,
      reads 1 (trace (st_sys (rx w))) = reads 1 (trace (st_sys demo_st)) ++ got /\
      got `prefix_of` written w /\
      let q := sq (me (tx w)) in let ended := got_fin_reached (rq (me (rx w))) in
      (cur_window_packets q = 0 -> got = written w) /\
      (ended = true -> fin_sent (me (tx w)) = true /\ got = written w) /\
      (fin_sent (me (tx w)) = true -> cur_window_packets q = 0 -> ended = true)
  | inr f => incoming_fault f
  end.
Proof.
  apply (stream_survives_network 1 0 0 demo_st demo_st demo_session demo_facing);
    vm_compute; (reflexivity || discriminate).
Defined.

Example stream_survives_network_run :
  match run demo_session (start demo_st demo_st) with
  | inl w => cur_window_packets (sq (me (tx w))) = 0 /\ written w = concat demo_iovs /\
      reads 1 (trace (st_sys (rx w))) = concat demo_iovs /\
      got_fin_reached (rq (me (rx w))) = true /\ state (me (tx w)) = CS_DESTROY
  | inr _ => False
  end.
Proof. vm_compute. repeat split. Qed.
